(** * eslint-plugin-whitespaced: a shallow embedding of the five layout rules

    The rules of [lib/rules/*.js] are translated function by function.  Every
    rule is the closure returned by [create(context)]; here the closed-over
    [sourceCode] and [options] are Section variables, and [context.report]
    is modelled by returning the list of reported diagnostics in order.

    Numbers are [Z] (lines, columns and offsets are small integers, so the
    IEEE arithmetic of the source is exact on them), source text is a list of
    one-byte characters, [null]/[undefined] is [None], and a thrown
    [TypeError]/[RangeError] is the [Throw] branch of [Result]. *)

From Stdlib Require Import ZArith List String Ascii Bool Lia Sorted Permutation.
Import ListNotations.
Open Scope string_scope.
Open Scope list_scope.
Open Scope Z_scope.

(** ** JavaScript values and string primitives *)

Module Js.

Definition text := list ascii.

Definition str (s : string) : text := list_ascii_of_string s.

Inductive Error := TypeError | RangeError.

Inductive Result (A : Type) : Type :=
| Ok (a : A)
| Throw (e : Error).
Arguments Ok {A} a.
Arguments Throw {A} e.

Definition bind {A B} (c : Result A) (k : A -> Result B) : Result B :=
  match c with
  | Ok a => k a
  | Throw e => Throw e
  end.

(** Reading a property of [null] or [undefined] throws a [TypeError]. *)
Definition deref {A} (o : option A) : Result A :=
  match o with
  | Some a => Ok a
  | None => Throw TypeError
  end.

(** [option !== undefined ? option : fallback] *)
Definition orDefault {A} (option : option A) (fallback : A) : A :=
  match option with
  | Some v => v
  | None => fallback
  end.

(** [xs.map(f)] for a callback that may throw. *)
Fixpoint mapM {A B} (f : A -> Result B) (xs : list A) : Result (list B) :=
  match xs with
  | [] => Ok []
  | x :: rest =>
      match f x with
      | Throw e => Throw e
      | Ok y =>
          match mapM f rest with
          | Throw e => Throw e
          | Ok ys => Ok (y :: ys)
          end
      end
  end.

(** [xs.filter(f)] for a callback that may throw. *)
Fixpoint filterM {A} (f : A -> Result bool) (xs : list A) : Result (list A) :=
  match xs with
  | [] => Ok []
  | x :: rest =>
      match f x with
      | Throw e => Throw e
      | Ok keep =>
          match filterM f rest with
          | Throw e => Throw e
          | Ok ys => Ok (if keep then x :: ys else ys)
          end
      end
  end.

(** [a && b] where evaluating [b] may throw. *)
Definition andThen (a : bool) (b : Result bool) : Result bool :=
  if a then b else Ok false.

(** [a || b] where evaluating [b] may throw. *)
Definition orElse (a : bool) (b : Result bool) : Result bool :=
  if a then Ok true else b.

(** [a === b] on strings *)
Fixpoint eqb (a b : text) : bool :=
  match a, b with
  | [], [] => true
  | c :: a', d :: b' => Ascii.eqb c d && eqb a' b'
  | _, _ => false
  end.

(** [xs.length] of an array *)
Definition arrayLength {A} (xs : list A) : Z := Z.of_nat (List.length xs).

(** [s.length] *)
Definition length (s : text) : Z := Z.of_nat (List.length s).

(** Relative index of [String.prototype.slice]: negative counts from the end. *)
Definition relIndex (len x : Z) : Z :=
  if x <? 0 then Z.max (len + x) 0 else Z.min x len.

(** [s.slice(a, b)] *)
Definition slice (s : text) (a b : Z) : text :=
  let len := length s in
  let from := relIndex len a in
  let to := relIndex len b in
  firstn (Z.to_nat (to - from)) (skipn (Z.to_nat from) s).

(** [s.slice(a)] *)
Definition sliceFrom (s : text) (a : Z) : text := slice s a (length s).

(** [s.substring(a, b)]: both ends clamped to [0, length], then ordered. *)
Definition substring (s : text) (a b : Z) : text :=
  let len := length s in
  let a' := Z.max 0 (Z.min a len) in
  let b' := Z.max 0 (Z.min b len) in
  let lo := Z.min a' b' in
  let hi := Z.max a' b' in
  firstn (Z.to_nat (hi - lo)) (skipn (Z.to_nat lo) s).

(** [s.repeat(n)]: a negative count throws a [RangeError]. *)
Definition repeat (s : text) (n : Z) : Result text :=
  if n <? 0 then Throw RangeError
  else Ok (List.concat (List.repeat s (Z.to_nat n))).

Fixpoint startsWith (s prefix : text) : bool :=
  match prefix, s with
  | [], _ => true
  | _ :: _, [] => false
  | p :: prefix', c :: s' => Ascii.eqb p c && startsWith s' prefix'
  end.

(** [s.includes(needle)] *)
Fixpoint includes (s needle : text) : bool :=
  startsWith s needle ||
  match s with
  | [] => false
  | _ :: s' => includes s' needle
  end.

(** [s.indexOf(needle)], counting from [from]; [-1] when absent. *)
Fixpoint indexOfFrom (from : Z) (s needle : text) : Z :=
  if startsWith s needle then from
  else match s with
       | [] => -1
       | _ :: s' => indexOfFrom (from + 1) s' needle
       end.

Definition indexOf (s needle : text) : Z := indexOfFrom 0 s needle.

(** [parts.join(sep)] *)
Fixpoint join (sep : text) (parts : list text) : text :=
  match parts with
  | [] => []
  | [p] => p
  | p :: rest => p ++ sep ++ join sep rest
  end.

Definition code (c : ascii) : Z := Z.of_nat (nat_of_ascii c).

(** The class [\s] on one-byte characters: TAB, LF, VT, FF, CR, space, NBSP. *)
Definition isWhitespace (c : ascii) : bool :=
  let n := code c in
  ((9 <=? n) && (n <=? 13)) || (n =? 32) || (n =? 160).

(** The class [\w]: [A-Za-z0-9_]. *)
Definition isWordChar (c : ascii) : bool :=
  let n := code c in
  ((48 <=? n) && (n <=? 57)) || ((65 <=? n) && (n <=? 90)) ||
  ((97 <=? n) && (n <=? 122)) || (n =? 95).

Definition newline : ascii := "010"%char.

(** [s.replace(/\n\s*/g, ' ')]: every maximal run made of a line feed and
    the white space after it becomes one space.  [inRun] tells that the
    characters just before belong to a run already replaced. *)
Fixpoint collapseNewlines (inRun : bool) (s : text) : text :=
  match s with
  | [] => []
  | c :: s' =>
      if inRun && isWhitespace c then collapseNewlines true s'
      else if Ascii.eqb c newline then " "%char :: collapseNewlines true s'
      else c :: collapseNewlines false s'
  end.

(** [Math.max(...xs)]: [None] stands for [-Infinity], the value on no
    arguments. *)
Definition mathMax (xs : list Z) : option Z :=
  match xs with
  | [] => None
  | x :: rest => Some (fold_left Z.max rest x)
  end.

(** [s.split(sep)] for a separator of one character; [current] is the
    piece read so far. *)
Fixpoint splitFrom (sep : ascii) (current s : text) : list text :=
  match s with
  | [] => [current]
  | c :: s' =>
      if Ascii.eqb c sep then current :: splitFrom sep [] s'
      else splitFrom sep (current ++ [c]) s'
  end.

Definition split (sep : ascii) (s : text) : list text := splitFrom sep [] s.

(** [s.search(/C/)] for a pattern that is one character class: the index
    of the first character of the class, counting from [from]; [-1] when
    there is none. *)
Fixpoint searchFrom (class : ascii -> bool) (from : Z) (s : text) : Z :=
  match s with
  | [] => -1
  | c :: s' => if class c then from else searchFrom class (from + 1) s'
  end.

Definition search (class : ascii -> bool) (s : text) : Z :=
  searchFrom class 0 s.

(** The class [\S]. *)
Definition isNonWhitespace (c : ascii) : bool := negb (isWhitespace c).

(** *** Objects used as maps

    An object created by [{}] holds its own properties in creation order
    and inherits those of [Object.prototype]. *)

(** The property names every object inherits from [Object.prototype];
    the value found under each of them is a function or an object, hence
    truthy, and none of them has a [push] method. *)
Definition objectPrototypeKeys : list string :=
  [ "constructor"; "__defineGetter__"; "__defineSetter__"; "hasOwnProperty";
    "__lookupGetter__"; "__lookupSetter__"; "isPrototypeOf";
    "propertyIsEnumerable"; "toString"; "valueOf"; "__proto__";
    "toLocaleString" ].

Definition inheritedFromObjectPrototype (key : string) : bool :=
  existsb (String.eqb key) objectPrototypeKeys.

(** The own properties of an object, in creation order. *)
Definition Object (V : Type) : Type := list (string * V).

Fixpoint ownProperty {V} (key : string) (o : Object V) : option V :=
  match o with
  | [] => None
  | (k, v) :: rest => if String.eqb k key then Some v else ownProperty key rest
  end.

(** [o[key] = f(o[key])] on an own property. *)
Fixpoint updateProperty {V} (key : string) (f : V -> V) (o : Object V)
  : Object V :=
  match o with
  | [] => []
  | (k, v) :: rest =>
      if String.eqb k key then (k, f v) :: rest
      else (k, v) :: updateProperty key f rest
  end.

Definition digitValue (c : ascii) : option Z :=
  let n := code c in
  if (48 <=? n) && (n <=? 57) then Some (n - 48) else None.

Fixpoint digitsValue (acc : Z) (s : string) : option Z :=
  match s with
  | EmptyString => Some acc
  | String c rest =>
      match digitValue c with
      | Some d => digitsValue (10 * acc + d) rest
      | None => None
      end
  end.

(** The array index a property name stands for: a canonical decimal
    numeral below [2^32 - 1]. *)
Definition arrayIndex (key : string) : option Z :=
  match key with
  | EmptyString => None
  | String "0" (String _ _) => None
  | _ =>
      match digitsValue 0 key with
      | Some n => if n <? 4294967295 then Some n else None
      | None => None
      end
  end.

Fixpoint insertByIndex {V} (i : Z) (entry : string * V)
  (sorted : list (Z * (string * V))) : list (Z * (string * V)) :=
  match sorted with
  | [] => [(i, entry)]
  | (j, e) :: rest =>
      if i <? j then (i, entry) :: sorted
      else (j, e) :: insertByIndex i entry rest
  end.

(** The order in which [for (key in o)] visits the own properties:
    array indices in ascending order, then the other names in creation
    order. *)
Definition forIn {V} (o : Object V) : list (string * V) :=
  let indexed :=
    fold_left (fun sorted entry =>
                 match arrayIndex (fst entry) with
                 | Some i => insertByIndex i entry sorted
                 | None => sorted
                 end) o [] in
  let named :=
    List.filter (fun entry => match arrayIndex (fst entry) with
                              | Some _ => false
                              | None => true
                              end) o in
  map snd indexed ++ named.

End Js.

Declare Scope js_scope.
Notation "x <- c ;; k" := (Js.bind c (fun x => k))
  (at level 61, c at next level, right associativity) : js_scope.
Open Scope js_scope.

(** ** Regular expressions, as far as [RegExp.prototype.test] needs them *)

Module Regex.

Inductive regex : Type :=
| Never
| Empty
| Class (p : ascii -> bool)
| Seq (r s : regex)
| Alt (r s : regex)
| Star (r : regex).

Definition Chr (c : ascii) : regex := Class (Ascii.eqb c).

Definition Plus (r : regex) : regex := Seq r (Star r).

Fixpoint Lit (s : Js.text) : regex :=
  match s with
  | [] => Empty
  | c :: s' => Seq (Chr c) (Lit s')
  end.

Fixpoint nullable (r : regex) : bool :=
  match r with
  | Never => false
  | Empty => true
  | Class _ => false
  | Seq r s => nullable r && nullable s
  | Alt r s => nullable r || nullable s
  | Star _ => true
  end.

Fixpoint derive (c : ascii) (r : regex) : regex :=
  match r with
  | Never => Never
  | Empty => Never
  | Class p => if p c then Empty else Never
  | Seq r s =>
      if nullable r then Alt (Seq (derive c r) s) (derive c s)
      else Seq (derive c r) s
  | Alt r s => Alt (derive c r) (derive c s)
  | Star r => Seq (derive c r) (Star r)
  end.

(** Some prefix of [s] matches [r]. *)
Fixpoint matchesPrefix (r : regex) (s : Js.text) : bool :=
  nullable r ||
  match s with
  | [] => false
  | c :: s' => matchesPrefix (derive c r) s'
  end.

(** [r.test(s)] for a pattern without flags or anchors: a match starts at
    some position of [s]. *)
Fixpoint test (r : regex) (s : Js.text) : bool :=
  matchesPrefix r s ||
  match s with
  | [] => false
  | _ :: s' => test r s'
  end.

(** The words of the language of a pattern. *)
Inductive Matches : regex -> Js.text -> Prop :=
| MEmpty : Matches Empty []
| MClass p c : p c = true -> Matches (Class p) [c]
| MSeq r s u v : Matches r u -> Matches s v -> Matches (Seq r s) (u ++ v)
| MAltL r s u : Matches r u -> Matches (Alt r s) u
| MAltR r s u : Matches s u -> Matches (Alt r s) u
| MStarNil r : Matches (Star r) []
| MStarCons r u v :
    Matches r u -> Matches (Star r) v -> Matches (Star r) (u ++ v).

End Regex.

(** ** The host: positions, tokens, the syntax tree and [SourceCode]

    ESLint supplies these.  The queries below follow its documented
    behaviour on a token list sorted by offset; the rules only ever call
    them through [sourceCode]. *)

Module ESLint.

Record Position := mkPosition { line : Z; column : Z }.

Record SourceLocation := mkLoc { start : Position; end_ : Position }.

(** Anything with [range] and [loc]: nodes, tokens and comments alike. *)
Class Located (A : Type) := {
  range : A -> Z * Z;
  loc : A -> SourceLocation
}.

(** A token or a comment; comments have type ["Block"], ["Line"] or
    ["Shebang"]. *)
Record Token := mkToken {
  tok_type : string;
  value : Js.text;
  tok_range : Z * Z;
  tok_loc : SourceLocation
}.

#[global] Instance Located_Token : Located Token :=
  {| range := tok_range; loc := tok_loc |}.

Definition isCommentToken (t : Token) : bool :=
  String.eqb (tok_type t) "Block" || String.eqb (tok_type t) "Line" ||
  String.eqb (tok_type t) "Shebang".

(** [node.parent], as far as the rules read it: its [type], and its
    [body] when that is an array, given by the identities of the children
    ([None] when the parent has no [body] or its [body] is a single node). *)
Record ParentView := mkParent {
  parent_type : string;
  parent_body : option (list nat)
}.

(** The part of a node every rule may read.  [node_id] stands for the identity
    of the JavaScript object ([===]). *)
Record Node := mkNode {
  node_id : nat;
  type : string;
  node_range : Z * Z;
  node_loc : SourceLocation;
  parent : option ParentView
}.

#[global] Instance Located_Node : Located Node :=
  {| range := node_range; loc := node_loc |}.

(** The tree as the traverser walks it. *)
#[warnings="-register-all"]
Inductive Ast : Type :=
| AstNode (node : Node) (children : list Ast).

Record SourceCode := mkSourceCode {
  text : Js.text;
  tokensAndComments : list Token;
  ast : Ast
}.

(** The options object of the token queries. *)
Record TokenOptions := mkTokenOptions {
  includeComments : bool;
  filter : Token -> bool
}.

Definition defaultOptions : TokenOptions :=
  {| includeComments := false; filter := fun _ => true |}.

Definition withComments (b : bool) : TokenOptions :=
  {| includeComments := b; filter := fun _ => true |}.

Definition withFilter (f : Token -> bool) : TokenOptions :=
  {| includeComments := false; filter := f |}.

Definition selected (o : TokenOptions) (t : Token) : bool :=
  (includeComments o || negb (isCommentToken t)) && filter o t.

Section Queries.

Variable sourceCode : SourceCode.

(** [sourceCode.getText()] *)
Definition getText : Js.text := text sourceCode.

(** [sourceCode.getText(node)] *)
Definition getTextOf {A} `{Located A} (x : A) : Js.text :=
  Js.slice (text sourceCode) (fst (range x)) (snd (range x)).

(** [sourceCode.getTokenBefore(x, options)]: the last selected token that
    ends at or before the start of [x]. *)
Definition getTokenBefore {A} `{Located A} (x : A) (o : TokenOptions)
  : option Token :=
  find (fun t => (snd (range t) <=? fst (range x)) && selected o t)
       (rev (tokensAndComments sourceCode)).

(** [sourceCode.getTokenAfter(x, options)]: the first selected token that
    starts at or after the end of [x]. *)
Definition getTokenAfter {A} `{Located A} (x : A) (o : TokenOptions)
  : option Token :=
  find (fun t => (snd (range x) <=? fst (range t)) && selected o t)
       (tokensAndComments sourceCode).

Definition inside {A} `{Located A} (x : A) (t : Token) : bool :=
  (fst (range x) <=? fst (range t)) && (snd (range t) <=? snd (range x)).

(** [sourceCode.getFirstToken(node)] *)
Definition getFirstToken {A} `{Located A} (x : A) : option Token :=
  find (fun t => inside x t && selected defaultOptions t)
       (tokensAndComments sourceCode).

(** [sourceCode.getLastToken(node)] *)
Definition getLastToken {A} `{Located A} (x : A) : option Token :=
  find (fun t => inside x t && selected defaultOptions t)
       (rev (tokensAndComments sourceCode)).

Definition containsIndex (n : Node) (index : Z) : bool :=
  (fst (range n) <=? index) && (index <? snd (range n)).

(** The traversal of [getNodeByRangeIndex]: a node that does not contain
    the index is skipped with its subtree; one that does becomes the result
    and its children are entered in order; leaving the result stops the
    walk. *)
Fixpoint deepestNode (index : Z) (t : Ast) : option Node :=
  match t with
  | AstNode n children =>
      if containsIndex n index then
        let fix firstIn (cs : list Ast) : option Node :=
          match cs with
          | [] => None
          | c :: cs' =>
              match deepestNode index c with
              | Some r => Some r
              | None => firstIn cs'
              end
          end in
        match firstIn children with
        | Some r => Some r
        | None => Some n
        end
      else None
  end.

(** [sourceCode.getNodeByRangeIndex(index)] *)
Definition getNodeByRangeIndex (index : Z) : option Node :=
  deepestNode index (ast sourceCode).

(** The comments at the head of [ts]. *)
Fixpoint leadingComments (ts : list Token) : list Token :=
  match ts with
  | [] => []
  | t :: rest => if isCommentToken t then t :: leadingComments rest else []
  end.

(** [sourceCode.getCommentsBefore(x)]: going back from the start of [x],
    the comments met before the first token that is not a comment, in
    source order. *)
Definition getCommentsBefore {A} `{Located A} (x : A) : list Token :=
  rev (leadingComments
         (List.filter (fun t => snd (range t) <=? fst (range x))
            (rev (tokensAndComments sourceCode)))).

End Queries.

(** *** Fixes and diagnostics *)

(** The edit a fixer method returns. *)
Record Fix := mkFix { fix_range : Z * Z; fix_text : Js.text }.

Definition replaceTextRange (r : Z * Z) (t : Js.text) : Fix :=
  {| fix_range := r; fix_text := t |}.

Definition replaceText {A} `{Located A} (x : A) (t : Js.text) : Fix :=
  replaceTextRange (range x) t.

Definition insertTextAfter {A} `{Located A} (x : A) (t : Js.text) : Fix :=
  replaceTextRange (snd (range x), snd (range x)) t.

Definition removeRange (r : Z * Z) : Fix := replaceTextRange r [].

(** What calling the [fix] callback of a report yields. *)
Inductive FixResult :=
| Fixed (f : Fix)
| NoEdit
| FixThrows (e : Js.Error).

Definition fixOf (r : Js.Result Fix) : FixResult :=
  match r with
  | Js.Ok f => Fixed f
  | Js.Throw e => FixThrows e
  end.

(** A value interpolated into a message. *)
Inductive Datum := DNum (n : Z) | DStr (s : string) | DText (t : Js.text).

(** The argument of [context.report]; [fix_] is [None] when the report has
    no [fix] property.  The callback reads only the immutable source, so
    its result is computed with the report. *)
Record Report := mkReport {
  node : Node;
  messageId : string;
  data : list (string * Datum);
  fix_ : option FixResult
}.

(** How the host applies an edit to the text. *)
Definition applyFix (src : Js.text) (f : Fix) : Js.text :=
  Js.slice src 0 (fst (fix_range f)) ++ fix_text f ++
  Js.sliceFrom src (snd (fix_range f)).

(** *** Building small sources by hand *)

(** Line (from 1) and column (from 0) of an offset of the text. *)
Fixpoint positionFrom (ln col : Z) (s : Js.text) (offset : nat) : Position :=
  match offset, s with
  | O, _ => mkPosition ln col
  | S _, [] => mkPosition ln col
  | S k, c :: s' =>
      if Ascii.eqb c Js.newline then positionFrom (ln + 1) 0 s' k
      else positionFrom ln (col + 1) s' k
  end.

Definition positionAt (s : Js.text) (offset : Z) : Position :=
  positionFrom 1 0 s (Z.to_nat offset).

Definition locAt (s : Js.text) (r : Z * Z) : SourceLocation :=
  mkLoc (positionAt s (fst r)) (positionAt s (snd r)).

(** The token of type [ty] that covers [from, to) of the text. *)
Definition tokenAt (s : Js.text) (ty : string) (from to : Z) : Token :=
  mkToken ty (Js.slice s from to) (from, to) (locAt s (from, to)).

(** The node of type [ty] that covers [from, to) of the text. *)
Definition nodeAt (s : Js.text) (i : nat) (ty : string) (from to : Z)
  (p : option ParentView) : Node :=
  mkNode i ty (from, to) (locAt s (from, to)) p.

End ESLint.

(** ** lib/rules/consistent-line-spacing.js *)

Module ConsistentLineSpacing.
Import ESLint.

Record Options := mkOptions {
  opt_beforeImports : option Z;
  opt_afterImports : option Z;
  opt_beforeExports : option Z;
  opt_afterExports : option Z;
  opt_beforeClass : option Z;
  opt_afterClass : option Z;
  opt_beforeFunction : option Z;
  opt_afterFunction : option Z;
  opt_beforeComment : option Z;
  opt_ignoreTopLevelCode : option bool;
  opt_skipImportGroups : option bool
}.

(** [context.options[0] || {}] when no options are given. *)
Definition noOptions : Options :=
  mkOptions None None None None None None None None None None None.

Section Rule.

Variable sourceCode : SourceCode.
Variable options : Options.

Definition beforeImports : Z := Js.orDefault (opt_beforeImports options) 1.
Definition afterImports : Z := Js.orDefault (opt_afterImports options) 1.
Definition beforeExports : Z := Js.orDefault (opt_beforeExports options) 1.
Definition afterExports : Z := Js.orDefault (opt_afterExports options) 1.
Definition beforeClass : Z := Js.orDefault (opt_beforeClass options) 2.
Definition afterClass : Z := Js.orDefault (opt_afterClass options) 2.
Definition beforeFunction : Z := Js.orDefault (opt_beforeFunction options) 2.
Definition afterFunction : Z := Js.orDefault (opt_afterFunction options) 2.
Definition beforeComment : Z := Js.orDefault (opt_beforeComment options) 1.
Definition ignoreTopLevelCode : bool :=
  Js.orDefault (opt_ignoreTopLevelCode options) false.
Definition skipImportGroups : bool :=
  Js.orDefault (opt_skipImportGroups options) true.

Definition getBlankLinesBetween {A B} `{Located A} `{Located B}
  (node1 : A) (node2 : B) : Z :=
  let node1End := line (end_ (loc node1)) in
  let node2Start := line (start (loc node2)) in
  node2Start - node1End - 1.

Definition getNextNonCommentToken (node : Node) : option Token :=
  getTokenAfter sourceCode node (withComments false).

Definition getPrevNonCommentToken (node : Node) : option Token :=
  getTokenBefore sourceCode node (withComments false).

Definition isFirstInParent (node : Node) : bool :=
  match parent node with
  | None => true
  | Some p =>
      match parent_body p with
      | None => true
      | Some [] => true
      | Some (first :: _) => Nat.eqb first (node_id node)
      end
  end.

Definition isLastInParent (node : Node) : bool :=
  match parent node with
  | None => true
  | Some p =>
      match parent_body p with
      | None => true
      | Some [] => true
      | Some body => Nat.eqb (List.last body O) (node_id node)
      end
  end.

Definition isTopLevel (node : Node) : bool :=
  match parent node with
  | None => false
  | Some p => String.eqb (parent_type p) "Program"
  end.

Definition isImport (node : Node) : bool :=
  String.eqb (type node) "ImportDeclaration".

Definition isExport (node : Node) : bool :=
  String.eqb (type node) "ExportNamedDeclaration" ||
  String.eqb (type node) "ExportDefaultDeclaration" ||
  String.eqb (type node) "ExportAllDeclaration".

Definition hasCommentBefore (node : Node) : bool :=
  match getTokenBefore sourceCode node (withComments true) with
  | None => false
  | Some beforeToken =>
      String.eqb (tok_type beforeToken) "Block" ||
      String.eqb (tok_type beforeToken) "Line"
  end.

Definition lineText (requiredLines : Z) : string :=
  if requiredLines =? 1 then "line" else "lines".

Definition checkLinesBefore (node : Node) (requiredLines : Z)
  (nodeType : string) : list Report :=
  if isFirstInParent node && (ignoreTopLevelCode && isTopLevel node) then []
  else
    let prevToken := getPrevNonCommentToken node in
    let prevNode :=
      match prevToken with
      | Some t => getNodeByRangeIndex sourceCode (fst (range t))
      | None => None
      end in
    if skipImportGroups && isImport node &&
       match prevNode with Some p => isImport p | None => false end
    then []
    else
      match getTokenBefore sourceCode node (withComments true) with
      | None => []
      | Some prevTokenWithComments =>
          let blankLines :=
            line (start (loc node)) -
            line (end_ (loc prevTokenWithComments)) - 1 in
          if negb (blankLines =? requiredLines) then
            [ {| node := node;
                 messageId := "missingLinesBefore";
                 data := [ ("expected", DNum requiredLines);
                           ("actual", DNum blankLines);
                           ("nodeType", DStr nodeType);
                           ("lineText", DStr (lineText requiredLines)) ];
                 fix_ := Some
                   match getTokenBefore sourceCode node (withComments true) with
                   | None => NoEdit
                   | Some tokenBefore =>
                       fixOf (
                         let range := (snd (range tokenBefore),
                                       fst (range node)) in
                         newLines <- Js.repeat [Js.newline]
                                       (requiredLines + 1) ;;
                         Js.Ok (replaceTextRange range newLines))
                   end |} ]
          else []
      end.

Definition checkLinesAfter (node : Node) (requiredLines : Z)
  (nodeType : string) : list Report :=
  if isLastInParent node && (ignoreTopLevelCode && isTopLevel node) then []
  else
    let nextToken := getNextNonCommentToken node in
    let nextNode :=
      match nextToken with
      | Some t => getNodeByRangeIndex sourceCode (fst (range t))
      | None => None
      end in
    if skipImportGroups && isImport node &&
       match nextNode with Some n => isImport n | None => false end
    then []
    else
      match getTokenAfter sourceCode node (withComments true) with
      | None => []
      | Some nextTokenWithComments =>
          let blankLines :=
            line (start (loc nextTokenWithComments)) -
            line (end_ (loc node)) - 1 in
          if negb (blankLines =? requiredLines) then
            [ {| node := node;
                 messageId := "missingLinesAfter";
                 data := [ ("expected", DNum requiredLines);
                           ("actual", DNum blankLines);
                           ("nodeType", DStr nodeType);
                           ("lineText", DStr (lineText requiredLines)) ];
                 fix_ := Some
                   match getTokenAfter sourceCode node (withComments true) with
                   | None => NoEdit
                   | Some tokenAfter =>
                       fixOf (
                         let range := (snd (range node),
                                       fst (range tokenAfter)) in
                         newLines <- Js.repeat [Js.newline]
                                       (requiredLines + 1) ;;
                         Js.Ok (replaceTextRange range newLines))
                   end |} ]
          else []
      end.

(** The listeners of the rule, selected by the type of the visited node. *)
Definition visit (node : Node) : list Report :=
  if String.eqb (type node) "ImportDeclaration" then
    checkLinesBefore node beforeImports "import declaration" ++
    checkLinesAfter node afterImports "import declaration"
  else if isExport node then
    checkLinesBefore node beforeExports "export declaration" ++
    checkLinesAfter node afterExports "export declaration"
  else if String.eqb (type node) "ClassDeclaration" then
    checkLinesBefore node beforeClass "class declaration" ++
    checkLinesAfter node afterClass "class declaration"
  else if String.eqb (type node) "FunctionDeclaration" then
    checkLinesBefore node beforeFunction "function declaration" ++
    checkLinesAfter node afterFunction "function declaration"
  else if String.eqb (type node) "BlockComment" then
    if column (start (loc node)) =? 0 then
      checkLinesBefore node beforeComment "block comment"
    else []
  else [].

End Rule.

End ConsistentLineSpacing.

(** ** lib/rules/block-padding.js *)

Module BlockPadding.
Import ESLint.

Record Options := mkOptions {
  opt_rootBlockPadding : option Z;
  opt_nestedBlockPadding : option Z;
  opt_enforceBeginningPadding : option bool;
  opt_enforceEndPadding : option bool;
  opt_docstringPadding : option Z;
  opt_treatCommentsAsDocstrings : option bool
}.

Definition noOptions : Options := mkOptions None None None None None None.

(** [/\s*@\w+|param|return|description|example|author/] *)
Definition docstringPattern : Regex.regex :=
  Regex.Alt
    (Regex.Seq (Regex.Star (Regex.Class Js.isWhitespace))
       (Regex.Seq (Regex.Chr "@") (Regex.Plus (Regex.Class Js.isWordChar))))
    (Regex.Alt (Regex.Lit (Js.str "param"))
       (Regex.Alt (Regex.Lit (Js.str "return"))
          (Regex.Alt (Regex.Lit (Js.str "description"))
             (Regex.Alt (Regex.Lit (Js.str "example"))
                (Regex.Lit (Js.str "author")))))).

Definition isDocstring (comment : Token) : bool :=
  if String.eqb (tok_type comment) "Block" then
    let commentText := value comment in
    let isMultiline := Js.includes commentText [Js.newline] in
    let hasDocstringPatterns := Regex.test docstringPattern commentText in
    isMultiline || hasDocstringPatterns
  else false.

Section Rule.

Variable sourceCode : SourceCode.
Variable options : Options.

Definition rootBlockPadding : Z :=
  Js.orDefault (opt_rootBlockPadding options) 2.
Definition nestedBlockPadding : Z :=
  Js.orDefault (opt_nestedBlockPadding options) 1.
Definition enforceBeginningPadding : bool :=
  Js.orDefault (opt_enforceBeginningPadding options) false.
Definition enforceEndPadding : bool :=
  Js.orDefault (opt_enforceEndPadding options) false.
Definition docstringPadding : Z :=
  Js.orDefault (opt_docstringPadding options) 1.
Definition treatCommentsAsDocstrings : bool :=
  Js.orDefault (opt_treatCommentsAsDocstrings options) true.

Definition getBlankLinesBetween {A B} `{Located A} `{Located B}
  (node1 : A) (node2 : B) : Z :=
  let node1End := line (end_ (loc node1)) in
  let node2Start := line (start (loc node2)) in
  node2Start - node1End - 1.

Definition lineText (required : Z) : string :=
  if required =? 1 then "line" else "lines".

(** The loop [for (i = 0; i < nodes.length - 1; i++)] over [nodes[i]] and
    [nodes[i + 1]].  The [Program] listener calls it on [node.body]. *)
Fixpoint checkRootLevelBlankLines (nodes : list Node) : list Report :=
  match nodes with
  | currentNode :: ((nextNode :: _) as rest) =>
      let blankLines := getBlankLinesBetween currentNode nextNode in
      (if negb (blankLines =? rootBlockPadding) then
         [ {| node := nextNode;
              messageId := "missingPaddingBetweenRootBlocks";
              data := [ ("expected", DNum rootBlockPadding);
                        ("actual", DNum blankLines);
                        ("lineText", DStr (lineText rootBlockPadding)) ];
              fix_ := Some (fixOf (
                let endOfCurrentNode := getLastToken sourceCode currentNode in
                let startOfNextNode := getFirstToken sourceCode nextNode in
                e <- Js.deref endOfCurrentNode ;;
                s <- Js.deref startOfNextNode ;;
                let range := (snd (range e), fst (range s)) in
                newLines <- Js.repeat [Js.newline] (rootBlockPadding + 1) ;;
                Js.Ok (replaceTextRange range newLines))) |} ]
       else []) ++ checkRootLevelBlankLines rest
  | _ => []
  end.

Fixpoint checkNestedBlankLines (bodyNodes : list Node) : list Report :=
  match bodyNodes with
  | currentNode :: ((nextNode :: _) as rest) =>
      let blankLines := getBlankLinesBetween currentNode nextNode in
      (if negb (blankLines =? nestedBlockPadding) then
         [ {| node := nextNode;
              messageId := "missingPaddingBetweenNestedBlocks";
              data := [ ("expected", DNum nestedBlockPadding);
                        ("actual", DNum blankLines);
                        ("lineText", DStr (lineText nestedBlockPadding)) ];
              fix_ := Some (fixOf (
                let endOfCurrentNode := getLastToken sourceCode currentNode in
                let startOfNextNode := getFirstToken sourceCode nextNode in
                e <- Js.deref endOfCurrentNode ;;
                s <- Js.deref startOfNextNode ;;
                let range := (snd (range e), fst (range s)) in
                newLines <- Js.repeat [Js.newline] (nestedBlockPadding + 1) ;;
                Js.Ok (replaceTextRange range newLines))) |} ]
       else []) ++ checkNestedBlankLines rest
  | _ => []
  end.

(** The loop of [getDocstringComments] over the comments from the last
    one backwards; a comment is put in front of those collected after
    it. *)
Fixpoint consecutiveLineCommentsFrom (lastLine : Z) (fromLast : list Token)
  : list Token :=
  match fromLast with
  | [] => []
  | comment :: earlier =>
      if negb (String.eqb (tok_type comment) "Line") then
        consecutiveLineCommentsFrom lastLine earlier
      else if (lastLine =? -1) ||
              (line (end_ (loc comment)) + 1 =? lastLine) then
        consecutiveLineCommentsFrom (line (start (loc comment))) earlier
        ++ [comment]
      else []
  end.

Definition isBlock (comment : Token) : bool :=
  String.eqb (tok_type comment) "Block".

Definition isLine (comment : Token) : bool :=
  String.eqb (tok_type comment) "Line".

Definition getDocstringComments (node : Node) : list Token :=
  let comments := getCommentsBefore sourceCode node in
  match comments with
  | [] => []
  | _ =>
      if existsb isBlock comments then
        match find isBlock (rev comments) with
        | Some lastBlockComment =>
            if isDocstring lastBlockComment then [lastBlockComment] else []
        | None => []
        end
      else if treatCommentsAsDocstrings && existsb isLine comments then
        let consecutiveLineComments :=
          consecutiveLineCommentsFrom (-1) (rev comments) in
        match consecutiveLineComments with
        | _ :: _ :: _ => consecutiveLineComments
        | [only] =>
            if Regex.test docstringPattern (value only)
            then consecutiveLineComments else []
        | [] => []
        end
      else []
  end.

Definition checkDocstringPadding (node : Node) : list Report :=
  let docstringComments := getDocstringComments node in
  match rev docstringComments with
  | [] => []
  | lastComment :: _ =>
      let commentEnd := line (end_ (loc lastComment)) in
      let nodeStart := line (start (loc node)) in
      let blankLines := nodeStart - commentEnd - 1 in
      if negb (blankLines =? docstringPadding) then
        [ {| ESLint.node := node;
             messageId := "missingPaddingAfterDocstring";
             data := [ ("expected", DNum docstringPadding);
                       ("actual", DNum blankLines);
                       ("lineText", DStr (lineText docstringPadding)) ];
             fix_ := Some (fixOf (
               first <- Js.deref (getFirstToken sourceCode node) ;;
               let range := (snd (range lastComment), fst (range first)) in
               newLines <- Js.repeat [Js.newline] (docstringPadding + 1) ;;
               Js.Ok (replaceTextRange range newLines))) |} ]
      else []
  end.

Definition checkBeginningPadding (firstNode : Node) : list Report :=
  if enforceBeginningPadding then
    let startLine := line (start (loc firstNode)) in
    if 1 <? startLine then
      [ {| ESLint.node := firstNode;
           messageId := "missingPaddingAtBeginning";
           data := [];
           fix_ := Some (fixOf (
             first <- Js.deref (getFirstToken sourceCode firstNode) ;;
             let rangeEnd := fst (range first) in
             let sourceText :=
               Js.substring (getText sourceCode) 0 rangeEnd in
             let contentStart := Js.search Js.isNonWhitespace sourceText in
             if negb (contentStart =? -1) then
               Js.Ok (removeRange (0, contentStart))
             else Js.Ok (removeRange (0, rangeEnd)))) |} ]
    else []
  else [].

Definition checkEndPadding (lastNode : Node) : list Report :=
  if enforceEndPadding then
    let sourceText := getText sourceCode in
    let lastNodeEnd := line (end_ (loc lastNode)) in
    let totalLines := Js.arrayLength (Js.split Js.newline sourceText) in
    let blankLinesAtEnd := totalLines - lastNodeEnd in
    if negb (blankLinesAtEnd =? rootBlockPadding) then
      [ {| ESLint.node := lastNode;
           messageId := "missingPaddingAtEnd";
           data := [ ("expected", DNum rootBlockPadding);
                     ("actual", DNum blankLinesAtEnd);
                     ("lineText", DStr (lineText rootBlockPadding)) ];
           fix_ := Some (fixOf (
             endOfLastNode <- Js.deref (getLastToken sourceCode lastNode) ;;
             let end_ := Js.length (getText sourceCode) in
             newLines <- Js.repeat [Js.newline] rootBlockPadding ;;
             Js.Ok (replaceTextRange (snd (range endOfLastNode), end_)
                      newLines))) |} ]
    else []
  else [].

(** The listeners, each on the children its node carries. *)

Definition Program (body : list Node) : list Report :=
  match body with
  | [] => []
  | first :: _ =>
      checkBeginningPadding first ++
      checkEndPadding (List.last body first) ++
      checkRootLevelBlankLines body ++
      flat_map checkDocstringPadding body
  end.

Definition BlockStatement (body : list Node) : list Report :=
  if 1 <? Js.arrayLength body then
    checkNestedBlankLines body ++ flat_map checkDocstringPadding body
  else [].

Definition SwitchStatement (cases : list Node) : list Report :=
  if 1 <? Js.arrayLength cases then checkNestedBlankLines cases else [].

Definition ClassBody (body : list Node) : list Report :=
  if 1 <? Js.arrayLength body then
    checkNestedBlankLines body ++ flat_map checkDocstringPadding body
  else [].

Definition FunctionDeclaration (node : Node) : list Report :=
  checkDocstringPadding node.

Definition ClassDeclaration (node : Node) : list Report :=
  checkDocstringPadding node.

Definition MethodDefinition (node : Node) : list Report :=
  checkDocstringPadding node.

Definition ArrowFunctionExpression (node : Node)
  : Js.Result (list Report) :=
  p <- Js.deref (parent node) ;;
  if String.eqb (parent_type p) "VariableDeclarator"
  then Js.Ok (checkDocstringPadding node)
  else Js.Ok [].

End Rule.

End BlockPadding.

(** ** lib/rules/class-property-grouping.js *)

Module ClassPropertyGrouping.
Import ESLint.

(** A group descriptor.  The schema requires only [name] and [order], so
    [types] and [matches] may be missing. *)
Record Group := mkGroup {
  name : string;
  types : option (list string);
  matches : option (list string);
  order : Z
}.

(** [node.key] of a class member, as [getMemberName] reads it; the value
    of a literal key is kept as the string [String(value)] yields. *)
Inductive Key :=
| Identifier (name : string)
| Literal (value : string)
| OtherKey.

Record Member := mkMember {
  member_node : Node;
  kind : string;
  static : bool;
  key : Key
}.

Record Options := mkOptions {
  opt_groups : option (list Group);
  opt_paddingBetweenGroups : option Z;
  opt_enforceAlphabeticalSorting : option bool
}.

Definition noOptions : Options := mkOptions None None None.

Definition defaultGroups : list Group :=
  [ mkGroup "static-properties" (Some ["ClassProperty"]) (Some ["static"]) 0;
    mkGroup "static-methods" (Some ["MethodDefinition"]) (Some ["static"]) 1;
    mkGroup "instance-properties" (Some ["ClassProperty"]) (Some []) 2;
    mkGroup "constructor" (Some ["MethodDefinition"]) (Some ["constructor"]) 3;
    mkGroup "instance-methods" (Some ["MethodDefinition"]) (Some []) 4 ].

(** [array.includes(x)] on a property that may be [undefined]. *)
Definition arrayIncludes (array : option (list string)) (x : string)
  : Js.Result bool :=
  a <- Js.deref array ;;
  Js.Ok (existsb (String.eqb x) a).

Section Rule.

Variable options : Options.

(** [options.groups || [...]] *)
Definition groups : list Group :=
  match opt_groups options with
  | Some gs => gs
  | None => defaultGroups
  end.

Definition paddingBetweenGroups : Z :=
  Js.orDefault (opt_paddingBetweenGroups options) 1.
Definition enforceAlphabeticalSorting : bool :=
  Js.orDefault (opt_enforceAlphabeticalSorting options) false.

(** The body of [for (const group of groups)] in [getMemberGroup]. *)
Fixpoint firstMatchingGroup (node : Member) (nodeType : string)
  (gs : list Group) : Js.Result (option Group) :=
  match gs with
  | [] => Js.Ok None
  | group :: rest =>
      inTypes <- arrayIncludes (types group) nodeType ;;
      if negb inTypes then firstMatchingGroup node nodeType rest
      else if String.eqb nodeType "MethodDefinition" then
        let isConstructor := String.eqb (kind node) "constructor" in
        let isStatic := static node in
        c <- Js.andThen isConstructor
               (arrayIncludes (matches group) "constructor") ;;
        if c then Js.Ok (Some group)
        else
          s <- Js.andThen isStatic (arrayIncludes (matches group) "static") ;;
          if s then Js.Ok (Some group)
          else
            p <- Js.andThen (negb isStatic && negb isConstructor)
                   (hasStatic <- arrayIncludes (matches group) "static" ;;
                    Js.andThen (negb hasStatic)
                      (hasCtor <- arrayIncludes (matches group)
                                    "constructor" ;;
                       Js.Ok (negb hasCtor))) ;;
            if p then Js.Ok (Some group)
            else firstMatchingGroup node nodeType rest
      else if String.eqb nodeType "ClassProperty" then
        let isStatic := static node in
        s <- Js.andThen isStatic (arrayIncludes (matches group) "static") ;;
        if s then Js.Ok (Some group)
        else
          p <- Js.andThen (negb isStatic)
                 (hasStatic <- arrayIncludes (matches group) "static" ;;
                  Js.Ok (negb hasStatic)) ;;
          if p then Js.Ok (Some group)
          else firstMatchingGroup node nodeType rest
      else firstMatchingGroup node nodeType rest
  end.

Definition getMemberGroup (node : Member) : Js.Result (option Group) :=
  let nodeType := type (member_node node) in
  let nodeType :=
    if String.eqb nodeType "PropertyDefinition" ||
       String.eqb nodeType "TSPropertyDefinition"
    then "ClassProperty" else nodeType in
  firstMatchingGroup node nodeType groups.

Definition getMemberName (node : Member) : string :=
  let t := type (member_node node) in
  if String.eqb t "MethodDefinition" || String.eqb t "ClassProperty" ||
     String.eqb t "PropertyDefinition" || String.eqb t "TSPropertyDefinition"
  then
    match key node with
    | Identifier n => n
    | Literal v => v
    | OtherKey => ""
    end
  else "".

(** The loop of [checkGroupOrder], from the values [lastGroupOrder] and
    [lastGroup] have on entering an iteration. *)
Fixpoint checkGroupOrderFrom (lastGroupOrder : Z) (lastGroup : option Group)
  (members : list (Member * option Group)) : Js.Result (list Report) :=
  match members with
  | [] => Js.Ok []
  | (_, None) :: rest => checkGroupOrderFrom lastGroupOrder lastGroup rest
  | (node, Some group) :: rest =>
      let currentGroupOrder := order group in
      let memberName := getMemberName node in
      here <-
        (if currentGroupOrder <? lastGroupOrder then
           let lastGroupInfo := lastGroup in
           info <- Js.deref lastGroupInfo ;;
           Js.Ok
             [ {| ESLint.node := member_node node;
                  messageId := "wrongGroupOrder";
                  data := [ ("member", DStr memberName);
                            ("expectedGroup", DStr (name info));
                            ("expectedGroupOrder", DNum (order info));
                            ("actualGroup", DStr (name group));
                            ("actualGroupOrder", DNum (order group)) ];
                  fix_ := None |} ]
         else Js.Ok []) ;;
      later <- checkGroupOrderFrom currentGroupOrder (Some group) rest ;;
      Js.Ok (here ++ later)
  end.

Definition checkGroupOrder (members : list (Member * option Group))
  : Js.Result (list Report) :=
  checkGroupOrderFrom (-1) None members.

(** [node.body.map(memberNode => ({ node, group }))] *)
Fixpoint classMembers (body : list Member)
  : Js.Result (list (Member * option Group)) :=
  match body with
  | [] => Js.Ok []
  | memberNode :: rest =>
      group <- getMemberGroup memberNode ;;
      members <- classMembers rest ;;
      Js.Ok ((memberNode, group) :: members)
  end.

(** The [ClassBody] listener up to and including the order check. *)
Definition ClassBody_order (body : list Member) : Js.Result (list Report) :=
  if Js.arrayLength body <=? 1 then Js.Ok []
  else
    members <- classMembers body ;;
    checkGroupOrder members.

Variable sourceCode : SourceCode.

(** [a.localeCompare(b)], which the host evaluates in its locale. *)
Variable localeCompare : string -> string -> Z.

(** The loop that fills [groupedMembers] in [checkAlphabeticalOrder].
    Reading a name that [Object.prototype] defines finds the inherited
    value, so no array is created and the call of [push] throws. *)
Fixpoint groupByName (groupedMembers : Js.Object (list (Member * Group)))
  (members : list (Member * option Group))
  : Js.Result (Js.Object (list (Member * Group))) :=
  match members with
  | [] => Js.Ok groupedMembers
  | (_, None) :: rest => groupByName groupedMembers rest
  | (node, Some group) :: rest =>
      let groupName := name group in
      match Js.ownProperty groupName groupedMembers with
      | Some _ =>
          groupByName
            (Js.updateProperty groupName (fun a => a ++ [(node, group)])
               groupedMembers) rest
      | None =>
          if Js.inheritedFromObjectPrototype groupName
          then Js.Throw Js.TypeError
          else groupByName (groupedMembers ++ [(groupName, [(node, group)])])
                 rest
      end
  end.

Definition truthy (s : string) : bool := negb (String.eqb s "").

(** The loop [for (i = 1; i < groupMembers.length; i++)]. *)
Fixpoint alphabeticalReports (groupMembers : list (Member * Group))
  : list Report :=
  match groupMembers with
  | prev :: ((current :: _) as rest) =>
      let prevNode := fst prev in
      let currentNode := fst current in
      let prevName := getMemberName prevNode in
      let currentName := getMemberName currentNode in
      (if truthy prevName && truthy currentName &&
          (0 <? localeCompare prevName currentName)
       then
         [ {| ESLint.node := member_node currentNode;
              messageId := "wrongAlphabeticalOrder";
              data := [ ("memberA", DStr currentName);
                        ("memberB", DStr prevName) ];
              fix_ := None |} ]
       else []) ++ alphabeticalReports rest
  | _ => []
  end.

Definition checkAlphabeticalOrder (members : list (Member * option Group))
  : Js.Result (list Report) :=
  if negb enforceAlphabeticalSorting then Js.Ok []
  else
    groupedMembers <- groupByName [] members ;;
    Js.Ok (flat_map (fun entry => alphabeticalReports (snd entry))
             (Js.forIn groupedMembers)).

(** The loop [for (i = 1; i < members.length; i++)] of
    [checkGroupPadding]. *)
Fixpoint groupPaddingFrom (members : list (Member * option Group))
  : list Report :=
  match members with
  | prevMember :: ((currentMember :: _) as rest) =>
      match snd prevMember, snd currentMember with
      | Some prevGroup, Some currentGroup =>
          if negb (String.eqb (name prevGroup) (name currentGroup)) then
            let prevNode := member_node (fst prevMember) in
            let currentNode := member_node (fst currentMember) in
            let prevNodeEnd := line (end_ (loc prevNode)) in
            let currentNodeStart := line (start (loc currentNode)) in
            let blankLines := currentNodeStart - prevNodeEnd - 1 in
            if negb (blankLines =? paddingBetweenGroups) then
              [ {| ESLint.node := currentNode;
                   messageId := "incorrectPaddingBetweenGroups";
                   data := [ ("expected", DNum paddingBetweenGroups);
                             ("actual", DNum blankLines);
                             ("lineText",
                              DStr (if paddingBetweenGroups =? 1
                                    then "line" else "lines")) ];
                   fix_ := Some (fixOf (
                     endOfPrevNode <-
                       Js.deref (getLastToken sourceCode prevNode) ;;
                     startOfCurrentNode <-
                       Js.deref (getFirstToken sourceCode currentNode) ;;
                     let range := (snd (range endOfPrevNode),
                                   fst (range startOfCurrentNode)) in
                     newLines <- Js.repeat [Js.newline]
                                   (paddingBetweenGroups + 1) ;;
                     Js.Ok (replaceTextRange range newLines))) |} ]
            else []
          else []
      | _, _ => []
      end ++ groupPaddingFrom rest
  | _ => []
  end.

Definition checkGroupPadding (members : list (Member * option Group))
  : list Report :=
  if (paddingBetweenGroups <=? 0) || (Js.arrayLength members <? 2) then []
  else groupPaddingFrom members.

(** The [ClassBody] listener. *)
Definition ClassBody (body : list Member) : Js.Result (list Report) :=
  if Js.arrayLength body <=? 1 then Js.Ok []
  else
    members <- classMembers body ;;
    order <- checkGroupOrder members ;;
    alphabetical <- checkAlphabeticalOrder members ;;
    Js.Ok (order ++ alphabetical ++ checkGroupPadding members).

End Rule.

End ClassPropertyGrouping.

(** ** lib/rules/aligned-assignments.js *)

Module AlignedAssignments.
Import ESLint.

(** [declarator.id] with its optional type annotation. *)
Record Pattern := mkPattern {
  pattern_node : Node;
  typeAnnotation : option Node
}.

(** A [VariableDeclarator]; [kind] is what [declarator.parent.kind] reads. *)
Record Declarator := mkDeclarator {
  declarator_node : Node;
  id : Pattern;
  init : option Node;
  kind : string
}.

#[global] Instance Located_Declarator : Located Declarator :=
  {| range := fun d => range (declarator_node d);
     loc := fun d => loc (declarator_node d) |}.

Record Statement := mkStatement {
  statement_type : string;
  declarations : list Declarator
}.

Record Options := mkOptions {
  opt_alignComments : option bool;
  opt_alignLiterals : option bool;
  opt_blockSize : option Z;
  opt_ignoreAdjacent : option bool;
  opt_ignoreIfAssignmentsNotInBlock : option bool;
  opt_alignTypes : option bool;
  opt_ignoreTypesMismatch : option bool
}.

Definition noOptions : Options :=
  mkOptions None None None None None None None.

Section Rule.

Variable sourceCode : SourceCode.
Variable options : Options.

Definition alignComments : bool :=
  Js.orDefault (opt_alignComments options) false.
Definition alignLiterals : bool :=
  Js.orDefault (opt_alignLiterals options) false.
Definition blockSize : Z := Js.orDefault (opt_blockSize options) 2.
Definition ignoreAdjacent : bool :=
  Js.orDefault (opt_ignoreAdjacent options) true.
Definition ignoreIfAssignmentsNotInBlock : bool :=
  Js.orDefault (opt_ignoreIfAssignmentsNotInBlock options) true.
Definition alignTypes : bool := Js.orDefault (opt_alignTypes options) false.
Definition ignoreTypesMismatch : bool :=
  Js.orDefault (opt_ignoreTypesMismatch options) true.

(** [None] is [null]; the token query throws on a missing [init]. *)
Definition getEqualsColumn (declarator : Declarator) : Js.Result (option Z) :=
  i <- Js.deref (init declarator) ;;
  let equalsToken :=
    getTokenBefore sourceCode i
      (withFilter (fun token => Js.eqb (value token) (Js.str "="))) in
  Js.Ok match equalsToken with
        | Some t => Some (column (start (loc t)))
        | None => None
        end.

Definition getTypeColonColumn (declarator : Declarator) : option Z :=
  match typeAnnotation (id declarator) with
  | Some annotation =>
      match getFirstToken sourceCode annotation with
      | Some colonToken => Some (column (start (loc colonToken)))
      | None => None
      end
  | None => None
  end.

Definition areNodesAdjacent (node1 node2 : Declarator) : bool :=
  line (start (loc node2)) =? line (end_ (loc node1)) + 1.

Definition haveSameKind (declarations : list Declarator) : bool :=
  match declarations with
  | [] => true
  | first :: _ =>
      let firstKind := kind first in
      forallb (fun decl => String.eqb (kind decl) firstKind) declarations
  end.

Definition hasTypeAnnotation (decl : Declarator) : bool :=
  match typeAnnotation (id decl) with Some _ => true | None => false end.

Definition allHaveTypes (declarations : list Declarator) : bool :=
  forallb hasTypeAnnotation declarations.

Definition anyHaveTypes (declarations : list Declarator) : bool :=
  existsb hasTypeAnnotation declarations.

(** [Math.max] converts a [null] column to [0]; the result is [None] for
    [-Infinity]. *)
Definition getMaxEqualsColumn (declarations : list Declarator)
  : Js.Result (option Z) :=
  columns <- Js.mapM getEqualsColumn declarations ;;
  Js.Ok (Js.mathMax (map (fun c => Js.orDefault c 0) columns)).

(** [None] is [null]. *)
Definition getMaxTypeColonColumn (declarations : list Declarator) : option Z :=
  let columns :=
    flat_map (fun d => match getTypeColonColumn d with
                       | Some c => [c]
                       | None => []
                       end) declarations in
  match columns with
  | [] => None
  | _ => Js.mathMax columns
  end.

Definition getFixedDeclaration (declarator : Declarator)
  (targetEqualsColumn targetTypeColumn : option Z) : Js.Result Js.text :=
  let originalText := getTextOf sourceCode declarator in
  let idText := getTextOf sourceCode (pattern_node (id declarator)) in
  let initText :=
    match init declarator with
    | Some i => getTextOf sourceCode i
    | None => []
    end in
  equalsColumn <- getEqualsColumn declarator ;;
  let hasType := hasTypeAnnotation declarator in
  let typeColon := getTypeColonColumn declarator in
  let typeText :=
    match typeAnnotation (id declarator) with
    | Some annotation => getTextOf sourceCode annotation
    | None => []
    end in
  match equalsColumn with
  | None | Some 0 => Js.Ok originalText
  | Some _ =>
      let result := idText in
      result <-
        match hasType, targetTypeColumn with
        | true, Some target =>
            typeColonPadding <-
              Js.repeat (Js.str " ")
                (target - (Js.length idText + Js.length result)) ;;
            Js.Ok (result ++ typeColonPadding ++ typeText)
        | _, _ => Js.Ok result
        end ;;
      let currentEndPos :=
        if hasType then Js.orDefault typeColon 0 + Js.length typeText
        else Js.length idText in
      equalsPadding <-
        match targetEqualsColumn with
        | Some target => Js.repeat (Js.str " ") (target - currentEndPos)
        | None => Js.Throw Js.RangeError
        end ;;
      Js.Ok (result ++ equalsPadding ++ Js.str "= " ++ initText)
  end.

Definition differs (column : option Z) (target : option Z) : bool :=
  match column, target with
  | None, _ => false
  | Some c, Some t => negb (c =? t)
  | Some _, None => true
  end.

(** The callback of [declarations.forEach] in [checkAlignment]. *)
Definition checkDeclarator (maxEqualsColumn maxTypeColonColumn : option Z)
  (declarator : Declarator) : Js.Result (list Report) :=
  equalsColumn <- getEqualsColumn declarator ;;
  let fixed :=
    fixOf (t <- getFixedDeclaration declarator maxEqualsColumn
                  maxTypeColonColumn ;;
           Js.Ok (replaceText declarator t)) in
  let assignment :=
    if differs equalsColumn maxEqualsColumn then
      [ {| node := declarator_node declarator;
           messageId := "misalignedAssignment";
           data := [];
           fix_ := Some fixed |} ]
    else [] in
  let types :=
    match alignTypes, maxTypeColonColumn with
    | true, Some _ =>
        let typeColumn := getTypeColonColumn declarator in
        if differs typeColumn maxTypeColonColumn then
          [ {| node := declarator_node declarator;
               messageId := "misalignedTypes";
               data := [];
               fix_ := Some fixed |} ]
        else []
    | _, _ => []
    end in
  Js.Ok (assignment ++ types).

Definition checkAlignment (declarations : list Declarator)
  : Js.Result (list Report) :=
  if Js.arrayLength declarations <? blockSize then Js.Ok []
  else if ignoreIfAssignmentsNotInBlock && negb (haveSameKind declarations)
  then Js.Ok []
  else
    maxEqualsColumn <- getMaxEqualsColumn declarations ;;
    let maxTypeColonColumn :=
      if alignTypes && anyHaveTypes declarations then
        if ignoreTypesMismatch && negb (allHaveTypes declarations) then None
        else getMaxTypeColonColumn declarations
      else None in
    reports <- Js.mapM (checkDeclarator maxEqualsColumn maxTypeColonColumn)
                 declarations ;;
    Js.Ok (List.concat reports).

(** The loop of [processDeclarationGroup] from index [i]: [prevDecl] is
    [declarationsWithInits[i - 1]] and [rest] starts at index [i]. *)
Fixpoint adjacentGroupsFrom (prevDecl : Declarator)
  (currentGroup rest : list Declarator) : list (list Declarator) :=
  match rest with
  | [] =>
      if blockSize <=? Js.arrayLength currentGroup then [currentGroup] else []
  | currentDecl :: rest' =>
      if areNodesAdjacent prevDecl currentDecl then
        adjacentGroupsFrom currentDecl (currentGroup ++ [currentDecl]) rest'
      else
        (if blockSize <=? Js.arrayLength currentGroup then [currentGroup] else [])
        ++ adjacentGroupsFrom currentDecl [currentDecl] rest'
  end.

Definition processDeclarationGroup (declarations : list Declarator)
  : Js.Result (list Report) :=
  match declarations with
  | [] => Js.Ok []
  | _ =>
      let declarationsWithInits :=
        List.filter (fun decl => match init decl with
                                 | Some _ => true
                                 | None => false
                                 end) declarations in
      if Js.arrayLength declarationsWithInits <? blockSize then Js.Ok []
      else if ignoreAdjacent then
        match declarationsWithInits with
        | [] => Js.Throw Js.TypeError
        | first :: rest =>
            let adjacentGroups := adjacentGroupsFrom first [first] rest in
            reports <- Js.mapM checkAlignment adjacentGroups ;;
            Js.Ok (List.concat reports)
        end
      else checkAlignment declarationsWithInits
  end.

(** The [Program], [BlockStatement] and [SwitchCase] listeners, on the
    statements of the block. *)
Definition processBlockVariables (scopeBody : list Statement)
  : Js.Result (list Report) :=
  let declarations :=
    flat_map (fun statement =>
                if String.eqb (statement_type statement) "VariableDeclaration"
                then declarations statement else []) scopeBody in
  processDeclarationGroup declarations.

End Rule.

End AlignedAssignments.

(** ** lib/rules/multiline-format.js *)

Module MultilineFormat.
Import ESLint.

(** A property of an object literal or an element of an array literal.
    Its type is ["Property"] when it has [key] and [value]. *)
Record Element := mkElement {
  element_node : Node;
  key : option Node;
  prop_value : option Node
}.

#[global] Instance Located_Element : Located Element :=
  {| range := fun e => range (element_node e);
     loc := fun e => loc (element_node e) |}.

(** An [ObjectExpression] (with [properties]) or an [ArrayExpression]
    (with [elements], where a hole is [None]). *)
Record Collection := mkCollection {
  collection_node : Node;
  properties : list Element;
  elements : list (option Element)
}.

#[global] Instance Located_Collection : Located Collection :=
  {| range := fun c => range (collection_node c);
     loc := fun c => loc (collection_node c) |}.

Record Options := mkOptions {
  opt_allowSingleLine : option bool;
  opt_multilineStyle : option string;
  opt_minItems : option Z;
  opt_maxLineLength : option Z;
  opt_bracketStyle : option string;
  opt_indentation : option Z;
  opt_trailingComma : option string;
  opt_emptyLineBetweenGroups : option bool;
  opt_consistentSpacing : option bool;
  opt_objectAlignment : option string
}.

Definition noOptions : Options :=
  mkOptions None None None None None None None None None None.

(** [elements.filter(el => el !== null)] *)
Definition nonNull (els : list (option Element)) : list Element :=
  flat_map (fun el => match el with Some e => [e] | None => [] end) els.

Definition isProperty (e : Element) : bool :=
  String.eqb (type (element_node e)) "Property".

Definition hasKey (e : Element) : bool :=
  match key e with Some _ => true | None => false end.

Section Rule.

Variable sourceCode : SourceCode.
Variable options : Options.

Definition allowSingleLine : bool :=
  Js.orDefault (opt_allowSingleLine options) true.
Definition multilineStyle : string :=
  Js.orDefault (opt_multilineStyle options) "consistent".
Definition minItems : Z := Js.orDefault (opt_minItems options) 3.
Definition maxLineLength : Z := Js.orDefault (opt_maxLineLength options) 80.
Definition bracketStyle : string :=
  Js.orDefault (opt_bracketStyle options) "same-line".
Definition indentation : Z := Js.orDefault (opt_indentation options) 2.
Definition trailingComma : string :=
  Js.orDefault (opt_trailingComma options) "always".
Definition emptyLineBetweenGroups : bool :=
  Js.orDefault (opt_emptyLineBetweenGroups options) false.
Definition consistentSpacing : bool :=
  Js.orDefault (opt_consistentSpacing options) true.
Definition objectAlignment : string :=
  Js.orDefault (opt_objectAlignment options) "none".

Definition isMultiline (node : Collection) : Js.Result bool :=
  openBracket <- Js.deref (getFirstToken sourceCode node) ;;
  closeBracket <- Js.deref (getLastToken sourceCode node) ;;
  Js.Ok (negb (line (start (loc openBracket)) =?
               line (start (loc closeBracket)))).

Definition getExpectedIndentation (node : Collection) : Js.Result Z :=
  firstToken <- Js.deref (getFirstToken sourceCode node) ;;
  let baseIndentation := column (start (loc firstToken)) in
  Js.Ok (baseIndentation + indentation).

Definition wouldExceedMaxLineLength (node : Collection) : Js.Result bool :=
  firstToken <- Js.deref (getFirstToken sourceCode node) ;;
  lastToken <- Js.deref (getLastToken sourceCode node) ;;
  let startColumn := column (start (loc firstToken)) in
  let singleLineText :=
    Js.collapseNewlines false
      (Js.substring (getText sourceCode)
         (fst (range firstToken)) (snd (range lastToken))) in
  Js.Ok (maxLineLength <? startColumn + Js.length singleLineText).

Definition allElementsOnSameLine (node : Collection) (els : list Element)
  : bool :=
  match els with
  | [] => true
  | first :: _ =>
      let firstElementLine := line (start (loc first)) in
      forallb (fun element => line (start (loc element)) =? firstElementLine)
        els
  end.

(** The loop [for (i = 0; i < elements.length - 1; i++)] of
    [allElementsOnSeparateLines]: some element ends on the line the next
    one starts on. *)
Fixpoint someShareLine (els : list Element) : bool :=
  match els with
  | e :: ((next :: _) as rest) =>
      (line (end_ (loc e)) =? line (start (loc next))) || someShareLine rest
  | _ => false
  end.

Definition allElementsOnSeparateLines (node : Collection)
  (els : list Element) : Js.Result bool :=
  match els with
  | [] => Js.Ok true
  | first :: _ =>
      let openingBracket := getFirstToken sourceCode node in
      let closingBracket := getLastToken sourceCode node in
      onBracketLine <-
        Js.andThen (String.eqb bracketStyle "new-line")
          (o <- Js.deref openingBracket ;;
           Js.Ok (line (start (loc o)) =? line (start (loc first)))) ;;
      if onBracketLine then Js.Ok false
      else if someShareLine els then Js.Ok false
      else
        c <- Js.deref closingBracket ;;
        if line (end_ (loc (List.last els first))) =? line (start (loc c))
        then Js.Ok false
        else Js.Ok true
  end.

Definition isColon (token : Token) : bool := Js.eqb (value token) (Js.str ":").

(** The callback of [properties.map] in [hasConsistentColonSpacing];
    [None] is [null]. *)
Definition colonSpacing (prop : Element) : Js.Result (option (Z * Z)) :=
  v <- Js.deref (prop_value prop) ;;
  match getTokenBefore sourceCode v (withFilter isColon) with
  | None => Js.Ok None
  | Some colon =>
      before <- Js.deref (getTokenBefore sourceCode colon defaultOptions) ;;
      let beforeSpace := fst (range colon) - snd (range before) in
      after <- Js.deref (getTokenAfter sourceCode colon defaultOptions) ;;
      let afterSpace := fst (range after) - snd (range colon) in
      Js.Ok (Some (beforeSpace, afterSpace))
  end.

Definition hasConsistentColonSpacing (node : Collection) : Js.Result bool :=
  if negb (String.eqb (type (collection_node node)) "ObjectExpression") ||
     (Js.arrayLength (properties node) =? 0)
  then Js.Ok true
  else
    let props := List.filter isProperty (properties node) in
    if Js.arrayLength props <=? 1 then Js.Ok true
    else
      spacings <- Js.mapM colonSpacing props ;;
      let spacings :=
        flat_map (fun s => match s with Some p => [p] | None => [] end)
          spacings in
      match spacings with
      | [] | [_] => Js.Ok true
      | firstSpacing :: _ =>
          Js.Ok (forallb (fun spacing =>
                            (fst spacing =? fst firstSpacing) &&
                            (snd spacing =? snd firstSpacing)) spacings)
      end.

(** The text of one element in the multiline branch of [createFixedText];
    [colonPos] is [None] for [-Infinity]. *)
Definition alignedElementText (isObj : bool) (colonPos : option Z)
  (element : Element) : Js.Result Js.text :=
  let sourceText := getText sourceCode in
  let elementText :=
    Js.slice sourceText (fst (range element)) (snd (range element)) in
  match isObj && isProperty element, key element with
  | true, Some k =>
      if String.eqb objectAlignment "colon" then
        let keyText := Js.slice sourceText (fst (range k)) (snd (range k)) in
        let colonIndex := Js.indexOf elementText (Js.str ":") in
        if negb (colonIndex =? -1) then
          padding <-
            match colonPos with
            | Some p => Js.repeat (Js.str " ") (p - Js.length keyText)
            | None => Js.Throw Js.RangeError
            end ;;
          Js.Ok (keyText ++ padding ++ Js.sliceFrom elementText colonIndex)
        else Js.Ok elementText
      else Js.Ok elementText
  | _, _ => Js.Ok elementText
  end.

(** The callback of [elements.forEach] in [createFixedText]: the lines
    appended from the element at index [i] on, [n] being
    [elements.length]. *)
Fixpoint elementLines (isObj : bool) (colonPos : option Z)
  (itemIndent : Js.text) (n i : Z) (els : list Element)
  : Js.Result Js.text :=
  match els with
  | [] => Js.Ok []
  | element :: rest =>
      elementText <- alignedElementText isObj colonPos element ;;
      let line :=
        itemIndent ++ elementText ++
        (if (i <? n - 1) || String.eqb trailingComma "always"
         then Js.str "," else []) ++ [Js.newline] in
      more <- elementLines isObj colonPos itemIndent n (i + 1) rest ;;
      Js.Ok (line ++ more)
  end.

Definition createFixedText (node : Collection) (els : list Element)
  : Js.Result Js.text :=
  let sourceText := getText sourceCode in
  let isObj := String.eqb (type (collection_node node)) "ObjectExpression" in
  let openingBracket := Js.str (if isObj then "{" else "[") in
  let closingBracket := Js.str (if isObj then "}" else "]") in
  first <- Js.deref (getFirstToken sourceCode node) ;;
  let nodeIndent := column (start (loc first)) in
  indent <- Js.repeat (Js.str " ") nodeIndent ;;
  itemIndent <- Js.repeat (Js.str " ") (nodeIndent + indentation) ;;
  let fixedText :=
    if String.eqb bracketStyle "same-line" then openingBracket
    else openingBracket ++ [Js.newline] ++ itemIndent in
  if Js.arrayLength els =? 0 then Js.Ok (fixedText ++ closingBracket)
  else
    singleLine <-
      Js.andThen (allElementsOnSameLine node els && allowSingleLine &&
                  (Js.arrayLength els <? minItems))
        (exceeds <- wouldExceedMaxLineLength node ;; Js.Ok (negb exceeds)) ;;
    if singleLine then
      let items :=
        Js.join (Js.str ", ")
          (map (fun el => Js.slice sourceText (fst (range el))
                            (snd (range el))) els) in
      Js.Ok (fixedText ++ Js.str " " ++ items ++ Js.str " " ++ closingBracket)
    else
      let fixedText := fixedText ++ [Js.newline] in
      let colonPos :=
        if isObj && String.eqb objectAlignment "colon" then
          Js.mathMax
            (map (fun el =>
                    match key el with
                    | Some k =>
                        Js.length (Js.slice sourceText (fst (range k))
                                     (snd (range k)))
                    | None => 0
                    end)
               (List.filter (fun el => isProperty el && hasKey el) els))
        else Some 0 in
      lines <- elementLines isObj colonPos itemIndent (Js.arrayLength els)
                 0 els ;;
      Js.Ok (fixedText ++ lines ++ indent ++ closingBracket).

(** The report of a full reconstruction of the literal. *)
Definition reconstruction (node : Collection) (els : list Element)
  (message : string) (d : list (string * Datum)) : Report :=
  {| ESLint.node := collection_node node;
     messageId := message;
     data := d;
     fix_ := Some (fixOf (t <- createFixedText node els ;;
                         Js.Ok (replaceText node t))) |}.

(** The callback of the filter that computes [itemsWithWrongIndent]. *)
Definition hasWrongIndent (node : Collection) (expectedIndent : Z)
  (item : Element) : Js.Result bool :=
  itemToken <- Js.deref (getFirstToken sourceCode item) ;;
  first <- Js.deref (getFirstToken sourceCode node) ;;
  Js.Ok (negb (line (start (loc itemToken)) =? line (start (loc first))) &&
         negb (column (start (loc itemToken)) =? expectedIndent)).

(** The trailing-comma check shared in shape by both literals; [None]
    when it reports nothing. *)
Definition checkTrailingComma (node : Collection) (lastItem : Element)
  : option Report :=
  let tokenAfterLast := getTokenAfter sourceCode lastItem defaultOptions in
  match tokenAfterLast with
  | None => None
  | Some tokenAfter =>
      if String.eqb trailingComma "always" &&
         negb (Js.eqb (value tokenAfter) (Js.str ","))
      then
        Some {| ESLint.node := collection_node node;
                messageId := "missingTrailingComma";
                data := [];
                fix_ := Some (Fixed (insertTextAfter lastItem (Js.str ","))) |}
      else if String.eqb trailingComma "never" &&
              Js.eqb (value tokenAfter) (Js.str ",")
      then
        Some {| ESLint.node := collection_node node;
                messageId := "unexpectedTrailingComma";
                data := [];
                fix_ := Some (Fixed (removeRange
                                       (snd (range lastItem),
                                        snd (range tokenAfter)))) |}
      else None
  end.

(** The callback of [propsWithKeys.map] in the colon-alignment check. *)
Definition colonColumn (prop : Element) : Js.Result (option Z) :=
  v <- Js.deref (prop_value prop) ;;
  Js.Ok match getTokenBefore sourceCode v (withFilter isColon) with
        | Some colon => Some (column (start (loc colon)))
        | None => None
        end.

(** [.filter(Boolean)] on columns: [null] and [0] are dropped. *)
Definition truthyColumns (cols : list (option Z)) : list Z :=
  flat_map (fun c => match c with
                     | Some 0 | None => []
                     | Some p => [p]
                     end) cols.

Definition checkColonAlignment (node : Collection) : Js.Result (list Report) :=
  if String.eqb objectAlignment "colon" &&
     (1 <? Js.arrayLength (properties node))
  then
    let propsWithKeys :=
      List.filter (fun prop => isProperty prop && hasKey prop)
        (properties node) in
    if Js.arrayLength propsWithKeys <=? 1 then Js.Ok []
    else
      cols <- Js.mapM colonColumn propsWithKeys ;;
      let colonPositions := truthyColumns cols in
      match colonPositions with
      | firstColonPos :: _ :: _ =>
          let allAligned :=
            forallb (fun pos => pos =? firstColonPos) colonPositions in
          if negb allAligned then
            Js.Ok [reconstruction node (properties node)
                     "incorrectColonAlignment" []]
          else Js.Ok []
      | _ => Js.Ok []
      end
  else Js.Ok [].

Definition processObjectExpression (node : Collection)
  : Js.Result (list Report) :=
  if Js.arrayLength (properties node) =? 0 then Js.Ok []
  else
    shouldBeMultiline <-
      Js.orElse (minItems <=? Js.arrayLength (properties node))
        (exceeds <- wouldExceedMaxLineLength node ;;
         Js.Ok (exceeds || String.eqb multilineStyle "always")) ;;
    isNodeMultiline <- isMultiline node ;;
    if shouldBeMultiline && negb isNodeMultiline &&
       negb (String.eqb multilineStyle "never")
    then
      Js.Ok [reconstruction node (properties node) "singleLineToMultiline"
               [("count", DNum (Js.arrayLength (properties node)))]]
    else if isNodeMultiline then
      expectedIndent <- getExpectedIndentation node ;;
      itemsWithWrongIndent <-
        Js.filterM (hasWrongIndent node expectedIndent) (properties node) ;;
      if 0 <? Js.arrayLength itemsWithWrongIndent then
        Js.Ok [reconstruction node (properties node) "inconsistentIndentation"
                 [("spaces", DNum indentation)]]
      else
        allSeparate <- allElementsOnSeparateLines node (properties node) ;;
        let allSame := allElementsOnSameLine node (properties node) in
        if negb allSeparate && String.eqb multilineStyle "always" then
          Js.Ok [reconstruction node (properties node) "inconsistentNewlines"
                   [("style", DStr "separate")]]
        else
          match List.last (map Some (properties node)) None with
          | None => Js.Throw Js.TypeError
          | Some lastProp =>
              match checkTrailingComma node lastProp with
              | Some report => Js.Ok [report]
              | None =>
                  inconsistent <-
                    Js.andThen consistentSpacing
                      (ok <- hasConsistentColonSpacing node ;;
                       Js.Ok (negb ok)) ;;
                  if inconsistent then
                    Js.Ok [reconstruction node (properties node)
                             "inconsistentSpacing" []]
                  else checkColonAlignment node
              end
          end
    else Js.Ok [].

Definition processArrayExpression (node : Collection)
  : Js.Result (list Report) :=
  if Js.arrayLength (elements node) =? 0 then Js.Ok []
  else
    shouldBeMultiline <-
      Js.orElse (minItems <=? Js.arrayLength (elements node))
        (exceeds <- wouldExceedMaxLineLength node ;;
         Js.Ok (exceeds || String.eqb multilineStyle "always")) ;;
    isNodeMultiline <- isMultiline node ;;
    if shouldBeMultiline && negb isNodeMultiline &&
       negb (String.eqb multilineStyle "never")
    then
      Js.Ok [reconstruction node (nonNull (elements node))
               "singleLineToMultiline"
               [("count", DNum (Js.arrayLength (elements node)))]]
    else if isNodeMultiline then
      expectedIndent <- getExpectedIndentation node ;;
      let nonNullElements := nonNull (elements node) in
      itemsWithWrongIndent <-
        Js.filterM (hasWrongIndent node expectedIndent) nonNullElements ;;
      if 0 <? Js.arrayLength itemsWithWrongIndent then
        Js.Ok [reconstruction node nonNullElements "inconsistentIndentation"
                 [("spaces", DNum indentation)]]
      else
        allSeparate <- allElementsOnSeparateLines node nonNullElements ;;
        let allSame := allElementsOnSameLine node nonNullElements in
        if negb allSeparate && String.eqb multilineStyle "always" then
          Js.Ok [reconstruction node nonNullElements "inconsistentNewlines"
                   [("style", DStr "separate")]]
        else
          match List.last (map Some nonNullElements) None with
          | None => Js.Ok []
          | Some lastElem =>
              match checkTrailingComma node lastElem with
              | Some report => Js.Ok [report]
              | None => Js.Ok []
              end
          end
    else Js.Ok [].

End Rule.

End MultilineFormat.

(** ** lib/index.js: the recommended configuration *)

Module Recommended.

Definition blockPadding : BlockPadding.Options :=
  BlockPadding.mkOptions (Some 2) (Some 1) (Some false) (Some true) (Some 1)
    (Some true).

Definition classPropertyGrouping : ClassPropertyGrouping.Options :=
  ClassPropertyGrouping.mkOptions
    (Some
       [ ClassPropertyGrouping.mkGroup "static-properties"
           (Some ["ClassProperty"]) (Some ["static"]) 0;
         ClassPropertyGrouping.mkGroup "static-methods"
           (Some ["MethodDefinition"]) (Some ["static"]) 1;
         ClassPropertyGrouping.mkGroup "instance-properties"
           (Some ["ClassProperty"]) (Some []) 2;
         ClassPropertyGrouping.mkGroup "constructor"
           (Some ["MethodDefinition"]) (Some ["constructor"]) 3;
         ClassPropertyGrouping.mkGroup "instance-methods"
           (Some ["MethodDefinition"]) (Some []) 4 ])
    (Some 1) (Some false).

Definition alignedAssignments : AlignedAssignments.Options :=
  AlignedAssignments.mkOptions (Some false) (Some false) (Some 2) (Some true)
    (Some true) (Some true) (Some true).

Definition consistentLineSpacing : ConsistentLineSpacing.Options :=
  ConsistentLineSpacing.mkOptions (Some 1) (Some 1) (Some 1) (Some 1)
    (Some 2) (Some 2) (Some 2) (Some 2) (Some 1) (Some false) (Some true).

Definition multilineFormat : MultilineFormat.Options :=
  MultilineFormat.mkOptions (Some true) (Some "consistent") (Some 3)
    (Some 80) (Some "same-line") (Some 2) (Some "always") (Some false)
    (Some true) (Some "none").

End Recommended.

(** ** What the specification expects, in its own words

    These definitions follow the specification, not the code; the theorems
    compare them with the rules above. *)

Module Expected.
Import ESLint.

(** The pairs [(l[i], l[i + 1])], in order. *)
Definition adjacentPairs {A} (l : list A) : list (A * A) :=
  combine l (tl l).

(** Blank lines between two anchors: start line of the second, minus end
    line of the first, minus one. *)
Definition blankLines {A B} `{Located A} `{Located B} (a : A) (b : B) : Z :=
  line (start (loc b)) - line (end_ (loc a)) - 1.

Definition pluralized (n : Z) : string := if n =? 1 then "line" else "lines".

(** The gap edit of the padding rules: the span from the end of the
    anchor before to the start of the node after becomes [required + 1]
    line feeds. *)
Definition gapEdit (from to required : Z) : Fix :=
  {| fix_range := (from, to);
     fix_text := List.repeat Js.newline (Z.to_nat (required + 1)) |}.

(** The previous anchor of a node: the token or comment that stands
    before it, whichever is nearer. *)
Definition previousAnchor (sourceCode : SourceCode) (next : Node)
  : option Token :=
  getTokenBefore sourceCode next (withComments true).

(** The root-level diagnostic for the siblings [previous] and [next]: it
    is anchored at [next], and its edit replaces the span between the end
    of the previous anchor of [next], a token or a comment, and the start
    of [next].  Without an anchor there is no span to name, and no edit. *)
Definition rootPaddingReport (sourceCode : SourceCode) (required : Z)
  (previous next : Node) : Report :=
  {| node := next;
     messageId := "missingPaddingBetweenRootBlocks";
     data := [ ("expected", DNum required);
               ("actual", DNum (blankLines previous next));
               ("lineText", DStr (pluralized required)) ];
     fix_ :=
       match previousAnchor sourceCode next with
       | Some anchor =>
           Some (Fixed (gapEdit (snd (range anchor)) (fst (range next))
                          required))
       | None => None
       end |}.

(** The members of a class that matched a group, in source order. *)
Definition matched
  (members : list (ClassPropertyGrouping.Member *
                   option ClassPropertyGrouping.Group))
  : list (ClassPropertyGrouping.Member * ClassPropertyGrouping.Group) :=
  flat_map (fun m => match snd m with
                     | Some g => [(fst m, g)]
                     | None => []
                     end) members.

(** The group order does not decrease from [x] to [y]. *)
Definition orderLe
  (x y : ClassPropertyGrouping.Member * ClassPropertyGrouping.Group) : Prop :=
  ClassPropertyGrouping.order (snd x) <= ClassPropertyGrouping.order (snd y).

(** A decrease of the group order from [previous] to [current]. *)
Definition decreases
  (p : (ClassPropertyGrouping.Member * ClassPropertyGrouping.Group) *
       (ClassPropertyGrouping.Member * ClassPropertyGrouping.Group)) : bool :=
  ClassPropertyGrouping.order (snd (snd p)) <?
  ClassPropertyGrouping.order (snd (fst p)).

(** The order diagnostic: reported at the later member, it names the
    group of the earlier one as expected and its own as actual. *)
Definition orderViolation
  (p : (ClassPropertyGrouping.Member * ClassPropertyGrouping.Group) *
       (ClassPropertyGrouping.Member * ClassPropertyGrouping.Group))
  : Report :=
  let previous := snd (fst p) in
  let current := snd (snd p) in
  {| node := ClassPropertyGrouping.member_node (fst (snd p));
     messageId := "wrongGroupOrder";
     data := [ ("member",
                DStr (ClassPropertyGrouping.getMemberName (fst (snd p))));
               ("expectedGroup", DStr (ClassPropertyGrouping.name previous));
               ("expectedGroupOrder",
                DNum (ClassPropertyGrouping.order previous));
               ("actualGroup", DStr (ClassPropertyGrouping.name current));
               ("actualGroupOrder",
                DNum (ClassPropertyGrouping.order current)) ];
     fix_ := None |}.

(** The single-line rendering of a literal that runs from offset [from]
    to offset [to]: its text with every line break, and the white space
    after it, collapsed to one space. *)
Definition rendering (src : Js.text) (from to : Z) : Js.text :=
  Js.collapseNewlines false (Js.substring src from to).

(** A literal of [count] items that starts in column [startColumn] should
    be multiline. *)
Definition shouldBeMultiline (minItems maxLineLength : Z) (style : string)
  (count startColumn : Z) (rendered : Js.text) : bool :=
  (minItems <=? count) ||
  (maxLineLength <? startColumn + Js.length rendered) ||
  String.eqb style "always".

(** Every item that does not start on the line of the opening bracket
    starts [indentation] columns to the right of that bracket. *)
Definition wellIndented (sourceCode : SourceCode) (indentation : Z)
  (literal : MultilineFormat.Collection)
  (items : list MultilineFormat.Element) : Prop :=
  exists bracket,
    getFirstToken sourceCode literal = Some bracket /\
    Forall (fun item =>
              exists t,
                getFirstToken sourceCode item = Some t /\
                (line (start (loc t)) = line (start (loc bracket)) \/
                 column (start (loc t)) =
                   column (start (loc bracket)) + indentation)) items.

(** The diagnostic of the trailing-separator check, with its edit. *)
Definition separatorReport (literal : MultilineFormat.Collection)
  (message : string) (edit : Fix) : Report :=
  {| node := MultilineFormat.collection_node literal;
     messageId := message;
     data := [];
     fix_ := Some (Fixed edit) |}.

(** The documentation-block test: the comment is a block comment that
    spans several lines, or holds an at-sign tag, or holds one of the five
    words in any letter case. *)
Definition toLower (c : ascii) : ascii :=
  let n := nat_of_ascii c in
  if (Nat.leb 65 n && Nat.leb n 90)%bool then ascii_of_nat (n + 32) else c.

Definition hasAtTag (s : Js.text) : bool :=
  Regex.test (Regex.Seq (Regex.Chr "@") (Regex.Class Js.isWordChar)) s.

Definition keywords : list Js.text :=
  map Js.str ["param"; "return"; "description"; "example"; "author"].

Definition isDocBlock (comment : Token) : bool :=
  String.eqb (tok_type comment) "Block" &&
  (Js.includes (value comment) [Js.newline] ||
   hasAtTag (value comment) ||
   existsb (Js.includes (map toLower (value comment))) keywords).

(** The diagnostic of a sibling check under the name [message], with the
    span the rule itself takes: from the end of the last token of
    [previous] to the start of the first token of [next], and a
    [TypeError] when either sibling has no token.  Where a comment stands
    between the siblings this is not the span of [rootPaddingReport]. *)
Definition siblingPaddingReport (sourceCode : SourceCode) (message : string)
  (required : Z) (previous next : Node) : Report :=
  {| node := next;
     messageId := message;
     data := [ ("expected", DNum required);
               ("actual", DNum (blankLines previous next));
               ("lineText", DStr (pluralized required)) ];
     fix_ := Some
       match getLastToken sourceCode previous,
             getFirstToken sourceCode next with
       | Some anchor, Some first =>
           Fixed (gapEdit (snd (range anchor)) (fst (range first)) required)
       | _, _ => FixThrows Js.TypeError
       end |}.

(** Each comment of the list ends on the line before the next one
    starts. *)
Definition onConsecutiveLines (comments : list Token) : Prop :=
  Forall (fun p => line (end_ (loc (fst p))) + 1 =
                   line (start (loc (snd p))))
    (adjacentPairs comments).

(** The text without the white space it starts with. *)
Fixpoint trimStart (s : Js.text) : Js.text :=
  match s with
  | [] => []
  | c :: rest => if Js.isWhitespace c then trimStart rest else s
  end.

(** The number of line feeds of a text. *)
Definition countNewlines (s : Js.text) : Z :=
  Js.arrayLength (List.filter (Ascii.eqb Js.newline) s).

(** The name of the default group a class member belongs to: the kind of
    member, static members first. *)
Definition defaultGroupName (m : ClassPropertyGrouping.Member)
  : option string :=
  let t := ESLint.type (ClassPropertyGrouping.member_node m) in
  if String.eqb t "MethodDefinition" then
    Some (if ClassPropertyGrouping.static m then "static-methods"
          else if String.eqb (ClassPropertyGrouping.kind m) "constructor"
               then "constructor"
               else "instance-methods")
  else if String.eqb t "ClassProperty" || String.eqb t "PropertyDefinition" ||
          String.eqb t "TSPropertyDefinition" then
    Some (if ClassPropertyGrouping.static m then "static-properties"
          else "instance-properties")
  else None.

(** The matched members of one group, in source order. *)
Definition membersOfGroup (groupName : string)
  (members : list (ClassPropertyGrouping.Member *
                   option ClassPropertyGrouping.Group))
  : list (ClassPropertyGrouping.Member * ClassPropertyGrouping.Group) :=
  List.filter
    (fun mg => String.eqb (ClassPropertyGrouping.name (snd mg)) groupName)
    (matched members).

(** Two class members next to each other lie in different groups. *)
Definition groupBoundary
  (p : (ClassPropertyGrouping.Member * option ClassPropertyGrouping.Group) *
       (ClassPropertyGrouping.Member * option ClassPropertyGrouping.Group))
  : bool :=
  match snd (fst p), snd (snd p) with
  | Some previous, Some current =>
      negb (String.eqb (ClassPropertyGrouping.name previous)
                       (ClassPropertyGrouping.name current))
  | _, _ => false
  end.

(** The padding diagnostic between the members [previous] and [next] of a
    class, as [siblingPaddingReport] between their nodes. *)
Definition groupPaddingReport (sourceCode : SourceCode) (required : Z)
  (previous next : ClassPropertyGrouping.Member) : Report :=
  siblingPaddingReport sourceCode "incorrectPaddingBetweenGroups" required
    (ClassPropertyGrouping.member_node previous)
    (ClassPropertyGrouping.member_node next).

(** Every element of the list is related to the next one. *)
Definition chain {A} (adjacent : A -> A -> bool) (l : list A) : Prop :=
  Forall (fun p => adjacent (fst p) (snd p) = true) (adjacentPairs l).

(** The last element of each list is not related to the first element of
    the next list. *)
Definition separated {A} (adjacent : A -> A -> bool) (runs : list (list A))
  : Prop :=
  Forall (fun p => forall a b,
            hd_error (rev (fst p)) = Some a -> hd_error (snd p) = Some b ->
            adjacent a b = false)
    (adjacentPairs runs).

(** The lines of a reconstructed literal: every item on a line of its own
    behind [itemIndent], a comma after each but the last, which gets one
    when [trailing] is set. *)
Fixpoint itemLines (itemIndent : Js.text) (trailing : bool)
  (texts : list Js.text) : Js.text :=
  match texts with
  | [] => []
  | t :: rest =>
      itemIndent ++ t ++
      match rest with
      | [] => if trailing then Js.str "," else []
      | _ :: _ => Js.str ","
      end ++ [Js.newline] ++ itemLines itemIndent trailing rest
  end.

(** The option that has to be set for a diagnostic of the literal rule
    to appear under the name [message]. *)
Definition allowedBy (opts : MultilineFormat.Options) (message : string)
  : Prop :=
  (message = "singleLineToMultiline" /\
   MultilineFormat.multilineStyle opts <> "never") \/
  message = "inconsistentIndentation" \/
  (message = "inconsistentNewlines" /\
   MultilineFormat.multilineStyle opts = "always") \/
  (message = "missingTrailingComma" /\
   MultilineFormat.trailingComma opts = "always") \/
  (message = "unexpectedTrailingComma" /\
   MultilineFormat.trailingComma opts = "never") \/
  (message = "inconsistentSpacing" /\
   MultilineFormat.consistentSpacing opts = true) \/
  (message = "incorrectColonAlignment" /\
   MultilineFormat.objectAlignment opts = "colon").

(** The options with [ignoreTopLevelCode] switched off. *)
Definition checkingTopLevel (opts : ConsistentLineSpacing.Options)
  : ConsistentLineSpacing.Options :=
  ConsistentLineSpacing.mkOptions
    (ConsistentLineSpacing.opt_beforeImports opts)
    (ConsistentLineSpacing.opt_afterImports opts)
    (ConsistentLineSpacing.opt_beforeExports opts)
    (ConsistentLineSpacing.opt_afterExports opts)
    (ConsistentLineSpacing.opt_beforeClass opts)
    (ConsistentLineSpacing.opt_afterClass opts)
    (ConsistentLineSpacing.opt_beforeFunction opts)
    (ConsistentLineSpacing.opt_afterFunction opts)
    (ConsistentLineSpacing.opt_beforeComment opts)
    (Some false)
    (ConsistentLineSpacing.opt_skipImportGroups opts).

(** The options with [skipImportGroups] switched off. *)
Definition checkingImportGroups (opts : ConsistentLineSpacing.Options)
  : ConsistentLineSpacing.Options :=
  ConsistentLineSpacing.mkOptions
    (ConsistentLineSpacing.opt_beforeImports opts)
    (ConsistentLineSpacing.opt_afterImports opts)
    (ConsistentLineSpacing.opt_beforeExports opts)
    (ConsistentLineSpacing.opt_afterExports opts)
    (ConsistentLineSpacing.opt_beforeClass opts)
    (ConsistentLineSpacing.opt_afterClass opts)
    (ConsistentLineSpacing.opt_beforeFunction opts)
    (ConsistentLineSpacing.opt_afterFunction opts)
    (ConsistentLineSpacing.opt_beforeComment opts)
    (ConsistentLineSpacing.opt_ignoreTopLevelCode opts)
    (Some false).

(** The node at the root of a tree. *)
Definition root (t : Ast) : Node :=
  match t with AstNode n _ => n end.

(** The position [index] belongs to the statement [statement] itself:
    [statement] is a statement of the program, it holds the position, none
    of its own parts does, and neither does a statement before it.  The
    keyword that opens a declaration and the semicolon that closes it are
    at such positions; a token of one of its parts, the source string of
    an import for one, is not. *)
Definition ownPosition (sourceCode : SourceCode) (statement : Node)
  (index : Z) : Prop :=
  exists program earlier parts later,
    ast sourceCode =
      AstNode program (earlier ++ AstNode statement parts :: later) /\
    containsIndex program index = true /\
    Forall (fun c => containsIndex (root c) index = false) earlier /\
    containsIndex statement index = true /\
    Forall (fun c => containsIndex (root c) index = false) parts.

(** The position [index] belongs to [part], one of the parts of the
    statement [statement]: [statement] is a statement of the program and
    [part] one of its children, both hold the position, and no statement
    before [statement], no child before [part] and no child of [part]
    does. *)
Definition partPosition (sourceCode : SourceCode) (statement part : Node)
  (index : Z) : Prop :=
  exists program earlier before inner after later,
    ast sourceCode =
      AstNode program
        (earlier ++
         AstNode statement (before ++ AstNode part inner :: after) ::
         later) /\
    containsIndex program index = true /\
    Forall (fun c => containsIndex (root c) index = false) earlier /\
    containsIndex statement index = true /\
    Forall (fun c => containsIndex (root c) index = false) before /\
    containsIndex part index = true /\
    Forall (fun c => containsIndex (root c) index = false) inner.

End Expected.

(** ** Small sources, tokenized by hand *)

Module Samples.
Import ESLint.

(** The text whose lines are [ls]. *)
Definition source (ls : list string) : Js.text :=
  Js.join [Js.newline] (map Js.str ls).

Definition tokensOf (src : Js.text) (spans : list (string * Z * Z))
  : list Token :=
  map (fun s => tokenAt src (fst (fst s)) (snd (fst s)) (snd s)) spans.

Definition program (src : Js.text) (children : list Ast) : Ast :=
  AstNode (nodeAt src 0 "Program" 0 (Js.length src) None) children.

Definition leaf (n : Node) : Ast := AstNode n [].

Definition inProgram (body : list nat) : option ParentView :=
  Some (mkParent "Program" (Some body)).

Definition inside_ (ty : string) : option ParentView :=
  Some (mkParent ty None).

(** *** Two declarations with operators in columns 8 and 15 *)

Module Consts.

Definition src : Js.text := source ["const a = 1;"; "const longName = 2;"].

Definition tokens : list Token :=
  tokensOf src
    [ ("Keyword", 0, 5); ("Identifier", 6, 7); ("Punctuator", 8, 9);
      ("Numeric", 10, 11); ("Punctuator", 11, 12);
      ("Keyword", 13, 18); ("Identifier", 19, 27); ("Punctuator", 28, 29);
      ("Numeric", 30, 31); ("Punctuator", 31, 32) ].

Definition sourceCode : SourceCode :=
  mkSourceCode src tokens (program src []).

Definition declA : AlignedAssignments.Declarator :=
  AlignedAssignments.mkDeclarator
    (nodeAt src 2 "VariableDeclarator" 6 11 (inside_ "VariableDeclaration"))
    (AlignedAssignments.mkPattern
       (nodeAt src 3 "Identifier" 6 7 (inside_ "VariableDeclarator")) None)
    (Some (nodeAt src 4 "Literal" 10 11 (inside_ "VariableDeclarator")))
    "const".

Definition declLongName : AlignedAssignments.Declarator :=
  AlignedAssignments.mkDeclarator
    (nodeAt src 6 "VariableDeclarator" 19 31 (inside_ "VariableDeclaration"))
    (AlignedAssignments.mkPattern
       (nodeAt src 7 "Identifier" 19 27 (inside_ "VariableDeclarator")) None)
    (Some (nodeAt src 8 "Literal" 30 31 (inside_ "VariableDeclarator")))
    "const".

Definition body : list AlignedAssignments.Statement :=
  [ AlignedAssignments.mkStatement "VariableDeclaration" [declA];
    AlignedAssignments.mkStatement "VariableDeclaration" [declLongName] ].

(** The same program after the edit offered for [a] has been applied. *)
Definition fixedSrc : Js.text :=
  source ["const a              = 1;"; "const longName = 2;"].

Definition fixedTokens : list Token :=
  tokensOf fixedSrc
    [ ("Keyword", 0, 5); ("Identifier", 6, 7); ("Punctuator", 21, 22);
      ("Numeric", 23, 24); ("Punctuator", 24, 25);
      ("Keyword", 26, 31); ("Identifier", 32, 40); ("Punctuator", 41, 42);
      ("Numeric", 43, 44); ("Punctuator", 44, 45) ].

Definition fixedSourceCode : SourceCode :=
  mkSourceCode fixedSrc fixedTokens (program fixedSrc []).

Definition fixedDeclA : AlignedAssignments.Declarator :=
  AlignedAssignments.mkDeclarator
    (nodeAt fixedSrc 2 "VariableDeclarator" 6 24
       (inside_ "VariableDeclaration"))
    (AlignedAssignments.mkPattern
       (nodeAt fixedSrc 3 "Identifier" 6 7 (inside_ "VariableDeclarator"))
       None)
    (Some (nodeAt fixedSrc 4 "Literal" 23 24 (inside_ "VariableDeclarator")))
    "const".

Definition fixedDeclLongName : AlignedAssignments.Declarator :=
  AlignedAssignments.mkDeclarator
    (nodeAt fixedSrc 6 "VariableDeclarator" 32 44
       (inside_ "VariableDeclaration"))
    (AlignedAssignments.mkPattern
       (nodeAt fixedSrc 7 "Identifier" 32 40 (inside_ "VariableDeclarator"))
       None)
    (Some (nodeAt fixedSrc 8 "Literal" 43 44 (inside_ "VariableDeclarator")))
    "const".

Definition fixedBody : list AlignedAssignments.Statement :=
  [ AlignedAssignments.mkStatement "VariableDeclaration" [fixedDeclA];
    AlignedAssignments.mkStatement "VariableDeclaration" [fixedDeclLongName] ].

End Consts.

(** *** Two export declarations on consecutive lines *)

Module Exports.

Definition src : Js.text :=
  source ["export const a = 1;"; "export const b = 2;"].

Definition tokens : list Token :=
  tokensOf src
    [ ("Keyword", 0, 6); ("Keyword", 7, 12); ("Identifier", 13, 14);
      ("Punctuator", 15, 16); ("Numeric", 17, 18); ("Punctuator", 18, 19);
      ("Keyword", 20, 26); ("Keyword", 27, 32); ("Identifier", 33, 34);
      ("Punctuator", 35, 36); ("Numeric", 37, 38); ("Punctuator", 38, 39) ].

Definition first : Node :=
  nodeAt src 1 "ExportNamedDeclaration" 0 19 (inProgram [1%nat; 6%nat]).

Definition second : Node :=
  nodeAt src 6 "ExportNamedDeclaration" 20 39 (inProgram [1%nat; 6%nat]).

Definition declaration (i : nat) (from : Z) : Ast :=
  AstNode
    (nodeAt src (i + 1) "VariableDeclaration" (from + 7) (from + 19)
       (inside_ "ExportNamedDeclaration"))
    [ AstNode
        (nodeAt src (i + 2) "VariableDeclarator" (from + 13) (from + 18)
           (inside_ "VariableDeclaration"))
        [ leaf (nodeAt src (i + 3) "Identifier" (from + 13) (from + 14)
                  (inside_ "VariableDeclarator"));
          leaf (nodeAt src (i + 4) "Literal" (from + 17) (from + 18)
                  (inside_ "VariableDeclarator")) ] ].

Definition sourceCode : SourceCode :=
  mkSourceCode src tokens
    (program src [ AstNode first [declaration 1 0];
                   AstNode second [declaration 6 20] ]).

End Exports.

(** *** Two import declarations on consecutive lines *)

Module Imports.

Definition src : Js.text :=
  source ["import a from 'x';"; "import b from 'y';"].

Definition tokens : list Token :=
  tokensOf src
    [ ("Keyword", 0, 6); ("Identifier", 7, 8); ("Keyword", 9, 13);
      ("String", 14, 17); ("Punctuator", 17, 18);
      ("Keyword", 19, 25); ("Identifier", 26, 27); ("Keyword", 28, 32);
      ("String", 33, 36); ("Punctuator", 36, 37) ].

Definition first : Node :=
  nodeAt src 1 "ImportDeclaration" 0 18 (inProgram [1%nat; 5%nat]).

Definition second : Node :=
  nodeAt src 5 "ImportDeclaration" 19 37 (inProgram [1%nat; 5%nat]).

Definition parts (i : nat) (from : Z) : list Ast :=
  [ AstNode
      (nodeAt src (i + 1) "ImportDefaultSpecifier" (from + 7) (from + 8)
         (inside_ "ImportDeclaration"))
      [ leaf (nodeAt src (i + 2) "Identifier" (from + 7) (from + 8)
                (inside_ "ImportDefaultSpecifier")) ];
    leaf (nodeAt src (i + 3) "Literal" (from + 14) (from + 17)
            (inside_ "ImportDeclaration")) ].

Definition sourceCode : SourceCode :=
  mkSourceCode src tokens
    (program src [ AstNode first (parts 1 0); AstNode second (parts 5 19) ]).

End Imports.

(** *** Two imports written without semicolons *)

Module BareImports.

Definition src : Js.text :=
  source ["import a from 'x'"; "import b from 'y'"].

Definition tokens : list Token :=
  tokensOf src
    [ ("Keyword", 0, 6); ("Identifier", 7, 8); ("Keyword", 9, 13);
      ("String", 14, 17);
      ("Keyword", 18, 24); ("Identifier", 25, 26); ("Keyword", 27, 31);
      ("String", 32, 35) ].

Definition first : Node :=
  nodeAt src 1 "ImportDeclaration" 0 17 (inProgram [1%nat; 5%nat]).

Definition second : Node :=
  nodeAt src 5 "ImportDeclaration" 18 35 (inProgram [1%nat; 5%nat]).

Definition parts (i : nat) (from : Z) : list Ast :=
  [ AstNode
      (nodeAt src (i + 1) "ImportDefaultSpecifier" (from + 7) (from + 8)
         (inside_ "ImportDeclaration"))
      [ leaf (nodeAt src (i + 2) "Identifier" (from + 7) (from + 8)
                (inside_ "ImportDefaultSpecifier")) ];
    leaf (nodeAt src (i + 3) "Literal" (from + 14) (from + 17)
            (inside_ "ImportDeclaration")) ].

Definition sourceCode : SourceCode :=
  mkSourceCode src tokens
    (program src [ AstNode first (parts 1 0); AstNode second (parts 5 18) ]).

End BareImports.

(** *** A file that holds one import declaration only *)

Module SingleImport.

Definition src : Js.text := source ["import a from 'x';"].

Definition tokens : list Token :=
  tokensOf src
    [ ("Keyword", 0, 6); ("Identifier", 7, 8); ("Keyword", 9, 13);
      ("String", 14, 17); ("Punctuator", 17, 18) ].

Definition only : Node :=
  nodeAt src 1 "ImportDeclaration" 0 18 (inProgram [1%nat]).

Definition sourceCode : SourceCode :=
  mkSourceCode src tokens (program src [leaf only]).

End SingleImport.

(** *** Two function declarations with no blank line between them *)

Module Functions.

Definition src : Js.text := source ["function f() {}"; "function g() {}"].

Definition tokens : list Token :=
  tokensOf src
    [ ("Keyword", 0, 8); ("Identifier", 9, 10); ("Punctuator", 10, 11);
      ("Punctuator", 11, 12); ("Punctuator", 13, 14); ("Punctuator", 14, 15);
      ("Keyword", 16, 24); ("Identifier", 25, 26); ("Punctuator", 26, 27);
      ("Punctuator", 27, 28); ("Punctuator", 29, 30); ("Punctuator", 30, 31) ].

Definition f : Node :=
  nodeAt src 1 "FunctionDeclaration" 0 15 (inProgram [1%nat; 2%nat]).

Definition g : Node :=
  nodeAt src 2 "FunctionDeclaration" 16 31 (inProgram [1%nat; 2%nat]).

Definition sourceCode : SourceCode :=
  mkSourceCode src tokens (program src [leaf f; leaf g]).

End Functions.

(** *** A class with an instance property before a static method *)

Module ClassA.

Definition src : Js.text :=
  source ["class A {"; "  x = 1;"; ""; "  static m() {}"; "}"].

Definition x : ClassPropertyGrouping.Member :=
  ClassPropertyGrouping.mkMember
    (nodeAt src 3 "PropertyDefinition" 12 18 (inside_ "ClassBody"))
    "" false (ClassPropertyGrouping.Identifier "x").

Definition m : ClassPropertyGrouping.Member :=
  ClassPropertyGrouping.mkMember
    (nodeAt src 4 "MethodDefinition" 22 35 (inside_ "ClassBody"))
    "method" true (ClassPropertyGrouping.Identifier "m").

Definition body : list ClassPropertyGrouping.Member := [x; m].

(** The members with the default groups they match. *)
Definition members
  : list (ClassPropertyGrouping.Member * option ClassPropertyGrouping.Group) :=
  [ (x, Some (ClassPropertyGrouping.mkGroup "instance-properties"
                (Some ["ClassProperty"]) (Some []) 2));
    (m, Some (ClassPropertyGrouping.mkGroup "static-methods"
                (Some ["MethodDefinition"]) (Some ["static"]) 1)) ].

End ClassA.

(** *** Object literals *)

Module Objects.

Definition property (src : Js.text) (i : nat) (from : Z) : MultilineFormat.Element :=
  MultilineFormat.mkElement
    (nodeAt src i "Property" from (from + 4) (inside_ "ObjectExpression"))
    (Some (nodeAt src (i + 1) "Identifier" from (from + 1)
             (inside_ "Property")))
    (Some (nodeAt src (i + 2) "Literal" (from + 3) (from + 4)
             (inside_ "Property"))).

(** A multiline literal, indented from its bracket, without a trailing
    comma. *)
Definition bareSrc : Js.text := source ["x = {"; "      a: 1"; "    };"].

Definition bare : SourceCode :=
  mkSourceCode bareSrc
    (tokensOf bareSrc
       [ ("Identifier", 0, 1); ("Punctuator", 2, 3); ("Punctuator", 4, 5);
         ("Identifier", 12, 13); ("Punctuator", 13, 14); ("Numeric", 15, 16);
         ("Punctuator", 21, 22); ("Punctuator", 22, 23) ])
    (program bareSrc []).

Definition bareObject : MultilineFormat.Collection :=
  MultilineFormat.mkCollection
    (nodeAt bareSrc 1 "ObjectExpression" 4 22
       (inside_ "AssignmentExpression"))
    [property bareSrc 2 12] [].

(** The same literal with a trailing comma right after the item. *)
Definition trailedSrc : Js.text := source ["x = {"; "      a: 1,"; "    };"].

Definition trailed : SourceCode :=
  mkSourceCode trailedSrc
    (tokensOf trailedSrc
       [ ("Identifier", 0, 1); ("Punctuator", 2, 3); ("Punctuator", 4, 5);
         ("Identifier", 12, 13); ("Punctuator", 13, 14); ("Numeric", 15, 16);
         ("Punctuator", 16, 17);
         ("Punctuator", 22, 23); ("Punctuator", 23, 24) ])
    (program trailedSrc []).

Definition trailedObject : MultilineFormat.Collection :=
  MultilineFormat.mkCollection
    (nodeAt trailedSrc 1 "ObjectExpression" 4 23
       (inside_ "AssignmentExpression"))
    [property trailedSrc 2 12] [].

(** The same literal with a comment between the item and its comma. *)
Definition commentedSrc : Js.text :=
  source ["x = {"; "      a: 1 /* one */,"; "    };"].

Definition commented : SourceCode :=
  mkSourceCode commentedSrc
    (tokensOf commentedSrc
       [ ("Identifier", 0, 1); ("Punctuator", 2, 3); ("Punctuator", 4, 5);
         ("Identifier", 12, 13); ("Punctuator", 13, 14); ("Numeric", 15, 16);
         ("Block", 17, 26); ("Punctuator", 26, 27);
         ("Punctuator", 32, 33); ("Punctuator", 33, 34) ])
    (program commentedSrc []).

Definition commentedObject : MultilineFormat.Collection :=
  MultilineFormat.mkCollection
    (nodeAt commentedSrc 1 "ObjectExpression" 4 33
       (inside_ "AssignmentExpression"))
    [property commentedSrc 2 12] [].

(** The usual layout: the item is indented from the start of the line. *)
Definition usualSrc : Js.text := source ["const x = {"; "  a: 1"; "};"].

Definition usual : SourceCode :=
  mkSourceCode usualSrc
    (tokensOf usualSrc
       [ ("Keyword", 0, 5); ("Identifier", 6, 7); ("Punctuator", 8, 9);
         ("Punctuator", 10, 11); ("Identifier", 14, 15);
         ("Punctuator", 15, 16); ("Numeric", 17, 18);
         ("Punctuator", 19, 20); ("Punctuator", 20, 21) ])
    (program usualSrc []).

Definition usualObject : MultilineFormat.Collection :=
  MultilineFormat.mkCollection
    (nodeAt usualSrc 1 "ObjectExpression" 10 20
       (inside_ "VariableDeclarator"))
    [property usualSrc 2 14] [].

(** The empty literal. *)
Definition emptySrc : Js.text := source ["x = {};"].

Definition empty : SourceCode :=
  mkSourceCode emptySrc
    (tokensOf emptySrc
       [ ("Identifier", 0, 1); ("Punctuator", 2, 3); ("Punctuator", 4, 5);
         ("Punctuator", 5, 6); ("Punctuator", 6, 7) ])
    (program emptySrc []).

Definition emptyObject : MultilineFormat.Collection :=
  MultilineFormat.mkCollection
    (nodeAt emptySrc 1 "ObjectExpression" 4 6
       (inside_ "AssignmentExpression"))
    [] [].

End Objects.

(** *** Array literals on one line *)

Module Arrays.

Definition number (src : Js.text) (i : nat) (from : Z)
  : option MultilineFormat.Element :=
  Some (MultilineFormat.mkElement
          (nodeAt src i "Literal" from (from + 1)
             (inside_ "ArrayExpression"))
          None None).

Definition twoSrc : Js.text := source ["x = [1, 2];"].

Definition two : SourceCode :=
  mkSourceCode twoSrc
    (tokensOf twoSrc
       [ ("Identifier", 0, 1); ("Punctuator", 2, 3); ("Punctuator", 4, 5);
         ("Numeric", 5, 6); ("Punctuator", 6, 7); ("Numeric", 8, 9);
         ("Punctuator", 9, 10); ("Punctuator", 10, 11) ])
    (program twoSrc []).

Definition twoArray : MultilineFormat.Collection :=
  MultilineFormat.mkCollection
    (nodeAt twoSrc 1 "ArrayExpression" 4 10 (inside_ "AssignmentExpression"))
    [] [number twoSrc 2 5; number twoSrc 3 8].

Definition threeSrc : Js.text := source ["x = [1, 2, 3];"].

Definition three : SourceCode :=
  mkSourceCode threeSrc
    (tokensOf threeSrc
       [ ("Identifier", 0, 1); ("Punctuator", 2, 3); ("Punctuator", 4, 5);
         ("Numeric", 5, 6); ("Punctuator", 6, 7); ("Numeric", 8, 9);
         ("Punctuator", 9, 10); ("Numeric", 11, 12);
         ("Punctuator", 12, 13); ("Punctuator", 13, 14) ])
    (program threeSrc []).

Definition threeArray : MultilineFormat.Collection :=
  MultilineFormat.mkCollection
    (nodeAt threeSrc 1 "ArrayExpression" 4 13
       (inside_ "AssignmentExpression"))
    [] [number threeSrc 2 5; number threeSrc 3 8; number threeSrc 4 11].

Definition emptySrc : Js.text := source ["x = [];"].

Definition empty : SourceCode :=
  mkSourceCode emptySrc
    (tokensOf emptySrc
       [ ("Identifier", 0, 1); ("Punctuator", 2, 3); ("Punctuator", 4, 5);
         ("Punctuator", 5, 6); ("Punctuator", 6, 7) ])
    (program emptySrc []).

Definition emptyArray : MultilineFormat.Collection :=
  MultilineFormat.mkCollection
    (nodeAt emptySrc 1 "ArrayExpression" 4 6 (inside_ "AssignmentExpression"))
    [] [].

(** Options that set [multilineStyle] (and [trailingComma]) only. *)
Definition styled (style : string) : MultilineFormat.Options :=
  MultilineFormat.mkOptions None (Some style) None None None None None None
    None None.

Definition trailing (mode : string) : MultilineFormat.Options :=
  MultilineFormat.mkOptions None None None None None None (Some mode) None
    None None.

End Arrays.

(** *** Block comments that differ in letter case only *)

Module Comments.

Definition block (body : string) : Token :=
  mkToken "Block" (Js.str body) (0, Js.length (Js.str body) + 4)
    (mkLoc (mkPosition 1 0) (mkPosition 1 (Js.length (Js.str body) + 4))).

Definition upper : Token := block " PARAM x ".

Definition lower : Token := block " param x ".

End Comments.

(** *** Sources for the padding checks *)

Module Padding.

(** The comment of type [ty] that covers [from, to) of the text; its
    value is the text between the delimiters. *)
Definition commentAt (s : Js.text) (ty : string) (from to : Z) : Token :=
  mkToken ty
    (Js.slice s (from + 2) (if String.eqb ty "Block" then to - 2 else to))
    (from, to) (locAt s (from, to)).

(** Two statements of a block on consecutive lines. *)
Definition blockSrc : Js.text := source ["{"; "  a();"; "  b();"; "}"].

Definition block : SourceCode :=
  mkSourceCode blockSrc
    (tokensOf blockSrc
       [ ("Punctuator", 0, 1); ("Identifier", 4, 5); ("Punctuator", 5, 6);
         ("Punctuator", 6, 7); ("Punctuator", 7, 8); ("Identifier", 11, 12);
         ("Punctuator", 12, 13); ("Punctuator", 13, 14);
         ("Punctuator", 14, 15); ("Punctuator", 16, 17) ])
    (program blockSrc []).

Definition callA : Node :=
  nodeAt blockSrc 2 "ExpressionStatement" 4 8 (inside_ "BlockStatement").

Definition callB : Node :=
  nodeAt blockSrc 3 "ExpressionStatement" 11 15 (inside_ "BlockStatement").

(** A function under two line comments. *)
Definition documentedSrc : Js.text :=
  source ["// one"; "// two"; "function f() {}"].

Definition documented : SourceCode :=
  mkSourceCode documentedSrc
    ([ commentAt documentedSrc "Line" 0 6;
       commentAt documentedSrc "Line" 7 13 ] ++
     tokensOf documentedSrc
       [ ("Keyword", 14, 22); ("Identifier", 23, 24); ("Punctuator", 24, 25);
         ("Punctuator", 25, 26); ("Punctuator", 27, 28);
         ("Punctuator", 28, 29) ])
    (program documentedSrc []).

Definition documentedF : Node :=
  nodeAt documentedSrc 1 "FunctionDeclaration" 14 29 (inProgram [1%nat]).

(** A function under a plain block comment and two line comments, the
    first with a tag. *)
Definition hiddenSrc : Js.text :=
  source ["/* note */"; "// @param x"; "// more"; "function f() {}"].

Definition hidden : SourceCode :=
  mkSourceCode hiddenSrc
    ([ commentAt hiddenSrc "Block" 0 10;
       commentAt hiddenSrc "Line" 11 22;
       commentAt hiddenSrc "Line" 23 30 ] ++
     tokensOf hiddenSrc
       [ ("Keyword", 31, 39); ("Identifier", 40, 41); ("Punctuator", 41, 42);
         ("Punctuator", 42, 43); ("Punctuator", 44, 45);
         ("Punctuator", 45, 46) ])
    (program hiddenSrc []).

Definition hiddenF : Node :=
  nodeAt hiddenSrc 1 "FunctionDeclaration" 31 46 (inProgram [1%nat]).

(** A file that starts with two empty lines. *)
Definition leadingSrc : Js.text := source [""; ""; "function f() {}"].

Definition leading : SourceCode :=
  mkSourceCode leadingSrc
    (tokensOf leadingSrc
       [ ("Keyword", 2, 10); ("Identifier", 11, 12); ("Punctuator", 12, 13);
         ("Punctuator", 13, 14); ("Punctuator", 15, 16);
         ("Punctuator", 16, 17) ])
    (program leadingSrc []).

Definition leadingF : Node :=
  nodeAt leadingSrc 1 "FunctionDeclaration" 2 17 (inProgram [1%nat]).

(** A file that starts with a comment. *)
Definition topCommentSrc : Js.text := source ["// top"; "function f() {}"].

Definition topComment : SourceCode :=
  mkSourceCode topCommentSrc
    ([ commentAt topCommentSrc "Line" 0 6 ] ++
     tokensOf topCommentSrc
       [ ("Keyword", 7, 15); ("Identifier", 16, 17); ("Punctuator", 17, 18);
         ("Punctuator", 18, 19); ("Punctuator", 20, 21);
         ("Punctuator", 21, 22) ])
    (program topCommentSrc []).

Definition topCommentF : Node :=
  nodeAt topCommentSrc 1 "FunctionDeclaration" 7 22 (inProgram [1%nat]).

(** A file that ends with one line feed after its only function. *)
Definition trailingSrc : Js.text := source ["function f() {}"; ""].

Definition trailing : SourceCode :=
  mkSourceCode trailingSrc
    (tokensOf trailingSrc
       [ ("Keyword", 0, 8); ("Identifier", 9, 10); ("Punctuator", 10, 11);
         ("Punctuator", 11, 12); ("Punctuator", 13, 14);
         ("Punctuator", 14, 15) ])
    (program trailingSrc []).

Definition trailingF : Node :=
  nodeAt trailingSrc 1 "FunctionDeclaration" 0 15 (inProgram [1%nat]).

(** Two functions with a line comment between them. *)
Definition commentedSrc : Js.text :=
  source ["function f() {}"; "// about g"; "function g() {}"].

Definition commented : SourceCode :=
  mkSourceCode commentedSrc
    (tokensOf commentedSrc
       [ ("Keyword", 0, 8); ("Identifier", 9, 10); ("Punctuator", 10, 11);
         ("Punctuator", 11, 12); ("Punctuator", 13, 14);
         ("Punctuator", 14, 15) ] ++
     [ commentAt commentedSrc "Line" 16 26 ] ++
     tokensOf commentedSrc
       [ ("Keyword", 27, 35); ("Identifier", 36, 37); ("Punctuator", 37, 38);
         ("Punctuator", 38, 39); ("Punctuator", 40, 41);
         ("Punctuator", 41, 42) ])
    (program commentedSrc []).

Definition commentedF : Node :=
  nodeAt commentedSrc 1 "FunctionDeclaration" 0 15
    (inProgram [1%nat; 2%nat]).

Definition commentedG : Node :=
  nodeAt commentedSrc 2 "FunctionDeclaration" 27 42
    (inProgram [1%nat; 2%nat]).

(** A function under a documentation block and two line comments. *)
Definition annotatedSrc : Js.text :=
  source ["/** @returns x */"; "// a"; "// b"; "function f() {}"].

Definition annotated : SourceCode :=
  mkSourceCode annotatedSrc
    ([ commentAt annotatedSrc "Block" 0 17;
       commentAt annotatedSrc "Line" 18 22;
       commentAt annotatedSrc "Line" 23 27 ] ++
     tokensOf annotatedSrc
       [ ("Keyword", 28, 36); ("Identifier", 37, 38); ("Punctuator", 38, 39);
         ("Punctuator", 39, 40); ("Punctuator", 41, 42);
         ("Punctuator", 42, 43) ])
    (program annotatedSrc []).

Definition annotatedF : Node :=
  nodeAt annotatedSrc 1 "FunctionDeclaration" 28 43 (inProgram [1%nat]).

(** Options that switch one of the file-boundary checks on. *)
Definition atBeginning : BlockPadding.Options :=
  BlockPadding.mkOptions None None (Some true) None None None.

Definition atEnd : BlockPadding.Options :=
  BlockPadding.mkOptions None None None (Some true) None None.

End Padding.

(** *** A class with a constructor and a method on consecutive lines *)

Module ClassB.

Definition src : Js.text :=
  source ["class B {"; "  constructor() {}"; "  run() {}"; "}"].

Definition sourceCode : SourceCode :=
  mkSourceCode src
    (tokensOf src
       [ ("Keyword", 0, 5); ("Identifier", 6, 7); ("Punctuator", 8, 9);
         ("Identifier", 12, 23); ("Punctuator", 23, 24);
         ("Punctuator", 24, 25); ("Punctuator", 26, 27);
         ("Punctuator", 27, 28); ("Identifier", 31, 34);
         ("Punctuator", 34, 35); ("Punctuator", 35, 36);
         ("Punctuator", 37, 38); ("Punctuator", 38, 39);
         ("Punctuator", 40, 41) ])
    (program src []).

Definition ctor : ClassPropertyGrouping.Member :=
  ClassPropertyGrouping.mkMember
    (nodeAt src 3 "MethodDefinition" 12 28 (inside_ "ClassBody"))
    "constructor" false (ClassPropertyGrouping.Identifier "constructor").

Definition run : ClassPropertyGrouping.Member :=
  ClassPropertyGrouping.mkMember
    (nodeAt src 4 "MethodDefinition" 31 39 (inside_ "ClassBody"))
    "method" false (ClassPropertyGrouping.Identifier "run").

Definition body : list ClassPropertyGrouping.Member := [ctor; run].

(** Options that switch the alphabetical check on. *)
Definition sorted : ClassPropertyGrouping.Options :=
  ClassPropertyGrouping.mkOptions None None (Some true).

(** A comparison of names by their first differing character. *)
Definition byCode (a b : string) : Z :=
  match String.compare a b with
  | Lt => -1
  | Eq => 0
  | Gt => 1
  end.

(** The members with the default groups they match. *)
Definition members
  : list (ClassPropertyGrouping.Member * option ClassPropertyGrouping.Group) :=
  [ (ctor, Some (ClassPropertyGrouping.mkGroup "constructor"
                   (Some ["MethodDefinition"]) (Some ["constructor"]) 3));
    (run, Some (ClassPropertyGrouping.mkGroup "instance-methods"
                  (Some ["MethodDefinition"]) (Some []) 4)) ].

End ClassB.

(** *** A class with a property between two methods *)

Module ClassC.

Definition src : Js.text :=
  source ["class C {"; "  b() {}"; "  x = 1;"; "  a() {}"; "}"].

Definition b : ClassPropertyGrouping.Member :=
  ClassPropertyGrouping.mkMember
    (nodeAt src 3 "MethodDefinition" 12 18 (inside_ "ClassBody"))
    "method" false (ClassPropertyGrouping.Identifier "b").

Definition x : ClassPropertyGrouping.Member :=
  ClassPropertyGrouping.mkMember
    (nodeAt src 4 "PropertyDefinition" 21 27 (inside_ "ClassBody"))
    "" false (ClassPropertyGrouping.Identifier "x").

Definition a : ClassPropertyGrouping.Member :=
  ClassPropertyGrouping.mkMember
    (nodeAt src 5 "MethodDefinition" 30 36 (inside_ "ClassBody"))
    "method" false (ClassPropertyGrouping.Identifier "a").

(** The members with the default groups they match. *)
Definition members
  : list (ClassPropertyGrouping.Member * option ClassPropertyGrouping.Group) :=
  [ (b, Some (ClassPropertyGrouping.mkGroup "instance-methods"
                (Some ["MethodDefinition"]) (Some []) 4));
    (x, Some (ClassPropertyGrouping.mkGroup "instance-properties"
                (Some ["ClassProperty"]) (Some []) 2));
    (a, Some (ClassPropertyGrouping.mkGroup "instance-methods"
                (Some ["MethodDefinition"]) (Some []) 4)) ].

End ClassC.


(** *** An import and a function with one empty line between them *)

Module Mixed.

Definition src : Js.text :=
  source ["import a from 'x';"; ""; "function f() {}"].

Definition tokens : list Token :=
  tokensOf src
    [ ("Keyword", 0, 6); ("Identifier", 7, 8); ("Keyword", 9, 13);
      ("String", 14, 17); ("Punctuator", 17, 18);
      ("Keyword", 20, 28); ("Identifier", 29, 30); ("Punctuator", 30, 31);
      ("Punctuator", 31, 32); ("Punctuator", 33, 34);
      ("Punctuator", 34, 35) ].

Definition imported : Node :=
  nodeAt src 1 "ImportDeclaration" 0 18 (inProgram [1%nat; 5%nat]).

Definition f : Node :=
  nodeAt src 5 "FunctionDeclaration" 20 35 (inProgram [1%nat; 5%nat]).

Definition sourceCode : SourceCode :=
  mkSourceCode src tokens
    (program src
       [ AstNode imported
           [ AstNode
               (nodeAt src 2 "ImportDefaultSpecifier" 7 8
                  (inside_ "ImportDeclaration"))
               [ leaf (nodeAt src 3 "Identifier" 7 8
                         (inside_ "ImportDefaultSpecifier")) ];
             leaf (nodeAt src 4 "Literal" 14 17
                     (inside_ "ImportDeclaration")) ];
         AstNode f
           [ leaf (nodeAt src 6 "Identifier" 29 30
                     (inside_ "FunctionDeclaration"));
             leaf (nodeAt src 7 "BlockStatement" 33 35
                     (inside_ "FunctionDeclaration")) ] ]).

End Mixed.

(** *** Two declarations with type annotations

    The pattern of each declarator spans its annotation. *)

Module Typed.

Definition src : Js.text :=
  source ["const a: number = 1;"; "const bb: string = 2;"].

Definition tokens : list Token :=
  tokensOf src
    [ ("Keyword", 0, 5); ("Identifier", 6, 7); ("Punctuator", 7, 8);
      ("Identifier", 9, 15); ("Punctuator", 16, 17); ("Numeric", 18, 19);
      ("Punctuator", 19, 20);
      ("Keyword", 21, 26); ("Identifier", 27, 29); ("Punctuator", 29, 30);
      ("Identifier", 31, 37); ("Punctuator", 38, 39); ("Numeric", 40, 41);
      ("Punctuator", 41, 42) ].

Definition sourceCode : SourceCode :=
  mkSourceCode src tokens (program src []).

Definition declA : AlignedAssignments.Declarator :=
  AlignedAssignments.mkDeclarator
    (nodeAt src 2 "VariableDeclarator" 6 19 (inside_ "VariableDeclaration"))
    (AlignedAssignments.mkPattern
       (nodeAt src 3 "Identifier" 6 15 (inside_ "VariableDeclarator"))
       (Some (nodeAt src 4 "TSTypeAnnotation" 7 15 (inside_ "Identifier"))))
    (Some (nodeAt src 5 "Literal" 18 19 (inside_ "VariableDeclarator")))
    "const".

Definition declBb : AlignedAssignments.Declarator :=
  AlignedAssignments.mkDeclarator
    (nodeAt src 7 "VariableDeclarator" 27 41 (inside_ "VariableDeclaration"))
    (AlignedAssignments.mkPattern
       (nodeAt src 8 "Identifier" 27 37 (inside_ "VariableDeclarator"))
       (Some (nodeAt src 9 "TSTypeAnnotation" 29 37 (inside_ "Identifier"))))
    (Some (nodeAt src 10 "Literal" 40 41 (inside_ "VariableDeclarator")))
    "const".

Definition body : list AlignedAssignments.Statement :=
  [ AlignedAssignments.mkStatement "VariableDeclaration" [declA];
    AlignedAssignments.mkStatement "VariableDeclaration" [declBb] ].

End Typed.

End Samples.

(** * Properties of the rules *)

Import ESLint.

(** ** Text primitives *)

Lemma length_nonneg (s : Js.text) : 0 <= Js.length s.
Proof. unfold Js.length. lia. Qed.

Lemma slice_prefix (s : Js.text) (e : Z) :
  0 <= e <= Js.length s -> Js.slice s 0 e = firstn (Z.to_nat e) s.
Proof.
  intros He. unfold Js.slice, Js.relIndex.
  change (0 <? 0) with false. cbv iota.
  destruct (e <? 0) eqn:E; [apply Z.ltb_lt in E; lia|].
  rewrite !Z.min_l by lia. rewrite Z.sub_0_r. reflexivity.
Qed.

Lemma sliceFrom_suffix (s : Js.text) (b : Z) :
  0 <= b <= Js.length s -> Js.sliceFrom s b = skipn (Z.to_nat b) s.
Proof.
  intros Hb. unfold Js.sliceFrom, Js.slice, Js.relIndex.
  destruct (b <? 0) eqn:E; [apply Z.ltb_lt in E; lia|].
  destruct (Js.length s <? 0) eqn:E'.
  { apply Z.ltb_lt in E'. pose proof (length_nonneg s). lia. }
  rewrite !Z.min_l by lia.
  apply firstn_all2. rewrite length_skipn. unfold Js.length in *. lia.
Qed.

(** Applying an edit keeps the text before and after its range. *)
Lemma applyFix_frame (src : Js.text) (from to : Z) (t : Js.text) :
  0 <= from <= to -> to <= Js.length src ->
  applyFix src (replaceTextRange (from, to) t) =
  firstn (Z.to_nat from) src ++ t ++ skipn (Z.to_nat to) src.
Proof.
  intros H1 H2. unfold applyFix, replaceTextRange. cbn [fix_range fix_text fst snd].
  rewrite slice_prefix by lia. rewrite sliceFrom_suffix by lia. reflexivity.
Qed.

Lemma repeat_char (c : ascii) (n : Z) :
  0 <= n -> Js.repeat [c] n = Js.Ok (List.repeat c (Z.to_nat n)).
Proof.
  intros Hn. unfold Js.repeat.
  destruct (n <? 0) eqn:E; [apply Z.ltb_lt in E; lia|].
  f_equal. induction (Z.to_nat n) as [|k IH]; cbn; [reflexivity|].
  now rewrite IH.
Qed.

(** The primitives on small inputs. *)
Lemma text_primitives_examples :
  Js.slice (Js.str "abcdef") (-3) (-1) = Js.str "de" /\
  Js.substring (Js.str "abcdef") 4 1 = Js.str "bcd" /\
  Js.repeat (Js.str "ab") 2 = Js.Ok (Js.str "abab") /\
  Js.repeat (Js.str " ") (-1) = Js.Throw Js.RangeError /\
  Js.indexOf (Js.str "key: 1") (Js.str ":") = 3 /\
  Js.indexOf (Js.str "key") (Js.str ":") = -1 /\
  Js.join (Js.str ", ") [Js.str "1"; Js.str "2"] = Js.str "1, 2" /\
  Js.collapseNewlines false
    (Js.join [Js.newline] (map Js.str ["["; "  1,"; ""; "  2"; "]"]))
    = Js.str "[ 1, 2 ]" /\
  Js.mathMax [] = None /\
  Js.mathMax [8; 15; 3] = Some 15.
Proof. repeat split; reflexivity. Qed.

Lemma docstring_pattern_examples :
  Regex.test BlockPadding.docstringPattern (Js.str " @see other ") = true /\
  Regex.test BlockPadding.docstringPattern (Js.str " parameters ") = true /\
  Regex.test BlockPadding.docstringPattern (Js.str " Returns x ") = false /\
  Regex.test BlockPadding.docstringPattern (Js.str " a @ b ") = false.
Proof. repeat split; reflexivity. Qed.

(** ** The sample sources

    The hand-written token spans cut the texts into the intended tokens,
    and the node spans into the intended pieces. *)

Lemma consts_tokens :
  map value Samples.Consts.tokens =
    map Js.str ["const"; "a"; "="; "1"; ";";
                "const"; "longName"; "="; "2"; ";"] /\
  map value Samples.Consts.fixedTokens =
    map Js.str ["const"; "a"; "="; "1"; ";";
                "const"; "longName"; "="; "2"; ";"] /\
  getTextOf Samples.Consts.sourceCode Samples.Consts.declA = Js.str "a = 1" /\
  getTextOf Samples.Consts.sourceCode Samples.Consts.declLongName
    = Js.str "longName = 2" /\
  getTextOf Samples.Consts.fixedSourceCode Samples.Consts.fixedDeclA
    = Js.str "a              = 1" /\
  getTextOf Samples.Consts.fixedSourceCode Samples.Consts.fixedDeclLongName
    = Js.str "longName = 2".
Proof. repeat split; reflexivity. Qed.

Lemma statements_tokens :
  map value (tokensAndComments Samples.Exports.sourceCode) =
    map Js.str ["export"; "const"; "a"; "="; "1"; ";";
                "export"; "const"; "b"; "="; "2"; ";"] /\
  getTextOf Samples.Exports.sourceCode Samples.Exports.first
    = Js.str "export const a = 1;" /\
  getTextOf Samples.Exports.sourceCode Samples.Exports.second
    = Js.str "export const b = 2;" /\
  map value (tokensAndComments Samples.Imports.sourceCode) =
    map Js.str ["import"; "a"; "from"; "'x'"; ";";
                "import"; "b"; "from"; "'y'"; ";"] /\
  getTextOf Samples.Imports.sourceCode Samples.Imports.first
    = Js.str "import a from 'x';" /\
  getTextOf Samples.Imports.sourceCode Samples.Imports.second
    = Js.str "import b from 'y';" /\
  map value (tokensAndComments Samples.Functions.sourceCode) =
    map Js.str ["function"; "f"; "("; ")"; "{"; "}";
                "function"; "g"; "("; ")"; "{"; "}"] /\
  getTextOf Samples.Functions.sourceCode Samples.Functions.f
    = Js.str "function f() {}" /\
  getTextOf Samples.Functions.sourceCode Samples.Functions.g
    = Js.str "function g() {}".
Proof. repeat split; reflexivity. Qed.

Lemma literals_tokens :
  map value (tokensAndComments Samples.Objects.bare) =
    map Js.str ["x"; "="; "{"; "a"; ":"; "1"; "}"; ";"] /\
  map value (tokensAndComments Samples.Objects.commented) =
    map Js.str ["x"; "="; "{"; "a"; ":"; "1"; "/* one */"; ","; "}"; ";"] /\
  map value (tokensAndComments Samples.Objects.usual) =
    map Js.str ["const"; "x"; "="; "{"; "a"; ":"; "1"; "}"; ";"] /\
  map (getTextOf Samples.Objects.usual)
    (MultilineFormat.properties Samples.Objects.usualObject)
    = [Js.str "a: 1"] /\
  map value (tokensAndComments Samples.Arrays.two) =
    map Js.str ["x"; "="; "["; "1"; ","; "2"; "]"; ";"] /\
  getTextOf Samples.Arrays.two Samples.Arrays.twoArray = Js.str "[1, 2]" /\
  map value (tokensAndComments Samples.Arrays.three) =
    map Js.str ["x"; "="; "["; "1"; ","; "2"; ","; "3"; "]"; ";"] /\
  getTextOf Samples.Arrays.three Samples.Arrays.threeArray
    = Js.str "[1, 2, 3]".
Proof. repeat split; reflexivity. Qed.

(** ** Blank-line arithmetic *)

(** C2. For anchors [a] and [b] with [b] starting on a later line than
    [a] ends, the blank-line count of both padding rules is the start line
    of [b] minus the end line of [a] minus one; it is never negative, and
    it is zero when [b] starts on the line right after [a] ends. *)
Theorem blank_lines_between_arithmetic :
  forall (A B : Type) (LA : Located A) (LB : Located B) (a : A) (b : B),
    line (end_ (loc a)) < line (start (loc b)) ->
    ConsistentLineSpacing.getBlankLinesBetween a b =
      line (start (loc b)) - line (end_ (loc a)) - 1 /\
    BlockPadding.getBlankLinesBetween a b =
      line (start (loc b)) - line (end_ (loc a)) - 1 /\
    0 <= BlockPadding.getBlankLinesBetween a b /\
    (line (start (loc b)) = line (end_ (loc a)) + 1 ->
     BlockPadding.getBlankLinesBetween a b = 0).
Proof.
  intros A B LA LB a b Hlater.
  unfold ConsistentLineSpacing.getBlankLinesBetween,
    BlockPadding.getBlankLinesBetween.
  repeat split; try reflexivity; lia.
Qed.

Lemma blank_lines_between_witness :
  line (end_ (loc Samples.Functions.f)) <
    line (start (loc Samples.Functions.g)) /\
  BlockPadding.getBlankLinesBetween Samples.Functions.f Samples.Functions.g
    = 0.
Proof.
  split; [reflexivity|].
  apply (blank_lines_between_arithmetic _ _ _ _
           Samples.Functions.f Samples.Functions.g); reflexivity.
Defined.

(** ** Statement spacing *)

(** C9. A node with no token or comment before it gets no diagnostic from
    the before check, and one with none after it gets none from the after
    check; both checks are total functions, so nothing is thrown either. *)
Theorem missing_neighbor_skips_check :
  forall sc opts (n : Node) (requiredLines : Z) (nodeType : string),
    (getTokenBefore sc n (withComments true) = None ->
     ConsistentLineSpacing.checkLinesBefore sc opts n requiredLines nodeType
       = []) /\
    (getTokenAfter sc n (withComments true) = None ->
     ConsistentLineSpacing.checkLinesAfter sc opts n requiredLines nodeType
       = []).
Proof.
  intros sc opts n requiredLines nodeType. split; intros Hnone.
  - unfold ConsistentLineSpacing.checkLinesBefore. rewrite Hnone.
    repeat match goal with |- context [if ?c then _ else _] =>
      destruct c end; reflexivity.
  - unfold ConsistentLineSpacing.checkLinesAfter. rewrite Hnone.
    repeat match goal with |- context [if ?c then _ else _] =>
      destruct c end; reflexivity.
Qed.

Lemma missing_neighbor_witness :
  getTokenBefore Samples.SingleImport.sourceCode Samples.SingleImport.only
    (withComments true) = None /\
  getTokenAfter Samples.SingleImport.sourceCode Samples.SingleImport.only
    (withComments true) = None /\
  ConsistentLineSpacing.checkLinesBefore Samples.SingleImport.sourceCode
    ConsistentLineSpacing.noOptions Samples.SingleImport.only 1
    "import declaration" = [] /\
  ConsistentLineSpacing.checkLinesAfter Samples.SingleImport.sourceCode
    ConsistentLineSpacing.noOptions Samples.SingleImport.only 1
    "import declaration" = [].
Proof.
  pose proof (missing_neighbor_skips_check Samples.SingleImport.sourceCode
                ConsistentLineSpacing.noOptions Samples.SingleImport.only 1
                "import declaration") as [Hb Ha].
  split; [reflexivity|]. split; [reflexivity|].
  split; [apply Hb | apply Ha]; reflexivity.
Defined.

(** ** The node found at a position *)

Lemma deepestNode_outside index (t : Ast) :
  containsIndex (Expected.root t) index = false ->
  deepestNode index t = None.
Proof.
  destruct t as [n children]. cbn [Expected.root deepestNode].
  intros ->. reflexivity.
Qed.

(** A node that holds the position is the node found there when none of
    its children holds it. *)
Lemma deepestNode_own index (n : Node) (children : list Ast) :
  containsIndex n index = true ->
  Forall (fun c => containsIndex (Expected.root c) index = false) children ->
  deepestNode index (AstNode n children) = Some n.
Proof.
  intros Hin Hout. cbn [deepestNode]. rewrite Hin.
  induction Hout as [|c rest Hc _ IH]; [reflexivity|].
  rewrite (deepestNode_outside index c Hc). exact IH.
Qed.

(** The children that do not hold the position are passed over. *)
Lemma deepestNode_passes index (n : Node) (earlier later : list Ast)
  (c : Ast) (r : Node) :
  containsIndex n index = true ->
  Forall (fun c => containsIndex (Expected.root c) index = false) earlier ->
  deepestNode index c = Some r ->
  deepestNode index (AstNode n (earlier ++ c :: later)) = Some r.
Proof.
  intros Hin Hout Hc. cbn [deepestNode]. rewrite Hin.
  induction Hout as [|e rest He _ IH].
  - cbn [app]. rewrite Hc. reflexivity.
  - cbn [app]. rewrite (deepestNode_outside index e He). exact IH.
Qed.

Lemma ownPosition_lookup sc (statement : Node) index :
  Expected.ownPosition sc statement index ->
  getNodeByRangeIndex sc index = Some statement.
Proof.
  intros [program [earlier [parts [later [Hast [Hprogram [Hearlier
            [Hin Hparts]]]]]]]].
  unfold getNodeByRangeIndex. rewrite Hast.
  apply deepestNode_passes; [assumption | assumption |].
  apply deepestNode_own; assumption.
Qed.

(** ** Imports next to imports *)

Section ImportGroups.

Import ConsistentLineSpacing.

Variable sc : SourceCode.
Variable opts : Options.

Lemma checkLinesBefore_skipped (n p : Node) (t : Token) requiredLines
  nodeType :
  skipImportGroups opts = true ->
  isImport n = true ->
  getPrevNonCommentToken sc n = Some t ->
  getNodeByRangeIndex sc (fst (range t)) = Some p ->
  isImport p = true ->
  checkLinesBefore sc opts n requiredLines nodeType = [].
Proof.
  intros Hskip Himport Htok Hnode Hp. unfold checkLinesBefore.
  rewrite Htok, Hnode, Hskip, Himport, Hp. cbn [andb].
  destruct (_ && _); reflexivity.
Qed.

Lemma checkLinesAfter_skipped (n p : Node) (t : Token) requiredLines
  nodeType :
  skipImportGroups opts = true ->
  isImport n = true ->
  getNextNonCommentToken sc n = Some t ->
  getNodeByRangeIndex sc (fst (range t)) = Some p ->
  isImport p = true ->
  checkLinesAfter sc opts n requiredLines nodeType = [].
Proof.
  intros Hskip Himport Htok Hnode Hp. unfold checkLinesAfter.
  rewrite Htok, Hnode, Hskip, Himport, Hp. cbn [andb].
  destruct (_ && _); reflexivity.
Qed.

(** Where the guard of the exemption is false the check is the one made
    with the option off. *)
Lemma checkLinesBefore_not_exempt (n : Node) requiredLines nodeType :
  isImport n &&
  match match getPrevNonCommentToken sc n with
        | Some t => getNodeByRangeIndex sc (fst (range t))
        | None => None
        end with
  | Some p => isImport p
  | None => false
  end = false ->
  checkLinesBefore sc opts n requiredLines nodeType =
  checkLinesBefore sc (Expected.checkingImportGroups opts) n requiredLines
    nodeType.
Proof.
  intros Hguard. unfold checkLinesBefore.
  change (ignoreTopLevelCode (Expected.checkingImportGroups opts))
    with (ignoreTopLevelCode opts).
  change (skipImportGroups (Expected.checkingImportGroups opts)) with false.
  rewrite <- andb_assoc, Hguard, andb_false_r. reflexivity.
Qed.

Lemma checkLinesAfter_not_exempt (n : Node) requiredLines nodeType :
  isImport n &&
  match match getNextNonCommentToken sc n with
        | Some t => getNodeByRangeIndex sc (fst (range t))
        | None => None
        end with
  | Some p => isImport p
  | None => false
  end = false ->
  checkLinesAfter sc opts n requiredLines nodeType =
  checkLinesAfter sc (Expected.checkingImportGroups opts) n requiredLines
    nodeType.
Proof.
  intros Hguard. unfold checkLinesAfter.
  change (ignoreTopLevelCode (Expected.checkingImportGroups opts))
    with (ignoreTopLevelCode opts).
  change (skipImportGroups (Expected.checkingImportGroups opts)) with false.
  rewrite <- andb_assoc, Hguard, andb_false_r. reflexivity.
Qed.

End ImportGroups.

(** C5, as the code has it.  With [skipImportGroups] on, between two
    import declarations the before check of the later one is skipped when
    the non-comment token before it is at a position of the earlier
    import itself, and the after check of the earlier one when the
    non-comment token after it is at a position of the later import
    itself; nothing is reported for their adjacency then.  A node of any
    other category has no exemption: its checks are the ones made with
    the option off. *)
Theorem import_adjacency_exempt :
  forall sc opts (requiredLines : Z) (nodeType : string),
    ConsistentLineSpacing.skipImportGroups opts = true ->
    (forall a b : Node,
        ConsistentLineSpacing.isImport a = true ->
        ConsistentLineSpacing.isImport b = true ->
        (forall t,
            ConsistentLineSpacing.getPrevNonCommentToken sc b = Some t ->
            Expected.ownPosition sc a (fst (range t)) ->
            ConsistentLineSpacing.checkLinesBefore sc opts b requiredLines
              nodeType = []) /\
        (forall t,
            ConsistentLineSpacing.getNextNonCommentToken sc a = Some t ->
            Expected.ownPosition sc b (fst (range t)) ->
            ConsistentLineSpacing.checkLinesAfter sc opts a requiredLines
              nodeType = [])) /\
    (forall n : Node,
        ConsistentLineSpacing.isImport n = false ->
        ConsistentLineSpacing.checkLinesBefore sc opts n requiredLines
          nodeType =
        ConsistentLineSpacing.checkLinesBefore sc
          (Expected.checkingImportGroups opts) n requiredLines nodeType /\
        ConsistentLineSpacing.checkLinesAfter sc opts n requiredLines
          nodeType =
        ConsistentLineSpacing.checkLinesAfter sc
          (Expected.checkingImportGroups opts) n requiredLines nodeType).
Proof.
  intros sc opts requiredLines nodeType Hskip. split.
  - intros a b Ha Hb. split; intros t Htok Hown.
    + apply (checkLinesBefore_skipped sc opts b a t); try assumption.
      apply ownPosition_lookup, Hown.
    + apply (checkLinesAfter_skipped sc opts a b t); try assumption.
      apply ownPosition_lookup, Hown.
  - intros n Hn. split.
    + apply checkLinesBefore_not_exempt. rewrite Hn. reflexivity.
    + apply checkLinesAfter_not_exempt. rewrite Hn. reflexivity.
Qed.

(** Two imports on consecutive lines, each closed by a semicolon, default
    options: no diagnostic at either of them.  The semicolon before the
    second and the keyword after the first are at positions of the
    neighbouring import itself.  A function after an import is checked as
    with the option off. *)
Lemma import_adjacency_witness :
  ConsistentLineSpacing.skipImportGroups ConsistentLineSpacing.noOptions
    = true /\
  Expected.blankLines Samples.Imports.first Samples.Imports.second = 0 /\
  ConsistentLineSpacing.checkLinesBefore Samples.Imports.sourceCode
    ConsistentLineSpacing.noOptions Samples.Imports.second 1
    "import declaration" = [] /\
  ConsistentLineSpacing.checkLinesAfter Samples.Imports.sourceCode
    ConsistentLineSpacing.noOptions Samples.Imports.first 1
    "import declaration" = [] /\
  ConsistentLineSpacing.isImport Samples.Mixed.f = false /\
  ConsistentLineSpacing.checkLinesBefore Samples.Mixed.sourceCode
    ConsistentLineSpacing.noOptions Samples.Mixed.f 2
    "function declaration" =
  ConsistentLineSpacing.checkLinesBefore Samples.Mixed.sourceCode
    (Expected.checkingImportGroups ConsistentLineSpacing.noOptions)
    Samples.Mixed.f 2 "function declaration".
Proof.
  assert (Hsemicolon : Expected.ownPosition Samples.Imports.sourceCode
            Samples.Imports.first 17).
  { exists (nodeAt Samples.Imports.src 0 "Program" 0
              (Js.length Samples.Imports.src) None),
      [], (Samples.Imports.parts 1 0),
      [AstNode Samples.Imports.second (Samples.Imports.parts 5 19)].
    split; [reflexivity|]. split; [reflexivity|]. split; [constructor|].
    split; [reflexivity|].
    repeat constructor. }
  assert (Hkeyword : Expected.ownPosition Samples.Imports.sourceCode
            Samples.Imports.second 19).
  { exists (nodeAt Samples.Imports.src 0 "Program" 0
              (Js.length Samples.Imports.src) None),
      [AstNode Samples.Imports.first (Samples.Imports.parts 1 0)],
      (Samples.Imports.parts 5 19), [].
    split; [reflexivity|]. split; [reflexivity|].
    split; [repeat constructor|]. split; [reflexivity|].
    repeat constructor. }
  destruct (import_adjacency_exempt Samples.Imports.sourceCode
              ConsistentLineSpacing.noOptions 1 "import declaration"
              eq_refl) as [Himports _].
  destruct (Himports Samples.Imports.first Samples.Imports.second
              eq_refl eq_refl) as [Hbefore Hafter].
  destruct (import_adjacency_exempt Samples.Mixed.sourceCode
              ConsistentLineSpacing.noOptions 2 "function declaration"
              eq_refl) as [_ Hothers].
  split; [reflexivity|]. split; [reflexivity|]. split.
  - exact (Hbefore (tokenAt Samples.Imports.src "Punctuator" 17 18)
             eq_refl Hsemicolon).
  - split.
    + exact (Hafter (tokenAt Samples.Imports.src "Keyword" 19 25)
               eq_refl Hkeyword).
    + split; [reflexivity|].
      exact (proj1 (Hothers Samples.Mixed.f eq_refl)).
Defined.

(** C5 as stated fails for export declarations: with [skipImportGroups]
    on and default options, the second of two exports on consecutive
    lines is reported by the before check, and the first by the after
    check. *)
Lemma export_adjacency_not_exempt :
  ConsistentLineSpacing.skipImportGroups ConsistentLineSpacing.noOptions
    = true /\
  ConsistentLineSpacing.isExport Samples.Exports.first = true /\
  ConsistentLineSpacing.isExport Samples.Exports.second = true /\
  map messageId
    (ConsistentLineSpacing.visit Samples.Exports.sourceCode
       ConsistentLineSpacing.noOptions Samples.Exports.second)
    = ["missingLinesBefore"] /\
  map messageId
    (ConsistentLineSpacing.visit Samples.Exports.sourceCode
       ConsistentLineSpacing.noOptions Samples.Exports.first)
    = ["missingLinesAfter"].
Proof. repeat split; vm_compute; reflexivity. Qed.

(** ** Collections with no items *)

(** C10. An object literal without properties and an array literal
    without elements get no diagnostic (hence no fix), whatever the
    options and the text are. *)
Theorem empty_literals_exempt :
  forall sc opts (c : MultilineFormat.Collection),
    (MultilineFormat.properties c = [] ->
     MultilineFormat.processObjectExpression sc opts c = Js.Ok []) /\
    (MultilineFormat.elements c = [] ->
     MultilineFormat.processArrayExpression sc opts c = Js.Ok []).
Proof.
  intros sc opts c. split; intros Hempty.
  - unfold MultilineFormat.processObjectExpression. rewrite Hempty.
    reflexivity.
  - unfold MultilineFormat.processArrayExpression. rewrite Hempty.
    reflexivity.
Qed.

(** The empty literals under [multilineStyle = "always"], where a literal
    with items would have to be multiline. *)
Lemma empty_literals_witness :
  MultilineFormat.multilineStyle (Samples.Arrays.styled "always")
    = "always" /\
  MultilineFormat.processObjectExpression Samples.Objects.empty
    (Samples.Arrays.styled "always") Samples.Objects.emptyObject
    = Js.Ok [] /\
  MultilineFormat.processArrayExpression Samples.Arrays.empty
    (Samples.Arrays.styled "always") Samples.Arrays.emptyArray
    = Js.Ok [].
Proof.
  split; [reflexivity|]. split.
  - apply (proj1 (empty_literals_exempt Samples.Objects.empty
                    (Samples.Arrays.styled "always")
                    Samples.Objects.emptyObject)).
    reflexivity.
  - apply (proj2 (empty_literals_exempt Samples.Arrays.empty
                    (Samples.Arrays.styled "always")
                    Samples.Arrays.emptyArray)).
    reflexivity.
Defined.

(** ** Root-level padding *)

Lemma adjacentPairs_cons {A} (a b : A) (rest : list A) :
  Expected.adjacentPairs (a :: b :: rest) =
  (a, b) :: Expected.adjacentPairs (b :: rest).
Proof. reflexivity. Qed.

Lemma checkRootLevelBlankLines_cons sc opts (current next : Node) rest :
  BlockPadding.checkRootLevelBlankLines sc opts (current :: next :: rest) =
  (if negb (BlockPadding.getBlankLinesBetween current next =?
            BlockPadding.rootBlockPadding opts)
   then
     [ {| node := next;
          messageId := "missingPaddingBetweenRootBlocks";
          data := [ ("expected", DNum (BlockPadding.rootBlockPadding opts));
                    ("actual",
                     DNum (BlockPadding.getBlankLinesBetween current next));
                    ("lineText",
                     DStr (BlockPadding.lineText
                             (BlockPadding.rootBlockPadding opts))) ];
          fix_ := Some (fixOf (
            e <- Js.deref (getLastToken sc current) ;;
            s <- Js.deref (getFirstToken sc next) ;;
            newLines <- Js.repeat [Js.newline]
                          (BlockPadding.rootBlockPadding opts + 1) ;;
            Js.Ok (replaceTextRange (snd (range e), fst (range s))
                     newLines))) |} ]
   else []) ++
  BlockPadding.checkRootLevelBlankLines sc opts (next :: rest).
Proof. reflexivity. Qed.

(** C6 does not hold of the code where a comment stands between two
    root-level siblings.  In

      function f() {}
      // about g
      function g() {}

    with the default options the pair is reported, one blank line counted
    against the two required.  The anchor before [g] is the comment, which
    ends at 26, and [g] starts at 27: the edit the specification describes
    replaces that one line feed by three and keeps the comment.  The edit
    the rule offers starts at the end of the last token of [f], at 15, and
    applying it deletes the comment. *)
Theorem root_padding_fix_deletes_comment :
  let sc := Samples.Padding.commented in
  let f := Samples.Padding.commentedF in
  let g := Samples.Padding.commentedG in
  BlockPadding.rootBlockPadding BlockPadding.noOptions = 2 /\
  Expected.blankLines f g = 1 /\
  Expected.previousAnchor sc g =
    Some (Samples.Padding.commentAt Samples.Padding.commentedSrc "Line"
            16 26) /\
  fix_ (Expected.rootPaddingReport sc 2 f g) =
    Some (Fixed (Expected.gapEdit 26 27 2)) /\
  map fix_ (BlockPadding.checkRootLevelBlankLines sc BlockPadding.noOptions
              [f; g]) =
    [Some (Fixed (Expected.gapEdit 15 27 2))] /\
  BlockPadding.checkRootLevelBlankLines sc BlockPadding.noOptions [f; g] <>
    [Expected.rootPaddingReport sc 2 f g] /\
  applyFix Samples.Padding.commentedSrc (Expected.gapEdit 26 27 2) =
    Samples.source
      ["function f() {}"; "// about g"; ""; ""; "function g() {}"] /\
  applyFix Samples.Padding.commentedSrc (Expected.gapEdit 15 27 2) =
    Samples.source ["function f() {}"; ""; ""; "function g() {}"].
Proof.
  intros sc f g.
  split; [reflexivity|]. split; [reflexivity|]. split; [reflexivity|].
  split; [reflexivity|]. split; [reflexivity|]. split.
  - intros H. apply (f_equal (map fix_)) in H. vm_compute in H.
    discriminate H.
  - split; reflexivity.
Qed.

(** ** Order of member groups *)

Section GroupOrder.

Import ClassPropertyGrouping.

Lemma matched_cons_some (m : Member) (g : Group) rest :
  Expected.matched ((m, Some g) :: rest) = (m, g) :: Expected.matched rest.
Proof. reflexivity. Qed.

Lemma matched_cons_none (m : Member) rest :
  Expected.matched ((m, None) :: rest) = Expected.matched rest.
Proof. reflexivity. Qed.

(** Once a member has matched, the loop reports the decreases among the
    pairs that start with that member. *)
Lemma checkGroupOrderFrom_after (members : list (Member * option Group)) :
  forall (m0 : Member) (g0 : Group),
    checkGroupOrderFrom (order g0) (Some g0) members =
    Js.Ok (map Expected.orderViolation
             (List.filter Expected.decreases
                (Expected.adjacentPairs ((m0, g0) :: Expected.matched members)))).
Proof.
  induction members as [|[m [g|]] rest IH]; intros m0 g0.
  - reflexivity.
  - rewrite matched_cons_some, adjacentPairs_cons.
    cbn [checkGroupOrderFrom List.filter]. rewrite (IH m g).
    change (Expected.decreases (m0, g0, (m, g)))
      with (order g <? order g0).
    destruct (order g <? order g0); reflexivity.
  - rewrite matched_cons_none. cbn [checkGroupOrderFrom]. apply IH.
Qed.

(** Before any member has matched, nothing is reported when the orders
    respect the schema's minimum. *)
Lemma checkGroupOrder_start (members : list (Member * option Group)) :
  (forall m g, In (m, Some g) members -> 0 <= order g) ->
  checkGroupOrderFrom (-1) None members =
  Js.Ok (map Expected.orderViolation
           (List.filter Expected.decreases
              (Expected.adjacentPairs (Expected.matched members)))).
Proof.
  induction members as [|[m [g|]] rest IH]; intros Hmin.
  - reflexivity.
  - rewrite matched_cons_some. cbn [checkGroupOrderFrom].
    assert (Hg : 0 <= order g) by (apply (Hmin m); left; reflexivity).
    destruct (order g <? -1) eqn:E; [apply Z.ltb_lt in E; lia|].
    rewrite (checkGroupOrderFrom_after rest m g). reflexivity.
  - rewrite matched_cons_none. cbn [checkGroupOrderFrom]. apply IH.
    intros m' g' Hin. apply (Hmin m'). right. exact Hin.
Qed.

Lemma no_decrease_sorted (l : list (Member * Group)) :
  List.filter Expected.decreases (Expected.adjacentPairs l) = [] ->
  Sorted Expected.orderLe l.
Proof.
  induction l as [|a rest IH]; intros Hnone; [constructor|].
  destruct rest as [|b rest]; [repeat constructor|].
  rewrite adjacentPairs_cons in Hnone. cbn [List.filter] in Hnone.
  destruct (Expected.decreases (a, b)) eqn:E; [discriminate|].
  constructor; [apply IH, Hnone|]. constructor.
  unfold Expected.decreases in E. cbn [fst snd] in E.
  apply Z.ltb_ge in E. exact E.
Qed.

Lemma orderLe_trans : Relations_1.Transitive Expected.orderLe.
Proof.
  unfold Relations_1.Transitive, Expected.orderLe. intros; lia.
Qed.

Lemma strongly_sorted_nth (l : list (Member * Group)) :
  StronglySorted Expected.orderLe l ->
  forall i j x y, (i < j)%nat ->
    nth_error l i = Some x -> nth_error l j = Some y -> Expected.orderLe x y.
Proof.
  induction 1 as [|a l Hl IH Hall]; intros i j x y Hij Hi Hj.
  - destruct i; discriminate.
  - destruct j as [|j]; [lia|]. cbn in Hj. destruct i as [|i].
    + cbn in Hi. injection Hi as <-.
      rewrite Forall_forall in Hall. apply Hall.
      eapply nth_error_In, Hj.
    + cbn in Hi. apply (IH i j); [lia|assumption|assumption].
Qed.

Lemma classMembers_length (opts : Options) (body : list Member) :
  forall members,
    classMembers opts body = Js.Ok members ->
    List.length members = List.length body.
Proof.
  induction body as [|m body IH]; intros members; cbn [classMembers].
  - intros H. injection H as <-. reflexivity.
  - destruct (getMemberGroup opts m) as [g|]; [|discriminate].
    cbn [Js.bind]. destruct (classMembers opts body) as [ms|]; [|discriminate].
    cbn [Js.bind]. intros H. injection H as <-. cbn [List.length].
    f_equal. apply IH. reflexivity.
Qed.

(** The listener skips classes with at most one member; the order check
    would have reported nothing for them anyway. *)
Lemma ClassBody_order_agrees (opts : Options) (body : list Member) members :
  classMembers opts body = Js.Ok members ->
  (forall m g, In (m, Some g) members -> 0 <= order g) ->
  ClassBody_order opts body = checkGroupOrder members.
Proof.
  intros Hmembers Hmin. unfold ClassBody_order. rewrite Hmembers.
  cbn [Js.bind]. destruct (Js.arrayLength body <=? 1) eqn:Hshort;
    [|reflexivity].
  apply Z.leb_le in Hshort. unfold Js.arrayLength in Hshort.
  apply classMembers_length in Hmembers.
  unfold checkGroupOrder. rewrite (checkGroupOrder_start members Hmin).
  destruct members as [|[m [g|]] [|x rest]]; try reflexivity;
    cbn [List.length] in Hmembers; lia.
Qed.

End GroupOrder.

(** C7. Walking the matched members of a class in source order, the order
    check reports exactly the members whose group order is smaller than
    that of the matched member before, naming the earlier group as
    expected and the member's own as actual; so when it reports nothing,
    the group order never decreases between an earlier and a later matched
    member.  Orders are at least 0, as the schema demands. *)
Theorem group_order_monotonicity :
  forall (members : list (ClassPropertyGrouping.Member *
                          option ClassPropertyGrouping.Group)),
    (forall m g, In (m, Some g) members ->
                 0 <= ClassPropertyGrouping.order g) ->
    ClassPropertyGrouping.checkGroupOrder members =
      Js.Ok (map Expected.orderViolation
               (List.filter Expected.decreases
                  (Expected.adjacentPairs (Expected.matched members)))) /\
    (ClassPropertyGrouping.checkGroupOrder members = Js.Ok [] ->
     forall i j x y, (i < j)%nat ->
       nth_error (Expected.matched members) i = Some x ->
       nth_error (Expected.matched members) j = Some y ->
       ClassPropertyGrouping.order (snd x) <=
       ClassPropertyGrouping.order (snd y)).
Proof.
  intros members Hmin.
  pose proof (checkGroupOrder_start members Hmin) as Hrun.
  split; [exact Hrun|].
  intros Hnone i j x y Hij Hi Hj.
  unfold ClassPropertyGrouping.checkGroupOrder in Hnone.
  rewrite Hrun in Hnone. injection Hnone as Hnone.
  apply map_eq_nil in Hnone.
  apply (strongly_sorted_nth (Expected.matched members)) with (i := i) (j := j);
    try assumption.
  apply Sorted_StronglySorted; [exact orderLe_trans|].
  apply no_decrease_sorted, Hnone.
Qed.

(** The class with an instance property followed by a static method: its
    members match the default groups [instance-properties] (2) and
    [static-methods] (1), and the order check reports the method. *)
Lemma group_order_witness :
  ClassPropertyGrouping.classMembers ClassPropertyGrouping.noOptions
    Samples.ClassA.body = Js.Ok Samples.ClassA.members /\
  (forall m g, In (m, Some g) Samples.ClassA.members ->
               0 <= ClassPropertyGrouping.order g) /\
  ClassPropertyGrouping.checkGroupOrder Samples.ClassA.members =
  Js.Ok
    [ {| node := ClassPropertyGrouping.member_node Samples.ClassA.m;
         messageId := "wrongGroupOrder";
         data := [ ("member", DStr "m");
                   ("expectedGroup", DStr "instance-properties");
                   ("expectedGroupOrder", DNum 2);
                   ("actualGroup", DStr "static-methods");
                   ("actualGroupOrder", DNum 1) ];
         fix_ := None |} ].
Proof.
  assert (Hmin : forall m g, In (m, Some g) Samples.ClassA.members ->
                             0 <= ClassPropertyGrouping.order g).
  { intros m g [H|[H|[]]]; injection H as _ <-; discriminate. }
  split; [reflexivity|]. split; [exact Hmin|].
  rewrite (proj1 (group_order_monotonicity Samples.ClassA.members Hmin)).
  reflexivity.
Defined.

(** ** Collections: when a literal has to be multiline *)

Section Threshold.

Import MultilineFormat.

Variable sc : SourceCode.
Variable opts : Options.
Variable c : Collection.
Variables first last : Token.
Hypothesis Hfirst : getFirstToken sc c = Some first.
Hypothesis Hlast : getLastToken sc c = Some last.

Lemma wouldExceedMaxLineLength_value :
  wouldExceedMaxLineLength sc opts c =
  Js.Ok (maxLineLength opts <?
         column (start (loc first)) +
         Js.length (Expected.rendering (text sc) (fst (range first))
                      (snd (range last)))).
Proof.
  unfold wouldExceedMaxLineLength. rewrite Hfirst, Hlast. reflexivity.
Qed.

Lemma isMultiline_value :
  isMultiline sc c =
  Js.Ok (negb (line (start (loc first)) =? line (start (loc last)))).
Proof. unfold isMultiline. rewrite Hfirst, Hlast. reflexivity. Qed.

(** The value the rule computes for [shouldBeMultiline] is the predicate
    of the specification. *)
Lemma shouldBeMultiline_value (count : Z) :
  Js.orElse (minItems opts <=? count)
    (exceeds <- wouldExceedMaxLineLength sc opts c ;;
     Js.Ok (exceeds || String.eqb (multilineStyle opts) "always")) =
  Js.Ok (Expected.shouldBeMultiline (minItems opts) (maxLineLength opts)
           (multilineStyle opts) count (column (start (loc first)))
           (Expected.rendering (text sc) (fst (range first))
              (snd (range last)))).
Proof.
  rewrite wouldExceedMaxLineLength_value. unfold Expected.shouldBeMultiline.
  destruct (minItems opts <=? count); reflexivity.
Qed.

End Threshold.

(** Both [process] functions start alike on a literal whose brackets
    stand on one line: the decision is computed, and the literal is found
    not to be multiline. *)
Ltac run_one_line_literal sc opts c first last Hfirst Hlast Hline :=
  rewrite (shouldBeMultiline_value sc opts c first last Hfirst Hlast);
  rewrite (isMultiline_value sc c first last Hfirst Hlast);
  rewrite Hline, Z.eqb_refl; cbn [Js.bind negb]; rewrite andb_true_r.

Ltac case_on_condition :=
  match goal with
  | |- context [if ?b then _ else _] => destruct b
  end; reflexivity.

(** C3, as the code has it.  For a literal with at least one item that
    renders on one line: it should be multiline exactly when its item count
    is at least [minItems], or its one-line rendering measured from its
    starting column exceeds [maxLineLength], or [multilineStyle] is
    ["always"]; [singleLineToMultiline] is reported when it should be
    multiline and [multilineStyle] is not ["never"], and nothing is
    reported otherwise.  So a literal of [minItems - 1] items under
    [maxLineLength] gets no diagnostic unless [multilineStyle] is
    ["always"]. *)
Theorem collection_multiline_threshold :
  forall sc opts (c : MultilineFormat.Collection) (first last : Token),
    getFirstToken sc c = Some first ->
    getLastToken sc c = Some last ->
    line (start (loc first)) = line (start (loc last)) ->
    let rendered :=
      Expected.rendering (text sc) (fst (range first)) (snd (range last)) in
    let should count :=
      Expected.shouldBeMultiline (MultilineFormat.minItems opts)
        (MultilineFormat.maxLineLength opts)
        (MultilineFormat.multilineStyle opts) count
        (column (start (loc first))) rendered in
    let notNever :=
      negb (String.eqb (MultilineFormat.multilineStyle opts) "never") in
    let short :=
      column (start (loc first)) + Js.length rendered
        <= MultilineFormat.maxLineLength opts in
    (MultilineFormat.properties c <> [] ->
     let count := Js.arrayLength (MultilineFormat.properties c) in
     MultilineFormat.processObjectExpression sc opts c =
       Js.Ok (if should count && notNever
              then [MultilineFormat.reconstruction sc opts c
                      (MultilineFormat.properties c) "singleLineToMultiline"
                      [("count", DNum count)]]
              else []) /\
     (count = MultilineFormat.minItems opts - 1 -> short ->
      MultilineFormat.multilineStyle opts <> "always" ->
      MultilineFormat.processObjectExpression sc opts c = Js.Ok [])) /\
    (MultilineFormat.elements c <> [] ->
     let count := Js.arrayLength (MultilineFormat.elements c) in
     MultilineFormat.processArrayExpression sc opts c =
       Js.Ok (if should count && notNever
              then [MultilineFormat.reconstruction sc opts c
                      (MultilineFormat.nonNull (MultilineFormat.elements c))
                      "singleLineToMultiline" [("count", DNum count)]]
              else []) /\
     (count = MultilineFormat.minItems opts - 1 -> short ->
      MultilineFormat.multilineStyle opts <> "always" ->
      MultilineFormat.processArrayExpression sc opts c = Js.Ok [])).
Proof.
  intros sc opts c first last Hfirst Hlast Hline rendered should notNever
    short.
  assert (Hnonempty : forall A (l : list A),
             l <> [] -> (Js.arrayLength l =? 0) = false).
  { intros A [|x l] Hl; [congruence|]. unfold Js.arrayLength.
    apply Z.eqb_neq. cbn [List.length]. lia. }
  assert (Hbelow : forall count,
             count = MultilineFormat.minItems opts - 1 -> short ->
             MultilineFormat.multilineStyle opts <> "always" ->
             should count = false).
  { intros count Hcount Hshort Hstyle.
    unfold should, Expected.shouldBeMultiline.
    apply String.eqb_neq in Hstyle. rewrite Hstyle.
    replace (MultilineFormat.minItems opts <=? count) with false
      by (symmetry; apply Z.leb_gt; lia).
    replace (MultilineFormat.maxLineLength opts <? _) with false
      by (symmetry; apply Z.ltb_ge; exact Hshort).
    reflexivity. }
  split.
  - intros Hitems count.
    assert (Hrun : MultilineFormat.processObjectExpression sc opts c =
                   Js.Ok (if should count && notNever
                          then [MultilineFormat.reconstruction sc opts c
                                  (MultilineFormat.properties c)
                                  "singleLineToMultiline"
                                  [("count", DNum count)]]
                          else [])).
    { unfold MultilineFormat.processObjectExpression.
      rewrite (Hnonempty _ _ Hitems).
      run_one_line_literal sc opts c first last Hfirst Hlast Hline.
      subst should notNever count rendered. cbv beta.
      case_on_condition. }
    split; [exact Hrun|].
    intros Hcount Hshort Hstyle.
    rewrite Hrun, (Hbelow count Hcount Hshort Hstyle). reflexivity.
  - intros Hitems count.
    assert (Hrun : MultilineFormat.processArrayExpression sc opts c =
                   Js.Ok (if should count && notNever
                          then [MultilineFormat.reconstruction sc opts c
                                  (MultilineFormat.nonNull
                                     (MultilineFormat.elements c))
                                  "singleLineToMultiline"
                                  [("count", DNum count)]]
                          else [])).
    { unfold MultilineFormat.processArrayExpression.
      rewrite (Hnonempty _ _ Hitems).
      run_one_line_literal sc opts c first last Hfirst Hlast Hline.
      subst should notNever count rendered. cbv beta.
      case_on_condition. }
    split; [exact Hrun|].
    intros Hcount Hshort Hstyle.
    rewrite Hrun, (Hbelow count Hcount Hshort Hstyle). reflexivity.
Qed.

(** A literal of two short items on one line gets no diagnostic under the
    default options, and one of three items gets [singleLineToMultiline]. *)
Lemma collection_threshold_witness :
  getFirstToken Samples.Arrays.two Samples.Arrays.twoArray =
    Some (tokenAt Samples.Arrays.twoSrc "Punctuator" 4 5) /\
  getLastToken Samples.Arrays.two Samples.Arrays.twoArray =
    Some (tokenAt Samples.Arrays.twoSrc "Punctuator" 9 10) /\
  MultilineFormat.processArrayExpression Samples.Arrays.two
    MultilineFormat.noOptions Samples.Arrays.twoArray = Js.Ok [] /\
  MultilineFormat.processArrayExpression Samples.Arrays.three
    MultilineFormat.noOptions Samples.Arrays.threeArray =
  Js.Ok [MultilineFormat.reconstruction Samples.Arrays.three
           MultilineFormat.noOptions Samples.Arrays.threeArray
           (MultilineFormat.nonNull
              (MultilineFormat.elements Samples.Arrays.threeArray))
           "singleLineToMultiline" [("count", DNum 3)]].
Proof.
  split; [reflexivity|]. split; [reflexivity|]. split.
  - apply (proj2
      (proj2
         (collection_multiline_threshold Samples.Arrays.two
            MultilineFormat.noOptions Samples.Arrays.twoArray
            (tokenAt Samples.Arrays.twoSrc "Punctuator" 4 5)
            (tokenAt Samples.Arrays.twoSrc "Punctuator" 9 10)
            eq_refl eq_refl eq_refl)
         ltac:(discriminate)));
      [reflexivity | discriminate | discriminate].
  - rewrite (proj1
      (proj2
         (collection_multiline_threshold Samples.Arrays.three
            MultilineFormat.noOptions Samples.Arrays.threeArray
            (tokenAt Samples.Arrays.threeSrc "Punctuator" 4 5)
            (tokenAt Samples.Arrays.threeSrc "Punctuator" 12 13)
            eq_refl eq_refl eq_refl)
         ltac:(discriminate))).
    reflexivity.
Defined.

(** C3 as stated fails in two places.  Under [multilineStyle = "always"]
    a one-line array of [minItems - 1 = 2] short items is reported; and the
    empty array, which should be multiline by the predicate, stands on one
    line and is not under ["never"], is not reported. *)
Lemma collection_threshold_counterexample :
  (Js.arrayLength (MultilineFormat.elements Samples.Arrays.twoArray) =
     MultilineFormat.minItems (Samples.Arrays.styled "always") - 1 /\
   MultilineFormat.wouldExceedMaxLineLength Samples.Arrays.two
     (Samples.Arrays.styled "always") Samples.Arrays.twoArray
     = Js.Ok false /\
   MultilineFormat.isMultiline Samples.Arrays.two Samples.Arrays.twoArray
     = Js.Ok false /\
   option_map (map messageId)
     (match MultilineFormat.processArrayExpression Samples.Arrays.two
              (Samples.Arrays.styled "always") Samples.Arrays.twoArray with
      | Js.Ok reports => Some reports
      | Js.Throw _ => None
      end) = Some ["singleLineToMultiline"]) /\
  (Expected.shouldBeMultiline
     (MultilineFormat.minItems (Samples.Arrays.styled "always"))
     (MultilineFormat.maxLineLength (Samples.Arrays.styled "always"))
     (MultilineFormat.multilineStyle (Samples.Arrays.styled "always"))
     (Js.arrayLength (MultilineFormat.elements Samples.Arrays.emptyArray))
     4 (Expected.rendering Samples.Arrays.emptySrc 4 6) = true /\
   MultilineFormat.isMultiline Samples.Arrays.empty Samples.Arrays.emptyArray
     = Js.Ok false /\
   MultilineFormat.multilineStyle (Samples.Arrays.styled "always")
     <> "never" /\
   MultilineFormat.processArrayExpression Samples.Arrays.empty
     (Samples.Arrays.styled "always") Samples.Arrays.emptyArray = Js.Ok []).
Proof.
  split.
  - split; [reflexivity|]. split; [reflexivity|]. split; reflexivity.
  - split; [reflexivity|]. split; [reflexivity|]. split;
      [discriminate | reflexivity].
Qed.

(** ** Collections: the trailing separator *)

Lemma eqb_eq (a b : Js.text) : Js.eqb a b = true <-> a = b.
Proof.
  revert b. induction a as [|c a IH]; intros [|d b]; cbn;
    try (split; [discriminate | discriminate]); [tauto|].
  rewrite andb_true_iff, Ascii.eqb_eq, IH.
  split; [intros [-> ->]; reflexivity | intros H; injection H; auto].
Qed.

Lemma eqb_neq (a b : Js.text) : Js.eqb a b = false <-> a <> b.
Proof.
  rewrite <- eqb_eq. destruct (Js.eqb a b); split; congruence.
Qed.

Section TrailingSeparator.

Import MultilineFormat.

Variable sc : SourceCode.
Variable opts : Options.
Variable c : Collection.

Lemma isMultiline_inv :
  isMultiline sc c = Js.Ok true ->
  exists first last,
    getFirstToken sc c = Some first /\ getLastToken sc c = Some last /\
    (line (start (loc first)) =? line (start (loc last))) = false.
Proof.
  unfold isMultiline.
  destruct (getFirstToken sc c) as [first|]; [|discriminate].
  destruct (getLastToken sc c) as [last|]; [|discriminate].
  cbn [Js.deref Js.bind]. intros H. injection H as H.
  exists first, last. repeat split. now apply negb_true_iff.
Qed.

Lemma wellIndented_no_wrong_indent (items : list Element) (bracket : Token) :
  getFirstToken sc c = Some bracket ->
  Expected.wellIndented sc (indentation opts) c items ->
  Js.filterM
    (hasWrongIndent sc c
       (column (start (loc bracket)) + indentation opts)) items = Js.Ok [].
Proof.
  intros Hbracket [bracket' [Hbracket' Hall]].
  rewrite Hbracket in Hbracket'. injection Hbracket' as <-.
  induction Hall as [|item rest [t [Ht Hpos]] _ IH]; [reflexivity|].
  cbn [Js.filterM]. unfold hasWrongIndent at 1.
  rewrite Ht, Hbracket. cbn [Js.deref Js.bind]. rewrite IH.
  destruct Hpos as [Hline | Hcol].
  - rewrite Hline, Z.eqb_refl. reflexivity.
  - rewrite Hcol, Z.eqb_refl, andb_false_r. reflexivity.
Qed.

Lemma allElementsOnSeparateLines_total (items : list Element)
  (first last : Token) :
  getFirstToken sc c = Some first -> getLastToken sc c = Some last ->
  exists b, allElementsOnSeparateLines sc opts c items = Js.Ok b.
Proof.
  intros Hfirst Hlast. unfold allElementsOnSeparateLines.
  destruct items as [|item rest]; [eexists; reflexivity|].
  rewrite Hfirst, Hlast. cbn [Js.deref Js.bind].
  destruct (String.eqb (bracketStyle opts) "new-line"); cbn [Js.andThen Js.bind].
  - destruct (_ =? _); [eexists; reflexivity|].
    destruct (someShareLine _); [eexists; reflexivity|].
    destruct (_ =? _); eexists; reflexivity.
  - destruct (someShareLine _); [eexists; reflexivity|].
    destruct (_ =? _); eexists; reflexivity.
Qed.

(** A multiline object literal that passes the indentation and the
    newline checks is judged by the trailing-comma check when that check
    reports. *)
Lemma processObjectExpression_reaches_trailing_comma
  (lastProp : Element) (report : Report) :
  isMultiline sc c = Js.Ok true ->
  Expected.wellIndented sc (indentation opts) c (properties c) ->
  (multilineStyle opts = "always" ->
   allElementsOnSeparateLines sc opts c (properties c) = Js.Ok true) ->
  List.last (map Some (properties c)) None = Some lastProp ->
  checkTrailingComma sc opts c lastProp = Some report ->
  processObjectExpression sc opts c = Js.Ok [report].
Proof.
  intros Hmulti Hindent Hlines Hlast Hcheck.
  destruct (isMultiline_inv Hmulti) as [first [last [Hf [Hl Hne]]]].
  unfold processObjectExpression.
  destruct (properties c) as [|p ps] eqn:Hprops; [discriminate|].
  replace (Js.arrayLength (p :: ps) =? 0) with false
    by (symmetry; apply Z.eqb_neq; unfold Js.arrayLength;
        cbn [List.length]; lia).
  rewrite (shouldBeMultiline_value sc opts c first last Hf Hl).
  rewrite Hmulti. cbn [Js.bind negb]. rewrite andb_false_r. cbn [andb].
  unfold getExpectedIndentation. rewrite Hf. cbn [Js.deref Js.bind].
  rewrite (wellIndented_no_wrong_indent _ _ Hf Hindent). cbn [Js.bind].
  change (0 <? Js.arrayLength (@nil Element)) with false. cbv iota.
  destruct (allElementsOnSeparateLines_total (p :: ps) _ _ Hf Hl) as [b Hb].
  rewrite Hb. cbn [Js.bind].
  assert (Hpass : negb b && String.eqb (multilineStyle opts) "always" = false).
  { destruct (String.eqb (multilineStyle opts) "always") eqn:E;
      [|apply andb_false_r].
    apply String.eqb_eq in E. rewrite (Hlines E) in Hb.
    injection Hb as <-. reflexivity. }
  rewrite Hpass, Hlast, Hcheck. reflexivity.
Qed.

(** The same for an array literal, on its elements that are not holes. *)
Lemma processArrayExpression_reaches_trailing_comma
  (lastElem : Element) (report : Report) :
  isMultiline sc c = Js.Ok true ->
  elements c <> [] ->
  Expected.wellIndented sc (indentation opts) c (nonNull (elements c)) ->
  (multilineStyle opts = "always" ->
   allElementsOnSeparateLines sc opts c (nonNull (elements c))
     = Js.Ok true) ->
  List.last (map Some (nonNull (elements c))) None = Some lastElem ->
  checkTrailingComma sc opts c lastElem = Some report ->
  processArrayExpression sc opts c = Js.Ok [report].
Proof.
  intros Hmulti Hitems Hindent Hlines Hlast Hcheck.
  destruct (isMultiline_inv Hmulti) as [first [last [Hf [Hl Hne]]]].
  unfold processArrayExpression.
  replace (Js.arrayLength (elements c) =? 0) with false.
  2:{ symmetry. apply Z.eqb_neq. unfold Js.arrayLength.
      destruct (elements c); [congruence | cbn [List.length]; lia]. }
  rewrite (shouldBeMultiline_value sc opts c first last Hf Hl).
  rewrite Hmulti. cbn [Js.bind negb]. rewrite andb_false_r. cbn [andb].
  unfold getExpectedIndentation. rewrite Hf. cbn [Js.deref Js.bind].
  rewrite (wellIndented_no_wrong_indent _ _ Hf Hindent). cbn [Js.bind].
  change (0 <? Js.arrayLength (@nil Element)) with false. cbv iota.
  destruct (allElementsOnSeparateLines_total (nonNull (elements c)) _ _
              Hf Hl) as [b Hb].
  rewrite Hb. cbn [Js.bind].
  assert (Hpass : negb b && String.eqb (multilineStyle opts) "always" = false).
  { destruct (String.eqb (multilineStyle opts) "always") eqn:E;
      [|apply andb_false_r].
    apply String.eqb_eq in E. rewrite (Hlines E) in Hb.
    injection Hb as <-. reflexivity. }
  rewrite Hpass, Hlast, Hcheck. reflexivity.
Qed.

End TrailingSeparator.

(** C8, as the code has it.  For a multiline object literal that passes
    the indentation and newline checks: under [trailingComma = "always"],
    when the token after the last item is not a comma,
    [missingTrailingComma] is reported and its edit inserts one comma right
    after the last item, every other character staying as it was; under
    ["never"], when that token is a comma that directly follows the item,
    [unexpectedTrailingComma] is reported and its edit removes the comma
    and nothing else. *)
Theorem trailing_separator_fix :
  forall sc opts (c : MultilineFormat.Collection)
         (lastProp : MultilineFormat.Element) (after : Token),
    MultilineFormat.isMultiline sc c = Js.Ok true ->
    Expected.wellIndented sc (MultilineFormat.indentation opts) c
      (MultilineFormat.properties c) ->
    (MultilineFormat.multilineStyle opts = "always" ->
     MultilineFormat.allElementsOnSeparateLines sc opts c
       (MultilineFormat.properties c) = Js.Ok true) ->
    List.last (map Some (MultilineFormat.properties c)) None
      = Some lastProp ->
    getTokenAfter sc lastProp defaultOptions = Some after ->
    0 <= snd (range lastProp) <= snd (range after) ->
    snd (range after) <= Js.length (text sc) ->
    let itemEnd := snd (range lastProp) in
    (MultilineFormat.trailingComma opts = "always" ->
     value after <> Js.str "," ->
     let edit := replaceTextRange (itemEnd, itemEnd) (Js.str ",") in
     MultilineFormat.processObjectExpression sc opts c =
       Js.Ok [Expected.separatorReport c "missingTrailingComma" edit] /\
     applyFix (text sc) edit =
       firstn (Z.to_nat itemEnd) (text sc) ++ Js.str "," ++
       skipn (Z.to_nat itemEnd) (text sc)) /\
    (MultilineFormat.trailingComma opts = "never" ->
     value after = Js.str "," ->
     fst (range after) = itemEnd ->
     let edit := removeRange (range after) in
     MultilineFormat.processObjectExpression sc opts c =
       Js.Ok [Expected.separatorReport c "unexpectedTrailingComma" edit] /\
     applyFix (text sc) edit =
       firstn (Z.to_nat (fst (range after))) (text sc) ++
       skipn (Z.to_nat (snd (range after))) (text sc)).
Proof.
  intros sc opts c lastProp after Hmulti Hindent Hlines Hlast Hafter
    Hrange Hlen itemEnd.
  split.
  - intros Halways Hvalue edit. split.
    + apply (processObjectExpression_reaches_trailing_comma sc opts c
               lastProp); try assumption.
      unfold MultilineFormat.checkTrailingComma. rewrite Hafter, Halways.
      apply eqb_neq in Hvalue. rewrite Hvalue. reflexivity.
    + unfold edit. rewrite applyFix_frame by lia. reflexivity.
  - intros Hnever Hvalue Hdirect edit.
    assert (Hspan : range after = (itemEnd, snd (range after)))
      by (rewrite <- Hdirect; destruct (range after); reflexivity).
    split.
    + apply (processObjectExpression_reaches_trailing_comma sc opts c
               lastProp); try assumption.
      unfold MultilineFormat.checkTrailingComma. rewrite Hafter, Hnever.
      apply eqb_eq in Hvalue. rewrite Hvalue. unfold edit.
      rewrite Hspan. reflexivity.
    + unfold edit, removeRange. rewrite Hspan at 1.
      rewrite applyFix_frame by (fold itemEnd in Hrange; lia).
      rewrite Hdirect. reflexivity.
Qed.

(** The literal without a trailing comma under the default options: one
    comma is inserted after [a: 1] and nothing else changes.  The literal
    with a trailing comma under ["never"]: the comma is removed and
    nothing else changes. *)
Lemma trailing_separator_witness :
  MultilineFormat.isMultiline Samples.Objects.bare Samples.Objects.bareObject
    = Js.Ok true /\
  MultilineFormat.processObjectExpression Samples.Objects.bare
    MultilineFormat.noOptions Samples.Objects.bareObject =
  Js.Ok [Expected.separatorReport Samples.Objects.bareObject
           "missingTrailingComma"
           (replaceTextRange (16, 16) (Js.str ","))] /\
  applyFix Samples.Objects.bareSrc (replaceTextRange (16, 16) (Js.str ","))
    = Samples.source ["x = {"; "      a: 1,"; "    };"] /\
  MultilineFormat.processObjectExpression Samples.Objects.trailed
    (Samples.Arrays.trailing "never") Samples.Objects.trailedObject =
  Js.Ok [Expected.separatorReport Samples.Objects.trailedObject
           "unexpectedTrailingComma" (removeRange (16, 17))] /\
  applyFix Samples.Objects.trailedSrc (removeRange (16, 17))
    = Samples.source ["x = {"; "      a: 1"; "    };"].
Proof.
  assert (Hindent : Expected.wellIndented Samples.Objects.bare
            (MultilineFormat.indentation MultilineFormat.noOptions)
            Samples.Objects.bareObject
            (MultilineFormat.properties Samples.Objects.bareObject)).
  { exists (tokenAt Samples.Objects.bareSrc "Punctuator" 4 5).
    split; [reflexivity|]. constructor; [|constructor].
    exists (tokenAt Samples.Objects.bareSrc "Identifier" 12 13).
    split; [reflexivity|]. right. reflexivity. }
  assert (Hrange : 0 <= snd (range (Samples.Objects.property
                                      Samples.Objects.bareSrc 2 12))
                   <= snd (range (tokenAt Samples.Objects.bareSrc
                                    "Punctuator" 21 22)))
    by (split; discriminate).
  pose proof (proj1 (trailing_separator_fix Samples.Objects.bare
    MultilineFormat.noOptions Samples.Objects.bareObject
    (Samples.Objects.property Samples.Objects.bareSrc 2 12)
    (tokenAt Samples.Objects.bareSrc "Punctuator" 21 22)
    eq_refl Hindent ltac:(discriminate) eq_refl eq_refl Hrange
    ltac:(discriminate)) eq_refl ltac:(discriminate)) as [Hreport Hedit].
  assert (Hindent' : Expected.wellIndented Samples.Objects.trailed
            (MultilineFormat.indentation (Samples.Arrays.trailing "never"))
            Samples.Objects.trailedObject
            (MultilineFormat.properties Samples.Objects.trailedObject)).
  { exists (tokenAt Samples.Objects.trailedSrc "Punctuator" 4 5).
    split; [reflexivity|]. constructor; [|constructor].
    exists (tokenAt Samples.Objects.trailedSrc "Identifier" 12 13).
    split; [reflexivity|]. right. reflexivity. }
  assert (Hrange' : 0 <= snd (range (Samples.Objects.property
                                       Samples.Objects.trailedSrc 2 12))
                    <= snd (range (tokenAt Samples.Objects.trailedSrc
                                     "Punctuator" 16 17)))
    by (split; discriminate).
  pose proof (proj2 (trailing_separator_fix Samples.Objects.trailed
    (Samples.Arrays.trailing "never") Samples.Objects.trailedObject
    (Samples.Objects.property Samples.Objects.trailedSrc 2 12)
    (tokenAt Samples.Objects.trailedSrc "Punctuator" 16 17)
    eq_refl Hindent' ltac:(discriminate) eq_refl eq_refl Hrange'
    ltac:(discriminate)) eq_refl eq_refl eq_refl) as [Hreport' Hedit'].
  split; [reflexivity|]. split; [exact Hreport|]. split; [exact Hedit|].
  split; [exact Hreport' | exact Hedit'].
Defined.

(** C8 as stated fails in the usual layout: the item is indented from the
    start of the line, not from the bracket, so the multiline literal
    without a trailing comma gets [inconsistentIndentation] instead of
    [missingTrailingComma]. *)
Lemma trailing_separator_counterexample :
  MultilineFormat.trailingComma MultilineFormat.noOptions = "always" /\
  MultilineFormat.isMultiline Samples.Objects.usual
    Samples.Objects.usualObject = Js.Ok true /\
  option_map value
    (getTokenAfter Samples.Objects.usual
       (Samples.Objects.property Samples.Objects.usualSrc 2 14)
       defaultOptions) = Some (Js.str "}") /\
  option_map (map messageId)
    (match MultilineFormat.processObjectExpression Samples.Objects.usual
             MultilineFormat.noOptions Samples.Objects.usualObject with
     | Js.Ok reports => Some reports
     | Js.Throw _ => None
     end) = Some ["inconsistentIndentation"].
Proof.
  split; [reflexivity|]. split; [reflexivity|]. split; reflexivity.
Qed.

(** ** Pattern matching by derivatives *)

Section RegexFacts.

Import Regex.

Lemma nullable_spec (r : regex) : nullable r = true <-> Matches r [].
Proof.
  induction r as [| |p|r IHr s IHs|r IHr s IHs|r IHr]; cbn.
  - split; [discriminate | intros H; inversion H].
  - split; [constructor | reflexivity].
  - split; [discriminate | intros H; inversion H].
  - rewrite andb_true_iff, IHr, IHs. split.
    + intros [Hr Hs]. exact (MSeq r s [] [] Hr Hs).
    + intros H. inversion H as [| |r' s' u v Hu Hv| | | |]; subst.
      match goal with Heq : _ ++ _ = [] |- _ =>
        apply app_eq_nil in Heq as [-> ->] end.
      split; assumption.
  - rewrite orb_true_iff, IHr, IHs. split.
    + intros [H|H]; [apply MAltL | apply MAltR]; exact H.
    + intros H. inversion H; subst; [left | right]; assumption.
  - split; [constructor | reflexivity].
Qed.

(** A non-empty word of [Star r] starts with a non-empty word of [r]. *)
Lemma star_cons_inv (r : regex) (c : ascii) (w : Js.text) :
  Matches (Star r) (c :: w) ->
  exists u v, w = u ++ v /\ Matches r (c :: u) /\ Matches (Star r) v.
Proof.
  intros H. remember (Star r) as sr eqn:Hsr. remember (c :: w) as cw eqn:Hcw.
  revert w Hcw.
  induction H as [| | | | | |r' u v Hu _ Hv IHv]; intros w Hcw;
    try discriminate.
  injection Hsr as ->. destruct u as [|d u].
  - apply IHv; [reflexivity | exact Hcw].
  - cbn in Hcw. injection Hcw as -> <-. exists u, v.
    split; [reflexivity | split; assumption].
Qed.

Lemma derive_spec (r : regex) :
  forall (c : ascii) (w : Js.text),
    Matches (derive c r) w <-> Matches r (c :: w).
Proof.
  induction r as [| |p|r IHr s IHs|r IHr s IHs|r IHr]; intros c w; cbn.
  - split; intros H; inversion H.
  - split; intros H; inversion H.
  - destruct (p c) eqn:Hp; split; intros H; inversion H; subst.
    + constructor. exact Hp.
    + constructor.
    + congruence.
  - destruct (nullable r) eqn:Hnull.
    + split; intros H.
      * inversion H as [| | |r' s' u Hu|r' s' u Hu| |]; subst.
        -- inversion Hu as [| |r' s' u v Hu1 Hu2| | | |]; subst.
           apply IHr in Hu1. exact (MSeq r s (c :: u) v Hu1 Hu2).
        -- apply IHs in Hu. apply nullable_spec in Hnull.
           exact (MSeq r s [] (c :: w) Hnull Hu).
      * inversion H as [| |r' s' u v Hu Hv| | | |]; subst.
        match goal with Heq : _ ++ _ = _ :: _ |- _ => rename Heq into Heq' end.
        destruct u as [|d u].
        -- cbn in Heq'. subst v. apply MAltR. apply IHs. exact Hv.
        -- cbn in Heq'. injection Heq' as -> <-. apply MAltL.
           apply MSeq; [apply IHr; exact Hu | exact Hv].
    + split; intros H.
      * inversion H as [| |r' s' u v Hu Hv| | | |]; subst.
        apply IHr in Hu. exact (MSeq r s (c :: u) v Hu Hv).
      * inversion H as [| |r' s' u v Hu Hv| | | |]; subst.
        match goal with Heq : _ ++ _ = _ :: _ |- _ => rename Heq into Heq' end.
        destruct u as [|d u].
        -- apply nullable_spec in Hu. congruence.
        -- cbn in Heq'. injection Heq' as -> <-.
           apply MSeq; [apply IHr; exact Hu | exact Hv].
  - split; intros H; inversion H; subst.
    + apply MAltL, IHr. assumption.
    + apply MAltR, IHs. assumption.
    + apply MAltL, IHr. assumption.
    + apply MAltR, IHs. assumption.
  - split; intros H.
    + inversion H as [| |r' s' u v Hu Hv| | | |]; subst.
      apply IHr in Hu. exact (MStarCons r (c :: u) v Hu Hv).
    + apply star_cons_inv in H as [u [v [-> [Hu Hv]]]].
      apply MSeq; [apply IHr; exact Hu | exact Hv].
Qed.

Lemma matchesPrefix_spec (s : Js.text) :
  forall r, matchesPrefix r s = true <->
            exists u v, s = u ++ v /\ Matches r u.
Proof.
  induction s as [|c s IH]; intros r; cbn.
  - rewrite orb_false_r, nullable_spec. split.
    + intros H. exists [], []. split; [reflexivity | exact H].
    + intros [u [v [Heq H]]]. symmetry in Heq.
      apply app_eq_nil in Heq as [-> _]. exact H.
  - rewrite orb_true_iff, nullable_spec, IH. split.
    + intros [H | [u [v [-> H]]]].
      * exists [], (c :: s). split; [reflexivity | exact H].
      * exists (c :: u), v. split; [reflexivity | apply derive_spec, H].
    + intros [[|d u] [v [Heq H]]].
      * left. exact H.
      * cbn in Heq. injection Heq as <- ->. right. exists u, v.
        split; [reflexivity | apply derive_spec, H].
Qed.

(** [test] holds exactly when some substring is a word of the pattern. *)
Lemma test_spec (r : regex) (s : Js.text) :
  test r s = true <-> exists p u v, s = p ++ u ++ v /\ Matches r u.
Proof.
  induction s as [|c s IH]; cbn [test].
  - rewrite orb_false_r, matchesPrefix_spec. split.
    + intros [u [v [Heq H]]]. exists [], u, v. split; assumption.
    + intros [p [u [v [Heq H]]]]. symmetry in Heq.
      apply app_eq_nil in Heq as [-> Heq].
      exists u, v. split; [symmetry; exact Heq | exact H].
  - rewrite orb_true_iff, matchesPrefix_spec, IH. split.
    + intros [[u [v [Heq H]]] | [p [u [v [-> H]]]]].
      * exists [], u, v. split; assumption.
      * exists (c :: p), u, v. split; [reflexivity | exact H].
    + intros [[|d p] [u [v [Heq H]]]].
      * left. exists u, v. split; assumption.
      * cbn in Heq. injection Heq as <- ->. right. exists p, u, v.
        split; [reflexivity | exact H].
Qed.

Lemma Matches_Chr (c : ascii) (u : Js.text) :
  Matches (Chr c) u <-> u = [c].
Proof.
  unfold Chr. split.
  - intros H. inversion H as [|p d Hd| | | | |]; subst.
    apply Ascii.eqb_eq in Hd. now subst.
  - intros ->. constructor. apply Ascii.eqb_refl.
Qed.

Lemma Matches_Lit (s u : Js.text) : Matches (Lit s) u <-> u = s.
Proof.
  revert u. induction s as [|c s IH]; intros u; cbn.
  - split; [intros H; inversion H; reflexivity | intros ->; constructor].
  - split.
    + intros H. inversion H as [| |r' s' a b Ha Hb| | | |]; subst.
      apply Matches_Chr in Ha. apply IH in Hb. now subst.
    + intros ->. apply (MSeq _ _ [c] s); [apply Matches_Chr | apply IH];
        reflexivity.
Qed.

End RegexFacts.

(** ** Documentation blocks *)

Lemma startsWith_spec (prefix : Js.text) :
  forall s, Js.startsWith s prefix = true <-> exists q, s = prefix ++ q.
Proof.
  induction prefix as [|c prefix IH]; intros s.
  - split; [intros _; exists s; reflexivity | destruct s; reflexivity].
  - destruct s as [|d s]; cbn.
    + split; [discriminate | intros [q Hq]; discriminate].
    + rewrite andb_true_iff, Ascii.eqb_eq, IH. split.
      * intros [-> [q ->]]. exists q. reflexivity.
      * intros [q Hq]. injection Hq as -> ->. split; [reflexivity|].
        exists q. reflexivity.
Qed.

Lemma includes_spec (needle s : Js.text) :
  Js.includes s needle = true <-> exists p q, s = p ++ needle ++ q.
Proof.
  induction s as [|c s IH]; cbn [Js.includes].
  - rewrite orb_false_r, startsWith_spec. split.
    + intros [q Hq]. exists [], q. exact Hq.
    + intros [p [q Hq]]. symmetry in Hq.
      apply app_eq_nil in Hq as [-> Hq]. exists q. symmetry. exact Hq.
  - rewrite orb_true_iff, startsWith_spec, IH. split.
    + intros [[q Hq] | [p [q ->]]].
      * exists [], q. exact Hq.
      * exists (c :: p), q. reflexivity.
    + intros [[|d p] [q Hq]].
      * left. exists q. exact Hq.
      * cbn in Hq. injection Hq as <- ->. right. exists p, q. reflexivity.
Qed.

(** A word of [\s*@\w+] holds an at-sign followed by a word character. *)
Lemma at_tag_word (u : Js.text) :
  Regex.Matches
    (Regex.Seq (Regex.Star (Regex.Class Js.isWhitespace))
       (Regex.Seq (Regex.Chr "@")
          (Regex.Plus (Regex.Class Js.isWordChar)))) u ->
  exists a b w, u = a ++ "@"%char :: w :: b /\ Js.isWordChar w = true.
Proof.
  intros H.
  inversion H as [| |r1 s1 a rest Ha Hrest| | | |]; subst.
  inversion Hrest as [| |r2 s2 at_ tag Hat Htag| | | |]; subst.
  apply Matches_Chr in Hat. subst at_.
  inversion Htag as [| |r3 s3 w1 b Hw Hb| | | |]; subst.
  inversion Hw as [|p w Hword| | | | |]; subst.
  exists a, b, w. split; [reflexivity | exact Hword].
Qed.

Lemma Matches_Alt (r s : Regex.regex) (u : Js.text) :
  Regex.Matches (Regex.Alt r s) u <-> Regex.Matches r u \/ Regex.Matches s u.
Proof.
  split.
  - intros H. inversion H; subst; [left | right]; assumption.
  - intros [H | H]; [apply Regex.MAltL | apply Regex.MAltR]; exact H.
Qed.

Lemma docstringPattern_words (u : Js.text) :
  Regex.Matches BlockPadding.docstringPattern u ->
  (exists a b w, u = a ++ "@"%char :: w :: b /\ Js.isWordChar w = true) \/
  In u Expected.keywords.
Proof.
  unfold BlockPadding.docstringPattern.
  rewrite !Matches_Alt, !Matches_Lit.
  intros [H | Hkw]; [left; apply at_tag_word; exact H | right].
  unfold Expected.keywords. cbn [map In].
  destruct Hkw as [-> | [-> | [-> | [-> | ->]]]];
    first [ left; reflexivity
          | do 1 right; left; reflexivity
          | do 2 right; left; reflexivity
          | do 3 right; left; reflexivity
          | do 4 right; left; reflexivity ].
Qed.

(** C4, as the code has it.  A comment is a documentation block exactly
    when it is a block comment and its text holds a line feed, or an
    at-sign followed by a word character, or one of the words [param],
    [return], [description], [example], [author] as a substring, spelled
    in lower case. *)
Theorem docstring_detection :
  forall comment : Token,
    BlockPadding.isDocstring comment = true <->
    tok_type comment = "Block" /\
    ((exists p q, value comment = p ++ Js.newline :: q) \/
     (exists p q w, value comment = p ++ "@"%char :: w :: q /\
                    Js.isWordChar w = true) \/
     (exists kw p q, In kw Expected.keywords /\
                     value comment = p ++ kw ++ q)).
Proof.
  intros comment. unfold BlockPadding.isDocstring.
  destruct (String.eqb (tok_type comment) "Block") eqn:Htype.
  - apply String.eqb_eq in Htype.
    rewrite orb_true_iff, includes_spec, test_spec. split.
    + intros [Hlines | [p [u [v [Heq Hu]]]]]; (split; [exact Htype|]).
      * left. exact Hlines.
      * right. apply docstringPattern_words in Hu
          as [[a [b [w [-> Hw]]]] | Hkw].
        -- left. exists (p ++ a), (b ++ v), w. split; [|exact Hw].
           rewrite Heq, <- !app_assoc. reflexivity.
        -- right. exists u, p, v. split; assumption.
    + intros [_ [Hlines | [[p [q [w [Heq Hw]]]] | [kw [p [q [Hkw Heq]]]]]]].
      * left. exact Hlines.
      * right. exists p, ["@"%char; w], q. split; [exact Heq|].
        apply Regex.MAltL.
        apply (Regex.MSeq _ _ [] ["@"%char; w]); [constructor|].
        apply (Regex.MSeq _ _ ["@"%char] [w]); [apply Matches_Chr; reflexivity|].
        apply (Regex.MSeq _ _ [w] []); constructor. exact Hw.
      * right. exists p, kw, q. split; [exact Heq|].
        unfold BlockPadding.docstringPattern. apply Regex.MAltR.
        cbn [Expected.keywords map In] in Hkw.
        destruct Hkw as [<- | [<- | [<- | [<- | [<- | []]]]]].
        -- apply Regex.MAltL, Matches_Lit. reflexivity.
        -- apply Regex.MAltR, Regex.MAltL, Matches_Lit. reflexivity.
        -- apply Regex.MAltR, Regex.MAltR, Regex.MAltL, Matches_Lit.
           reflexivity.
        -- apply Regex.MAltR, Regex.MAltR, Regex.MAltR, Regex.MAltL,
             Matches_Lit. reflexivity.
        -- apply Regex.MAltR, Regex.MAltR, Regex.MAltR, Regex.MAltR,
             Matches_Lit. reflexivity.
  - split; [discriminate|]. intros [Hblock _].
    apply String.eqb_neq in Htype. contradiction.
Qed.

(** C4 as stated fails: the words are matched in lower case only.  The
    two comments differ in letter case alone; the one in upper case is a
    documentation block as the specification words the test, yet the rule
    rejects it and accepts the one in lower case. *)
Lemma docstring_case_counterexample :
  map Expected.toLower (value Samples.Comments.upper) =
    value Samples.Comments.lower /\
  Expected.isDocBlock Samples.Comments.upper = true /\
  BlockPadding.isDocstring Samples.Comments.upper = false /\
  BlockPadding.isDocstring Samples.Comments.lower = true.
Proof. repeat split; vm_compute; reflexivity. Qed.

(** ** Aligned assignments *)

Lemma repeat_space_length (n : Z) :
  0 <= n ->
  exists pad, Js.repeat (Js.str " ") n = Js.Ok pad /\ Js.length pad = n.
Proof.
  intros Hn. change (Js.str " ") with [" "%char].
  rewrite repeat_char by exact Hn. eexists. split; [reflexivity|].
  unfold Js.length. rewrite repeat_length. lia.
Qed.

(** Where the rewritten declarator puts its operator.  For a declarator
    without a type annotation, the text offered as replacement holds the
    operator at offset [target] counted from the start of the declarator,
    whatever column the declarator itself starts in. *)
Lemma fixed_operator_offset sc (d : AlignedAssignments.Declarator)
  (c target : Z) :
  AlignedAssignments.typeAnnotation (AlignedAssignments.id d) = None ->
  AlignedAssignments.getEqualsColumn sc d = Js.Ok (Some c) ->
  c <> 0 ->
  Js.length (getTextOf sc
               (AlignedAssignments.pattern_node (AlignedAssignments.id d)))
    <= target ->
  exists fixed,
    AlignedAssignments.getFixedDeclaration sc d (Some target) None
      = Js.Ok fixed /\
    nth_error fixed (Z.to_nat target) = Some "="%char.
Proof.
  intros Hplain Hcol Hc Hlen.
  unfold AlignedAssignments.getFixedDeclaration,
    AlignedAssignments.hasTypeAnnotation.
  rewrite Hcol, Hplain. cbn [Js.bind].
  set (idText := getTextOf sc
                   (AlignedAssignments.pattern_node (AlignedAssignments.id d)))
    in *.
  destruct (repeat_space_length (target - Js.length idText))
    as [pad [Hpad Hpadlen]]; [lia|].
  destruct c as [|c|c]; [congruence| |];
    rewrite Hpad; cbn [Js.bind]; eexists; (split; [reflexivity|]);
    rewrite app_assoc, nth_error_app2;
    rewrite length_app; unfold Js.length in *;
    try lia;
    replace (Z.to_nat target - (List.length idText + List.length pad))%nat
      with 0%nat by lia; reflexivity.
Qed.

(** The target column is the greatest of the columns it is taken from. *)
Lemma mathMax_greatest (x : Z) (rest : list Z) :
  exists m,
    Js.mathMax (x :: rest) = Some m /\ In m (x :: rest) /\
    Forall (fun c => c <= m) (x :: rest).
Proof.
  unfold Js.mathMax. eexists. split; [reflexivity|].
  revert x. induction rest as [|y rest IH]; intros x; cbn [fold_left].
  - split; [left; reflexivity | constructor; [lia | constructor]].
  - destruct (IH (Z.max x y)) as [Hin Hall].
    inversion Hall as [|m l Hm Hrest]; subst. split.
    + destruct Hin as [Hin | Hin]; [|right; right; exact Hin].
      destruct (Z.max_spec x y) as [[_ E] | [_ E]].
      * right; left. rewrite <- Hin. symmetry. exact E.
      * left. rewrite <- Hin. symmetry. exact E.
    + constructor; [lia|]. constructor; [lia | exact Hrest].
Qed.

(** Without type alignment, a declarator is reported exactly when its
    operator column differs from the target. *)
Lemma checkDeclarator_reports sc opts (d : AlignedAssignments.Declarator)
  (c target : Z) :
  AlignedAssignments.alignTypes opts = false ->
  AlignedAssignments.getEqualsColumn sc d = Js.Ok (Some c) ->
  option_map (map messageId)
    (match AlignedAssignments.checkDeclarator sc opts (Some target) None d with
     | Js.Ok reports => Some reports
     | Js.Throw _ => None
     end) =
  Some (if c =? target then [] else ["misalignedAssignment"]).
Proof.
  intros Htypes Hcol. unfold AlignedAssignments.checkDeclarator.
  rewrite Hcol, Htypes. cbn [Js.bind AlignedAssignments.differs].
  destruct (c =? target); reflexivity.
Qed.

(** C1 on [const a = 1;] followed by [const longName = 2;].  The target
    column is the maximum, 15, and the declarator of [a], whose operator is
    in column 8, is the one reported.  The offered edit, however, moves
    that operator to column 21: the padding is counted from the start of
    the declarator, which stands in column 6.  Running the rule on the
    edited text reports [longName]. *)
Theorem aligned_fix_misses_target_column :
  AlignedAssignments.getMaxEqualsColumn Samples.Consts.sourceCode
    [Samples.Consts.declA; Samples.Consts.declLongName] = Js.Ok (Some 15) /\
  AlignedAssignments.getEqualsColumn Samples.Consts.sourceCode
    Samples.Consts.declA = Js.Ok (Some 8) /\
  AlignedAssignments.processBlockVariables Samples.Consts.sourceCode
    AlignedAssignments.noOptions Samples.Consts.body =
  Js.Ok [ {| node := AlignedAssignments.declarator_node Samples.Consts.declA;
             messageId := "misalignedAssignment";
             data := [];
             fix_ := Some (Fixed (replaceTextRange (6, 11)
                                    (Js.str "a              = 1"))) |} ] /\
  applyFix Samples.Consts.src
    (replaceTextRange (6, 11) (Js.str "a              = 1"))
    = Samples.Consts.fixedSrc /\
  AlignedAssignments.getEqualsColumn Samples.Consts.fixedSourceCode
    Samples.Consts.fixedDeclA = Js.Ok (Some 21) /\
  AlignedAssignments.processBlockVariables Samples.Consts.fixedSourceCode
    AlignedAssignments.noOptions Samples.Consts.fixedBody =
  Js.Ok [ {| node := AlignedAssignments.declarator_node
                       Samples.Consts.fixedDeclLongName;
             messageId := "misalignedAssignment";
             data := [];
             fix_ := Some (Fixed (replaceTextRange (32, 44)
                                    (Js.str "longName             = 2"))) |} ].
Proof.
  split; [reflexivity|]. split; [reflexivity|]. split; [reflexivity|].
  split; [reflexivity|]. split; reflexivity.
Qed.

(** * Further properties of the rules *)

(** ** Block padding: siblings inside a block *)

Lemma checkNestedBlankLines_cons sc opts (current next : Node) rest :
  BlockPadding.checkNestedBlankLines sc opts (current :: next :: rest) =
  (if negb (BlockPadding.getBlankLinesBetween current next =?
            BlockPadding.nestedBlockPadding opts)
   then
     [ {| node := next;
          messageId := "missingPaddingBetweenNestedBlocks";
          data := [ ("expected", DNum (BlockPadding.nestedBlockPadding opts));
                    ("actual",
                     DNum (BlockPadding.getBlankLinesBetween current next));
                    ("lineText",
                     DStr (BlockPadding.lineText
                             (BlockPadding.nestedBlockPadding opts))) ];
          fix_ := Some (fixOf (
            e <- Js.deref (getLastToken sc current) ;;
            s <- Js.deref (getFirstToken sc next) ;;
            newLines <- Js.repeat [Js.newline]
                          (BlockPadding.nestedBlockPadding opts + 1) ;;
            Js.Ok (replaceTextRange (snd (range e), fst (range s))
                     newLines))) |} ]
   else []) ++
  BlockPadding.checkNestedBlankLines sc opts (next :: rest).
Proof. reflexivity. Qed.

Lemma gap_fix_value sc (current next : Node) (required : Z) :
  0 <= required ->
  fixOf (e <- Js.deref (getLastToken sc current) ;;
         s <- Js.deref (getFirstToken sc next) ;;
         newLines <- Js.repeat [Js.newline] (required + 1) ;;
         Js.Ok (replaceTextRange (snd (range e), fst (range s)) newLines)) =
  match getLastToken sc current, getFirstToken sc next with
  | Some anchor, Some first =>
      Fixed (Expected.gapEdit (snd (range anchor)) (fst (range first))
               required)
  | _, _ => FixThrows Js.TypeError
  end.
Proof.
  intros Hreq.
  destruct (getLastToken sc current) as [e|]; [|reflexivity].
  destruct (getFirstToken sc next) as [s|]; [|reflexivity].
  cbn [Js.deref Js.bind]. rewrite repeat_char by lia. reflexivity.
Qed.

(** The check between the statements of a block, the cases of a switch
    and the members of a class.  It reports exactly the consecutive
    siblings whose blank-line count differs from [nestedBlockPadding] (1
    when the option is not given), at the later sibling.  The edit replaces
    the whole gap by line feeds, so in the edited text the later sibling
    directly follows a line feed: the indentation it had is gone.  The
    guard of the [SwitchStatement] listener changes nothing. *)
Theorem nested_padding :
  forall sc opts (nodes : list Node),
    0 <= BlockPadding.nestedBlockPadding opts ->
    BlockPadding.checkNestedBlankLines sc opts nodes =
      map (fun p => Expected.siblingPaddingReport sc
                      "missingPaddingBetweenNestedBlocks"
                      (BlockPadding.nestedBlockPadding opts) (fst p) (snd p))
        (List.filter
           (fun p => negb (Expected.blankLines (fst p) (snd p) =?
                           BlockPadding.nestedBlockPadding opts))
           (Expected.adjacentPairs nodes)) /\
    BlockPadding.nestedBlockPadding BlockPadding.noOptions = 1 /\
    BlockPadding.SwitchStatement sc opts nodes =
      BlockPadding.checkNestedBlankLines sc opts nodes /\
    (forall src from to,
        0 <= from <= to -> to <= Js.length src ->
        exists before,
          applyFix src
            (Expected.gapEdit from to (BlockPadding.nestedBlockPadding opts))
          = before ++ Js.newline :: skipn (Z.to_nat to) src).
Proof.
  intros sc opts nodes Hpad.
  assert (Hreports :
    BlockPadding.checkNestedBlankLines sc opts nodes =
      map (fun p => Expected.siblingPaddingReport sc
                      "missingPaddingBetweenNestedBlocks"
                      (BlockPadding.nestedBlockPadding opts) (fst p) (snd p))
        (List.filter
           (fun p => negb (Expected.blankLines (fst p) (snd p) =?
                           BlockPadding.nestedBlockPadding opts))
           (Expected.adjacentPairs nodes))).
  { induction nodes as [|current rest IH]; [reflexivity|].
    destruct rest as [|next rest]; [reflexivity|].
    rewrite adjacentPairs_cons, checkNestedBlankLines_cons, IH.
    cbn [List.filter fst snd].
    change (Expected.blankLines current next)
      with (BlockPadding.getBlankLinesBetween current next).
    destruct (negb (BlockPadding.getBlankLinesBetween current next =?
                    BlockPadding.nestedBlockPadding opts)); [|reflexivity].
    cbn [map app fst snd]. f_equal.
    unfold Expected.siblingPaddingReport. f_equal. f_equal.
    apply gap_fix_value, Hpad. }
  split; [exact Hreports|]. split; [reflexivity|]. split.
  - unfold BlockPadding.SwitchStatement.
    destruct (1 <? Js.arrayLength nodes) eqn:Hlen; [reflexivity|].
    apply Z.ltb_ge in Hlen. unfold Js.arrayLength in Hlen.
    destruct nodes as [|a [|b rest]]; try reflexivity.
    cbn [List.length] in Hlen. lia.
  - intros src from to Hrange Hlen.
    unfold Expected.gapEdit.
    rewrite (applyFix_frame src from to) by assumption.
    replace (Z.to_nat (BlockPadding.nestedBlockPadding opts + 1))
      with (Z.to_nat (BlockPadding.nestedBlockPadding opts) + 1)%nat by lia.
    rewrite repeat_app. cbn [List.repeat].
    exists (firstn (Z.to_nat from) src ++
            List.repeat Js.newline
              (Z.to_nat (BlockPadding.nestedBlockPadding opts))).
    rewrite <- !app_assoc. reflexivity.
Qed.

(** Two calls on consecutive lines of a block, default options: one
    diagnostic at the second, and the edit leaves it without its
    indentation. *)
Lemma nested_padding_witness :
  0 <= BlockPadding.nestedBlockPadding BlockPadding.noOptions /\
  BlockPadding.BlockStatement Samples.Padding.block BlockPadding.noOptions
    [Samples.Padding.callA; Samples.Padding.callB] =
  [ {| node := Samples.Padding.callB;
       messageId := "missingPaddingBetweenNestedBlocks";
       data := [ ("expected", DNum 1); ("actual", DNum 0);
                 ("lineText", DStr "line") ];
       fix_ := Some (Fixed (Expected.gapEdit 8 11 1)) |} ] /\
  applyFix Samples.Padding.blockSrc (Expected.gapEdit 8 11 1) =
  Samples.source ["{"; "  a();"; ""; "b();"; "}"].
Proof.
  split; [discriminate|]. split; [|reflexivity].
  unfold BlockPadding.BlockStatement.
  change (1 <? Js.arrayLength [Samples.Padding.callA; Samples.Padding.callB])
    with true. cbv iota.
  rewrite (proj1 (nested_padding Samples.Padding.block BlockPadding.noOptions
                    [Samples.Padding.callA; Samples.Padding.callB]
                    ltac:(discriminate))).
  reflexivity.
Defined.

(** A list of siblings passes a sibling check exactly when every two
    consecutive siblings are separated by the required number of blank
    lines; and a check never reports more diagnostics than there are
    gaps. *)
Theorem sibling_padding_canonical :
  forall sc opts (nodes : list Node),
    (BlockPadding.checkRootLevelBlankLines sc opts nodes = [] <->
     Forall (fun p => Expected.blankLines (fst p) (snd p) =
                      BlockPadding.rootBlockPadding opts)
       (Expected.adjacentPairs nodes)) /\
    (BlockPadding.checkNestedBlankLines sc opts nodes = [] <->
     Forall (fun p => Expected.blankLines (fst p) (snd p) =
                      BlockPadding.nestedBlockPadding opts)
       (Expected.adjacentPairs nodes)) /\
    (List.length (BlockPadding.checkRootLevelBlankLines sc opts nodes)
       <= List.length nodes - 1)%nat /\
    (List.length (BlockPadding.checkNestedBlankLines sc opts nodes)
       <= List.length nodes - 1)%nat.
Proof.
  intros sc opts nodes. repeat split.
  - induction nodes as [|a [|b rest] IH]; intros H; try constructor.
    + rewrite checkRootLevelBlankLines_cons in H.
      apply app_eq_nil in H as [Hhere _].
      cbn [fst snd]. unfold Expected.blankLines.
      unfold BlockPadding.getBlankLinesBetween in Hhere.
      destruct (_ =? _) eqn:E in Hhere; [|discriminate].
      apply Z.eqb_eq in E. exact E.
    + apply IH. rewrite checkRootLevelBlankLines_cons in H.
      apply app_eq_nil in H as [_ Hrest]. exact Hrest.
  - induction nodes as [|a [|b rest] IH]; intros H; try reflexivity.
    rewrite adjacentPairs_cons in H. inversion H as [|p l Hab Hrest]; subst.
    rewrite checkRootLevelBlankLines_cons, (IH Hrest).
    cbn [fst snd] in Hab. unfold Expected.blankLines in Hab.
    unfold BlockPadding.getBlankLinesBetween.
    rewrite Hab, Z.eqb_refl. reflexivity.
  - induction nodes as [|a [|b rest] IH]; intros H; try constructor.
    + rewrite checkNestedBlankLines_cons in H.
      apply app_eq_nil in H as [Hhere _].
      cbn [fst snd]. unfold Expected.blankLines.
      unfold BlockPadding.getBlankLinesBetween in Hhere.
      destruct (_ =? _) eqn:E in Hhere; [|discriminate].
      apply Z.eqb_eq in E. exact E.
    + apply IH. rewrite checkNestedBlankLines_cons in H.
      apply app_eq_nil in H as [_ Hrest]. exact Hrest.
  - induction nodes as [|a [|b rest] IH]; intros H; try reflexivity.
    rewrite adjacentPairs_cons in H. inversion H as [|p l Hab Hrest]; subst.
    rewrite checkNestedBlankLines_cons, (IH Hrest).
    cbn [fst snd] in Hab. unfold Expected.blankLines in Hab.
    unfold BlockPadding.getBlankLinesBetween.
    rewrite Hab, Z.eqb_refl. reflexivity.
  - induction nodes as [|a [|b rest] IH]; try (cbn; lia).
    rewrite checkRootLevelBlankLines_cons, length_app.
    cbn [List.length] in *.
    destruct (negb _); cbn [List.length]; lia.
  - induction nodes as [|a [|b rest] IH]; try (cbn; lia).
    rewrite checkNestedBlankLines_cons, length_app.
    cbn [List.length] in *.
    destruct (negb _); cbn [List.length]; lia.
Qed.

(** ** Block padding: the comments taken as documentation *)

Lemma onConsecutiveLines_snoc (comments : list Token) (c : Token) :
  Expected.onConsecutiveLines comments ->
  (comments <> [] ->
   line (end_ (loc (List.last comments c))) + 1 = line (start (loc c))) ->
  Expected.onConsecutiveLines (comments ++ [c]).
Proof.
  unfold Expected.onConsecutiveLines.
  induction comments as [|d [|e rest] IH]; intros Hchain Hlast.
  - constructor.
  - cbn. constructor; [|constructor]. cbn [fst snd].
    apply Hlast. discriminate.
  - change ((d :: e :: rest) ++ [c]) with (d :: e :: (rest ++ [c])).
    rewrite adjacentPairs_cons in *.
    inversion Hchain as [|p l Hde Hrest]; subst.
    constructor; [exact Hde|].
    apply IH; [exact Hrest|]. intros _. apply Hlast. discriminate.
Qed.

Section LineComments.

Variable lines_from_one : Token -> Prop.
Hypothesis lines_from_one_spec :
  forall c, lines_from_one c -> 1 <= line (start (loc c)).

(** What the backward loop collects: line comments only, all from the
    list it walks, the last ones of it, each on the line after the one
    before. *)
Lemma consecutiveLineCommentsFrom_spec (fromLast : list Token) :
  Forall lines_from_one fromLast ->
  forall lastLine,
    let found := BlockPadding.consecutiveLineCommentsFrom lastLine fromLast in
    Forall (fun c => tok_type c = "Line") found /\
    incl found fromLast /\
    (exists earlier,
        List.filter BlockPadding.isLine (rev fromLast) = earlier ++ found) /\
    Expected.onConsecutiveLines found /\
    (lastLine <> -1 -> forall d, found <> [] ->
     line (end_ (loc (List.last found d))) + 1 = lastLine).
Proof.
  induction 1 as [|c earlier Hc Hearlier IH]; intros lastLine.
  - cbn. split; [constructor|]. split; [intros x []|].
    split; [exists []; reflexivity|]. split; [constructor|].
    intros _ d Hne. congruence.
  - cbn [BlockPadding.consecutiveLineCommentsFrom rev].
    rewrite filter_app. cbn [List.filter]. unfold BlockPadding.isLine at 2.
    destruct (String.eqb (tok_type c) "Line") eqn:Htype; cbn [negb].
    + destruct ((lastLine =? -1) || (line (end_ (loc c)) + 1 =? lastLine))
        eqn:Hcond.
      * destruct (IH (line (start (loc c))))
          as [Hlines [Hincl [[pre Hpre] [Hchain Hlast]]]].
        cbv zeta. split; [|split; [|split; [|split]]].
        -- apply Forall_app. split; [exact Hlines|].
           constructor; [apply String.eqb_eq, Htype | constructor].
        -- intros x Hx. apply in_app_or in Hx as [Hx | [<- | []]];
             [right; apply Hincl, Hx | left; reflexivity].
        -- exists pre. rewrite Hpre, <- app_assoc. reflexivity.
        -- apply onConsecutiveLines_snoc; [exact Hchain|].
           intros Hne. apply Hlast; [|exact Hne].
           apply lines_from_one_spec in Hc. lia.
        -- intros Hline d _. rewrite last_last.
           apply orb_true_iff in Hcond as [E | E];
             [apply Z.eqb_eq in E; congruence | apply Z.eqb_eq in E; exact E].
      * cbv zeta. split; [constructor|]. split; [intros x []|].
        split; [eexists; rewrite app_nil_r; reflexivity|].
        split; [constructor|]. intros _ d Hne. congruence.
    + destruct (IH lastLine) as [Hlines [Hincl [[pre Hpre] [Hchain Hlast]]]].
      cbv zeta. split; [exact Hlines|].
      split; [intros x Hx; right; apply Hincl, Hx|].
      split; [exists pre; rewrite app_nil_r; exact Hpre|].
      split; [exact Hchain | exact Hlast].
Qed.

End LineComments.

Lemma existsb_find_rev {A} (f : A -> bool) (l : list A) :
  existsb f l = true ->
  exists x, find f (rev l) = Some x /\ In x l /\ f x = true.
Proof.
  intros H. apply existsb_exists in H as [y [Hy Hfy]].
  destruct (find f (rev l)) as [x|] eqn:Hfind.
  - exists x. apply find_some in Hfind as [Hin Hfx].
    split; [reflexivity|]. split; [rewrite in_rev; exact Hin | exact Hfx].
  - apply find_none with (x := y) in Hfind; [congruence|].
    rewrite <- in_rev. exact Hy.
Qed.

(** What [getDocstringComments] returns for the comments directly before
    a node.  The result is taken from those comments.  If a block comment
    is among them, only the last block comment counts: the result is that
    comment when it is a documentation block and nothing otherwise, also
    when line comments follow it.  If none is, the result is made of line
    comments: the last ones before the node, each on the line after the
    one before, and at least two of them unless the only one matches the
    pattern; nothing when [treatCommentsAsDocstrings] is off. *)
Theorem docstring_comments_shape :
  forall sc opts (n : Node),
    let comments := getCommentsBefore sc n in
    let found := BlockPadding.getDocstringComments sc opts n in
    Forall (fun c => 1 <= line (start (loc c))) comments ->
    incl found comments /\
    (existsb BlockPadding.isBlock comments = true ->
     exists b,
       find BlockPadding.isBlock (rev comments) = Some b /\
       found = if BlockPadding.isDocstring b then [b] else []) /\
    (existsb BlockPadding.isBlock comments = false ->
     (BlockPadding.treatCommentsAsDocstrings opts = false -> found = []) /\
     Forall (fun c => tok_type c = "Line") found /\
     Expected.onConsecutiveLines found /\
     (exists earlier,
         List.filter BlockPadding.isLine comments = earlier ++ found) /\
     (found = [] \/ (2 <= List.length found)%nat \/
      exists c, found = [c] /\
                Regex.test BlockPadding.docstringPattern (value c) = true)).
Proof.
  intros sc opts n. cbv zeta. unfold BlockPadding.getDocstringComments.
  generalize (getCommentsBefore sc n). intros comments Hlines.
  assert (Hloop := consecutiveLineCommentsFrom_spec
                     (fun c => 1 <= line (start (loc c)))
                     (fun c H => H) (rev comments)
                     (Forall_rev Hlines) (-1)).
  cbv zeta in Hloop. rewrite rev_involutive in Hloop.
  destruct Hloop as [Hline [Hincl [Hsuffix [Hchain _]]]].
  assert (Hnone :
    (BlockPadding.treatCommentsAsDocstrings opts = false -> @nil Token = []) /\
    Forall (fun c => tok_type c = "Line") [] /\
    Expected.onConsecutiveLines [] /\
    (exists earlier,
        List.filter BlockPadding.isLine comments = earlier ++ []) /\
    (@nil Token = [] \/ (2 <= List.length (@nil Token))%nat \/
     exists c, [] = [c] /\
               Regex.test BlockPadding.docstringPattern (value c) = true)).
  { split; [reflexivity|]. split; [constructor|]. split; [constructor|].
    split; [eexists; rewrite app_nil_r; reflexivity | left; reflexivity]. }
  destruct comments as [|c0 rest].
  { split; [intros x []|]. split; [discriminate | intros _; exact Hnone]. }
  cbv beta iota. set (comments := c0 :: rest) in *.
  destruct (existsb BlockPadding.isBlock comments) eqn:Hblock.
  - destruct (existsb_find_rev _ _ Hblock) as [b [Hfind [Hin Hb]]].
    rewrite Hfind. split; [|split; [|discriminate]].
    + destruct (BlockPadding.isDocstring b); intros x Hx; [|destruct Hx].
      destruct Hx as [<- | []]. exact Hin.
    + intros _. exists b. split; reflexivity.
  - destruct (BlockPadding.treatCommentsAsDocstrings opts) eqn:Htreat;
      cbn [andb];
      [|split; [intros x []|];
        split; [discriminate | intros _; exact Hnone]].
    destruct (existsb BlockPadding.isLine comments);
      [|split; [intros x []|];
        split; [discriminate | intros _; exact Hnone]].
    assert (Hin : incl (BlockPadding.consecutiveLineCommentsFrom (-1)
                          (rev comments)) comments).
    { intros x Hx. rewrite in_rev. apply Hincl, Hx. }
    destruct (BlockPadding.consecutiveLineCommentsFrom (-1) (rev comments))
      as [|c1 [|c2 more]] eqn:Hfound.
    + split; [intros x []|].
      split; [discriminate | intros _; exact Hnone].
    + destruct (Regex.test BlockPadding.docstringPattern (value c1))
        eqn:Htest.
      * split; [exact Hin|]. split; [discriminate|]. intros _.
        split; [discriminate|]. split; [exact Hline|].
        split; [exact Hchain|]. split; [exact Hsuffix|].
        right. right. exists c1. split; [reflexivity | exact Htest].
      * split; [intros x []|]. split; [discriminate | intros _; exact Hnone].
    + split; [exact Hin|]. split; [discriminate|]. intros _.
      split; [discriminate|]. split; [exact Hline|].
      split; [exact Hchain|]. split; [exact Hsuffix|].
      right. left. cbn [List.length]. lia.
Qed.

(** A function under two line comments: both are taken as its
    documentation.  A function under a plain block comment followed by
    line comments, one with a tag: nothing is. *)
Lemma docstring_comments_witness :
  Forall (fun c => 1 <= line (start (loc c)))
    (getCommentsBefore Samples.Padding.documented
       Samples.Padding.documentedF) /\
  Expected.onConsecutiveLines
    (BlockPadding.getDocstringComments Samples.Padding.documented
       BlockPadding.noOptions Samples.Padding.documentedF) /\
  map value
    (BlockPadding.getDocstringComments Samples.Padding.documented
       BlockPadding.noOptions Samples.Padding.documentedF)
    = [Js.str " one"; Js.str " two"] /\
  map value (getCommentsBefore Samples.Padding.hidden Samples.Padding.hiddenF)
    = [Js.str " note "; Js.str " @param x"; Js.str " more"] /\
  BlockPadding.getDocstringComments Samples.Padding.hidden
    BlockPadding.noOptions Samples.Padding.hiddenF = [].
Proof.
  assert (Hlines : Forall (fun c => 1 <= line (start (loc c)))
                     (getCommentsBefore Samples.Padding.documented
                        Samples.Padding.documentedF)).
  { repeat constructor; discriminate. }
  split; [exact Hlines|].
  pose proof (docstring_comments_shape Samples.Padding.documented
                BlockPadding.noOptions Samples.Padding.documentedF Hlines)
    as [_ [_ Hshape]].
  split; [apply Hshape; reflexivity|].
  split; [reflexivity|]. split; reflexivity.
Defined.

(** ** Block padding: the boundaries of the file *)

Lemma substring_prefix (s : Js.text) (e : Z) :
  0 <= e <= Js.length s -> Js.substring s 0 e = firstn (Z.to_nat e) s.
Proof.
  intros He. unfold Js.substring.
  rewrite (Z.min_l 0) by (pose proof (length_nonneg s); lia).
  rewrite (Z.max_l 0 0) by lia. rewrite (Z.min_l e) by lia.
  rewrite (Z.max_r 0 e) by lia. rewrite (Z.min_l 0 e) by lia.
  rewrite (Z.max_r 0 e) by lia. rewrite Z.sub_0_r. reflexivity.
Qed.

Lemma nth_error_cut {A : Type} (l : list A) :
  forall n x, nth_error l n = Some x ->
    l = firstn n l ++ x :: skipn (S n) l.
Proof.
  induction l as [|y l IH]; intros [|n] x Hx; try discriminate.
  - injection Hx as ->. reflexivity.
  - cbn [firstn skipn app]. f_equal. apply IH. exact Hx.
Qed.

Lemma skipn_cut {A : Type} (l : list A) :
  forall n x, nth_error l n = Some x -> skipn n l = x :: skipn (S n) l.
Proof.
  induction l as [|y l IH]; intros [|n] x Hx; try discriminate.
  - injection Hx as ->. reflexivity.
  - cbn [skipn]. apply IH. exact Hx.
Qed.

Lemma trimStart_app_blank (a b : Js.text) :
  Forall (fun c => Js.isWhitespace c = true) a ->
  Expected.trimStart (a ++ b) = Expected.trimStart b.
Proof.
  induction 1 as [|c a Hc _ IH]; [reflexivity|].
  cbn [app Expected.trimStart]. rewrite Hc. exact IH.
Qed.

(** Where the search for [\S] stops, the text without its leading white
    space begins. *)
Lemma search_trimStart (s rest : Js.text) :
  forall from, 0 <= from ->
    let found := Js.searchFrom Js.isNonWhitespace from s in
    (found = -1 /\ Forall (fun c => Js.isWhitespace c = true) s) \/
    (from <= found /\ found - from <= Js.length s /\
     Expected.trimStart (s ++ rest) =
     skipn (Z.to_nat (found - from)) (s ++ rest)).
Proof.
  induction s as [|c s IH]; intros from Hfrom; cbv zeta.
  - left. split; [reflexivity | constructor].
  - cbn [Js.searchFrom].
    assert (Hclass : Js.isNonWhitespace c = negb (Js.isWhitespace c))
      by reflexivity.
    destruct (Js.isWhitespace c) eqn:Hc; rewrite Hclass; cbn [negb].
    + destruct (IH (from + 1) ltac:(lia)) as [[Hnone Hall] | [Hle [Hlen Htrim]]].
      * left. split; [exact Hnone | constructor; assumption].
      * right. split; [lia|]. unfold Js.length in *. cbn [List.length].
        split; [lia|].
        cbn [app Expected.trimStart]. rewrite Hc, Htrim.
        replace (Z.to_nat (Js.searchFrom Js.isNonWhitespace (from + 1) s
                           - from))
          with (S (Z.to_nat (Js.searchFrom Js.isNonWhitespace (from + 1) s
                             - (from + 1)))) by lia.
        reflexivity.
    + right. split; [lia|]. split; [pose proof (length_nonneg (c :: s)); lia|].
      rewrite Z.sub_diag. cbn [app Expected.trimStart Z.to_nat skipn].
      rewrite Hc. reflexivity.
Qed.

(** The beginning check, when it is on and the first node starts after
    line 1.  It reports, and its edit removes a prefix of the text: applied,
    it yields the text without the white space it starts with.  When the
    file starts with something else, a comment say, the first node is
    reported all the same and the edit changes nothing. *)
Theorem beginning_fix_strips_leading_whitespace :
  forall sc opts (firstNode : Node) (first : Token) (c : ascii),
    BlockPadding.enforceBeginningPadding opts = true ->
    1 < line (start (loc firstNode)) ->
    getFirstToken sc firstNode = Some first ->
    0 <= fst (range first) ->
    nth_error (text sc) (Z.to_nat (fst (range first))) = Some c ->
    Js.isWhitespace c = false ->
    exists removed,
      BlockPadding.checkBeginningPadding sc opts firstNode =
        [ {| node := firstNode;
             messageId := "missingPaddingAtBeginning";
             data := [];
             fix_ := Some (Fixed (removeRange (0, removed))) |} ] /\
      applyFix (text sc) (removeRange (0, removed)) =
        Expected.trimStart (text sc) /\
      (Expected.trimStart (text sc) = text sc ->
       applyFix (text sc) (removeRange (0, removed)) = text sc).
Proof.
  intros sc opts firstNode first c Hon Hline Hfirst Hstart Hc Hnonblank.
  set (e := fst (range first)) in *.
  assert (He : 0 <= e < Js.length (text sc)).
  { split; [exact Hstart|]. unfold Js.length.
    assert (Z.to_nat e < List.length (text sc))%nat
      by (apply nth_error_Some; congruence).
    lia. }
  pose proof (nth_error_cut _ _ _ Hc) as Hsplit.
  assert (Hremoved : forall k, 0 <= k <= e ->
            applyFix (text sc) (removeRange (0, k)) =
            skipn (Z.to_nat k) (text sc)).
  { intros k Hk. unfold removeRange.
    rewrite applyFix_frame by lia. reflexivity. }
  unfold BlockPadding.checkBeginningPadding. rewrite Hon.
  replace (1 <? line (start (loc firstNode))) with true
    by (symmetry; apply Z.ltb_lt; exact Hline).
  rewrite Hfirst. cbn [Js.deref Js.bind]. fold e.
  unfold getText. rewrite substring_prefix by lia. unfold Js.search.
  destruct (search_trimStart (firstn (Z.to_nat e) (text sc))
              (c :: skipn (S (Z.to_nat e)) (text sc)) 0 ltac:(lia))
    as [[Hnone Hblank] | [Hle [Hlen Htrim]]]; cbv zeta in *.
  - rewrite Hnone. cbn [Z.eqb negb fixOf]. exists e.
    assert (Happly : applyFix (text sc) (removeRange (0, e)) =
                     Expected.trimStart (text sc)).
    { rewrite Hremoved by lia. rewrite Hsplit at 2.
      rewrite trimStart_app_blank by exact Hblank.
      cbn [Expected.trimStart]. rewrite Hnonblank.
      apply skipn_cut. exact Hc. }
    split; [reflexivity|]. split; [exact Happly|].
    intros Hsame. rewrite Happly. exact Hsame.
  - set (found := Js.searchFrom Js.isNonWhitespace 0
                    (firstn (Z.to_nat e) (text sc))) in *.
    rewrite Z.sub_0_r in *. rewrite <- Hsplit in Htrim.
    assert (Hfound : found <= e).
    { unfold Js.length in Hlen. rewrite length_firstn in Hlen. lia. }
    destruct (found =? -1) eqn:E; [apply Z.eqb_eq in E; lia|].
    cbn [negb fixOf]. exists found.
    assert (Happly : applyFix (text sc) (removeRange (0, found)) =
                     Expected.trimStart (text sc)).
    { rewrite Hremoved by lia. symmetry. exact Htrim. }
    split; [reflexivity|]. split; [exact Happly|].
    intros Hsame. rewrite Happly. exact Hsame.
Qed.

(** Two empty lines before a function: the edit removes them.  A comment
    on line 1: the function is reported, and the edit removes nothing. *)
Lemma beginning_fix_witness :
  1 < line (start (loc Samples.Padding.leadingF)) /\
  (exists removed,
     BlockPadding.checkBeginningPadding Samples.Padding.leading
       Samples.Padding.atBeginning Samples.Padding.leadingF =
       [ {| node := Samples.Padding.leadingF;
            messageId := "missingPaddingAtBeginning";
            data := [];
            fix_ := Some (Fixed (removeRange (0, removed))) |} ] /\
     applyFix Samples.Padding.leadingSrc (removeRange (0, removed)) =
       Js.str "function f() {}") /\
  (exists removed,
     BlockPadding.checkBeginningPadding Samples.Padding.topComment
       Samples.Padding.atBeginning Samples.Padding.topCommentF =
       [ {| node := Samples.Padding.topCommentF;
            messageId := "missingPaddingAtBeginning";
            data := [];
            fix_ := Some (Fixed (removeRange (0, removed))) |} ] /\
     applyFix Samples.Padding.topCommentSrc (removeRange (0, removed)) =
       Samples.Padding.topCommentSrc).
Proof.
  split; [reflexivity|]. split.
  - destruct (beginning_fix_strips_leading_whitespace
                Samples.Padding.leading Samples.Padding.atBeginning
                Samples.Padding.leadingF
                (tokenAt Samples.Padding.leadingSrc "Keyword" 2 10) "f"%char)
      as [removed [Hreport [Hfix _]]];
      try reflexivity; [discriminate|].
    exists removed. split; [exact Hreport|]. exact Hfix.
  - destruct (beginning_fix_strips_leading_whitespace
                Samples.Padding.topComment Samples.Padding.atBeginning
                Samples.Padding.topCommentF
                (tokenAt Samples.Padding.topCommentSrc "Keyword" 7 15)
                "f"%char)
      as [removed [Hreport [_ Hsame]]];
      try reflexivity; [discriminate|].
    exists removed. split; [exact Hreport|]. apply Hsame. reflexivity.
Defined.

Lemma countNewlines_app (a b : Js.text) :
  Expected.countNewlines (a ++ b) =
  Expected.countNewlines a + Expected.countNewlines b.
Proof.
  unfold Expected.countNewlines, Js.arrayLength.
  rewrite filter_app, length_app. lia.
Qed.

Lemma countNewlines_repeat (n : nat) :
  Expected.countNewlines (List.repeat Js.newline n) = Z.of_nat n.
Proof.
  unfold Expected.countNewlines, Js.arrayLength.
  induction n as [|n IH]; [reflexivity|].
  cbn [List.repeat List.filter]. rewrite Ascii.eqb_refl.
  cbn [List.length]. lia.
Qed.

(** Splitting at line feeds gives one piece more than there are line
    feeds. *)
Lemma split_newline_length (s : Js.text) :
  Js.arrayLength (Js.split Js.newline s) = 1 + Expected.countNewlines s.
Proof.
  unfold Js.split. generalize (@nil ascii).
  unfold Expected.countNewlines, Js.arrayLength.
  induction s as [|c s IH]; intros current; [reflexivity|].
  cbn [Js.splitFrom List.filter]. rewrite (Ascii.eqb_sym Js.newline c).
  destruct (Ascii.eqb c Js.newline).
  - cbn [List.length]. specialize (IH []). lia.
  - apply IH.
Qed.

(** The end check, when it is on, for a last node whose end line is the
    line of its last token.  It passes exactly when the text after that
    token holds the required number of line feeds.  Otherwise its edit
    replaces everything after the token, whatever it is, by that many line
    feeds, and the check passes on the edited text. *)
Theorem end_padding_fix_settles :
  forall sc opts (lastNode : Node) (last : Token),
    let required := BlockPadding.rootBlockPadding opts in
    let e := snd (range last) in
    let edit := replaceTextRange (e, Js.length (text sc))
                  (List.repeat Js.newline (Z.to_nat required)) in
    BlockPadding.enforceEndPadding opts = true ->
    0 <= required ->
    getLastToken sc lastNode = Some last ->
    0 <= e <= Js.length (text sc) ->
    line (end_ (loc lastNode)) =
      1 + Expected.countNewlines (firstn (Z.to_nat e) (text sc)) ->
    (BlockPadding.checkEndPadding sc opts lastNode = [] <->
     Expected.countNewlines (skipn (Z.to_nat e) (text sc)) = required) /\
    (Expected.countNewlines (skipn (Z.to_nat e) (text sc)) <> required ->
     exists r, BlockPadding.checkEndPadding sc opts lastNode = [r] /\
       node r = lastNode /\ messageId r = "missingPaddingAtEnd" /\
       fix_ r = Some (Fixed edit)) /\
    applyFix (text sc) edit =
      firstn (Z.to_nat e) (text sc) ++
      List.repeat Js.newline (Z.to_nat required) /\
    (forall sc', text sc' = applyFix (text sc) edit ->
       BlockPadding.checkEndPadding sc' opts lastNode = []).
Proof.
  intros sc opts lastNode last required e edit Hon Hrequired Hlast He Hline.
  assert (Hblank : forall src,
            firstn (Z.to_nat e) src = firstn (Z.to_nat e) (text sc) ->
            Js.arrayLength (Js.split Js.newline src) -
              line (end_ (loc lastNode)) =
            Expected.countNewlines (skipn (Z.to_nat e) src)).
  { intros src Hsrc. rewrite split_newline_length, Hline.
    rewrite <- (firstn_skipn (Z.to_nat e) src) at 1.
    rewrite countNewlines_app, Hsrc. lia. }
  assert (Happly : applyFix (text sc) edit =
                   firstn (Z.to_nat e) (text sc) ++
                   List.repeat Js.newline (Z.to_nat required)).
  { unfold edit. rewrite applyFix_frame by lia.
    unfold Js.length. rewrite Nat2Z.id, skipn_all, app_nil_r. reflexivity. }
  assert (Hcheck : forall sc',
            firstn (Z.to_nat e) (text sc') = firstn (Z.to_nat e) (text sc) ->
            Expected.countNewlines (skipn (Z.to_nat e) (text sc')) = required ->
            BlockPadding.checkEndPadding sc' opts lastNode = []).
  { intros sc' Hprefix Hcount. unfold BlockPadding.checkEndPadding.
    rewrite Hon. cbv zeta. unfold getText.
    rewrite (Hblank _ Hprefix), Hcount. fold required.
    rewrite Z.eqb_refl. reflexivity. }
  split; [|split; [|split]].
  - split; [|apply Hcheck; reflexivity].
    unfold BlockPadding.checkEndPadding. rewrite Hon. cbv zeta.
    unfold getText. rewrite (Hblank _ eq_refl). fold required.
    destruct (Expected.countNewlines (skipn (Z.to_nat e) (text sc))
              =? required) eqn:E; [intros _; apply Z.eqb_eq; exact E|].
    discriminate.
  - intros Hcount. unfold BlockPadding.checkEndPadding. rewrite Hon.
    cbv zeta. unfold getText. rewrite (Hblank _ eq_refl). fold required.
    destruct (Expected.countNewlines (skipn (Z.to_nat e) (text sc))
              =? required) eqn:E; [apply Z.eqb_eq in E; contradiction|].
    cbn [negb]. eexists. split; [reflexivity|].
    cbn [node messageId fix_]. split; [reflexivity|]. split; [reflexivity|].
    rewrite Hlast. cbn [Js.deref Js.bind]. rewrite repeat_char by exact Hrequired.
    reflexivity.
  - exact Happly.
  - intros sc' Htext. rewrite Happly in Htext.
    assert (Hlen : List.length (firstn (Z.to_nat e) (text sc)) = Z.to_nat e).
    { rewrite length_firstn. unfold Js.length in He. lia. }
    apply Hcheck.
    + rewrite Htext, firstn_app, Hlen, Nat.sub_diag. cbn [firstn].
      rewrite app_nil_r, <- Hlen at 1. rewrite Hlen at 1.
      rewrite <- Hlen at 1. apply firstn_all.
    + rewrite Htext, skipn_app, Hlen, Nat.sub_diag. cbn [skipn].
      rewrite <- Hlen at 1. rewrite skipn_all. cbn [app].
      rewrite countNewlines_repeat. lia.
Qed.

(** One line feed after the only function, two required: the edit replaces
    it by two, and the check then passes. *)
Lemma end_padding_fix_witness :
  let last := tokenAt Samples.Padding.trailingSrc "Punctuator" 14 15 in
  let edit := replaceTextRange (15, 16) [Js.newline; Js.newline] in
  getLastToken Samples.Padding.trailing Samples.Padding.trailingF = Some last /\
  map fix_ (BlockPadding.checkEndPadding Samples.Padding.trailing
              Samples.Padding.atEnd Samples.Padding.trailingF) =
    [Some (Fixed edit)] /\
  applyFix Samples.Padding.trailingSrc edit =
    Samples.source ["function f() {}"; ""; ""] /\
  (forall sc', text sc' = applyFix Samples.Padding.trailingSrc edit ->
     BlockPadding.checkEndPadding sc' Samples.Padding.atEnd
       Samples.Padding.trailingF = []).
Proof.
  intros last edit.
  pose proof (end_padding_fix_settles Samples.Padding.trailing
                Samples.Padding.atEnd Samples.Padding.trailingF last
                eq_refl ltac:(discriminate) eq_refl
                ltac:(split; discriminate) eq_refl)
    as [_ [_ [_ Hsettles]]].
  split; [reflexivity|]. split; [reflexivity|]. split; [reflexivity|].
  exact Hsettles.
Defined.

(** ** Class members: groups, names and padding *)

Section MemberGroups.

Import ClassPropertyGrouping.

Lemma firstMatchingGroup_configured (m : Member) (t : string) :
  forall gs,
    Forall (fun g => types g <> None /\ matches g <> None) gs ->
    exists r, firstMatchingGroup m t gs = Js.Ok r /\
      forall g, r = Some g ->
        In g gs /\
        (t = "MethodDefinition" \/ t = "ClassProperty") /\
        exists ts, types g = Some ts /\ In t ts.
Proof.
  induction 1 as [|g gs [Hty Hma] _ [r [IH Hr]]].
  - exists None. split; [reflexivity | discriminate].
  - assert (Hrest : exists r, firstMatchingGroup m t gs = Js.Ok r /\
              forall g', r = Some g' ->
                In g' (g :: gs) /\
                (t = "MethodDefinition" \/ t = "ClassProperty") /\
                exists ts, types g' = Some ts /\ In t ts).
    { exists r. split; [exact IH|]. intros g' Hg'.
      destruct (Hr g' Hg') as [Hin Hrest]. split; [right; exact Hin|].
      exact Hrest. }
    cbn [firstMatchingGroup].
    destruct (types g) as [ts|] eqn:Ets; [|congruence].
    destruct (matches g) as [ms|] eqn:Ems; [|congruence].
    cbn [arrayIncludes Js.deref Js.bind].
    destruct (existsb (String.eqb t) ts) eqn:Ein; cbn [negb];
      [|exact Hrest].
    assert (Hhere : forall kindOfNode,
              t = kindOfNode ->
              kindOfNode = "MethodDefinition" \/ kindOfNode = "ClassProperty" ->
              exists r', Js.Ok (Some g) = Js.Ok r' /\
                forall g', r' = Some g' ->
                  In g' (g :: gs) /\
                  (t = "MethodDefinition" \/ t = "ClassProperty") /\
                  exists ts', types g' = Some ts' /\ In t ts').
    { intros k Hk Hkind. exists (Some g). split; [reflexivity|].
      intros g' Hg'. injection Hg' as <-. split; [left; reflexivity|].
      split; [rewrite Hk; exact Hkind|]. exists ts. split; [exact Ets|].
      apply existsb_exists in Ein. destruct Ein as [x [Hx Heq]].
      apply String.eqb_eq in Heq. subst x. exact Hx. }
    destruct (String.eqb_spec t "MethodDefinition") as [Hm|Hm].
    + destruct (String.eqb (kind m) "constructor"), (static m),
        (existsb (String.eqb "constructor") ms),
        (existsb (String.eqb "static") ms);
        cbn [Js.andThen Js.bind negb andb];
        first [ exact Hrest | apply (Hhere _ Hm); left; reflexivity ].
    + destruct (String.eqb_spec t "ClassProperty") as [Hp|Hp];
        [|exact Hrest].
      destruct (static m), (existsb (String.eqb "static") ms);
        cbn [Js.andThen Js.bind negb andb];
        first [ exact Hrest | apply (Hhere _ Hp); right; reflexivity ].
Qed.

End MemberGroups.

(** When every configured group carries [types] and [matches], classifying
    a member never throws; the result is one of the configured groups, one
    whose [types] lists the kind of member, and only methods and
    properties get one. *)
Theorem member_group_is_configured :
  forall opts (m : ClassPropertyGrouping.Member),
    Forall (fun g => ClassPropertyGrouping.types g <> None /\
                     ClassPropertyGrouping.matches g <> None)
      (ClassPropertyGrouping.groups opts) ->
    exists r, ClassPropertyGrouping.getMemberGroup opts m = Js.Ok r /\
      forall g, r = Some g ->
        In g (ClassPropertyGrouping.groups opts) /\
        In (type (ClassPropertyGrouping.member_node m))
          [ "MethodDefinition"; "ClassProperty"; "PropertyDefinition";
            "TSPropertyDefinition" ] /\
        exists ts, ClassPropertyGrouping.types g = Some ts /\
          (In "MethodDefinition" ts \/ In "ClassProperty" ts).
Proof.
  intros opts m Hgroups. unfold ClassPropertyGrouping.getMemberGroup.
  set (t := type (ClassPropertyGrouping.member_node m)).
  set (t' := if String.eqb t "PropertyDefinition" ||
                String.eqb t "TSPropertyDefinition"
             then "ClassProperty" else t).
  destruct (firstMatchingGroup_configured m t' _ Hgroups) as [r [Hr Hshape]].
  exists r. split; [exact Hr|]. intros g Hg.
  destruct (Hshape g Hg) as [Hin [Hkind [ts [Hts Hint]]]].
  split; [exact Hin|]. split.
  - subst t'. cbn [In].
    destruct (String.eqb_spec t "PropertyDefinition") as [->|];
      [tauto|].
    destruct (String.eqb_spec t "TSPropertyDefinition") as [->|];
      [tauto|].
    cbn [orb] in Hkind. destruct Hkind as [<-| <-]; tauto.
  - exists ts. split; [exact Hts|].
    destruct Hkind as [Hk|Hk]; rewrite Hk in Hint; tauto.
Qed.

(** The default groups carry both properties; a method of the sample class
    is classified as an instance method. *)
Lemma member_group_witness :
  Forall (fun g => ClassPropertyGrouping.types g <> None /\
                   ClassPropertyGrouping.matches g <> None)
    (ClassPropertyGrouping.groups ClassPropertyGrouping.noOptions) /\
  exists r,
    ClassPropertyGrouping.getMemberGroup ClassPropertyGrouping.noOptions
      Samples.ClassB.run = Js.Ok r /\
    option_map ClassPropertyGrouping.name r = Some "instance-methods" /\
    forall g, r = Some g ->
      In g (ClassPropertyGrouping.groups ClassPropertyGrouping.noOptions).
Proof.
  assert (Hgroups : Forall (fun g => ClassPropertyGrouping.types g <> None /\
                                     ClassPropertyGrouping.matches g <> None)
            (ClassPropertyGrouping.groups ClassPropertyGrouping.noOptions)).
  { repeat constructor; discriminate. }
  split; [exact Hgroups|].
  destruct (member_group_is_configured ClassPropertyGrouping.noOptions
              Samples.ClassB.run Hgroups) as [r [Hr Hshape]].
  exists r. split; [exact Hr|]. split.
  - assert (Hvalue : Js.Ok r = Js.Ok (Some (ClassPropertyGrouping.mkGroup
              "instance-methods" (Some ["MethodDefinition"]) (Some []) 4)))
      by (rewrite <- Hr; reflexivity).
    injection Hvalue as ->. reflexivity.
  - intros g Hg. apply (Hshape g Hg).
Defined.

Lemma getMemberGroup_default :
  forall opts (m : ClassPropertyGrouping.Member),
    ClassPropertyGrouping.opt_groups opts = None ->
    exists r,
      ClassPropertyGrouping.getMemberGroup opts m = Js.Ok r /\
      option_map ClassPropertyGrouping.name r = Expected.defaultGroupName m /\
      (forall g, r = Some g -> In g ClassPropertyGrouping.defaultGroups).
Proof.
  intros opts m Hnone.
  unfold ClassPropertyGrouping.getMemberGroup, Expected.defaultGroupName.
  replace (ClassPropertyGrouping.groups opts)
    with ClassPropertyGrouping.defaultGroups
    by (unfold ClassPropertyGrouping.groups; rewrite Hnone; reflexivity).
  set (t := type (ClassPropertyGrouping.member_node m)).
  assert (Hin : forall g, In g ClassPropertyGrouping.defaultGroups ->
            forall g', Some g = Some g' ->
              In g' ClassPropertyGrouping.defaultGroups)
    by (intros g Hg g' Heq; injection Heq as <-; exact Hg).
  assert (Hmethod : forall k s,
            ClassPropertyGrouping.kind m = k ->
            ClassPropertyGrouping.static m = s ->
            exists r,
              ClassPropertyGrouping.firstMatchingGroup m "MethodDefinition"
                ClassPropertyGrouping.defaultGroups = Js.Ok r /\
              option_map ClassPropertyGrouping.name r =
                Some (if s then "static-methods"
                      else if String.eqb k "constructor" then "constructor"
                           else "instance-methods") /\
              (forall g, r = Some g ->
                 In g ClassPropertyGrouping.defaultGroups)).
  { intros k s Hk Hs.
    unfold ClassPropertyGrouping.defaultGroups.
    cbn [ClassPropertyGrouping.firstMatchingGroup
           ClassPropertyGrouping.types ClassPropertyGrouping.matches
           ClassPropertyGrouping.arrayIncludes Js.deref Js.bind
           existsb String.eqb Ascii.eqb Bool.eqb orb negb andb].
    rewrite Hk, Hs.
    destruct s, (String.eqb k "constructor");
      cbn [Js.andThen Js.bind negb andb];
      (eexists; split; [reflexivity|]; split; [reflexivity|];
       apply Hin; unfold ClassPropertyGrouping.defaultGroups;
       cbn [In]; auto 10). }
  assert (Hproperty : forall s,
            ClassPropertyGrouping.static m = s ->
            exists r,
              ClassPropertyGrouping.firstMatchingGroup m "ClassProperty"
                ClassPropertyGrouping.defaultGroups = Js.Ok r /\
              option_map ClassPropertyGrouping.name r =
                Some (if s then "static-properties"
                      else "instance-properties") /\
              (forall g, r = Some g ->
                 In g ClassPropertyGrouping.defaultGroups)).
  { intros s Hs.
    unfold ClassPropertyGrouping.defaultGroups.
    cbn [ClassPropertyGrouping.firstMatchingGroup
           ClassPropertyGrouping.types ClassPropertyGrouping.matches
           ClassPropertyGrouping.arrayIncludes Js.deref Js.bind
           existsb String.eqb Ascii.eqb Bool.eqb orb negb andb].
    rewrite Hs.
    destruct s; cbn [Js.andThen Js.bind negb andb];
      (eexists; split; [reflexivity|]; split; [reflexivity|];
       apply Hin; unfold ClassPropertyGrouping.defaultGroups;
       cbn [In]; auto 10). }
  destruct (String.eqb_spec t "PropertyDefinition") as [Ht|Hpd].
  { rewrite Ht. cbn [String.eqb Ascii.eqb Bool.eqb orb andb].
    apply Hproperty. reflexivity. }
  destruct (String.eqb_spec t "TSPropertyDefinition") as [Ht|Hts].
  { rewrite Ht. cbn [String.eqb Ascii.eqb Bool.eqb orb andb].
    apply Hproperty. reflexivity. }
  cbn [orb].
  destruct (String.eqb_spec t "MethodDefinition") as [Ht|Hmd].
  { rewrite Ht. apply Hmethod; reflexivity. }
  destruct (String.eqb_spec t "ClassProperty") as [Ht|Hcp].
  { rewrite Ht. cbn [orb]. apply Hproperty. reflexivity. }
  cbn [orb]. exists None.
  split; [|split; [reflexivity | discriminate]].
  unfold ClassPropertyGrouping.defaultGroups.
  cbn [ClassPropertyGrouping.firstMatchingGroup
         ClassPropertyGrouping.types ClassPropertyGrouping.matches
         ClassPropertyGrouping.arrayIncludes Js.deref Js.bind existsb].
  apply String.eqb_neq in Hmd, Hcp. rewrite Hmd, Hcp. reflexivity.
Qed.

(** With the default groups a static member goes to the static group of
    its kind, also a static method named like the constructor; of the other
    methods the constructor has its own group; anything that is neither a
    method nor a property has no group. *)
Theorem default_groups_classify :
  forall (m : ClassPropertyGrouping.Member),
    exists r,
      ClassPropertyGrouping.getMemberGroup ClassPropertyGrouping.noOptions m
        = Js.Ok r /\
      option_map ClassPropertyGrouping.name r = Expected.defaultGroupName m /\
      (forall g, r = Some g -> In g ClassPropertyGrouping.defaultGroups).
Proof.
  intros m.
  exact (getMemberGroup_default ClassPropertyGrouping.noOptions m eq_refl).
Qed.

(** The schema asks of a group only a name and an order.  When the first
    configured group has no [types], the rule throws on every class with
    two members or more. *)
Theorem group_without_types_throws :
  forall opts sc cmp g rest (body : list ClassPropertyGrouping.Member),
    ClassPropertyGrouping.opt_groups opts = Some (g :: rest) ->
    ClassPropertyGrouping.types g = None ->
    (2 <= List.length body)%nat ->
    ClassPropertyGrouping.ClassBody opts sc cmp body =
      Js.Throw Js.TypeError.
Proof.
  intros opts sc cmp g rest body Hgroups Htypes Hbody.
  unfold ClassPropertyGrouping.ClassBody.
  destruct (Js.arrayLength body <=? 1) eqn:E;
    [apply Z.leb_le in E; unfold Js.arrayLength in E; lia|].
  destruct body as [|m body]; [cbn in Hbody; lia|].
  cbn [ClassPropertyGrouping.classMembers].
  unfold ClassPropertyGrouping.getMemberGroup,
    ClassPropertyGrouping.groups.
  rewrite Hgroups. cbn [ClassPropertyGrouping.firstMatchingGroup].
  rewrite Htypes. reflexivity.
Qed.

(** A single group given by name and order only, on the sample class. *)
Lemma group_without_types_witness :
  ClassPropertyGrouping.ClassBody
    (ClassPropertyGrouping.mkOptions
       (Some [ClassPropertyGrouping.mkGroup "methods" None None 0])
       None None)
    Samples.ClassB.sourceCode Samples.ClassB.byCode Samples.ClassB.body =
  Js.Throw Js.TypeError.
Proof.
  apply (group_without_types_throws _ _ _
           (ClassPropertyGrouping.mkGroup "methods" None None 0) []);
    [reflexivity | reflexivity | cbn; lia].
Defined.

(** ** Class members: the alphabetical check *)

Section Buckets.

Import ClassPropertyGrouping.

Context {V : Type}.

Lemma ownProperty_In (k : string) (o : Js.Object V) (v : V) :
  Js.ownProperty k o = Some v -> In (k, v) o.
Proof.
  induction o as [|[k' v'] o IH]; cbn [Js.ownProperty]; [discriminate|].
  destruct (String.eqb_spec k' k) as [->|Hne].
  - intros Hv. injection Hv as ->. left. reflexivity.
  - intros Hv. right. exact (IH Hv).
Qed.

Lemma ownProperty_None (k : string) (o : Js.Object V) :
  Js.ownProperty k o = None -> ~ In k (map fst o).
Proof.
  induction o as [|[k' v'] o IH]; cbn [Js.ownProperty map fst In];
    [tauto|].
  destruct (String.eqb_spec k' k) as [->|Hne]; [discriminate|].
  intros Hnone [Heq|Hin]; [contradiction | exact (IH Hnone Hin)].
Qed.

Lemma updateProperty_keys (k : string) (f : V -> V) (o : Js.Object V) :
  map fst (Js.updateProperty k f o) = map fst o.
Proof.
  induction o as [|[k' v'] o IH]; [reflexivity|].
  cbn [Js.updateProperty]. destruct (String.eqb k' k); cbn [map fst];
    [reflexivity | rewrite IH; reflexivity].
Qed.

Lemma updateProperty_In (k : string) (f : V -> V) (o : Js.Object V) (v0 : V) :
  NoDup (map fst o) -> Js.ownProperty k o = Some v0 ->
  forall k' v, In (k', v) (Js.updateProperty k f o) <->
    (k' = k /\ v = f v0) \/ (k' <> k /\ In (k', v) o).
Proof.
  induction o as [|[k1 v1] o IH]; cbn [Js.ownProperty Js.updateProperty];
    intros Hnd Hown k' v; [discriminate|].
  cbn [map fst] in Hnd. apply NoDup_cons_iff in Hnd as [Hnotin Hnd].
  destruct (String.eqb_spec k1 k) as [->|Hne].
  - injection Hown as ->. cbn [In]. split.
    + intros [Heq|Hin].
      * injection Heq as <- <-. left. split; reflexivity.
      * right. split; [|right; exact Hin]. intros ->. apply Hnotin.
        exact (in_map fst _ _ Hin).
    + intros [[-> ->]|[Hne' [Heq|Hin]]].
      * left. reflexivity.
      * injection Heq as <- _. contradiction.
      * right. exact Hin.
  - cbn [In]. rewrite (IH Hnd Hown). split.
    + intros [Heq|[[-> ->]|[Hne' Hin]]].
      * injection Heq as <- <-. right. split; [exact Hne|]. left. reflexivity.
      * left. split; reflexivity.
      * right. split; [exact Hne'|]. right. exact Hin.
    + intros [[-> ->]|[Hne' [Heq|Hin]]].
      * right. left. split; reflexivity.
      * left. exact Heq.
      * right. right. split; assumption.
Qed.

Lemma insertByIndex_perm (i : Z) (e : string * V) l :
  Permutation (Js.insertByIndex i e l) ((i, e) :: l).
Proof.
  induction l as [|[j e'] l IH]; cbn [Js.insertByIndex];
    [apply Permutation_refl|].
  destruct (i <? j); [apply Permutation_refl|].
  eapply perm_trans; [apply perm_skip; exact IH | apply perm_swap].
Qed.

(** [for-in] visits every own property once. *)
Lemma forIn_perm (o : Js.Object V) : Permutation (Js.forIn o) o.
Proof.
  unfold Js.forIn. cbv zeta.
  change o with (map snd (@nil (Z * (string * V))) ++ o) at 3.
  generalize (@nil (Z * (string * V))).
  induction o as [|e o IH]; intros init.
  - cbn [fold_left List.filter]. apply Permutation_refl.
  - cbn [fold_left List.filter]. destruct (Js.arrayIndex (fst e)) as [i|].
    + eapply perm_trans; [apply IH|].
      eapply perm_trans;
        [apply Permutation_app_tail, Permutation_map, insertByIndex_perm|].
      cbn [map snd]. apply Permutation_middle.
    + eapply perm_trans; [apply Permutation_sym, Permutation_middle|].
      eapply perm_trans; [apply perm_skip, IH|]. apply Permutation_middle.
Qed.

End Buckets.

Section Alphabetical.

Import ClassPropertyGrouping.

Lemma groupByName_app (l1 l2 : list (Member * option Group)) :
  forall acc,
    groupByName acc (l1 ++ l2) =
    (o <- groupByName acc l1 ;; groupByName o l2).
Proof.
  induction l1 as [|[m [g|]] l1 IH]; intros acc; cbn [app groupByName].
  - reflexivity.
  - destruct (Js.ownProperty (name g) acc); [apply IH|].
    destruct (Js.inheritedFromObjectPrototype (name g));
      [reflexivity | apply IH].
  - apply IH.
Qed.

Lemma matched_app (l1 l2 : list (Member * option Group)) :
  Expected.matched (l1 ++ l2) = Expected.matched l1 ++ Expected.matched l2.
Proof. unfold Expected.matched. apply flat_map_app. Qed.

Lemma membersOfGroup_snoc (k : string) l (m : Member) (g : Group) :
  Expected.membersOfGroup k (l ++ [(m, Some g)]) =
  Expected.membersOfGroup k l ++
  (if String.eqb (name g) k then [(m, g)] else []).
Proof.
  unfold Expected.membersOfGroup. rewrite matched_app, filter_app.
  reflexivity.
Qed.

(** As soon as a member's group is named like a property every object
    inherits, filling the buckets throws. *)
Lemma groupByName_throws (members : list (Member * option Group)) :
  forall acc,
    Forall (fun kv => Js.inheritedFromObjectPrototype (fst kv) = false) acc ->
    existsb (fun mg => Js.inheritedFromObjectPrototype (name (snd mg)))
      (Expected.matched members) = true ->
    groupByName acc members = Js.Throw Js.TypeError.
Proof.
  induction members as [|[m [g|]] rest IH]; intros acc Hacc Hsome.
  - discriminate.
  - rewrite matched_cons_some in Hsome. cbn [existsb snd] in Hsome.
    cbn [groupByName].
    destruct (Js.ownProperty (name g) acc) as [v0|] eqn:Hown.
    + assert (Hown' : Js.inheritedFromObjectPrototype (name g) = false).
      { apply ownProperty_In in Hown.
        rewrite Forall_forall in Hacc. exact (Hacc _ Hown). }
      rewrite Hown' in Hsome. cbn [orb] in Hsome.
      apply IH; [|exact Hsome].
      rewrite Forall_forall in *. intros [k v] Hin.
      assert (Hk : In k (map fst acc)).
      { rewrite <- (updateProperty_keys (name g)
                      (fun a => a ++ [(m, g)]) acc).
        exact (in_map fst _ _ Hin). }
      apply in_map_iff in Hk as [[k' v'] [Hfst Hin']]. cbn [fst] in *.
      subst k'. exact (Hacc _ Hin').
    + destruct (Js.inheritedFromObjectPrototype (name g)) eqn:Hinh;
        [reflexivity|].
      cbn [orb] in Hsome. apply IH; [|exact Hsome].
      apply Forall_app. split; [exact Hacc|].
      constructor; [exact Hinh | constructor].
  - rewrite matched_cons_none in Hsome. cbn [groupByName].
    apply IH; assumption.
Qed.

(** Otherwise the buckets are the groups that have members, each with its
    members in source order. *)
Lemma groupByName_buckets (members : list (Member * option Group)) :
  existsb (fun mg => Js.inheritedFromObjectPrototype (name (snd mg)))
    (Expected.matched members) = false ->
  exists obj, groupByName [] members = Js.Ok obj /\
    NoDup (map fst obj) /\
    forall k v, In (k, v) obj <->
      (v = Expected.membersOfGroup k members /\ v <> []).
Proof.
  induction members as [|[m [g|]] members IH] using rev_ind; intros Hnone.
  - exists []. split; [reflexivity|]. split; [constructor|].
    intros k v. split; [intros []|]. intros [-> Hne]. now apply Hne.
  - rewrite matched_app, existsb_app in Hnone.
    apply orb_false_iff in Hnone as [Hnone Hg].
    cbn [Expected.matched flat_map snd fst app existsb orb] in Hg.
    rewrite orb_false_r in Hg.
    destruct (IH Hnone) as [obj [Hobj [Hnd Hiff]]].
    rewrite groupByName_app, Hobj. cbn [Js.bind groupByName].
    destruct (Js.ownProperty (name g) obj) as [v0|] eqn:Hown.
    + eexists. split; [reflexivity|].
      split; [rewrite updateProperty_keys; exact Hnd|].
      intros k v. rewrite (updateProperty_In _ _ _ v0 Hnd Hown).
      rewrite membersOfGroup_snoc.
      apply ownProperty_In, Hiff in Hown as [Hv0 _].
      destruct (String.eqb_spec (name g) k) as [<-|Hne].
      * split.
        -- intros [[_ ->]|[Hne _]]; [|contradiction].
           split; [rewrite Hv0; reflexivity|].
           intros Hnil. apply app_eq_nil in Hnil as [_ Hnil]. discriminate.
        -- intros [-> _]. left. split; [reflexivity|].
           rewrite Hv0. reflexivity.
      * rewrite app_nil_r. split.
        -- intros [[-> _]|[_ Hin]]; [contradiction|]. apply Hiff, Hin.
        -- intros Hv. right. split; [congruence|]. apply Hiff, Hv.
    + rewrite Hg. eexists. split; [reflexivity|].
      apply ownProperty_None in Hown.
      assert (Hempty : Expected.membersOfGroup (name g) members = []).
      { destruct (Expected.membersOfGroup (name g) members) eqn:E;
          [reflexivity|].
        exfalso. apply Hown.
        assert (Hin : In (name g, Expected.membersOfGroup (name g) members)
                        obj)
          by (apply Hiff; split; [reflexivity | rewrite E; discriminate]).
        exact (in_map fst _ _ Hin). }
      split.
      { rewrite map_app. cbn [map fst].
        apply (Permutation_NoDup (Permutation_cons_append _ _)).
        constructor; assumption. }
      intros k v. rewrite in_app_iff, membersOfGroup_snoc. cbn [In].
      destruct (String.eqb_spec (name g) k) as [<-|Hne].
      * rewrite Hempty. cbn [app]. split.
        -- intros [Hin|[Heq|[]]].
           ++ exfalso. apply Hown. exact (in_map fst _ _ Hin).
           ++ injection Heq as <-. split; [reflexivity | discriminate].
        -- intros [-> _]. right. left. reflexivity.
      * rewrite app_nil_r. split.
        -- intros [Hin|[Heq|[]]]; [apply Hiff, Hin|].
           injection Heq as Heq _. contradiction.
        -- intros Hv. left. apply Hiff, Hv.
  - rewrite matched_app in Hnone.
    cbn [Expected.matched flat_map snd] in Hnone.
    rewrite app_nil_r in Hnone.
    destruct (IH Hnone) as [obj [Hobj [Hnd Hiff]]].
    exists obj. rewrite groupByName_app, Hobj. split; [reflexivity|].
    split; [exact Hnd|]. intros k v. rewrite Hiff.
    unfold Expected.membersOfGroup. rewrite matched_app.
    cbn [Expected.matched flat_map snd]. rewrite !app_nil_r. reflexivity.
Qed.

End Alphabetical.

(** The alphabetical check, when it is on.  It throws as soon as a member's
    group is named like a property every object inherits.  Otherwise each
    group that has members is visited once, and within a group every
    member is compared with the previous member of the same group,
    whatever lies between them in the class. *)
Theorem alphabetical_order_by_group :
  forall opts cmp
    (members : list (ClassPropertyGrouping.Member *
                     option ClassPropertyGrouping.Group)),
    let inherited :=
      existsb (fun mg => Js.inheritedFromObjectPrototype
                           (ClassPropertyGrouping.name (snd mg)))
        (Expected.matched members) in
    ClassPropertyGrouping.enforceAlphabeticalSorting opts = true ->
    (inherited = true ->
     ClassPropertyGrouping.checkAlphabeticalOrder opts cmp members =
       Js.Throw Js.TypeError) /\
    (inherited = false ->
     exists names, NoDup names /\
       (forall k, In k names <->
          exists mg, In mg (Expected.matched members) /\
                     ClassPropertyGrouping.name (snd mg) = k) /\
       ClassPropertyGrouping.checkAlphabeticalOrder opts cmp members =
         Js.Ok (flat_map
                  (fun k => ClassPropertyGrouping.alphabeticalReports cmp
                              (Expected.membersOfGroup k members))
                  names)).
Proof.
  intros opts cmp members inherited Hon.
  unfold ClassPropertyGrouping.checkAlphabeticalOrder. rewrite Hon.
  cbn [negb]. split.
  - intros Hinh. rewrite groupByName_throws; [reflexivity |constructor|].
    exact Hinh.
  - intros Hinh.
    destruct (groupByName_buckets members Hinh) as [obj [Hobj [Hnd Hiff]]].
    rewrite Hobj. cbn [Js.bind].
    pose proof (forIn_perm obj) as Hperm.
    exists (map fst (Js.forIn obj)). split; [|split].
    + apply (Permutation_NoDup (Permutation_sym (Permutation_map fst Hperm))).
      exact Hnd.
    + intros k. split.
      * intros Hk. apply in_map_iff in Hk as [[k' v] [Hfst Hin]].
        cbn [fst] in Hfst. subst k'.
        apply (Permutation_in _ Hperm), Hiff in Hin as [Hv Hne].
        destruct v as [|mg v]; [now contradiction Hne|].
        exists mg.
        assert (Hmg : In mg (Expected.membersOfGroup k members))
          by (rewrite <- Hv; left; reflexivity).
        apply filter_In in Hmg as [Hmg Hname]. split; [exact Hmg|].
        apply String.eqb_eq. exact Hname.
      * intros [mg [Hmg Hname]].
        assert (Hin : In (k, Expected.membersOfGroup k members) obj).
        { apply Hiff. split; [reflexivity|]. intros Hnil.
          assert (Hmg' : In mg (Expected.membersOfGroup k members))
            by (apply filter_In; split;
                [exact Hmg | apply String.eqb_eq; exact Hname]).
          rewrite Hnil in Hmg'. exact Hmg'. }
        apply (Permutation_in _ (Permutation_sym Hperm)) in Hin.
        exact (in_map fst _ _ Hin).
    + f_equal. rewrite flat_map_concat_map, (flat_map_concat_map _ (map fst _)).
      f_equal. rewrite map_map. apply map_ext_in. intros [k v] Hin.
      apply (Permutation_in _ Hperm), Hiff in Hin as [-> _]. reflexivity.
Qed.

(** The sample class with a constructor throws.  In the class with a
    property between two methods, the second method is compared with the
    first. *)
Lemma alphabetical_order_witness :
  ClassPropertyGrouping.enforceAlphabeticalSorting Samples.ClassB.sorted
    = true /\
  ClassPropertyGrouping.checkAlphabeticalOrder Samples.ClassB.sorted
    Samples.ClassB.byCode Samples.ClassB.members = Js.Throw Js.TypeError /\
  exists names,
    ClassPropertyGrouping.checkAlphabeticalOrder Samples.ClassB.sorted
      Samples.ClassB.byCode Samples.ClassC.members =
    Js.Ok (flat_map
             (fun k => ClassPropertyGrouping.alphabeticalReports
                         Samples.ClassB.byCode
                         (Expected.membersOfGroup k Samples.ClassC.members))
             names) /\
    ClassPropertyGrouping.alphabeticalReports Samples.ClassB.byCode
      (Expected.membersOfGroup "instance-methods" Samples.ClassC.members) =
    [ {| node := ClassPropertyGrouping.member_node Samples.ClassC.a;
         messageId := "wrongAlphabeticalOrder";
         data := [ ("memberA", DStr "a"); ("memberB", DStr "b") ];
         fix_ := None |} ].
Proof.
  split; [reflexivity|]. split.
  - apply (alphabetical_order_by_group Samples.ClassB.sorted
             Samples.ClassB.byCode Samples.ClassB.members eq_refl).
    reflexivity.
  - destruct (proj2 (alphabetical_order_by_group Samples.ClassB.sorted
                       Samples.ClassB.byCode Samples.ClassC.members eq_refl)
                eq_refl) as [names [_ [_ Hreports]]].
    exists names. split; [exact Hreports | reflexivity].
Defined.

Section ConstructorGroup.

Import ClassPropertyGrouping.

Lemma classMembers_default (opts : Options) :
  opt_groups opts = None ->
  forall body, exists members,
    classMembers opts body = Js.Ok members /\
    map fst members = body /\
    forall m r, In (m, r) members ->
      option_map name r = Expected.defaultGroupName m /\
      (forall g, r = Some g -> In g defaultGroups).
Proof.
  intros Hnone. induction body as [|m body [members [Hrun [Hfst Hall]]]].
  - exists []. split; [reflexivity|]. split; [reflexivity|]. intros m r [].
  - destruct (getMemberGroup_default opts m Hnone) as [r [Hr Hshape]].
    exists ((m, r) :: members). cbn [classMembers]. rewrite Hr, Hrun.
    split; [reflexivity|]. split; [cbn [map fst]; rewrite Hfst; reflexivity|].
    intros m' r' [Heq|Hin]; [|exact (Hall _ _ Hin)].
    injection Heq as <- <-. exact Hshape.
Qed.

Lemma matched_In (members : list (Member * option Group)) m g :
  In (m, Some g) members -> In (m, g) (Expected.matched members).
Proof.
  intros Hin. unfold Expected.matched. apply in_flat_map.
  exists (m, Some g). split; [exact Hin | left; reflexivity].
Qed.

End ConstructorGroup.

(** With the default groups and the alphabetical check switched on, the
    rule throws on every class of two members or more that has a
    constructor: its group is named [constructor], as a property every
    object inherits. *)
Theorem sorting_throws_on_constructor :
  forall opts sc cmp (body : list ClassPropertyGrouping.Member)
    (m : ClassPropertyGrouping.Member),
    ClassPropertyGrouping.opt_groups opts = None ->
    ClassPropertyGrouping.enforceAlphabeticalSorting opts = true ->
    (2 <= List.length body)%nat ->
    In m body ->
    type (ClassPropertyGrouping.member_node m) = "MethodDefinition" ->
    ClassPropertyGrouping.kind m = "constructor" ->
    ClassPropertyGrouping.static m = false ->
    ClassPropertyGrouping.ClassBody opts sc cmp body = Js.Throw Js.TypeError.
Proof.
  intros opts sc cmp body m Hnone Hon Hbody Hm Htype Hkind Hstatic.
  unfold ClassPropertyGrouping.ClassBody.
  destruct (Js.arrayLength body <=? 1) eqn:E;
    [apply Z.leb_le in E; unfold Js.arrayLength in E; lia|].
  destruct (classMembers_default opts Hnone body)
    as [members [Hrun [Hfst Hall]]].
  rewrite Hrun. cbn [Js.bind].
  unfold ClassPropertyGrouping.checkGroupOrder.
  rewrite checkGroupOrder_start.
  2:{ intros m' g' Hin. destruct (Hall _ _ Hin) as [_ Hdefault].
      specialize (Hdefault g' eq_refl).
      unfold ClassPropertyGrouping.defaultGroups in Hdefault.
      cbn [In] in Hdefault.
      repeat (destruct Hdefault as [<-|Hdefault];
              [cbn [ClassPropertyGrouping.order]; lia|]).
      contradiction. }
  cbn [Js.bind].
  unfold ClassPropertyGrouping.checkAlphabeticalOrder. rewrite Hon.
  cbn [negb]. rewrite groupByName_throws; [reflexivity | constructor |].
  assert (Hin : exists r, In (m, r) members).
  { rewrite <- Hfst in Hm. apply in_map_iff in Hm as [[m' r] [Heq Hin]].
    cbn [fst] in Heq. subst m'. exists r. exact Hin. }
  destruct Hin as [r Hin]. destruct (Hall _ _ Hin) as [Hname _].
  unfold Expected.defaultGroupName in Hname.
  rewrite Htype, Hkind, Hstatic in Hname.
  destruct r as [g|]; [|discriminate]. cbn in Hname.
  injection Hname as Hname.
  apply existsb_exists. exists (m, g). split; [apply matched_In, Hin|].
  cbn [snd]. rewrite Hname. reflexivity.
Qed.

(** The sample class with a constructor, default groups, sorting on. *)
Lemma sorting_throws_witness :
  ClassPropertyGrouping.ClassBody Samples.ClassB.sorted
    Samples.ClassB.sourceCode Samples.ClassB.byCode Samples.ClassB.body =
  Js.Throw Js.TypeError.
Proof.
  apply (sorting_throws_on_constructor _ _ _ _ Samples.ClassB.ctor);
    first [ reflexivity | left; reflexivity ].
Defined.

(** ** Class members: padding between groups *)

Section GroupPadding.

Import ClassPropertyGrouping.

Variable sc : SourceCode.
Variable opts : Options.

Let keep (p : (Member * option Group) * (Member * option Group)) : bool :=
  Expected.groupBoundary p &&
  negb (Expected.blankLines (member_node (fst (fst p)))
          (member_node (fst (snd p))) =? paddingBetweenGroups opts).

Lemma groupPaddingFrom_pairs (members : list (Member * option Group)) :
  0 < paddingBetweenGroups opts ->
  groupPaddingFrom opts sc members =
  map (fun p => Expected.groupPaddingReport sc (paddingBetweenGroups opts)
                  (fst (fst p)) (fst (snd p)))
    (List.filter keep (Expected.adjacentPairs members)).
Proof.
  intros Hpos. induction members as [|a rest IH]; [reflexivity|].
  destruct rest as [|b rest]; [reflexivity|].
  rewrite adjacentPairs_cons. cbn [List.filter].
  change (groupPaddingFrom opts sc (a :: b :: rest))
    with ((match snd a, snd b with
           | Some prevGroup, Some currentGroup =>
               if negb (String.eqb (name prevGroup) (name currentGroup)) then
                 if negb (line (start (loc (member_node (fst b)))) -
                          line (end_ (loc (member_node (fst a)))) - 1
                          =? paddingBetweenGroups opts)
                 then
                   [ {| node := member_node (fst b);
                        messageId := "incorrectPaddingBetweenGroups";
                        data :=
                          [ ("expected", DNum (paddingBetweenGroups opts));
                            ("actual",
                             DNum (line (start (loc (member_node (fst b)))) -
                                   line (end_ (loc (member_node (fst a))))
                                   - 1));
                            ("lineText",
                             DStr (if paddingBetweenGroups opts =? 1
                                   then "line" else "lines")) ];
                        fix_ := Some (fixOf (
                          endOfPrevNode <-
                            Js.deref (getLastToken sc (member_node (fst a))) ;;
                          startOfCurrentNode <-
                            Js.deref (getFirstToken sc
                                        (member_node (fst b))) ;;
                          newLines <- Js.repeat [Js.newline]
                                        (paddingBetweenGroups opts + 1) ;;
                          Js.Ok (replaceTextRange
                                   (snd (range endOfPrevNode),
                                    fst (range startOfCurrentNode))
                                   newLines))) |} ]
                 else []
               else []
           | _, _ => []
           end) ++ groupPaddingFrom opts sc (b :: rest)).
  rewrite IH.
  change (keep (a, b))
    with (Expected.groupBoundary (a, b) &&
          negb (Expected.blankLines (member_node (fst a))
                  (member_node (fst b)) =? paddingBetweenGroups opts)).
  unfold Expected.groupBoundary. cbn [fst snd].
  destruct (snd a) as [ga|]; [|reflexivity].
  destruct (snd b) as [gb|]; [|reflexivity].
  destruct (negb (String.eqb (name ga) (name gb))); [|reflexivity].
  cbn [andb]. unfold Expected.blankLines.
  destruct (negb (line (start (loc (member_node (fst b)))) -
                  line (end_ (loc (member_node (fst a)))) - 1
                  =? paddingBetweenGroups opts)); [|reflexivity].
  cbn [map app fst snd]. f_equal.
  unfold Expected.groupPaddingReport, Expected.siblingPaddingReport,
    Expected.blankLines, Expected.pluralized.
  f_equal. f_equal.
  destruct (getLastToken sc (member_node (fst a))) as [anchor|];
    [|reflexivity].
  destruct (getFirstToken sc (member_node (fst b))) as [first|];
    [|reflexivity].
  cbn [Js.deref Js.bind]. rewrite repeat_char by lia. reflexivity.
Qed.

End GroupPadding.

(** The padding check looks at members next to each other that both have
    a group, of different names: each such pair whose gap is not the
    required one is reported at its second member, with the edit of the
    sibling checks.  A member without a group hides the boundary on both
    of its sides, and a required padding of zero or less switches the
    check off. *)
Theorem group_padding_between_groups :
  forall sc opts
    (members : list (ClassPropertyGrouping.Member *
                     option ClassPropertyGrouping.Group)),
    let required := ClassPropertyGrouping.paddingBetweenGroups opts in
    let gap p :=
      Expected.blankLines
        (ClassPropertyGrouping.member_node (fst (fst p)))
        (ClassPropertyGrouping.member_node (fst (snd p))) in
    (required <= 0 ->
     ClassPropertyGrouping.checkGroupPadding opts sc members = []) /\
    (0 < required ->
     ClassPropertyGrouping.checkGroupPadding opts sc members =
       map (fun p => Expected.groupPaddingReport sc required
                       (fst (fst p)) (fst (snd p)))
         (List.filter
            (fun p => Expected.groupBoundary p && negb (gap p =? required))
            (Expected.adjacentPairs members))) /\
    (0 < required ->
     (ClassPropertyGrouping.checkGroupPadding opts sc members = [] <->
      Forall (fun p => Expected.groupBoundary p = true -> gap p = required)
        (Expected.adjacentPairs members))).
Proof.
  intros sc opts members required gap.
  assert (Hvalue : 0 < required ->
            ClassPropertyGrouping.checkGroupPadding opts sc members =
            map (fun p => Expected.groupPaddingReport sc required
                            (fst (fst p)) (fst (snd p)))
              (List.filter
                 (fun p => Expected.groupBoundary p &&
                           negb (gap p =? required))
                 (Expected.adjacentPairs members))).
  { intros Hpos. unfold ClassPropertyGrouping.checkGroupPadding.
    fold required.
    destruct (required <=? 0) eqn:E; [apply Z.leb_le in E; lia|].
    cbn [orb].
    destruct (Js.arrayLength members <? 2) eqn:Hshort.
    - apply Z.ltb_lt in Hshort. unfold Js.arrayLength in Hshort.
      destruct members as [|a [|b rest]]; [reflexivity | reflexivity |].
      cbn [List.length] in Hshort. lia.
    - apply (groupPaddingFrom_pairs sc opts members Hpos). }
  split; [|split; [exact Hvalue|]].
  - intros Hoff. unfold ClassPropertyGrouping.checkGroupPadding.
    fold required.
    destruct (required <=? 0) eqn:E; [reflexivity|].
    apply Z.leb_gt in E. lia.
  - intros Hpos. rewrite (Hvalue Hpos). clear Hvalue.
    induction (Expected.adjacentPairs members) as [|p pairs IH].
    + split; [constructor | reflexivity].
    + cbn [List.filter].
      destruct (Expected.groupBoundary p) eqn:Hb; cbn [andb].
      * destruct (gap p =? required) eqn:Hg; cbn [negb].
        -- apply Z.eqb_eq in Hg. rewrite IH. split.
           ++ intros Hall. constructor; [intros _; exact Hg | exact Hall].
           ++ intros Hall. inversion Hall; assumption.
        -- apply Z.eqb_neq in Hg. split; [discriminate|].
           intros Hall. inversion Hall as [|? ? Hp _]; subst.
           exfalso. apply Hg, Hp. exact Hb.
      * rewrite IH. split.
        -- intros Hall. constructor; [congruence | exact Hall].
        -- intros Hall. inversion Hall; assumption.
Qed.

(** The constructor and the method of the sample class lie on consecutive
    lines: one diagnostic at the method, and its edit leaves one empty line
    between the two and the method without its indentation. *)
Lemma group_padding_witness :
  0 < ClassPropertyGrouping.paddingBetweenGroups
        ClassPropertyGrouping.noOptions /\
  ClassPropertyGrouping.checkGroupPadding ClassPropertyGrouping.noOptions
    Samples.ClassB.sourceCode Samples.ClassB.members =
  [ Expected.groupPaddingReport Samples.ClassB.sourceCode 1
      Samples.ClassB.ctor Samples.ClassB.run ] /\
  fix_ (Expected.groupPaddingReport Samples.ClassB.sourceCode 1
          Samples.ClassB.ctor Samples.ClassB.run) =
    Some (Fixed (Expected.gapEdit 28 31 1)) /\
  applyFix Samples.ClassB.src (Expected.gapEdit 28 31 1) =
    Samples.source ["class B {"; "  constructor() {}"; ""; "run() {}"; "}"].
Proof.
  split; [reflexivity|]. split.
  - rewrite (proj1 (proj2 (group_padding_between_groups
                             Samples.ClassB.sourceCode
                             ClassPropertyGrouping.noOptions
                             Samples.ClassB.members)) eq_refl).
    reflexivity.
  - split; reflexivity.
Defined.

(** ** Aligned assignments: what is reported *)

Section Alignment.

Import AlignedAssignments.

Variable sc : SourceCode.
Variable opts : Options.

Lemma getEqualsColumns_known (decls : list Declarator) (cols : list Z) :
  Forall2 (fun d c => getEqualsColumn sc d = Js.Ok (Some c)) decls cols ->
  Js.mapM (getEqualsColumn sc) decls = Js.Ok (map Some cols).
Proof.
  induction 1 as [|d c decls cols Hd _ IH]; [reflexivity|].
  cbn [Js.mapM map]. rewrite Hd, IH. reflexivity.
Qed.

Lemma checkDeclarators_known (target : Z) :
  alignTypes opts = false ->
  forall decls cols,
    Forall2 (fun d c => getEqualsColumn sc d = Js.Ok (Some c)) decls cols ->
    exists reports,
      Js.mapM (checkDeclarator sc opts (Some target) None) decls
        = Js.Ok reports /\
      map (fun r => (node r, messageId r)) (List.concat reports) =
      map (fun dc => (declarator_node (fst dc), "misalignedAssignment"))
        (List.filter (fun dc => negb (snd dc =? target))
           (combine decls cols)).
Proof.
  intros Htypes. induction 1 as [|d c decls cols Hd _ [reports [Hrun Hmap]]].
  - exists []. split; reflexivity.
  - cbn [Js.mapM]. unfold checkDeclarator at 1.
    rewrite Hd, Htypes, Hrun. cbn [Js.bind differs app].
    eexists. split; [reflexivity|].
    cbn [List.concat combine List.filter snd].
    destruct (negb (c =? target)).
    + rewrite app_nil_r. cbn [app map node messageId fst].
      rewrite Hmap. reflexivity.
    + cbn [app]. exact Hmap.
Qed.

End Alignment.

Lemma filter_shorter {A : Type} (f : A -> bool) (l : list A) (x : A) :
  In x l -> f x = false ->
  (List.length (List.filter f l) < List.length l)%nat.
Proof.
  induction l as [|y l IH]; intros Hin Hx; [destruct Hin|].
  cbn [List.filter List.length].
  pose proof (filter_length_le f l) as Hle.
  destruct Hin as [->|Hin].
  - rewrite Hx. lia.
  - specialize (IH Hin Hx). destruct (f y); cbn [List.length]; lia.
Qed.

Lemma Forall2_combine_In {A B : Type} (P : A -> B -> Prop) l l' :
  Forall2 P l l' ->
  forall c, In c l' -> exists d, In (d, c) (combine l l').
Proof.
  induction 1 as [|d c l l' _ _ IH]; intros c' Hin; [destruct Hin|].
  destruct Hin as [->|Hin].
  - exists d. left. reflexivity.
  - destruct (IH _ Hin) as [d' Hd']. exists d'. right. exact Hd'.
Qed.

Lemma filter_off_target_nil {A : Type} (P : A -> Z -> Prop) l cols
  (target : Z) :
  Forall2 P l cols ->
  List.filter (fun dc : A * Z => negb (snd dc =? target)) (combine l cols)
    = [] <->
  Forall (fun c => c = target) cols.
Proof.
  induction 1 as [|d c l cols _ _ IH].
  - split; [constructor | reflexivity].
  - cbn [combine List.filter snd].
    destruct (c =? target) eqn:E; cbn [negb].
    + apply Z.eqb_eq in E. rewrite IH. split.
      * intros Hrest. constructor; assumption.
      * intros Hrest. inversion Hrest; assumption.
    + apply Z.eqb_neq in E. split; [discriminate|].
      intros Hrest. inversion Hrest; subst. contradiction.
Qed.

(** A group of declarators that qualifies for the check, without type
    alignment.  The target is the greatest of their operator columns; the
    diagnostics are exactly the declarators whose column differs from it,
    in order, one each; so at least one declarator is never reported, and
    nothing is reported exactly when all columns agree. *)
Theorem alignment_reports_off_target :
  forall sc opts (decls : list AlignedAssignments.Declarator)
    (cols : list Z),
    AlignedAssignments.alignTypes opts = false ->
    AlignedAssignments.blockSize opts <= Js.arrayLength decls ->
    AlignedAssignments.ignoreIfAssignmentsNotInBlock opts &&
      negb (AlignedAssignments.haveSameKind decls) = false ->
    decls <> [] ->
    Forall2 (fun d c => AlignedAssignments.getEqualsColumn sc d
                        = Js.Ok (Some c)) decls cols ->
    exists target reports,
      AlignedAssignments.getMaxEqualsColumn sc decls = Js.Ok (Some target) /\
      In target cols /\ Forall (fun c => c <= target) cols /\
      AlignedAssignments.checkAlignment sc opts decls = Js.Ok reports /\
      map (fun r => (node r, messageId r)) reports =
        map (fun dc => (AlignedAssignments.declarator_node (fst dc),
                        "misalignedAssignment"))
          (List.filter (fun dc => negb (snd dc =? target))
             (combine decls cols)) /\
      (List.length reports < List.length decls)%nat /\
      (reports = [] <-> Forall (fun c => c = target) cols).
Proof.
  intros sc opts decls cols Htypes Hsize Hkind Hsome Hcols.
  destruct cols as [|x cols];
    [inversion Hcols; subst; now contradiction Hsome|].
  destruct (mathMax_greatest x cols) as [target [Hmax [Hin Hall]]].
  assert (Htarget : AlignedAssignments.getMaxEqualsColumn sc decls
                    = Js.Ok (Some target)).
  { unfold AlignedAssignments.getMaxEqualsColumn.
    rewrite (getEqualsColumns_known sc _ _ Hcols). cbn [Js.bind].
    rewrite map_map. cbn [Js.orDefault]. rewrite map_id. rewrite Hmax.
    reflexivity. }
  destruct (checkDeclarators_known sc opts target Htypes _ _ Hcols)
    as [reports [Hrun Hmap]].
  exists target, (List.concat reports).
  assert (Hlen : List.length decls = List.length (x :: cols))
    by (eapply Forall2_length; exact Hcols).
  split; [exact Htarget|]. split; [exact Hin|]. split; [exact Hall|].
  split; [|split; [exact Hmap|split]].
  - unfold AlignedAssignments.checkAlignment.
    destruct (Js.arrayLength decls <? AlignedAssignments.blockSize opts)
      eqn:E; [apply Z.ltb_lt in E; lia|].
    rewrite Hkind, Htarget. cbn [Js.bind]. rewrite Htypes. cbn [andb].
    rewrite Hrun. reflexivity.
  - rewrite <- (length_map (fun r => (node r, messageId r))), Hmap, length_map.
    assert (Hpair : exists d, In (d, target) (combine decls (x :: cols)))
      by (eapply Forall2_combine_In; eassumption).
    destruct Hpair as [d Hpair].
    eapply Nat.lt_le_trans;
      [eapply filter_shorter; [exact Hpair | cbn [snd];
                                rewrite Z.eqb_refl; reflexivity]|].
    rewrite length_combine. lia.
  - assert (Hempty : List.concat reports = [] <->
              List.filter (fun dc => negb (snd dc =? target))
                (combine decls (x :: cols)) = []).
    { split; intros Hnil.
      - rewrite Hnil in Hmap. symmetry in Hmap.
        apply map_eq_nil in Hmap. exact Hmap.
      - rewrite Hnil in Hmap. apply map_eq_nil in Hmap. exact Hmap. }
    rewrite Hempty. eapply filter_off_target_nil. exact Hcols.
Qed.

(** The two declarations of the sample: the target is column 15 and one of
    the two is reported. *)
Lemma alignment_reports_witness :
  exists target reports,
    AlignedAssignments.getMaxEqualsColumn Samples.Consts.sourceCode
      [Samples.Consts.declA; Samples.Consts.declLongName]
      = Js.Ok (Some target) /\
    In target [8; 15] /\ Forall (fun c => c <= target) [8; 15] /\
    AlignedAssignments.checkAlignment Samples.Consts.sourceCode
      AlignedAssignments.noOptions
      [Samples.Consts.declA; Samples.Consts.declLongName] = Js.Ok reports /\
    (List.length reports < 2)%nat.
Proof.
  destruct (alignment_reports_off_target Samples.Consts.sourceCode
              AlignedAssignments.noOptions
              [Samples.Consts.declA; Samples.Consts.declLongName] [8; 15]
              eq_refl ltac:(discriminate) eq_refl ltac:(discriminate)
              ltac:(repeat constructor))
    as [target [reports [Hmax [Hin [Hall [Hrun [_ [Hlen _]]]]]]]].
  exists target, reports. repeat (split; [assumption|]). exact Hlen.
Defined.

(** ** Aligned assignments: where the edit puts the operator *)

Lemma positionFrom_app (a b : Js.text) (k : nat) :
  forall ln col,
    positionFrom ln col (a ++ b) (List.length a + k) =
    positionFrom (line (positionFrom ln col a (List.length a)))
      (column (positionFrom ln col a (List.length a))) b k.
Proof.
  induction a as [|c a IH]; intros ln col.
  - cbn [app List.length Nat.add positionFrom line column]. reflexivity.
  - cbn [app List.length Nat.add positionFrom].
    destruct (Ascii.eqb c Js.newline); apply IH.
Qed.

Lemma positionFrom_prefix (a b : Js.text) :
  forall ln col,
    positionFrom ln col (a ++ b) (List.length a) =
    positionFrom ln col a (List.length a).
Proof.
  intros ln col. rewrite <- (Nat.add_0_r (List.length a)) at 1.
  rewrite positionFrom_app.
  destruct (positionFrom ln col a (List.length a)).
  destruct b; reflexivity.
Qed.

Lemma positionFrom_same_line (k : nat) :
  forall (b : Js.text) ln col,
    (k <= List.length b)%nat ->
    Forall (fun ch => ch <> Js.newline) (firstn k b) ->
    positionFrom ln col b k = mkPosition ln (col + Z.of_nat k).
Proof.
  induction k as [|k IH]; intros b ln col Hk Hline.
  - cbn [positionFrom]. destruct b; rewrite Z.add_0_r; reflexivity.
  - destruct b as [|c b]; [cbn in Hk; lia|].
    cbn [firstn] in Hline. inversion Hline as [|? ? Hc Hrest]; subst.
    cbn [positionFrom]. apply Ascii.eqb_neq in Hc. rewrite Hc.
    rewrite IH; [|cbn in Hk; lia | exact Hrest].
    f_equal. lia.
Qed.

Lemma getFixedDeclaration_plain sc (d : AlignedAssignments.Declarator)
  (c target : Z) :
  AlignedAssignments.typeAnnotation (AlignedAssignments.id d) = None ->
  AlignedAssignments.getEqualsColumn sc d = Js.Ok (Some c) ->
  c <> 0 ->
  let idText :=
    getTextOf sc (AlignedAssignments.pattern_node (AlignedAssignments.id d)) in
  Js.length idText <= target ->
  AlignedAssignments.getFixedDeclaration sc d (Some target) None =
  Js.Ok (idText ++
         List.repeat " "%char (Z.to_nat (target - Js.length idText)) ++
         "="%char :: " "%char ::
         match AlignedAssignments.init d with
         | Some i => getTextOf sc i
         | None => []
         end).
Proof.
  intros Hplain Hcol Hc idText Hlen.
  unfold AlignedAssignments.getFixedDeclaration,
    AlignedAssignments.hasTypeAnnotation.
  rewrite Hcol, Hplain. cbn [Js.bind]. fold idText.
  change (Js.str " ") with [" "%char].
  rewrite repeat_char by lia.
  destruct c as [|c|c]; [congruence | reflexivity | reflexivity].
Qed.

(** The edit offered for a declarator without a type annotation puts the
    operator [target] characters after the start of the declarator, on the
    same line.  Its column in the edited text is therefore the column of
    the declarator plus the target: it is the target column only for a
    declarator that starts in column 0. *)
Theorem fixed_operator_column :
  forall sc (d : AlignedAssignments.Declarator) (c target from to : Z),
    let idText :=
      getTextOf sc
        (AlignedAssignments.pattern_node (AlignedAssignments.id d)) in
    AlignedAssignments.typeAnnotation (AlignedAssignments.id d) = None ->
    AlignedAssignments.getEqualsColumn sc d = Js.Ok (Some c) ->
    c <> 0 ->
    Js.length idText <= target ->
    Forall (fun ch => ch <> Js.newline) idText ->
    range d = (from, to) ->
    0 <= from <= to -> to <= Js.length (text sc) ->
    exists fixed,
      AlignedAssignments.getFixedDeclaration sc d (Some target) None
        = Js.Ok fixed /\
      nth_error (applyFix (text sc) (replaceText d fixed))
        (Z.to_nat (from + target)) = Some "="%char /\
      positionAt (applyFix (text sc) (replaceText d fixed)) (from + target) =
        mkPosition (line (positionAt (text sc) from))
          (column (positionAt (text sc) from) + target).
Proof.
  intros sc d c target from to idText Hplain Hcol Hc Hlen Hline Hrange
    Hfrom Hto.
  eexists. split;
    [exact (getFixedDeclaration_plain sc d c target Hplain Hcol Hc Hlen)|].
  fold idText.
  set (pad := List.repeat " "%char (Z.to_nat (target - Js.length idText))).
  set (tail := "="%char :: " "%char ::
               match AlignedAssignments.init d with
               | Some i => getTextOf sc i
               | None => []
               end).
  unfold replaceText. rewrite Hrange, applyFix_frame by lia.
  set (before := firstn (Z.to_nat from) (text sc)).
  assert (Hbefore : List.length before = Z.to_nat from).
  { unfold before. rewrite length_firstn. unfold Js.length in Hto. lia. }
  assert (Hpad : List.length (idText ++ pad) = Z.to_nat target).
  { rewrite length_app. unfold pad. rewrite repeat_length.
    unfold Js.length in *. lia. }
  assert (Hindex : Z.to_nat (from + target) =
                   (List.length before + Z.to_nat target)%nat)
    by (pose proof (length_nonneg idText); lia).
  replace (before ++ (idText ++ pad ++ tail) ++ skipn (Z.to_nat to) (text sc))
    with (before ++ (idText ++ pad) ++ tail ++ skipn (Z.to_nat to) (text sc))
    by (rewrite <- !app_assoc; reflexivity).
  split.
  - rewrite Hindex, nth_error_app2 by lia.
    replace (List.length before + Z.to_nat target - List.length before)%nat
      with (List.length (idText ++ pad) + 0)%nat by lia.
    rewrite nth_error_app2 by lia.
    replace (List.length (idText ++ pad) + 0 - List.length (idText ++ pad))%nat
      with 0%nat by lia.
    reflexivity.
  - unfold positionAt. rewrite Hindex, positionFrom_app.
    assert (Hstart : positionFrom 1 0 before (List.length before) =
                     positionFrom 1 0 (text sc) (Z.to_nat from)).
    { rewrite <- (firstn_skipn (Z.to_nat from) (text sc)) at 1.
      fold before. rewrite <- Hbefore. symmetry. apply positionFrom_prefix. }
    rewrite Hstart.
    rewrite positionFrom_same_line.
    + f_equal. pose proof (length_nonneg idText). lia.
    + rewrite length_app, Hpad. lia.
    + rewrite <- Hpad, firstn_app, firstn_all, Nat.sub_diag.
      cbn [firstn]. rewrite app_nil_r. apply Forall_app. split; [exact Hline|].
      unfold pad. apply Forall_forall. intros ch Hch.
      apply repeat_spec in Hch. subst ch. discriminate.
Qed.

(** The declarator of [a] in the sample starts in column 6; with the
    target 15 the operator of the edited text is in column 21. *)
Lemma fixed_operator_witness :
  exists fixed,
    AlignedAssignments.getFixedDeclaration Samples.Consts.sourceCode
      Samples.Consts.declA (Some 15) None = Js.Ok fixed /\
    positionAt
      (applyFix Samples.Consts.src (replaceText Samples.Consts.declA fixed))
      21 = mkPosition 1 21.
Proof.
  destruct (fixed_operator_column Samples.Consts.sourceCode
              Samples.Consts.declA 8 15 6 11 eq_refl eq_refl
              ltac:(discriminate) ltac:(discriminate)
              ltac:(repeat constructor; discriminate) eq_refl
              ltac:(split; discriminate) ltac:(discriminate))
    as [fixed [Hfixed [_ Hposition]]].
  exists fixed. split; [exact Hfixed | exact Hposition].
Defined.

(** ** Aligned assignments: which declarators are compared *)

Lemma adjacentPairs_snoc {A : Type} (l : list A) (a b : A) :
  Expected.adjacentPairs ((l ++ [a]) ++ [b]) =
  Expected.adjacentPairs (l ++ [a]) ++ [(a, b)].
Proof.
  induction l as [|x l IH]; [reflexivity|].
  destruct l as [|y l].
  - reflexivity.
  - change (((x :: y :: l) ++ [a]) ++ [b])
      with (x :: y :: ((l ++ [a]) ++ [b])).
    change ((x :: y :: l) ++ [a]) with (x :: y :: (l ++ [a])).
    rewrite !adjacentPairs_cons.
    change (y :: (l ++ [a]) ++ [b]) with (((y :: l) ++ [a]) ++ [b]).
    rewrite IH. reflexivity.
Qed.

Section Runs.

Import AlignedAssignments.

Variable opts : Options.

Let long (g : list Declarator) : bool := blockSize opts <=? Js.arrayLength g.

Lemma adjacentGroupsFrom_runs (rest : list Declarator) :
  forall (prevDecl : Declarator) (earlier : list Declarator),
    Expected.chain areNodesAdjacent (earlier ++ [prevDecl]) ->
    exists run runs,
      List.concat (run :: runs) = (earlier ++ [prevDecl]) ++ rest /\
      (exists more, run = (earlier ++ [prevDecl]) ++ more) /\
      Forall (fun g => g <> [] /\ Expected.chain areNodesAdjacent g)
        (run :: runs) /\
      Expected.separated areNodesAdjacent (run :: runs) /\
      adjacentGroupsFrom opts prevDecl (earlier ++ [prevDecl]) rest =
        List.filter long (run :: runs).
Proof.
  induction rest as [|x rest IH]; intros prevDecl earlier Hchain.
  - exists (earlier ++ [prevDecl]), []. cbn [List.concat].
    split; [reflexivity|]. split; [exists []; rewrite app_nil_r; reflexivity|].
    split.
    { constructor; [|constructor]. split; [|exact Hchain].
      intros Hnil. apply app_eq_nil in Hnil as [_ Hnil]. discriminate. }
    split; [constructor|]. reflexivity.
  - cbn [adjacentGroupsFrom].
    destruct (areNodesAdjacent prevDecl x) eqn:Hadj.
    + destruct (IH x (earlier ++ [prevDecl])) as
        [run [runs [Hconcat [[more Hrun] [Hall [Hsep Hvalue]]]]]].
      { unfold Expected.chain. rewrite adjacentPairs_snoc.
        apply Forall_app. split; [exact Hchain|].
        constructor; [exact Hadj | constructor]. }
      exists run, runs. split; [rewrite Hconcat, <- !app_assoc; reflexivity|].
      split; [exists (x :: more); rewrite Hrun, <- !app_assoc; reflexivity|].
      split; [exact Hall|]. split; [exact Hsep|]. exact Hvalue.
    + destruct (IH x []) as
        [run [runs [Hconcat [[more Hrun] [Hall [Hsep Hvalue]]]]]].
      { constructor. }
      exists (earlier ++ [prevDecl]), (run :: runs).
      split; [cbn [List.concat] in *; rewrite Hconcat, <- !app_assoc;
              reflexivity|].
      split; [exists []; rewrite app_nil_r; reflexivity|].
      split.
      { constructor; [|exact Hall]. split; [|exact Hchain].
        intros Hnil. apply app_eq_nil in Hnil as [_ Hnil]. discriminate. }
      split.
      { unfold Expected.separated. rewrite adjacentPairs_cons.
        constructor; [|exact Hsep]. cbn [fst snd]. intros a b Ha Hb.
        rewrite rev_app_distr in Ha. cbn in Ha. injection Ha as <-.
        rewrite Hrun in Hb. cbn in Hb. injection Hb as <-. exact Hadj. }
      cbn [app] in Hvalue. rewrite Hvalue. cbn [List.filter].
      change (long (earlier ++ [prevDecl]))
        with (blockSize opts <=? Js.arrayLength (earlier ++ [prevDecl])).
      destruct (blockSize opts <=? Js.arrayLength (earlier ++ [prevDecl]));
        reflexivity.
Qed.

End Runs.

(** With [ignoreAdjacent] on, the declarators that have an initializer
    are cut into runs: inside a run every declarator starts on the line
    after the previous one ends, and a run ends where the next declarator
    does not.  Only the runs of at least [blockSize] declarators are
    checked, each on its own. *)
Theorem adjacent_runs :
  forall sc opts (decls : list AlignedAssignments.Declarator) first rest,
    let long g :=
      AlignedAssignments.blockSize opts <=? Js.arrayLength g in
    AlignedAssignments.ignoreAdjacent opts = true ->
    List.filter (fun decl => match AlignedAssignments.init decl with
                             | Some _ => true
                             | None => false
                             end) decls = first :: rest ->
    AlignedAssignments.blockSize opts <= Js.arrayLength (first :: rest) ->
    exists runs,
      List.concat runs = first :: rest /\
      Forall (fun g => g <> [] /\
                       Expected.chain AlignedAssignments.areNodesAdjacent g)
        runs /\
      Expected.separated AlignedAssignments.areNodesAdjacent runs /\
      AlignedAssignments.processDeclarationGroup sc opts decls =
        (reports <- Js.mapM (AlignedAssignments.checkAlignment sc opts)
                      (List.filter long runs) ;;
         Js.Ok (List.concat reports)).
Proof.
  intros sc opts decls first rest long Hon Hinits Hsize.
  destruct (adjacentGroupsFrom_runs opts rest first [] ltac:(constructor))
    as [run [runs [Hconcat [_ [Hall [Hsep Hvalue]]]]]].
  exists (run :: runs). split; [exact Hconcat|]. split; [exact Hall|].
  split; [exact Hsep|].
  unfold AlignedAssignments.processDeclarationGroup.
  destruct decls as [|d decls]; [discriminate|].
  rewrite Hinits, Hon.
  destruct (Js.arrayLength (first :: rest) <?
            AlignedAssignments.blockSize opts) eqn:E;
    [apply Z.ltb_lt in E; lia|].
  cbn [app] in Hvalue. rewrite Hvalue. reflexivity.
Qed.

(** The two declarations of the sample stand on consecutive lines. *)
Lemma adjacent_runs_witness :
  exists runs,
    List.concat runs = [Samples.Consts.declA; Samples.Consts.declLongName] /\
    Forall (fun g => g <> [] /\
                     Expected.chain AlignedAssignments.areNodesAdjacent g)
      runs /\
    AlignedAssignments.processDeclarationGroup Samples.Consts.sourceCode
      AlignedAssignments.noOptions
      [Samples.Consts.declA; Samples.Consts.declLongName] =
      (reports <- Js.mapM (AlignedAssignments.checkAlignment
                             Samples.Consts.sourceCode
                             AlignedAssignments.noOptions)
                    (List.filter (fun g => 2 <=? Js.arrayLength g) runs) ;;
       Js.Ok (List.concat reports)).
Proof.
  destruct (adjacent_runs Samples.Consts.sourceCode
              AlignedAssignments.noOptions
              [Samples.Consts.declA; Samples.Consts.declLongName]
              Samples.Consts.declA [Samples.Consts.declLongName]
              eq_refl eq_refl ltac:(discriminate))
    as [runs [Hconcat [Hall [_ Hvalue]]]].
  exists runs. split; [exact Hconcat|]. split; [exact Hall | exact Hvalue].
Defined.

(** ** Aligned assignments: the rule as a whole *)

Lemma mapM_ok {A B : Type} (f : A -> Js.Result B) (P : A -> B -> Prop)
  (l : list A) :
  (forall x, In x l -> exists y, f x = Js.Ok y /\ P x y) ->
  exists ys, Js.mapM f l = Js.Ok ys /\ Forall2 P l ys.
Proof.
  induction l as [|x l IH]; intros Hall.
  - exists []. split; [reflexivity | constructor].
  - destruct (Hall x (or_introl eq_refl)) as [y [Hy Hp]].
    destruct IH as [ys [Hys Hps]];
      [intros x' Hx'; apply Hall; right; exact Hx'|].
    exists (y :: ys). cbn [Js.mapM]. rewrite Hy, Hys.
    split; [reflexivity | constructor; assumption].
Qed.

Lemma Forall2_concat_In {A B : Type} (P : A -> B -> Prop) l ys :
  Forall2 P l ys ->
  forall r, In r ys -> exists x, In x l /\ P x r.
Proof.
  induction 1 as [|x y l ys Hxy _ IH]; intros r Hin; [destruct Hin|].
  destruct Hin as [<-|Hin].
  - exists x. split; [left; reflexivity | exact Hxy].
  - destruct (IH _ Hin) as [x' [Hx' Hp]]. exists x'.
    split; [right; exact Hx' | exact Hp].
Qed.

Section WholeRule.

Import AlignedAssignments.

Variable sc : SourceCode.
Variable opts : Options.

(** What a diagnostic of the rule looks like: it is anchored at one of the
    given declarators and carries one of the two messages. *)
Let reportOf (decls : list Declarator) (r : Report) : Prop :=
  exists d, In d decls /\ node r = declarator_node d /\
    (messageId r = "misalignedAssignment" \/ messageId r = "misalignedTypes").

Lemma getEqualsColumn_ok (d : Declarator) :
  init d <> None -> exists c, getEqualsColumn sc d = Js.Ok c.
Proof.
  intros Hinit. unfold getEqualsColumn.
  destruct (init d) as [i|]; [|congruence].
  cbn [Js.deref Js.bind]. eexists. reflexivity.
Qed.

Lemma checkAlignment_ok (decls : list Declarator) :
  Forall (fun d => init d <> None) decls ->
  exists reports,
    checkAlignment sc opts decls = Js.Ok reports /\
    Forall (reportOf decls) reports.
Proof.
  intros Hinits. rewrite Forall_forall in Hinits.
  unfold checkAlignment.
  destruct (Js.arrayLength decls <? blockSize opts);
    [exists []; split; [reflexivity | constructor]|].
  destruct (ignoreIfAssignmentsNotInBlock opts && negb (haveSameKind decls));
    [exists []; split; [reflexivity | constructor]|].
  destruct (mapM_ok (getEqualsColumn sc) (fun _ _ => True) decls)
    as [cols [Hcols _]].
  { intros d Hd. destruct (getEqualsColumn_ok d (Hinits d Hd)) as [c Hc].
    exists c. split; [exact Hc | exact I]. }
  unfold getMaxEqualsColumn. rewrite Hcols. cbn [Js.bind].
  match goal with
  | |- context [Js.mapM (checkDeclarator sc opts ?a ?b) decls] =>
      set (maxEquals := a); set (maxTypes := b)
  end.
  destruct (mapM_ok (checkDeclarator sc opts maxEquals maxTypes)
              (fun d rs => Forall (reportOf [d]) rs) decls)
    as [reports [Hreports Hshape]].
  { intros d Hd. destruct (getEqualsColumn_ok d (Hinits d Hd)) as [c Hc].
    unfold checkDeclarator. rewrite Hc. cbn [Js.bind].
    eexists. split; [reflexivity|].
    apply Forall_app. split.
    - destruct (differs c maxEquals); [|constructor].
      constructor; [|constructor]. exists d.
      split; [left; reflexivity|]. split; [reflexivity|]. left. reflexivity.
    - destruct (alignTypes opts); [|constructor].
      destruct maxTypes; [|constructor].
      destruct (differs (getTypeColonColumn sc d) (Some z)); [|constructor].
      constructor; [|constructor]. exists d.
      split; [left; reflexivity|]. split; [reflexivity|]. right. reflexivity. }
  rewrite Hreports. exists (List.concat reports). split; [reflexivity|].
  apply Forall_forall. intros r Hr.
  apply in_concat in Hr as [rs [Hrs Hr]].
  destruct (Forall2_concat_In _ _ _ Hshape rs Hrs) as [d [Hd Hall]].
  rewrite Forall_forall in Hall.
  destruct (Hall r Hr) as [d' [[<-|[]] Hrest]].
  exists d. split; [exact Hd | exact Hrest].
Qed.

End WholeRule.

(** For a [blockSize] of at least one (the schema asks for two), the
    listener never throws, and every diagnostic is anchored at a
    declarator with an initializer, of a variable declaration of the
    block. *)
Theorem aligned_assignments_never_throws :
  forall sc opts (body : list AlignedAssignments.Statement),
    1 <= AlignedAssignments.blockSize opts ->
    exists reports,
      AlignedAssignments.processBlockVariables sc opts body
        = Js.Ok reports /\
      Forall (fun r => exists s d,
                In s body /\
                AlignedAssignments.statement_type s = "VariableDeclaration" /\
                In d (AlignedAssignments.declarations s) /\
                AlignedAssignments.init d <> None /\
                node r = AlignedAssignments.declarator_node d /\
                (messageId r = "misalignedAssignment" \/
                 messageId r = "misalignedTypes"))
        reports.
Proof.
  intros sc opts body Hsize.
  unfold AlignedAssignments.processBlockVariables.
  set (decls := flat_map _ body).
  set (hasInit := fun decl => match AlignedAssignments.init decl with
                              | Some _ => true
                              | None => false
                              end).
  assert (Hdecl : forall d, In d (List.filter hasInit decls) ->
            exists s, In s body /\
              AlignedAssignments.statement_type s = "VariableDeclaration" /\
              In d (AlignedAssignments.declarations s) /\
              AlignedAssignments.init d <> None).
  { intros d Hd. apply filter_In in Hd as [Hd Hinit].
    apply in_flat_map in Hd as [s [Hs Hd]].
    destruct (String.eqb_spec (AlignedAssignments.statement_type s)
                "VariableDeclaration") as [Htype|]; [|destruct Hd].
    exists s. split; [exact Hs|]. split; [exact Htype|].
    split; [exact Hd|]. unfold hasInit in Hinit.
    destruct (AlignedAssignments.init d); [discriminate | discriminate]. }
  assert (Hshape : forall g reports,
            (forall d, In d g -> In d (List.filter hasInit decls)) ->
            Forall (fun r => exists d, In d g /\
                      node r = AlignedAssignments.declarator_node d /\
                      (messageId r = "misalignedAssignment" \/
                       messageId r = "misalignedTypes")) reports ->
            Forall (fun r => exists s d,
                      In s body /\
                      AlignedAssignments.statement_type s
                        = "VariableDeclaration" /\
                      In d (AlignedAssignments.declarations s) /\
                      AlignedAssignments.init d <> None /\
                      node r = AlignedAssignments.declarator_node d /\
                      (messageId r = "misalignedAssignment" \/
                       messageId r = "misalignedTypes")) reports).
  { intros g reports Hg Hall. rewrite Forall_forall in *. intros r Hr.
    destruct (Hall r Hr) as [d [Hd [Hnode Hmessage]]].
    destruct (Hdecl d (Hg d Hd)) as [s [Hs [Htype [Hin Hinit]]]].
    exists s, d. repeat (split; [assumption|]). exact Hmessage. }
  assert (Hgroup : forall g,
            (forall d, In d g -> In d (List.filter hasInit decls)) ->
            Forall (fun d => AlignedAssignments.init d <> None) g).
  { intros g Hg. apply Forall_forall. intros d Hd.
    destruct (Hdecl d (Hg d Hd)) as [s [_ [_ [_ Hinit]]]]. exact Hinit. }
  unfold AlignedAssignments.processDeclarationGroup.
  destruct decls as [|d0 decls'] eqn:Edecls;
    [exists []; split; [reflexivity | constructor]|].
  rewrite <- Edecls in *. clear Edecls.
  fold hasInit.
  destruct (Js.arrayLength (List.filter hasInit decls) <?
            AlignedAssignments.blockSize opts) eqn:Eshort;
    [exists []; split; [reflexivity | constructor]|].
  destruct (AlignedAssignments.ignoreAdjacent opts).
  - destruct (List.filter hasInit decls) as [|first rest] eqn:Einits.
    { apply Z.ltb_ge in Eshort. cbn in Eshort. lia. }
    destruct (adjacentGroupsFrom_runs opts rest first []
                ltac:(constructor))
      as [run [runs [Hconcat [_ [_ [_ Hvalue]]]]]].
    cbn [app] in Hvalue, Hconcat. rewrite Hvalue.
    set (groups := List.filter _ (run :: runs)).
    assert (Hgroups : forall g, In g groups ->
              forall d, In d g -> In d (first :: rest)).
    { intros g Hg d Hd. rewrite <- Hconcat. apply in_concat.
      exists g. split; [|exact Hd].
      unfold groups in Hg. apply filter_In in Hg as [Hg _]. exact Hg. }
    destruct (mapM_ok (AlignedAssignments.checkAlignment sc opts)
                (fun g reports =>
                   Forall (fun r => exists d, In d g /\
                             node r = AlignedAssignments.declarator_node d /\
                             (messageId r = "misalignedAssignment" \/
                              messageId r = "misalignedTypes")) reports)
                groups) as [reports [Hrun Hall]].
    { intros g Hg. apply checkAlignment_ok. apply Hgroup, Hgroups, Hg. }
    rewrite Hrun. cbn [Js.bind]. eexists. split; [reflexivity|].
    apply Forall_forall. intros r Hr.
    apply in_concat in Hr as [rs [Hrs Hr]].
    destruct (Forall2_concat_In _ _ _ Hall rs Hrs) as [g [Hg Hshape']].
    pose proof (Hshape g rs (Hgroups g Hg) Hshape') as Hfinal.
    rewrite Forall_forall in Hfinal. exact (Hfinal r Hr).
  - destruct (checkAlignment_ok sc opts (List.filter hasInit decls))
      as [reports [Hrun Hall]]; [apply Hgroup; auto|].
    exists reports. split; [exact Hrun|].
    apply (Hshape (List.filter hasInit decls)); [auto | exact Hall].
Qed.

(** The default block size, on the sample. *)
Lemma aligned_assignments_witness :
  exists reports,
    AlignedAssignments.processBlockVariables Samples.Consts.sourceCode
      AlignedAssignments.noOptions Samples.Consts.body = Js.Ok reports /\
    Forall (fun r => messageId r = "misalignedAssignment" \/
                     messageId r = "misalignedTypes") reports.
Proof.
  destruct (aligned_assignments_never_throws Samples.Consts.sourceCode
              AlignedAssignments.noOptions Samples.Consts.body
              ltac:(discriminate)) as [reports [Hrun Hall]].
  exists reports. split; [exact Hrun|].
  apply Forall_forall. intros r Hr. rewrite Forall_forall in Hall.
  destruct (Hall r Hr) as [s [d [_ [_ [_ [_ [_ Hmessage]]]]]]].
  exact Hmessage.
Defined.

(** ** Literals: the one-line rendering *)

Lemma collapseNewlines_run (s : Js.text) :
  forall inRun,
    ~ In Js.newline (Js.collapseNewlines inRun s) /\
    (List.length (Js.collapseNewlines inRun s) <= List.length s)%nat.
Proof.
  induction s as [|c s IH]; intros inRun; cbn [Js.collapseNewlines].
  - split; [intros [] | lia].
  - destruct (inRun && Js.isWhitespace c).
    + destruct (IH true) as [Hnone Hlen]. split; [exact Hnone|].
      cbn [List.length]. lia.
    + destruct (Ascii.eqb c Js.newline) eqn:E.
      * destruct (IH true) as [Hnone Hlen]. split.
        -- intros [Hin|Hin]; [discriminate | exact (Hnone Hin)].
        -- cbn [List.length]. lia.
      * destruct (IH false) as [Hnone Hlen]. split.
        -- intros [Hin|Hin]; [|exact (Hnone Hin)].
           apply Ascii.eqb_neq in E. congruence.
        -- cbn [List.length]. lia.
Qed.

(** The rendering holds no line feed and is not longer than the text it
    is taken from; for a text without line feed it is that text. *)
Lemma rendering_one_line :
  forall (src : Js.text) (from to : Z),
    ~ In Js.newline (Expected.rendering src from to) /\
    Js.length (Expected.rendering src from to) <=
      Js.length (Js.substring src from to) /\
    (~ In Js.newline (Js.substring src from to) ->
     Expected.rendering src from to = Js.substring src from to).
Proof.
  intros src from to. unfold Expected.rendering.
  destruct (collapseNewlines_run (Js.substring src from to) false)
    as [Hnone Hlen].
  split; [exact Hnone|]. split; [unfold Js.length; lia|].
  generalize (Js.substring src from to). clear.
  induction t as [|c s IH]; intros Hline; [reflexivity|].
  cbn [Js.collapseNewlines andb].
  destruct (Ascii.eqb c Js.newline) eqn:E.
  - exfalso. apply Hline. left. apply Ascii.eqb_eq in E. congruence.
  - f_equal. apply IH. intros Hin. apply Hline. right. exact Hin.
Qed.

(** The length measured against [maxLineLength] is the starting column
    plus the length of the literal's text with every line break, and the
    white space after it, counted as one character.  It never exceeds the
    column plus the length of the text as written, so a literal whose own
    text fits is never found too long; for a literal written on one line
    the two agree. *)
Theorem line_length_measure :
  forall sc opts (c : MultilineFormat.Collection) (first last : Token),
    let literal :=
      Js.substring (text sc) (fst (range first)) (snd (range last)) in
    let column0 := column (start (loc first)) in
    getFirstToken sc c = Some first ->
    getLastToken sc c = Some last ->
    exists measured,
      MultilineFormat.wouldExceedMaxLineLength sc opts c =
        Js.Ok (MultilineFormat.maxLineLength opts <? column0 + measured) /\
      0 <= measured <= Js.length literal /\
      (~ In Js.newline literal -> measured = Js.length literal) /\
      (column0 + Js.length literal <= MultilineFormat.maxLineLength opts ->
       MultilineFormat.wouldExceedMaxLineLength sc opts c = Js.Ok false).
Proof.
  intros sc opts c first last literal column0 Hfirst Hlast.
  destruct (rendering_one_line (text sc) (fst (range first))
              (snd (range last))) as [_ [Hlen Hsame]].
  fold literal in Hlen, Hsame.
  exists (Js.length (Expected.rendering (text sc) (fst (range first))
                       (snd (range last)))).
  pose proof (wouldExceedMaxLineLength_value sc opts c first last
                Hfirst Hlast) as Hvalue.
  split; [exact Hvalue|]. split; [split; [apply length_nonneg | exact Hlen]|].
  split; [intros Hline; rewrite (Hsame Hline); reflexivity|].
  intros Hfits. rewrite Hvalue. f_equal. apply Z.ltb_ge.
  fold column0. lia.
Qed.

(** The array of two numbers of the sample: six characters from column
    4. *)
Lemma line_length_witness :
  exists measured,
    MultilineFormat.wouldExceedMaxLineLength Samples.Arrays.two
      MultilineFormat.noOptions Samples.Arrays.twoArray =
      Js.Ok (80 <? 4 + measured) /\
    0 <= measured <= 6.
Proof.
  destruct (line_length_measure Samples.Arrays.two MultilineFormat.noOptions
              Samples.Arrays.twoArray
              (tokenAt Samples.Arrays.twoSrc "Punctuator" 4 5)
              (tokenAt Samples.Arrays.twoSrc "Punctuator" 9 10)
              eq_refl eq_refl) as [measured [Hvalue [Hrange _]]].
  exists measured. split; [exact Hvalue | exact Hrange].
Defined.

(** ** Literals: the reconstructed text *)

Section Reconstruction.

Import MultilineFormat.

Variable sc : SourceCode.
Variable opts : Options.

Let textOf (el : Element) : Js.text :=
  Js.slice (text sc) (fst (range el)) (snd (range el)).

Lemma alignedElementText_plain (isObj : bool) (colonPos : option Z)
  (el : Element) :
  isObj && String.eqb (objectAlignment opts) "colon" = false ->
  alignedElementText sc opts isObj colonPos el = Js.Ok (textOf el).
Proof.
  intros Hplain. unfold alignedElementText.
  destruct isObj; cbn [andb] in *; [|reflexivity].
  rewrite Hplain. destruct (isProperty el); [|reflexivity].
  destruct (key el); reflexivity.
Qed.

Lemma elementLines_plain (isObj : bool) (colonPos : option Z)
  (itemIndent : Js.text) (els : list Element) :
  isObj && String.eqb (objectAlignment opts) "colon" = false ->
  forall n i,
    n = i + Js.arrayLength els ->
    elementLines sc opts isObj colonPos itemIndent n i els =
    Js.Ok (Expected.itemLines itemIndent
             (String.eqb (trailingComma opts) "always") (map textOf els)).
Proof.
  intros Hplain. induction els as [|el els IH]; intros n i Hn;
    [reflexivity|].
  cbn [elementLines map Expected.itemLines].
  rewrite (alignedElementText_plain _ _ _ Hplain). cbn [Js.bind].
  rewrite (IH n (i + 1))
    by (unfold Js.arrayLength in *; cbn [List.length] in Hn; lia).
  cbn [Js.bind]. f_equal. rewrite <- !app_assoc. do 2 f_equal.
  destruct els as [|next els].
  - replace (i <? n - 1) with false
      by (symmetry; apply Z.ltb_ge; unfold Js.arrayLength in Hn;
          cbn [List.length] in Hn; lia).
    cbn [orb map].
    destruct (String.eqb (trailingComma opts) "always"); reflexivity.
  - replace (i <? n - 1) with true
      by (symmetry; apply Z.ltb_lt; unfold Js.arrayLength in Hn;
          cbn [List.length] in Hn; lia).
    reflexivity.
Qed.

Lemma itemLines_newlines (itemIndent : Js.text) (trailing : bool)
  (texts : list Js.text) :
  ~ In Js.newline itemIndent ->
  Forall (fun t => ~ In Js.newline t) texts ->
  Expected.countNewlines (Expected.itemLines itemIndent trailing texts) =
  Js.arrayLength texts.
Proof.
  intros Hindent. assert (Hnone : forall t,
    ~ In Js.newline t -> Expected.countNewlines t = 0).
  { intros t Ht. unfold Expected.countNewlines, Js.arrayLength.
    induction t as [|c t IHt]; [reflexivity|].
    cbn [List.filter]. destruct (Ascii.eqb Js.newline c) eqn:E.
    - exfalso. apply Ht. left. apply Ascii.eqb_eq in E. congruence.
    - apply IHt. intros Hin. apply Ht. right. exact Hin. }
  induction 1 as [|t texts Ht _ IH]; [reflexivity|].
  cbn [Expected.itemLines]. rewrite !countNewlines_app, IH.
  rewrite (Hnone _ Hindent), (Hnone _ Ht).
  change (Expected.countNewlines [Js.newline]) with 1.
  unfold Js.arrayLength. cbn [List.length].
  destruct texts, trailing; cbn [List.length];
    change (Expected.countNewlines (Js.str ",")) with 0;
    change (Expected.countNewlines []) with 0; lia.
Qed.

End Reconstruction.

(** The text a reconstruction puts in place of a literal with [minItems]
    items or more, without colon alignment: the opening bracket, one line
    for every item behind the indentation of the literal plus
    [indentation], a comma after every item but the last, which gets one
    exactly under [trailingComma = "always"], and the closing bracket behind
    the indentation of the literal.  With [bracketStyle] other than
    ["same-line"] the opening bracket is followed by a line that holds
    only the item indentation. *)
Theorem reconstruction_one_item_per_line :
  forall sc opts (c : MultilineFormat.Collection)
    (els : list MultilineFormat.Element) (first : Token),
    let isObj := String.eqb (type (MultilineFormat.collection_node c))
                   "ObjectExpression" in
    let column0 := column (start (loc first)) in
    let indent := List.repeat " "%char (Z.to_nat column0) in
    let itemIndent :=
      List.repeat " "%char
        (Z.to_nat (column0 + MultilineFormat.indentation opts)) in
    let texts :=
      map (fun el => Js.slice (text sc) (fst (range el)) (snd (range el)))
        els in
    let sameLine :=
      String.eqb (MultilineFormat.bracketStyle opts) "same-line" in
    let fixed :=
      Js.str (if isObj then "{" else "[") ++
      (if sameLine then [] else Js.newline :: itemIndent) ++
      [Js.newline] ++
      Expected.itemLines itemIndent
        (String.eqb (MultilineFormat.trailingComma opts) "always") texts ++
      indent ++ Js.str (if isObj then "}" else "]") in
    getFirstToken sc c = Some first ->
    0 <= column0 ->
    0 <= column0 + MultilineFormat.indentation opts ->
    els <> [] ->
    MultilineFormat.minItems opts <= Js.arrayLength els ->
    MultilineFormat.objectAlignment opts <> "colon" ->
    MultilineFormat.createFixedText sc opts c els = Js.Ok fixed /\
    (Forall (fun t => ~ In Js.newline t) texts ->
     Expected.countNewlines fixed =
       (if sameLine then 1 else 2) + Js.arrayLength els).
Proof.
  intros sc opts c els first isObj column0 indent itemIndent texts sameLine
    fixed Hfirst Hcol Hitem Hels Hmin Halign.
  assert (Hspaces : forall n, ~ In Js.newline (List.repeat " "%char n)).
  { intros n Hin. apply repeat_spec in Hin. discriminate. }
  split.
  - unfold MultilineFormat.createFixedText. rewrite Hfirst.
    cbn [Js.deref Js.bind]. fold column0.
    change (Js.str " ") with [" "%char].
    rewrite !repeat_char by assumption. cbn [Js.bind].
    fold indent itemIndent isObj sameLine.
    destruct (Js.arrayLength els =? 0) eqn:E.
    { apply Z.eqb_eq in E. destruct els; [congruence|].
      unfold Js.arrayLength in E. cbn [List.length] in E. lia. }
    replace (Js.arrayLength els <? MultilineFormat.minItems opts)
      with false by (symmetry; apply Z.ltb_ge; exact Hmin).
    rewrite andb_false_r. cbn [Js.andThen Js.bind].
    apply String.eqb_neq in Halign. rewrite Halign, andb_false_r.
    rewrite (elementLines_plain sc opts isObj (Some 0) itemIndent els)
      by (rewrite ?Halign, ?andb_false_r; reflexivity || lia).
    cbn [Js.bind]. unfold fixed, texts.
    destruct sameLine; rewrite <- ?app_assoc; reflexivity.
  - intros Htexts. unfold fixed.
    rewrite !countNewlines_app.
    rewrite (itemLines_newlines itemIndent _ texts (Hspaces _) Htexts).
    assert (Hzero : forall n,
              Expected.countNewlines (List.repeat " "%char n) = 0).
    { intros n. unfold Expected.countNewlines, Js.arrayLength.
      induction n as [|n IH]; [reflexivity | exact IH]. }
    unfold indent. rewrite Hzero.
    replace (Js.arrayLength texts) with (Js.arrayLength els)
      by (unfold texts, Js.arrayLength; rewrite length_map; reflexivity).
    change (Expected.countNewlines [Js.newline]) with 1.
    replace (Expected.countNewlines (Js.str (if isObj then "{" else "[")))
      with 0 by (destruct isObj; reflexivity).
    replace (Expected.countNewlines (Js.str (if isObj then "}" else "]")))
      with 0 by (destruct isObj; reflexivity).
    destruct sameLine.
    + change (Expected.countNewlines []) with 0. lia.
    + change (Js.newline :: itemIndent) with ([Js.newline] ++ itemIndent).
      rewrite countNewlines_app. unfold itemIndent at 1. rewrite Hzero.
      change (Expected.countNewlines [Js.newline]) with 1. lia.
Qed.

(** The array of three numbers of the sample, in column 4: three item
    lines in column 6, each with its comma. *)
Lemma reconstruction_witness :
  MultilineFormat.createFixedText Samples.Arrays.three
    MultilineFormat.noOptions Samples.Arrays.threeArray
    (MultilineFormat.nonNull
       (MultilineFormat.elements Samples.Arrays.threeArray)) =
    Js.Ok (Samples.source
             ["["; "      1,"; "      2,"; "      3,"; "    ]"]) /\
  Expected.countNewlines
    (Samples.source ["["; "      1,"; "      2,"; "      3,"; "    ]"]) = 4.
Proof.
  destruct (reconstruction_one_item_per_line Samples.Arrays.three
              MultilineFormat.noOptions Samples.Arrays.threeArray
              (MultilineFormat.nonNull
                 (MultilineFormat.elements Samples.Arrays.threeArray))
              (tokenAt Samples.Arrays.threeSrc "Punctuator" 4 5)
              eq_refl ltac:(discriminate) ltac:(discriminate)
              ltac:(discriminate) ltac:(discriminate) ltac:(discriminate))
    as [Hfixed Hcount].
  split; [rewrite Hfixed; reflexivity|].
  apply Hcount. repeat constructor; intros Hin; cbn in Hin;
    repeat (destruct Hin as [Hin|Hin]; [discriminate|]); exact Hin.
Defined.

Lemma join_one_line (sep : Js.text) (parts : list Js.text) :
  ~ In Js.newline sep ->
  Forall (fun t => ~ In Js.newline t) parts ->
  ~ In Js.newline (Js.join sep parts).
Proof.
  intros Hsep. induction 1 as [|p parts Hp Hparts IH]; [intros []|].
  destruct parts as [|q parts]; [exact Hp|].
  change (Js.join sep (p :: q :: parts))
    with (p ++ sep ++ Js.join sep (q :: parts)).
  rewrite !in_app_iff. tauto.
Qed.

(** Under [multilineStyle = "always"], a literal written on one line with
    fewer than [minItems] items that fits the line is reported all the
    same; but the text its edit puts in place is the literal on one line
    again, so the edit cannot satisfy the rule. *)
Theorem short_literal_fix_stays_on_one_line :
  forall sc opts (c : MultilineFormat.Collection)
    (els : list MultilineFormat.Element) (first last : Token),
    let isObj := String.eqb (type (MultilineFormat.collection_node c))
                   "ObjectExpression" in
    let column0 := column (start (loc first)) in
    let texts :=
      map (fun el => Js.slice (text sc) (fst (range el)) (snd (range el)))
        els in
    let fixed :=
      Js.str (if isObj then "{" else "[") ++ Js.str " " ++
      Js.join (Js.str ", ") texts ++ Js.str " " ++
      Js.str (if isObj then "}" else "]") in
    getFirstToken sc c = Some first ->
    getLastToken sc c = Some last ->
    line (start (loc first)) = line (start (loc last)) ->
    0 <= column0 ->
    0 <= column0 + MultilineFormat.indentation opts ->
    MultilineFormat.bracketStyle opts = "same-line" ->
    MultilineFormat.allowSingleLine opts = true ->
    MultilineFormat.multilineStyle opts = "always" ->
    els <> [] ->
    MultilineFormat.allElementsOnSameLine c els = true ->
    Js.arrayLength els < MultilineFormat.minItems opts ->
    column0 + Js.length (Expected.rendering (text sc) (fst (range first))
                           (snd (range last)))
      <= MultilineFormat.maxLineLength opts ->
    MultilineFormat.createFixedText sc opts c els = Js.Ok fixed /\
    (Forall (fun t => ~ In Js.newline t) texts -> ~ In Js.newline fixed) /\
    (MultilineFormat.properties c = els ->
     exists r,
       MultilineFormat.processObjectExpression sc opts c = Js.Ok [r] /\
       messageId r = "singleLineToMultiline" /\
       fix_ r = Some (Fixed (replaceText c fixed))) /\
    (MultilineFormat.nonNull (MultilineFormat.elements c) = els ->
     exists r,
       MultilineFormat.processArrayExpression sc opts c = Js.Ok [r] /\
       messageId r = "singleLineToMultiline" /\
       fix_ r = Some (Fixed (replaceText c fixed))).
Proof.
  intros sc opts c els first last isObj column0 texts fixed Hfirst Hlast
    Hline Hcol Hitem Hbracket Hallow Hstyle Hels Hsame Hcount Hfits.
  assert (Hfixed : MultilineFormat.createFixedText sc opts c els
                   = Js.Ok fixed).
  { unfold MultilineFormat.createFixedText. rewrite Hfirst.
    cbn [Js.deref Js.bind]. fold column0.
    change (Js.str " ") with [" "%char] at 1 2.
    rewrite !repeat_char by assumption. cbn [Js.bind].
    rewrite Hbracket. cbn [String.eqb Ascii.eqb Bool.eqb andb].
    destruct (Js.arrayLength els =? 0) eqn:E.
    { apply Z.eqb_eq in E. destruct els; [congruence|].
      unfold Js.arrayLength in E. cbn [List.length] in E. lia. }
    rewrite Hsame, Hallow.
    replace (Js.arrayLength els <? MultilineFormat.minItems opts)
      with true by (symmetry; apply Z.ltb_lt; exact Hcount).
    cbn [andb Js.andThen].
    rewrite (wouldExceedMaxLineLength_value sc opts c first last Hfirst Hlast).
    cbn [Js.bind]. fold column0.
    replace (MultilineFormat.maxLineLength opts <? _) with false
      by (symmetry; apply Z.ltb_ge; exact Hfits).
    cbn [negb]. reflexivity. }
  assert (Hshould : forall count,
            Expected.shouldBeMultiline (MultilineFormat.minItems opts)
              (MultilineFormat.maxLineLength opts)
              (MultilineFormat.multilineStyle opts) count column0
              (Expected.rendering (text sc) (fst (range first))
                 (snd (range last))) = true).
  { intros count. unfold Expected.shouldBeMultiline. rewrite Hstyle.
    cbn [String.eqb Ascii.eqb Bool.eqb andb]. apply orb_true_r. }
  split; [exact Hfixed|]. split; [|split].
  - intros Htexts. unfold fixed. rewrite !in_app_iff.
    pose proof (join_one_line (Js.str ", ") texts) as Hjoin.
    intros [Hin|[Hin|[Hin|[Hin|Hin]]]].
    + destruct isObj; cbn in Hin; intuition discriminate.
    + cbn in Hin. intuition discriminate.
    + revert Hin. apply Hjoin; [|exact Htexts].
      cbn. intuition discriminate.
    + cbn in Hin. intuition discriminate.
    + destruct isObj; cbn in Hin; intuition discriminate.
  - intros Hprops. eexists. split.
    { unfold MultilineFormat.processObjectExpression. rewrite Hprops.
      destruct (Js.arrayLength els =? 0) eqn:E.
      { apply Z.eqb_eq in E. destruct els; [congruence|].
        unfold Js.arrayLength in E. cbn [List.length] in E. lia. }
      run_one_line_literal sc opts c first last Hfirst Hlast Hline.
      fold column0. rewrite Hshould, Hstyle. reflexivity. }
    split; [reflexivity|].
    cbn [fix_ MultilineFormat.reconstruction]. rewrite Hfixed. reflexivity.
  - intros Helements. eexists. split.
    { unfold MultilineFormat.processArrayExpression. rewrite Helements.
      destruct (Js.arrayLength (MultilineFormat.elements c) =? 0) eqn:E.
      { apply Z.eqb_eq in E. unfold Js.arrayLength in E.
        destruct (MultilineFormat.elements c); [|cbn [List.length] in E; lia].
        cbn in Helements. congruence. }
      run_one_line_literal sc opts c first last Hfirst Hlast Hline.
      fold column0. rewrite Hshould, Hstyle. reflexivity. }
    split; [reflexivity|].
    cbn [fix_ MultilineFormat.reconstruction]. rewrite Hfixed. reflexivity.
Qed.

(** The array of two numbers of the sample under ["always"]: it is
    reported, and the edit writes it on one line again. *)
Lemma short_literal_fix_witness :
  let fixed := Js.str "[ 1, 2 ]" in
  MultilineFormat.createFixedText Samples.Arrays.two
    (Samples.Arrays.styled "always") Samples.Arrays.twoArray
    (MultilineFormat.nonNull (MultilineFormat.elements Samples.Arrays.twoArray))
    = Js.Ok fixed /\
  ~ In Js.newline fixed /\
  exists r,
    MultilineFormat.processArrayExpression Samples.Arrays.two
      (Samples.Arrays.styled "always") Samples.Arrays.twoArray = Js.Ok [r] /\
    messageId r = "singleLineToMultiline" /\
    fix_ r = Some (Fixed (replaceText Samples.Arrays.twoArray fixed)).
Proof.
  intros fixed.
  destruct (short_literal_fix_stays_on_one_line Samples.Arrays.two
              (Samples.Arrays.styled "always") Samples.Arrays.twoArray
              (MultilineFormat.nonNull
                 (MultilineFormat.elements Samples.Arrays.twoArray))
              (tokenAt Samples.Arrays.twoSrc "Punctuator" 4 5)
              (tokenAt Samples.Arrays.twoSrc "Punctuator" 9 10)
              eq_refl eq_refl eq_refl ltac:(discriminate)
              ltac:(discriminate) eq_refl eq_refl eq_refl
              ltac:(discriminate) eq_refl eq_refl ltac:(discriminate))
    as [Hfixed [Hline [_ Harray]]].
  split; [exact Hfixed|]. split.
  - apply Hline. repeat constructor; intros Hin; cbn in Hin;
      repeat (destruct Hin as [Hin|Hin]; [discriminate|]); exact Hin.
  - exact (Harray eq_refl).
Defined.

(** ** Literals: one diagnostic at a time *)

Section OneDiagnostic.

Import MultilineFormat.

Variable sc : SourceCode.
Variable opts : Options.
Variable c : Collection.

Let shape (reports : list Report) : Prop :=
  (List.length reports <= 1)%nat /\
  Forall (fun r => node r = collection_node c /\
                   Expected.allowedBy opts (messageId r)) reports.

Lemma shape_nil : shape [].
Proof. split; [cbn; lia | constructor]. Qed.

Lemma shape_one (r : Report) :
  node r = collection_node c -> Expected.allowedBy opts (messageId r) ->
  shape [r].
Proof.
  intros Hnode Hmessage. split; [cbn; lia|].
  constructor; [split; assumption | constructor].
Qed.

Lemma checkTrailingComma_shape (lastItem : Element) (r : Report) :
  checkTrailingComma sc opts c lastItem = Some r ->
  node r = collection_node c /\
  ((messageId r = "missingTrailingComma" /\ trailingComma opts = "always") \/
   (messageId r = "unexpectedTrailingComma" /\ trailingComma opts = "never")).
Proof.
  unfold checkTrailingComma.
  destruct (getTokenAfter sc lastItem defaultOptions) as [after|];
    [|discriminate].
  destruct (String.eqb_spec (trailingComma opts) "always") as [Ha|_];
    cbn [andb].
  - destruct (negb (Js.eqb (value after) (Js.str ","))).
    + intros Hr. injection Hr as <-. split; [reflexivity|]. left.
      split; [reflexivity | exact Ha].
    + destruct (String.eqb_spec (trailingComma opts) "never") as [Hn|_];
        cbn [andb]; [|discriminate].
      destruct (Js.eqb (value after) (Js.str ",")); [|discriminate].
      intros Hr. injection Hr as <-. split; [reflexivity|]. right.
      split; [reflexivity | exact Hn].
  - destruct (String.eqb_spec (trailingComma opts) "never") as [Hn|_];
      cbn [andb]; [|discriminate].
    destruct (Js.eqb (value after) (Js.str ",")); [|discriminate].
    intros Hr. injection Hr as <-. split; [reflexivity|]. right.
    split; [reflexivity | exact Hn].
Qed.

Lemma checkColonAlignment_shape (reports : list Report) :
  checkColonAlignment sc opts c = Js.Ok reports -> shape reports.
Proof.
  unfold checkColonAlignment.
  destruct (String.eqb_spec (objectAlignment opts) "colon") as [Hcolon|_];
    cbn [andb]; [|intros H; injection H as <-; apply shape_nil].
  destruct (1 <? Js.arrayLength (properties c));
    [|intros H; injection H as <-; apply shape_nil].
  destruct (Js.arrayLength _ <=? 1);
    [intros H; injection H as <-; apply shape_nil|].
  destruct (Js.mapM (colonColumn sc) _) as [cols|]; cbn [Js.bind];
    [|discriminate].
  destruct (truthyColumns cols) as [|p [|q positions]];
    try (intros H; injection H as <-; apply shape_nil).
  destruct (negb _); intros H; injection H as <-; [|apply shape_nil].
  apply shape_one; [reflexivity|]. cbn [messageId reconstruction].
  unfold Expected.allowedBy. do 6 right. split; [reflexivity | exact Hcolon].
Qed.

Ltac settle H :=
  first
    [ discriminate H
    | injection H as <-; first
        [ apply shape_nil
        | apply shape_one; [reflexivity|];
          cbn [messageId reconstruction]; unfold Expected.allowedBy ] ].

Lemma processObjectExpression_shape (reports : list Report) :
  processObjectExpression sc opts c = Js.Ok reports -> shape reports.
Proof.
  unfold processObjectExpression. intros H.
  destruct (Js.arrayLength (properties c) =? 0); [settle H|].
  destruct (Js.orElse _ _) as [should|]; cbn [Js.bind] in H; [|settle H].
  destruct (isMultiline sc c) as [multi|]; cbn [Js.bind] in H; [|settle H].
  destruct (String.eqb_spec (multilineStyle opts) "never") as [Hnever|Hnever];
    cbn [negb] in H.
  - rewrite andb_false_r in H. destruct multi; [|settle H].
    destruct (getExpectedIndentation sc opts c) as [expected|];
      cbn [Js.bind] in H; [|settle H].
    destruct (Js.filterM _ _) as [wrong|]; cbn [Js.bind] in H; [|settle H].
    destruct (0 <? Js.arrayLength wrong); [settle H; tauto|].
    destruct (allElementsOnSeparateLines sc opts c (properties c))
      as [separate|]; cbn [Js.bind] in H; [|settle H].
    rewrite Hnever in H.
    cbn [String.eqb Ascii.eqb Bool.eqb andb] in H.
    rewrite andb_false_r in H.
    destruct (List.last _ None) as [lastProp|]; [|settle H].
    destruct (checkTrailingComma sc opts c lastProp) as [r|] eqn:Hcomma.
    { injection H as <-. apply checkTrailingComma_shape in Hcomma
        as [Hnode Hmessage].
      apply shape_one; [exact Hnode|]. unfold Expected.allowedBy. tauto. }
    destruct (consistentSpacing opts) eqn:Hspacing; cbn [Js.andThen] in H.
    + destruct (hasConsistentColonSpacing sc c) as [ok|];
        cbn [Js.bind] in H; [|settle H].
      destruct (negb ok); [settle H; tauto|].
      apply checkColonAlignment_shape. exact H.
    + cbn [Js.bind] in H. apply checkColonAlignment_shape. exact H.
  - rewrite andb_true_r in H.
    destruct (should && negb multi); [settle H; tauto|].
    destruct multi; [|settle H].
    destruct (getExpectedIndentation sc opts c) as [expected|];
      cbn [Js.bind] in H; [|settle H].
    destruct (Js.filterM _ _) as [wrong|]; cbn [Js.bind] in H; [|settle H].
    destruct (0 <? Js.arrayLength wrong); [settle H; tauto|].
    destruct (allElementsOnSeparateLines sc opts c (properties c))
      as [separate|]; cbn [Js.bind] in H; [|settle H].
    destruct (String.eqb_spec (multilineStyle opts) "always")
      as [Halways|_].
    + destruct (negb separate); cbn [andb] in H; [settle H; tauto|].
      destruct (List.last _ None) as [lastProp|]; [|settle H].
      destruct (checkTrailingComma sc opts c lastProp) as [r|] eqn:Hcomma.
      { injection H as <-. apply checkTrailingComma_shape in Hcomma
          as [Hnode Hmessage].
        apply shape_one; [exact Hnode|]. unfold Expected.allowedBy. tauto. }
      destruct (consistentSpacing opts) eqn:Hspacing; cbn [Js.andThen] in H.
      * destruct (hasConsistentColonSpacing sc c) as [ok|];
          cbn [Js.bind] in H; [|settle H].
        destruct (negb ok); [settle H; tauto|].
        apply checkColonAlignment_shape. exact H.
      * cbn [Js.bind] in H. apply checkColonAlignment_shape. exact H.
    + rewrite andb_false_r in H.
      destruct (List.last _ None) as [lastProp|]; [|settle H].
      destruct (checkTrailingComma sc opts c lastProp) as [r|] eqn:Hcomma.
      { injection H as <-. apply checkTrailingComma_shape in Hcomma
          as [Hnode Hmessage].
        apply shape_one; [exact Hnode|]. unfold Expected.allowedBy. tauto. }
      destruct (consistentSpacing opts) eqn:Hspacing; cbn [Js.andThen] in H.
      * destruct (hasConsistentColonSpacing sc c) as [ok|];
          cbn [Js.bind] in H; [|settle H].
        destruct (negb ok); [settle H; tauto|].
        apply checkColonAlignment_shape. exact H.
      * cbn [Js.bind] in H. apply checkColonAlignment_shape. exact H.
Qed.

Let arrayShape (reports : list Report) : Prop :=
  shape reports /\
  Forall (fun r => In (messageId r)
                     [ "singleLineToMultiline"; "inconsistentIndentation";
                       "inconsistentNewlines"; "missingTrailingComma";
                       "unexpectedTrailingComma" ]) reports.

Lemma arrayShape_nil : arrayShape [].
Proof. split; [apply shape_nil | constructor]. Qed.

Lemma arrayShape_one (r : Report) :
  node r = collection_node c -> Expected.allowedBy opts (messageId r) ->
  In (messageId r)
    [ "singleLineToMultiline"; "inconsistentIndentation";
      "inconsistentNewlines"; "missingTrailingComma";
      "unexpectedTrailingComma" ] ->
  arrayShape [r].
Proof.
  intros Hnode Hmessage Hin.
  split; [apply shape_one; assumption | constructor; [exact Hin|constructor]].
Qed.

Ltac settleArray H :=
  first
    [ discriminate H
    | injection H as <-; first
        [ apply arrayShape_nil
        | apply arrayShape_one;
          [ reflexivity
          | cbn [messageId reconstruction]; unfold Expected.allowedBy
          | cbn [messageId reconstruction In]; auto 10 ] ] ].

Lemma processArrayExpression_shape (reports : list Report) :
  processArrayExpression sc opts c = Js.Ok reports -> arrayShape reports.
Proof.
  unfold processArrayExpression. intros H.
  assert (Hcomma : forall lastElem,
            match checkTrailingComma sc opts c lastElem with
            | Some report => Js.Ok [report]
            | None => Js.Ok []
            end = Js.Ok reports -> arrayShape reports).
  { intros lastElem Hrun.
    destruct (checkTrailingComma sc opts c lastElem) as [r|] eqn:Hcheck;
      [|settleArray Hrun].
    injection Hrun as <-.
    apply checkTrailingComma_shape in Hcheck as [Hnode Hmessage].
    apply arrayShape_one; [exact Hnode | unfold Expected.allowedBy; tauto |].
    cbn [In]. destruct Hmessage as [[-> _]|[-> _]]; auto 10. }
  destruct (Js.arrayLength (elements c) =? 0); [settleArray H|].
  destruct (Js.orElse _ _) as [should|]; cbn [Js.bind] in H; [|settleArray H].
  destruct (isMultiline sc c) as [multi|]; cbn [Js.bind] in H;
    [|settleArray H].
  destruct (String.eqb_spec (multilineStyle opts) "never") as [Hnever|Hnever];
    cbn [negb] in H.
  - rewrite andb_false_r in H. destruct multi; [|settleArray H].
    destruct (getExpectedIndentation sc opts c) as [expected|];
      cbn [Js.bind] in H; [|settleArray H].
    destruct (Js.filterM _ _) as [wrong|]; cbn [Js.bind] in H;
      [|settleArray H].
    destruct (0 <? Js.arrayLength wrong); [settleArray H; tauto|].
    destruct (allElementsOnSeparateLines sc opts c (nonNull (elements c)))
      as [separate|]; cbn [Js.bind] in H; [|settleArray H].
    rewrite Hnever in H.
    cbn [String.eqb Ascii.eqb Bool.eqb andb] in H.
    rewrite andb_false_r in H.
    destruct (List.last _ None) as [lastElem|]; [|settleArray H].
    exact (Hcomma lastElem H).
  - rewrite andb_true_r in H.
    destruct (should && negb multi); [settleArray H; tauto|].
    destruct multi; [|settleArray H].
    destruct (getExpectedIndentation sc opts c) as [expected|];
      cbn [Js.bind] in H; [|settleArray H].
    destruct (Js.filterM _ _) as [wrong|]; cbn [Js.bind] in H;
      [|settleArray H].
    destruct (0 <? Js.arrayLength wrong); [settleArray H; tauto|].
    destruct (allElementsOnSeparateLines sc opts c (nonNull (elements c)))
      as [separate|]; cbn [Js.bind] in H; [|settleArray H].
    destruct (String.eqb_spec (multilineStyle opts) "always")
      as [Halways|_].
    + destruct (negb separate); cbn [andb] in H; [settleArray H; tauto|].
      destruct (List.last _ None) as [lastElem|]; [|settleArray H].
      exact (Hcomma lastElem H).
    + rewrite andb_false_r in H.
      destruct (List.last _ None) as [lastElem|]; [|settleArray H].
      exact (Hcomma lastElem H).
Qed.

End OneDiagnostic.

(** A literal gets at most one diagnostic per run, always at the literal
    itself, and each kind of diagnostic appears only under the option that
    asks for it: no [singleLineToMultiline] under [multilineStyle =
    "never"], [inconsistentNewlines] only under ["always"], the comma
    diagnostics only under the matching [trailingComma], the spacing and
    colon diagnostics only with [consistentSpacing] and [objectAlignment =
    "colon"], and never for an array. *)
Theorem one_diagnostic_per_literal :
  forall sc opts (c : MultilineFormat.Collection) (reports : list Report),
    (MultilineFormat.processObjectExpression sc opts c = Js.Ok reports ->
     (List.length reports <= 1)%nat /\
     Forall (fun r => node r = MultilineFormat.collection_node c /\
                      Expected.allowedBy opts (messageId r)) reports) /\
    (MultilineFormat.processArrayExpression sc opts c = Js.Ok reports ->
     (List.length reports <= 1)%nat /\
     Forall (fun r => node r = MultilineFormat.collection_node c /\
                      Expected.allowedBy opts (messageId r) /\
                      messageId r <> "inconsistentSpacing" /\
                      messageId r <> "incorrectColonAlignment") reports).
Proof.
  intros sc opts c reports. split; intros Hrun.
  - exact (processObjectExpression_shape sc opts c reports Hrun).
  - destruct (processArrayExpression_shape sc opts c reports Hrun)
      as [[Hlen Hall] Hin].
    split; [exact Hlen|]. rewrite Forall_forall in *. intros r Hr.
    destruct (Hall r Hr) as [Hnode Hallowed].
    split; [exact Hnode|]. split; [exact Hallowed|].
    specialize (Hin r Hr). cbn [In] in Hin.
    split; intros Heq; rewrite Heq in Hin;
      repeat (destruct Hin as [Hin|Hin]; [discriminate|]); exact Hin.
Qed.

(** ** Line spacing: requirements that meet between two nodes *)

Section Neighbours.

Import ConsistentLineSpacing.

Variable sc : SourceCode.
Variable opts : Options.

Lemma checkLinesBefore_passes (b : Node) (previous : Token) (required : Z)
  (nodeType : string) :
  ignoreTopLevelCode opts = false ->
  isImport b = false ->
  getTokenBefore sc b (withComments true) = Some previous ->
  checkLinesBefore sc opts b required nodeType = [] <->
  line (start (loc b)) - line (end_ (loc previous)) - 1 = required.
Proof.
  intros Hignore Himport Hprevious. unfold checkLinesBefore.
  rewrite Hignore, Himport, Hprevious.
  cbn [andb]. rewrite !andb_false_r. cbn [andb].
  destruct (_ =? required) eqn:E; cbn [negb].
  - apply Z.eqb_eq in E. split; [intros _; exact E | reflexivity].
  - apply Z.eqb_neq in E. split; [discriminate | intros; contradiction].
Qed.

Lemma checkLinesAfter_passes (a : Node) (next : Token) (required : Z)
  (nodeType : string) :
  ignoreTopLevelCode opts = false ->
  (forall token n,
      getNextNonCommentToken sc a = Some token ->
      getNodeByRangeIndex sc (fst (range token)) = Some n ->
      isImport n = false) ->
  getTokenAfter sc a (withComments true) = Some next ->
  checkLinesAfter sc opts a required nodeType = [] <->
  line (start (loc next)) - line (end_ (loc a)) - 1 = required.
Proof.
  intros Hignore Hnext Hafter. unfold checkLinesAfter.
  rewrite Hignore, Hafter. cbn [andb]. rewrite andb_false_r.
  assert (Hexempt :
            skipImportGroups opts && isImport a &&
            match
              match getNextNonCommentToken sc a with
              | Some t => getNodeByRangeIndex sc (fst (range t))
              | None => None
              end
            with
            | Some n => isImport n
            | None => false
            end = false).
  { destruct (getNextNonCommentToken sc a) as [token|] eqn:Htoken;
      [|apply andb_false_r].
    destruct (getNodeByRangeIndex sc (fst (range token))) as [n|] eqn:Hn;
      [|apply andb_false_r].
    rewrite (Hnext token n eq_refl Hn). apply andb_false_r. }
  rewrite Hexempt.
  destruct (_ =? required) eqn:E; cbn [negb].
  - apply Z.eqb_eq in E. split; [intros _; exact E | reflexivity].
  - apply Z.eqb_neq in E. split; [discriminate | intros; contradiction].
Qed.

End Neighbours.

(** Two nodes with nothing but white space between them: the lines
    required after the first and the lines required before the second are
    counted over the same gap.  Each check passes exactly when the gap has
    its own count, so when the two counts differ no layout passes both. *)
Theorem neighbours_with_different_requirements :
  forall sc opts (a b : Node) (lastA firstB : Token)
    (requiredAfter requiredBefore : Z) (typeA typeB : string),
    ConsistentLineSpacing.ignoreTopLevelCode opts = false ->
    getTokenAfter sc a (withComments true) = Some firstB ->
    getTokenBefore sc b (withComments true) = Some lastA ->
    line (end_ (loc lastA)) = line (end_ (loc a)) ->
    line (start (loc firstB)) = line (start (loc b)) ->
    ConsistentLineSpacing.isImport b = false ->
    (forall token n,
        ConsistentLineSpacing.getNextNonCommentToken sc a = Some token ->
        getNodeByRangeIndex sc (fst (range token)) = Some n ->
        ConsistentLineSpacing.isImport n = false) ->
    (ConsistentLineSpacing.checkLinesAfter sc opts a requiredAfter typeA = []
     <-> Expected.blankLines a b = requiredAfter) /\
    (ConsistentLineSpacing.checkLinesBefore sc opts b requiredBefore typeB
       = []
     <-> Expected.blankLines a b = requiredBefore) /\
    (requiredAfter <> requiredBefore ->
     ConsistentLineSpacing.checkLinesAfter sc opts a requiredAfter typeA ++
     ConsistentLineSpacing.checkLinesBefore sc opts b requiredBefore typeB
       <> []).
Proof.
  intros sc opts a b lastA firstB requiredAfter requiredBefore typeA typeB
    Hignore Hafter Hbefore Hend Hstart Himport Hnext.
  pose proof (checkLinesAfter_passes sc opts a firstB requiredAfter typeA
                Hignore Hnext Hafter) as Ha.
  pose proof (checkLinesBefore_passes sc opts b lastA requiredBefore typeB
                Hignore Himport Hbefore) as Hb.
  rewrite Hstart in Ha. rewrite Hend in Hb.
  split; [exact Ha|]. split; [exact Hb|].
  intros Hdiffer Hnil. apply app_eq_nil in Hnil as [Hnone Hnone'].
  apply Ha in Hnone. apply Hb in Hnone'. congruence.
Qed.

(** An import followed by a function under the recommended options, which
    ask for one line after imports and two before functions. *)
Lemma neighbours_witness :
  ConsistentLineSpacing.afterImports Recommended.consistentLineSpacing = 1 /\
  ConsistentLineSpacing.beforeFunction Recommended.consistentLineSpacing
    = 2 /\
  ConsistentLineSpacing.checkLinesAfter Samples.Mixed.sourceCode
    Recommended.consistentLineSpacing Samples.Mixed.imported 1
    "import declaration" ++
  ConsistentLineSpacing.checkLinesBefore Samples.Mixed.sourceCode
    Recommended.consistentLineSpacing Samples.Mixed.f 2
    "function declaration" <> [].
Proof.
  split; [reflexivity|]. split; [reflexivity|].
  apply (neighbours_with_different_requirements Samples.Mixed.sourceCode
           Recommended.consistentLineSpacing Samples.Mixed.imported
           Samples.Mixed.f
           (tokenAt Samples.Mixed.src "Punctuator" 17 18)
           (tokenAt Samples.Mixed.src "Keyword" 20 28) 1 2);
    try reflexivity; [|discriminate].
  intros token n Htoken Hn.
  vm_compute in Htoken. injection Htoken as <-.
  vm_compute in Hn. injection Hn as <-. reflexivity.
Defined.

(** ** Line spacing against block padding *)

(** A node whose documentation comment is the token right before it: the
    block-padding rule and the line-spacing rule count the same gap, the
    first against [docstringPadding], the second against the lines
    required before the node.  When the two counts differ no layout passes
    both rules. *)
Theorem docstring_padding_against_line_spacing :
  forall sc padding spacing (n : Node) (comment : Token) (required : Z)
    (nodeType : string),
    ConsistentLineSpacing.ignoreTopLevelCode spacing = false ->
    ConsistentLineSpacing.isImport n = false ->
    hd_error (rev (BlockPadding.getDocstringComments sc padding n))
      = Some comment ->
    getTokenBefore sc n (withComments true) = Some comment ->
    (BlockPadding.checkDocstringPadding sc padding n = [] <->
     Expected.blankLines comment n = BlockPadding.docstringPadding padding) /\
    (ConsistentLineSpacing.checkLinesBefore sc spacing n required nodeType
       = [] <->
     Expected.blankLines comment n = required) /\
    (BlockPadding.docstringPadding padding <> required ->
     BlockPadding.checkDocstringPadding sc padding n ++
     ConsistentLineSpacing.checkLinesBefore sc spacing n required nodeType
       <> []).
Proof.
  intros sc padding spacing n comment required nodeType Hignore Himport
    Hdoc Hbefore.
  assert (Hpadding : BlockPadding.checkDocstringPadding sc padding n = [] <->
            Expected.blankLines comment n
              = BlockPadding.docstringPadding padding).
  { unfold BlockPadding.checkDocstringPadding.
    destruct (rev (BlockPadding.getDocstringComments sc padding n))
      as [|lastComment others]; [discriminate|].
    cbn [hd_error] in Hdoc. injection Hdoc as ->.
    unfold Expected.blankLines.
    destruct (_ =? BlockPadding.docstringPadding padding) eqn:E;
      cbn [negb].
    - apply Z.eqb_eq in E. split; [intros _; exact E | reflexivity].
    - apply Z.eqb_neq in E. split; [discriminate | intros; contradiction]. }
  pose proof (checkLinesBefore_passes sc spacing n comment required nodeType
                Hignore Himport Hbefore) as Hspacing.
  split; [exact Hpadding|]. split; [exact Hspacing|].
  intros Hdiffer Hnil. apply app_eq_nil in Hnil as [Hnone Hnone'].
  apply Hpadding in Hnone. apply Hspacing in Hnone'.
  unfold Expected.blankLines in Hnone. congruence.
Qed.

(** The function under two line comments, under the recommended options of
    both rules: one line after the documentation, two lines before a
    function. *)
Lemma docstring_padding_witness :
  BlockPadding.docstringPadding Recommended.blockPadding = 1 /\
  ConsistentLineSpacing.beforeFunction Recommended.consistentLineSpacing
    = 2 /\
  BlockPadding.checkDocstringPadding Samples.Padding.documented
    Recommended.blockPadding Samples.Padding.documentedF ++
  ConsistentLineSpacing.checkLinesBefore Samples.Padding.documented
    Recommended.consistentLineSpacing Samples.Padding.documentedF 2
    "function declaration" <> [].
Proof.
  split; [reflexivity|]. split; [reflexivity|].
  apply (docstring_padding_against_line_spacing Samples.Padding.documented
           Recommended.blockPadding Recommended.consistentLineSpacing
           Samples.Padding.documentedF
           (Samples.Padding.commentAt Samples.Padding.documentedSrc "Line"
              7 13) 2 "function declaration");
    first [ reflexivity | discriminate ].
Defined.

(** ** Line spacing: what [ignoreTopLevelCode] switches off *)

(** With [ignoreTopLevelCode] set, a top-level node is exempt from the
    check before it only when it is the first statement of the program,
    and from the check after it only when it is the last one.  For every
    other node the option changes nothing. *)
Theorem ignoreTopLevelCode_only_at_the_ends :
  forall sc opts (n : Node) (required : Z) (nodeType : string),
    ConsistentLineSpacing.ignoreTopLevelCode opts = true ->
    (ConsistentLineSpacing.isTopLevel n = true ->
     ConsistentLineSpacing.isFirstInParent n = true ->
     ConsistentLineSpacing.checkLinesBefore sc opts n required nodeType
       = []) /\
    (ConsistentLineSpacing.isTopLevel n = true ->
     ConsistentLineSpacing.isLastInParent n = true ->
     ConsistentLineSpacing.checkLinesAfter sc opts n required nodeType
       = []) /\
    (ConsistentLineSpacing.isFirstInParent n = false ->
     ConsistentLineSpacing.checkLinesBefore sc opts n required nodeType =
     ConsistentLineSpacing.checkLinesBefore sc
       (Expected.checkingTopLevel opts) n required nodeType) /\
    (ConsistentLineSpacing.isLastInParent n = false ->
     ConsistentLineSpacing.checkLinesAfter sc opts n required nodeType =
     ConsistentLineSpacing.checkLinesAfter sc
       (Expected.checkingTopLevel opts) n required nodeType).
Proof.
  intros sc opts n required nodeType Hon.
  assert (Hskip : ConsistentLineSpacing.skipImportGroups
                    (Expected.checkingTopLevel opts) =
                  ConsistentLineSpacing.skipImportGroups opts)
    by reflexivity.
  split; [|split; [|split]].
  - intros Htop Hfirst. unfold ConsistentLineSpacing.checkLinesBefore.
    rewrite Hfirst, Hon, Htop. reflexivity.
  - intros Htop Hlast. unfold ConsistentLineSpacing.checkLinesAfter.
    rewrite Hlast, Hon, Htop. reflexivity.
  - intros Hinner. unfold ConsistentLineSpacing.checkLinesBefore.
    rewrite Hinner, Hskip. reflexivity.
  - intros Hinner. unfold ConsistentLineSpacing.checkLinesAfter.
    rewrite Hinner, Hskip. reflexivity.
Qed.

(** Two functions on consecutive lines with the option set: nothing is
    asked before the first, but the second is reported as without it. *)
Lemma ignoreTopLevelCode_witness :
  let opts :=
    ConsistentLineSpacing.mkOptions None None None None None None None None
      None (Some true) None in
  ConsistentLineSpacing.checkLinesBefore Samples.Functions.sourceCode opts
    Samples.Functions.f 2 "function declaration" = [] /\
  map messageId
    (ConsistentLineSpacing.checkLinesBefore Samples.Functions.sourceCode opts
       Samples.Functions.g 2 "function declaration")
    = ["missingLinesBefore"].
Proof.
  intros opts.
  destruct (ignoreTopLevelCode_only_at_the_ends Samples.Functions.sourceCode
              opts Samples.Functions.f 2 "function declaration" eq_refl)
    as [Hfirst _].
  destruct (ignoreTopLevelCode_only_at_the_ends Samples.Functions.sourceCode
              opts Samples.Functions.g 2 "function declaration" eq_refl)
    as [_ [_ [Hinner _]]].
  split; [apply Hfirst; reflexivity|].
  rewrite (Hinner eq_refl). reflexivity.
Defined.

(** ** Block padding: what the edits take with them *)

(** The edit of a sibling check runs from the last token of the earlier
    sibling to the first token of the later one.  A comment that stands
    between the two lies inside that range, and the text put in its place
    holds line feeds only: applying the edit deletes the comment. *)
Theorem sibling_fix_drops_comments_between :
  forall sc opts (a b : Node) (lastA firstB comment : Token),
    let from := snd (range lastA) in
    let to := fst (range firstB) in
    getLastToken sc a = Some lastA ->
    getFirstToken sc b = Some firstB ->
    from <= fst (range comment) ->
    snd (range comment) <= to ->
    0 <= from -> from <= to -> to <= Js.length (text sc) ->
    (0 <= BlockPadding.rootBlockPadding opts ->
     Expected.blankLines a b <> BlockPadding.rootBlockPadding opts ->
     let edit := Expected.gapEdit from to (BlockPadding.rootBlockPadding opts) in
     map fix_ (BlockPadding.checkRootLevelBlankLines sc opts [a; b])
       = [Some (Fixed edit)] /\
     fst (fix_range edit) <= fst (range comment) /\
     snd (range comment) <= snd (fix_range edit) /\
     Forall (fun ch => ch = Js.newline) (fix_text edit) /\
     applyFix (text sc) edit =
       firstn (Z.to_nat from) (text sc) ++ fix_text edit ++
       skipn (Z.to_nat to) (text sc)) /\
    (0 <= BlockPadding.nestedBlockPadding opts ->
     Expected.blankLines a b <> BlockPadding.nestedBlockPadding opts ->
     let edit :=
       Expected.gapEdit from to (BlockPadding.nestedBlockPadding opts) in
     map fix_ (BlockPadding.checkNestedBlankLines sc opts [a; b])
       = [Some (Fixed edit)] /\
     fst (fix_range edit) <= fst (range comment) /\
     snd (range comment) <= snd (fix_range edit) /\
     Forall (fun ch => ch = Js.newline) (fix_text edit) /\
     applyFix (text sc) edit =
       firstn (Z.to_nat from) (text sc) ++ fix_text edit ++
       skipn (Z.to_nat to) (text sc)).
Proof.
  intros sc opts a b lastA firstB comment from to Hlast Hfirst Hafter
    Hbefore Hfrom Hle Hto.
  assert (Hedit : forall required,
            let edit := Expected.gapEdit from to required in
            fst (fix_range edit) <= fst (range comment) /\
            snd (range comment) <= snd (fix_range edit) /\
            Forall (fun ch => ch = Js.newline) (fix_text edit) /\
            applyFix (text sc) edit =
              firstn (Z.to_nat from) (text sc) ++ fix_text edit ++
              skipn (Z.to_nat to) (text sc)).
  { intros required edit. split; [exact Hafter|]. split; [exact Hbefore|].
    split.
    - apply Forall_forall. intros ch Hch. cbn [edit fix_text] in Hch.
      unfold Expected.gapEdit in Hch. cbn [fix_text] in Hch.
      apply repeat_spec in Hch. exact Hch.
    - unfold edit, Expected.gapEdit.
      change {| fix_range := (from, to);
                fix_text := List.repeat Js.newline (Z.to_nat (required + 1)) |}
        with (replaceTextRange (from, to)
                (List.repeat Js.newline (Z.to_nat (required + 1)))).
      rewrite applyFix_frame by lia. reflexivity. }
  split.
  - intros Hpad Hgap edit. split; [|apply Hedit].
    rewrite checkRootLevelBlankLines_cons.
    unfold Expected.blankLines in Hgap.
    unfold BlockPadding.getBlankLinesBetween.
    destruct (_ =? BlockPadding.rootBlockPadding opts) eqn:E;
      [apply Z.eqb_eq in E; contradiction|].
    cbn [negb app map fix_]. rewrite gap_fix_value by exact Hpad.
    rewrite Hlast, Hfirst. reflexivity.
  - intros Hpad Hgap edit. split; [|apply Hedit].
    rewrite checkNestedBlankLines_cons.
    unfold Expected.blankLines in Hgap.
    unfold BlockPadding.getBlankLinesBetween.
    destruct (_ =? BlockPadding.nestedBlockPadding opts) eqn:E;
      [apply Z.eqb_eq in E; contradiction|].
    cbn [negb app map fix_]. rewrite gap_fix_value by exact Hpad.
    rewrite Hlast, Hfirst. reflexivity.
Qed.

(** Two functions with a comment about the second between them: the edit
    of the root check leaves the two functions and no comment. *)
Lemma sibling_fix_witness :
  let edit := Expected.gapEdit 15 27 2 in
  map fix_ (BlockPadding.checkRootLevelBlankLines Samples.Padding.commented
              BlockPadding.noOptions
              [Samples.Padding.commentedF; Samples.Padding.commentedG])
    = [Some (Fixed edit)] /\
  applyFix Samples.Padding.commentedSrc edit =
    Samples.source ["function f() {}"; ""; ""; "function g() {}"].
Proof.
  intros edit.
  destruct (sibling_fix_drops_comments_between Samples.Padding.commented
              BlockPadding.noOptions Samples.Padding.commentedF
              Samples.Padding.commentedG
              (tokenAt Samples.Padding.commentedSrc "Punctuator" 14 15)
              (tokenAt Samples.Padding.commentedSrc "Keyword" 27 35)
              (Samples.Padding.commentAt Samples.Padding.commentedSrc "Line"
                 16 26)
              eq_refl eq_refl ltac:(discriminate) ltac:(discriminate)
              ltac:(discriminate) ltac:(discriminate) ltac:(discriminate))
    as [Hroot _].
  destruct (Hroot ltac:(discriminate) ltac:(discriminate))
    as [Hfix [_ [_ [_ Happly]]]].
  split; [exact Hfix|]. eapply eq_trans; [exact Happly | reflexivity].
Defined.

(** The edit of the docstring check runs from the end of the comment
    taken as documentation to the first token of the node.  When that
    comment is a block comment followed by other comments, these lie
    inside the range and are deleted with the white space. *)
Theorem docstring_fix_drops_later_comments :
  forall sc opts (n : Node) (doc first later : Token),
    let from := snd (range doc) in
    let to := fst (range first) in
    let edit :=
      Expected.gapEdit from to (BlockPadding.docstringPadding opts) in
    hd_error (rev (BlockPadding.getDocstringComments sc opts n)) = Some doc ->
    getFirstToken sc n = Some first ->
    0 <= BlockPadding.docstringPadding opts ->
    Expected.blankLines doc n <> BlockPadding.docstringPadding opts ->
    from <= fst (range later) ->
    snd (range later) <= to ->
    0 <= from -> from <= to -> to <= Js.length (text sc) ->
    map fix_ (BlockPadding.checkDocstringPadding sc opts n)
      = [Some (Fixed edit)] /\
    fst (fix_range edit) <= fst (range later) /\
    snd (range later) <= snd (fix_range edit) /\
    Forall (fun ch => ch = Js.newline) (fix_text edit) /\
    applyFix (text sc) edit =
      firstn (Z.to_nat from) (text sc) ++ fix_text edit ++
      skipn (Z.to_nat to) (text sc).
Proof.
  intros sc opts n doc first later from to edit Hdoc Hfirst Hpad Hgap
    Hafter Hbefore Hfrom Hle Hto.
  split; [|split; [exact Hafter|split; [exact Hbefore|split]]].
  - unfold BlockPadding.checkDocstringPadding.
    destruct (rev (BlockPadding.getDocstringComments sc opts n))
      as [|lastComment others]; [discriminate|].
    cbn [hd_error] in Hdoc. injection Hdoc as ->.
    unfold Expected.blankLines in Hgap.
    destruct (_ =? BlockPadding.docstringPadding opts) eqn:E;
      [apply Z.eqb_eq in E; contradiction|].
    cbn [negb map fix_]. rewrite Hfirst. cbn [Js.deref Js.bind].
    rewrite repeat_char by lia. reflexivity.
  - apply Forall_forall. intros ch Hch. unfold edit, Expected.gapEdit in Hch.
    cbn [fix_text] in Hch. apply repeat_spec in Hch. exact Hch.
  - unfold edit, Expected.gapEdit.
    change {| fix_range := (from, to);
              fix_text := List.repeat Js.newline
                            (Z.to_nat (BlockPadding.docstringPadding opts + 1))
           |}
      with (replaceTextRange (from, to)
              (List.repeat Js.newline
                 (Z.to_nat (BlockPadding.docstringPadding opts + 1)))).
    rewrite applyFix_frame by lia. reflexivity.
Qed.

(** A function under a documentation block and two line comments: the edit
    leaves the block, one empty line and the function. *)
Lemma docstring_fix_witness :
  let edit := Expected.gapEdit 17 28 1 in
  map fix_ (BlockPadding.checkDocstringPadding Samples.Padding.annotated
              BlockPadding.noOptions Samples.Padding.annotatedF)
    = [Some (Fixed edit)] /\
  applyFix Samples.Padding.annotatedSrc edit =
    Samples.source ["/** @returns x */"; ""; "function f() {}"].
Proof.
  intros edit.
  destruct (docstring_fix_drops_later_comments Samples.Padding.annotated
              BlockPadding.noOptions Samples.Padding.annotatedF
              (Samples.Padding.commentAt Samples.Padding.annotatedSrc
                 "Block" 0 17)
              (tokenAt Samples.Padding.annotatedSrc "Keyword" 28 36)
              (Samples.Padding.commentAt Samples.Padding.annotatedSrc
                 "Line" 18 22)
              eq_refl eq_refl ltac:(discriminate) ltac:(discriminate)
              ltac:(discriminate) ltac:(discriminate) ltac:(discriminate)
              ltac:(discriminate) ltac:(discriminate))
    as [Hfix [_ [_ [_ Happly]]]].
  split; [exact Hfix|]. eapply eq_trans; [exact Happly | reflexivity].
Defined.

(** ** Block padding: the listeners together *)

(** The docstring diagnostics of a node are produced by the listener of
    its parent, for the children of the program and of every block and
    class body with two children or more, and again by the listener of the
    node itself when it is a function, class or method declaration. *)
Theorem docstring_checked_by_two_listeners :
  forall sc opts (body : list Node) (n : Node) (r : Report),
    In n body ->
    In r (BlockPadding.checkDocstringPadding sc opts n) ->
    In r (BlockPadding.Program sc opts body) /\
    ((2 <= List.length body)%nat ->
     In r (BlockPadding.BlockStatement sc opts body) /\
     In r (BlockPadding.ClassBody sc opts body)) /\
    In r (BlockPadding.FunctionDeclaration sc opts n) /\
    In r (BlockPadding.ClassDeclaration sc opts n) /\
    In r (BlockPadding.MethodDefinition sc opts n).
Proof.
  intros sc opts body n r Hn Hr.
  assert (Hchildren : In r (flat_map (BlockPadding.checkDocstringPadding
                                        sc opts) body))
    by (apply in_flat_map; exists n; split; assumption).
  split; [|split; [|split; [exact Hr | split; exact Hr]]].
  - unfold BlockPadding.Program. destruct body as [|first rest];
      [destruct Hn|].
    rewrite !in_app_iff. right. right. right. exact Hchildren.
  - intros Hlen.
    unfold BlockPadding.BlockStatement, BlockPadding.ClassBody.
    replace (1 <? Js.arrayLength body) with true
      by (symmetry; apply Z.ltb_lt; unfold Js.arrayLength; lia).
    rewrite in_app_iff. split; right; exact Hchildren.
Qed.

(** The function two lines below its documentation block, as only
    statement of the program: the diagnostic comes from the program and
    from the function. *)
Lemma docstring_listeners_witness :
  exists r,
    BlockPadding.checkDocstringPadding Samples.Padding.annotated
      BlockPadding.noOptions Samples.Padding.annotatedF = [r] /\
    In r (BlockPadding.Program Samples.Padding.annotated
            BlockPadding.noOptions [Samples.Padding.annotatedF]) /\
    In r (BlockPadding.FunctionDeclaration Samples.Padding.annotated
            BlockPadding.noOptions Samples.Padding.annotatedF).
Proof.
  eexists. split; [reflexivity|].
  destruct (docstring_checked_by_two_listeners Samples.Padding.annotated
              BlockPadding.noOptions [Samples.Padding.annotatedF]
              Samples.Padding.annotatedF _
              (or_introl eq_refl) (or_introl eq_refl))
    as [Hprogram [_ [Hfunction _]]].
  split; [exact Hprogram | exact Hfunction].
Defined.

(** ** Aligned assignments: the edit for a typed declarator *)

(** For a declarator with a type annotation the padding before the
    annotation is the target column minus twice the length of the
    pattern's text.  When the target is smaller than that, building the
    replacement throws, and so does the edit of every diagnostic of the
    declarator. *)
Theorem typed_fix_counts_the_name_twice :
  forall sc opts (d : AlignedAssignments.Declarator) (annotation : Node)
    (c targetType : Z) (targetEquals : option Z),
    AlignedAssignments.typeAnnotation (AlignedAssignments.id d)
      = Some annotation ->
    AlignedAssignments.getEqualsColumn sc d = Js.Ok (Some c) ->
    c <> 0 ->
    targetType <
      2 * Js.length
            (getTextOf sc
               (AlignedAssignments.pattern_node (AlignedAssignments.id d))) ->
    AlignedAssignments.getFixedDeclaration sc d targetEquals (Some targetType)
      = Js.Throw Js.RangeError /\
    exists reports,
      AlignedAssignments.checkDeclarator sc opts targetEquals
        (Some targetType) d = Js.Ok reports /\
      Forall (fun r => fix_ r = Some (FixThrows Js.RangeError)) reports.
Proof.
  intros sc opts d annotation c targetType targetEquals Hann Hcol Hc Hshort.
  assert (Hfixed : AlignedAssignments.getFixedDeclaration sc d targetEquals
                     (Some targetType) = Js.Throw Js.RangeError).
  { unfold AlignedAssignments.getFixedDeclaration,
      AlignedAssignments.hasTypeAnnotation.
    rewrite Hcol, Hann. cbn [Js.bind].
    assert (Hpad : Js.repeat (Js.str " ")
                     (targetType -
                      (Js.length
                         (getTextOf sc
                            (AlignedAssignments.pattern_node
                               (AlignedAssignments.id d))) +
                       Js.length
                         (getTextOf sc
                            (AlignedAssignments.pattern_node
                               (AlignedAssignments.id d)))))
                   = Js.Throw Js.RangeError).
    { unfold Js.repeat.
      destruct (_ <? 0) eqn:E; [reflexivity|]. apply Z.ltb_ge in E. lia. }
    destruct c as [|c|c]; [congruence | |]; rewrite Hpad; reflexivity. }
  split; [exact Hfixed|].
  unfold AlignedAssignments.checkDeclarator. rewrite Hcol, Hfixed.
  cbn [Js.bind fixOf]. eexists. split; [reflexivity|].
  apply Forall_app. split.
  - destruct (AlignedAssignments.differs (Some c) targetEquals);
      repeat constructor.
  - destruct (AlignedAssignments.alignTypes opts); [|constructor].
    destruct (AlignedAssignments.differs _ _); repeat constructor.
Qed.

(** Two typed declarations under the recommended options: both
    diagnostics of the first carry an edit that throws. *)
Lemma typed_fix_witness :
  AlignedAssignments.getMaxTypeColonColumn Samples.Typed.sourceCode
    [Samples.Typed.declA; Samples.Typed.declBb] = Some 8 /\
  AlignedAssignments.getFixedDeclaration Samples.Typed.sourceCode
    Samples.Typed.declA (Some 17) (Some 8) = Js.Throw Js.RangeError /\
  option_map (map (fun r => (messageId r, fix_ r)))
    (match AlignedAssignments.processBlockVariables Samples.Typed.sourceCode
             Recommended.alignedAssignments Samples.Typed.body with
     | Js.Ok reports => Some reports
     | Js.Throw _ => None
     end) =
  Some [ ("misalignedAssignment", Some (FixThrows Js.RangeError));
         ("misalignedTypes", Some (FixThrows Js.RangeError)) ].
Proof.
  split; [reflexivity|]. split; [|reflexivity].
  apply (typed_fix_counts_the_name_twice Samples.Typed.sourceCode
           Recommended.alignedAssignments Samples.Typed.declA
           (nodeAt Samples.Typed.src 4 "TSTypeAnnotation" 7 15
              (Samples.inside_ "Identifier")) 16 8 (Some 17));
    first [ reflexivity | discriminate ].
Defined.

(** ** Line spacing: what the edit establishes *)

Lemma positionFrom_newlines (k : nat) (rest : Js.text) :
  forall ln col,
    positionFrom ln col (List.repeat Js.newline k ++ rest) k =
    mkPosition (ln + Z.of_nat k) (if Nat.eqb k 0 then col else 0).
Proof.
  induction k as [|k IH]; intros ln col.
  - cbn [List.repeat app Nat.eqb]. rewrite Z.add_0_r.
    destruct rest; reflexivity.
  - cbn [List.repeat app positionFrom Nat.eqb].
    rewrite Ascii.eqb_refl, IH. f_equal; [lia|].
    destruct (Nat.eqb k 0); reflexivity.
Qed.

(** The edit offered with [missingLinesBefore], applied: the text up to
    the end of the token before the node and the text from the node on are
    kept, and the node now starts in column 0 of the line that leaves
    exactly the required number of empty lines after that token. *)
Theorem line_spacing_fix_establishes_gap :
  forall sc opts (n : Node) (previous : Token) (required : Z)
    (nodeType : string),
    let from := snd (range previous) in
    let to := fst (range n) in
    let edit := Expected.gapEdit from to required in
    let edited := applyFix (text sc) edit in
    ConsistentLineSpacing.ignoreTopLevelCode opts = false ->
    ConsistentLineSpacing.isImport n = false ->
    getTokenBefore sc n (withComments true) = Some previous ->
    0 <= required ->
    line (start (loc n)) - line (end_ (loc previous)) - 1 <> required ->
    0 <= from -> from <= to -> to <= Js.length (text sc) ->
    map fix_ (ConsistentLineSpacing.checkLinesBefore sc opts n required
                nodeType) = [Some (Fixed edit)] /\
    firstn (Z.to_nat from) edited = firstn (Z.to_nat from) (text sc) /\
    skipn (Z.to_nat (from + required + 1)) edited =
      skipn (Z.to_nat to) (text sc) /\
    positionAt edited (from + required + 1) =
      mkPosition (line (positionAt (text sc) from) + required + 1) 0.
Proof.
  intros sc opts n previous required nodeType from to edit edited Hignore
    Himport Hprevious Hrequired Hgap Hfrom Hle Hto.
  set (before := firstn (Z.to_nat from) (text sc)).
  set (feeds := List.repeat Js.newline (Z.to_nat (required + 1))).
  assert (Hedited : edited = before ++ feeds ++ skipn (Z.to_nat to) (text sc)).
  { unfold edited, edit, Expected.gapEdit.
    change {| fix_range := (from, to);
              fix_text := List.repeat Js.newline (Z.to_nat (required + 1)) |}
      with (replaceTextRange (from, to)
              (List.repeat Js.newline (Z.to_nat (required + 1)))).
    rewrite applyFix_frame by lia. reflexivity. }
  assert (Hbefore : List.length before = Z.to_nat from).
  { unfold before. rewrite length_firstn. unfold Js.length in Hto. lia. }
  assert (Hfeeds : List.length feeds = Z.to_nat (required + 1))
    by (unfold feeds; apply repeat_length).
  assert (Hindex : Z.to_nat (from + required + 1) =
                   (List.length before + Z.to_nat (required + 1))%nat)
    by lia.
  split; [|split; [|split]].
  - unfold ConsistentLineSpacing.checkLinesBefore.
    rewrite Hignore, Himport, Hprevious.
    cbn [andb]. rewrite !andb_false_r. cbn [andb].
    destruct (_ =? required) eqn:E; [apply Z.eqb_eq in E; contradiction|].
    cbn [negb map fix_]. rewrite repeat_char by lia. reflexivity.
  - rewrite Hedited.
    replace (Z.to_nat from) with (List.length before + 0)%nat at 1 by lia.
    rewrite firstn_app_2. cbn [firstn]. apply app_nil_r.
  - rewrite Hedited, Hindex, skipn_app.
    rewrite skipn_all2 by lia. cbn [app].
    replace (List.length before + Z.to_nat (required + 1)
             - List.length before)%nat
      with (List.length feeds) by lia.
    rewrite skipn_app, skipn_all, Nat.sub_diag. reflexivity.
  - unfold positionAt. rewrite Hedited, Hindex, positionFrom_app.
    assert (Hstart : positionFrom 1 0 before (List.length before) =
                     positionFrom 1 0 (text sc) (Z.to_nat from)).
    { rewrite <- (firstn_skipn (Z.to_nat from) (text sc)) at 1.
      fold before. rewrite <- Hbefore. symmetry. apply positionFrom_prefix. }
    rewrite Hstart. unfold feeds. rewrite positionFrom_newlines.
    replace (Nat.eqb (Z.to_nat (required + 1)) 0) with false
      by (symmetry; apply Nat.eqb_neq; lia).
    f_equal. lia.
Qed.

(** The second of two functions on consecutive lines, two lines required:
    after the edit it starts on line 4. *)
Lemma line_spacing_fix_witness :
  let edit := Expected.gapEdit 15 16 2 in
  map fix_ (ConsistentLineSpacing.checkLinesBefore
              Samples.Functions.sourceCode ConsistentLineSpacing.noOptions
              Samples.Functions.g 2 "function declaration")
    = [Some (Fixed edit)] /\
  applyFix Samples.Functions.src edit =
    Samples.source ["function f() {}"; ""; ""; "function g() {}"] /\
  positionAt (applyFix Samples.Functions.src edit) 18 = mkPosition 4 0.
Proof.
  intros edit.
  destruct (line_spacing_fix_establishes_gap Samples.Functions.sourceCode
              ConsistentLineSpacing.noOptions Samples.Functions.g
              (tokenAt Samples.Functions.src "Punctuator" 14 15) 2
              "function declaration" eq_refl eq_refl eq_refl
              ltac:(discriminate) ltac:(discriminate) ltac:(discriminate)
              ltac:(discriminate) ltac:(discriminate))
    as [Hfix [_ [_ Hposition]]].
  split; [exact Hfix|]. split; [reflexivity | exact Hposition].
Defined.

(** ** Imports written without semicolons *)

Lemma partPosition_lookup sc (statement part : Node) index :
  Expected.partPosition sc statement part index ->
  getNodeByRangeIndex sc index = Some part.
Proof.
  intros [program [earlier [before [inner [after [later [Hast [Hprogram
            [Hearlier [Hstatement [Hbefore [Hpart Hinner]]]]]]]]]]]].
  unfold getNodeByRangeIndex. rewrite Hast.
  apply deepestNode_passes; [assumption | assumption |].
  apply deepestNode_passes; [assumption | assumption |].
  apply deepestNode_own; assumption.
Qed.

(** The exemption of [skipImportGroups] looks at the node found where
    the neighbouring token starts.  When the token before a declaration
    belongs to a part of the statement before it, that part is the node
    found; it is no import declaration, and the before check runs as with
    the option off, whatever the statement is.  The source string that
    ends an import written without a semicolon is such a token: the import
    after it is checked against [beforeImports]. *)
Theorem import_after_open_import_is_checked :
  forall sc opts (a b part : Node) (t : Token) (requiredLines : Z)
         (nodeType : string),
    ConsistentLineSpacing.getPrevNonCommentToken sc b = Some t ->
    Expected.partPosition sc a part (fst (range t)) ->
    ConsistentLineSpacing.isImport part = false ->
    ConsistentLineSpacing.checkLinesBefore sc opts b requiredLines nodeType =
    ConsistentLineSpacing.checkLinesBefore sc
      (Expected.checkingImportGroups opts) b requiredLines nodeType.
Proof.
  intros sc opts a b part t requiredLines nodeType Htok Hpart Htype.
  apply checkLinesBefore_not_exempt.
  rewrite Htok, (partPosition_lookup sc a part _ Hpart), Htype.
  apply andb_false_r.
Qed.

(** Two imports on consecutive lines, without semicolons, default
    options: the second is reported by the before check, and the after
    check of the first is skipped. *)
Lemma import_after_open_import_witness :
  ConsistentLineSpacing.isImport Samples.BareImports.first = true /\
  ConsistentLineSpacing.isImport Samples.BareImports.second = true /\
  ConsistentLineSpacing.skipImportGroups ConsistentLineSpacing.noOptions
    = true /\
  ConsistentLineSpacing.checkLinesBefore Samples.BareImports.sourceCode
    ConsistentLineSpacing.noOptions Samples.BareImports.second 1
    "import declaration" =
  [ {| node := Samples.BareImports.second;
       messageId := "missingLinesBefore";
       data := [ ("expected", DNum 1); ("actual", DNum 0);
                 ("nodeType", DStr "import declaration");
                 ("lineText", DStr "line") ];
       fix_ := Some (Fixed (Expected.gapEdit 17 18 1)) |} ] /\
  ConsistentLineSpacing.checkLinesAfter Samples.BareImports.sourceCode
    ConsistentLineSpacing.noOptions Samples.BareImports.first 1
    "import declaration" = [].
Proof.
  assert (Hstring : Expected.partPosition Samples.BareImports.sourceCode
            Samples.BareImports.first
            (nodeAt Samples.BareImports.src 4 "Literal" 14 17
               (Samples.inside_ "ImportDeclaration")) 14).
  { exists (nodeAt Samples.BareImports.src 0 "Program" 0
              (Js.length Samples.BareImports.src) None),
      [],
      [ AstNode
          (nodeAt Samples.BareImports.src 2 "ImportDefaultSpecifier" 7 8
             (Samples.inside_ "ImportDeclaration"))
          [ Samples.leaf
              (nodeAt Samples.BareImports.src 3 "Identifier" 7 8
                 (Samples.inside_ "ImportDefaultSpecifier")) ] ],
      [], [],
      [ AstNode Samples.BareImports.second (Samples.BareImports.parts 5 18) ].
    split; [reflexivity|]. split; [reflexivity|]. split; [constructor|].
    split; [reflexivity|]. split; [repeat constructor|].
    split; [reflexivity | constructor]. }
  split; [reflexivity|]. split; [reflexivity|]. split; [reflexivity|].
  split; [|reflexivity].
  rewrite (import_after_open_import_is_checked
             Samples.BareImports.sourceCode ConsistentLineSpacing.noOptions
             Samples.BareImports.first Samples.BareImports.second
             (nodeAt Samples.BareImports.src 4 "Literal" 14 17
                (Samples.inside_ "ImportDeclaration"))
             (tokenAt Samples.BareImports.src "String" 14 17) 1
             "import declaration" eq_refl Hstring eq_refl).
  reflexivity.
Defined.

(** ** The separator under [never] *)

(** Under [trailingComma = "never"] the edit of a multiline object
    literal that passes the earlier checks runs from the end of the last
    item to the end of the comma.  White space or a comment that stands
    between the item and the comma lies inside that range and is removed
    with the comma. *)
Theorem never_fix_removes_up_to_the_comma :
  forall sc opts (c : MultilineFormat.Collection)
         (lastProp : MultilineFormat.Element) (after : Token),
    MultilineFormat.isMultiline sc c = Js.Ok true ->
    Expected.wellIndented sc (MultilineFormat.indentation opts) c
      (MultilineFormat.properties c) ->
    (MultilineFormat.multilineStyle opts = "always" ->
     MultilineFormat.allElementsOnSeparateLines sc opts c
       (MultilineFormat.properties c) = Js.Ok true) ->
    List.last (map Some (MultilineFormat.properties c)) None
      = Some lastProp ->
    getTokenAfter sc lastProp defaultOptions = Some after ->
    0 <= snd (range lastProp) <= snd (range after) ->
    snd (range after) <= Js.length (text sc) ->
    MultilineFormat.trailingComma opts = "never" ->
    value after = Js.str "," ->
    let edit := removeRange (snd (range lastProp), snd (range after)) in
    MultilineFormat.processObjectExpression sc opts c =
      Js.Ok [Expected.separatorReport c "unexpectedTrailingComma" edit] /\
    applyFix (text sc) edit =
      firstn (Z.to_nat (snd (range lastProp))) (text sc) ++
      skipn (Z.to_nat (snd (range after))) (text sc) /\
    (forall between : Token,
        snd (range lastProp) <= fst (range between) ->
        snd (range between) <= fst (range after) ->
        fst (range after) <= snd (range after) ->
        fst (fix_range edit) <= fst (range between) /\
        snd (range between) <= snd (fix_range edit)).
Proof.
  intros sc opts c lastProp after Hmulti Hindent Hlines Hlast Hafter
    Hrange Hlen Hnever Hvalue edit.
  split; [|split].
  - apply (processObjectExpression_reaches_trailing_comma sc opts c
             lastProp); try assumption.
    unfold MultilineFormat.checkTrailingComma. rewrite Hafter, Hnever.
    apply eqb_eq in Hvalue. rewrite Hvalue. reflexivity.
  - unfold edit, removeRange. rewrite applyFix_frame by lia. reflexivity.
  - intros between Hfrom Hto Htoken. unfold edit, removeRange.
    cbn [replaceTextRange fix_range fst snd]. lia.
Qed.

(** The literal with a comment between the item and its comma: the edit
    removes the comment with the comma. *)
Lemma never_fix_witness :
  MultilineFormat.processObjectExpression Samples.Objects.commented
    (Samples.Arrays.trailing "never") Samples.Objects.commentedObject =
  Js.Ok [Expected.separatorReport Samples.Objects.commentedObject
           "unexpectedTrailingComma" (removeRange (16, 27))] /\
  Js.slice Samples.Objects.commentedSrc 16 27 = Js.str " /* one */," /\
  applyFix Samples.Objects.commentedSrc (removeRange (16, 27)) =
    Samples.source ["x = {"; "      a: 1"; "    };"].
Proof.
  assert (Hindent : Expected.wellIndented Samples.Objects.commented
            (MultilineFormat.indentation (Samples.Arrays.trailing "never"))
            Samples.Objects.commentedObject
            (MultilineFormat.properties Samples.Objects.commentedObject)).
  { exists (tokenAt Samples.Objects.commentedSrc "Punctuator" 4 5).
    split; [reflexivity|]. constructor; [|constructor].
    exists (tokenAt Samples.Objects.commentedSrc "Identifier" 12 13).
    split; [reflexivity|]. right. reflexivity. }
  assert (Hrange : 0 <= snd (range (Samples.Objects.property
                                      Samples.Objects.commentedSrc 2 12))
                   <= snd (range (tokenAt Samples.Objects.commentedSrc
                                    "Punctuator" 26 27)))
    by (split; discriminate).
  destruct (never_fix_removes_up_to_the_comma Samples.Objects.commented
    (Samples.Arrays.trailing "never") Samples.Objects.commentedObject
    (Samples.Objects.property Samples.Objects.commentedSrc 2 12)
    (tokenAt Samples.Objects.commentedSrc "Punctuator" 26 27)
    eq_refl Hindent ltac:(discriminate) eq_refl eq_refl Hrange
    ltac:(discriminate) eq_refl eq_refl) as [Hreport [Hedit _]].
  split; [exact Hreport|]. split; [reflexivity|].
  eapply eq_trans; [exact Hedit | reflexivity].
Defined.

(** ** Root-level padding where no comment stands between *)

(** Where the anchor before each later sibling is the last token of the
    earlier one, and each later sibling starts with its first token, the
    root-level check does what the specification describes: it reports
    exactly the consecutive siblings whose blank-line count differs from
    the required count [R] (2 when the option is not given), at the later
    sibling, and the edit replaces the span between the end of the
    previous anchor and the start of the later sibling by [R + 1] line
    feeds, the text before and after that span staying as it was. *)
Theorem root_padding_between_adjacent_siblings :
  forall sc opts (nodes : list Node),
    0 <= BlockPadding.rootBlockPadding opts ->
    Forall (fun p =>
              exists anchor first,
                getLastToken sc (fst p) = Some anchor /\
                Expected.previousAnchor sc (snd p) = Some anchor /\
                getFirstToken sc (snd p) = Some first /\
                fst (range first) = fst (range (snd p)))
      (Expected.adjacentPairs nodes) ->
    BlockPadding.checkRootLevelBlankLines sc opts nodes =
      map (fun p => Expected.rootPaddingReport sc
                      (BlockPadding.rootBlockPadding opts) (fst p) (snd p))
        (List.filter
           (fun p => negb (Expected.blankLines (fst p) (snd p) =?
                           BlockPadding.rootBlockPadding opts))
           (Expected.adjacentPairs nodes)) /\
    BlockPadding.rootBlockPadding BlockPadding.noOptions = 2 /\
    (forall src from to,
        0 <= from <= to -> to <= Js.length src ->
        applyFix src
          (Expected.gapEdit from to (BlockPadding.rootBlockPadding opts)) =
        firstn (Z.to_nat from) src ++
        List.repeat Js.newline
          (Z.to_nat (BlockPadding.rootBlockPadding opts + 1)) ++
        skipn (Z.to_nat to) src).
Proof.
  intros sc opts nodes Hpad Hanchors. split; [|split].
  - induction nodes as [|current rest IH]; [reflexivity|].
    destruct rest as [|next rest]; [reflexivity|].
    rewrite adjacentPairs_cons in Hanchors.
    inversion Hanchors as [|p ps Hpair Hrest]; subst.
    rewrite adjacentPairs_cons, checkRootLevelBlankLines_cons, (IH Hrest).
    cbn [List.filter fst snd].
    change (Expected.blankLines current next)
      with (BlockPadding.getBlankLinesBetween current next).
    destruct (negb (BlockPadding.getBlankLinesBetween current next =?
                    BlockPadding.rootBlockPadding opts)); [|reflexivity].
    cbn [map app fst snd]. f_equal.
    destruct Hpair as [anchor [first [Hlast [Hanchor [Hfirst Hstart]]]]].
    cbn [fst snd] in Hlast, Hanchor, Hfirst, Hstart.
    unfold Expected.rootPaddingReport. rewrite Hanchor. f_equal.
    rewrite gap_fix_value by exact Hpad.
    rewrite Hlast, Hfirst, Hstart. reflexivity.
  - reflexivity.
  - intros src from to Hrange Hlen.
    apply (applyFix_frame src from to); assumption.
Qed.

(** Two functions on consecutive lines, default options: one diagnostic at
    the second, expected 2 and actual 0, and the edit puts exactly two
    blank lines between them. *)
Lemma root_padding_adjacent_witness :
  0 <= BlockPadding.rootBlockPadding BlockPadding.noOptions /\
  BlockPadding.checkRootLevelBlankLines Samples.Functions.sourceCode
    BlockPadding.noOptions [Samples.Functions.f; Samples.Functions.g] =
  [ {| node := Samples.Functions.g;
       messageId := "missingPaddingBetweenRootBlocks";
       data := [ ("expected", DNum 2); ("actual", DNum 0);
                 ("lineText", DStr "lines") ];
       fix_ := Some (Fixed (Expected.gapEdit 15 16 2)) |} ] /\
  applyFix Samples.Functions.src (Expected.gapEdit 15 16 2) =
  Samples.source ["function f() {}"; ""; ""; "function g() {}"].
Proof.
  assert (Hanchors :
    Forall (fun p =>
              exists anchor first,
                getLastToken Samples.Functions.sourceCode (fst p)
                  = Some anchor /\
                Expected.previousAnchor Samples.Functions.sourceCode (snd p)
                  = Some anchor /\
                getFirstToken Samples.Functions.sourceCode (snd p)
                  = Some first /\
                fst (range first) = fst (range (snd p)))
      (Expected.adjacentPairs [Samples.Functions.f; Samples.Functions.g])).
  { constructor; [|constructor].
    exists (tokenAt Samples.Functions.src "Punctuator" 14 15),
      (tokenAt Samples.Functions.src "Keyword" 16 24).
    repeat split. }
  split; [discriminate|]. split.
  - rewrite (proj1 (root_padding_between_adjacent_siblings
                      Samples.Functions.sourceCode BlockPadding.noOptions
                      [Samples.Functions.f; Samples.Functions.g]
                      ltac:(discriminate) Hanchors)).
    reflexivity.
  - reflexivity.
Defined.
